(** * The md write-intent bitmap (bitmap.c): counters, page slots, storage bits

    A shallow embedding of the counter engine of [bitmap.c]: the page-slot
    table with its hijack fallback, [bitmap_get_counter], the write /
    endwrite / daemon transitions of a chunk counter, the file bits and page
    attributes, the kick path and the counter part of [bitmap_resize].

    Conventions.
    - C integers are kept in [Z]; every store into a fixed-width object
      applies the wrap of its type ([u16] for [bitmap_counter_t],
      [sector_t] and [ulong] for 64-bit quantities).
    - The spinlock [counts.lock] protects every function modelled here;
      the model is the sequential behaviour of one lock holder.
    - What the environment decides (the result of [kzalloc], the result
      of a page transfer) is an explicit input: a script of outcomes that
      the functions consume from the left. *)

From Stdlib Require Import ZArith Lia Bool List.
From stdpp Require Import gmap list.
Import ListNotations.
Local Open Scope Z_scope.

(** ** Constants and macros of bitmap.h *)

Module Consts.

(** Modelled from the spec: [bitmap.h] is not among the sources.  The spec
    gives a 16-bit counter whose low 14 bits count writes
    ([COUNTER(x) = x & 0x3FFF]), [NEEDED = 0x8000], [RESYNC = 0x4000], a
    nominal page of 4096 bytes and [PAGE_COUNTER_RATIO = PAGE_SIZE /
    sizeof(counter)].  For [COUNTER_MAX] the source itself is explicit:
    [bitmap_read_sb] rejects [write_behind > COUNTER_MAX] with the message
    "write-behind limit out of range (0 - 16383)", so [COUNTER_MAX] is
    16383, the whole count field. *)
Definition PAGE_SHIFT : Z := 12.
Definition PAGE_SIZE : Z := Z.shiftl 1 PAGE_SHIFT.
Definition PAGE_BITS : Z := PAGE_SIZE * 8.
Definition PAGE_BIT_SHIFT : Z := PAGE_SHIFT + 3.

Definition COUNTER_BITS : Z := 16.
Definition COUNTER_BIT_SHIFT : Z := 4.
Definition COUNTER_BYTE_SHIFT : Z := COUNTER_BIT_SHIFT - 3.

Definition NEEDED_MASK : Z := Z.shiftl 1 (COUNTER_BITS - 1).
Definition RESYNC_MASK : Z := Z.shiftl 1 (COUNTER_BITS - 2).
Definition COUNTER_MAX : Z := RESYNC_MASK - 1.

Definition PAGE_COUNTER_RATIO : Z := PAGE_BITS / COUNTER_BITS.
Definition PAGE_COUNTER_SHIFT : Z := PAGE_BIT_SHIFT - COUNTER_BIT_SHIFT.
Definition PAGE_COUNTER_MASK : Z := PAGE_COUNTER_RATIO - 1.

Definition BITMAP_BLOCK_SHIFT : Z := 9.

(** [sizeof(bitmap_super_t)]: [bitmap_create] has
    [BUILD_BUG_ON(sizeof(bitmap_super_t) != 256)]. *)
Definition SIZEOF_SB : Z := 256.

Definition EINVAL : Z := 22.
Definition ENOENT : Z := 2.
Definition ENOMEM : Z := 12.
Definition EIO : Z := 5.

End Consts.
Import Consts.

(** Wrap of a store into a [bitmap_counter_t] ([__u16]). *)
Definition u16 (x : Z) : Z := x mod 65536.

(** Wrap of [sector_t] and [unsigned long] arithmetic (64 bits). *)
Definition sector_t (x : Z) : Z := x mod 2 ^ 64.
Definition ulong (x : Z) : Z := x mod 2 ^ 64.

(** Wrap of [int] and [atomic_t] arithmetic (32 bits, two's complement),
    and of [long] and [loff_t] arithmetic (64 bits, two's complement). *)
Definition int_t (x : Z) : Z := (x + 2 ^ 31) mod 2 ^ 32 - 2 ^ 31.
Definition long_t (x : Z) : Z := (x + 2 ^ 63) mod 2 ^ 64 - 2 ^ 63.

Definition NEEDED (x : Z) : Z := Z.land (u16 x) NEEDED_MASK.
Definition RESYNC (x : Z) : Z := Z.land (u16 x) RESYNC_MASK.
Definition COUNTER (x : Z) : Z := Z.land (u16 x) COUNTER_MAX.

(** ** The page-slot table ([struct bitmap_page], [struct bitmap_counts]) *)

(** The [map] member is a [char *] that the code uses in two ways: as the
    pointer to a counter page, and, for a hijacked slot, as the storage of
    two inline counters reached through
    [((bitmap_counter_t * )&bp[page].map)[hi]].  The model keeps what the
    code can observe of the member: either raw bits, given by the first
    two 16-bit halves of its memory image (the remaining bytes are zero:
    the code only ever stores NULL or writes the two halves), or a pointer
    to a live counter page, identified with the contents of that page,
    keyed by the byte offset [pageoff] of a counter. *)
Inductive map_t : Type :=
  | MapRaw (c0 c1 : Z)
  | MapPage (cells : gmap Z Z).

Definition NULL : map_t := MapRaw 0 0.

(** [map == NULL]. *)
Definition map_is_null (m : map_t) : bool :=
  match m with
  | MapRaw c0 c1 => (c0 =? 0) && (c1 =? 0)
  | MapPage _ => false
  end.

(** [count] is an unsigned bit-field whose width is fixed in bitmap.h; the
    model keeps it in [Z], where a negative value stands for the wrapped
    one (the code only adds [+1] or [-1] and tests it against zero). *)
Record bitmap_page : Type := mk_page {
  bp_map : map_t;
  bp_hijacked : bool;
  bp_pending : bool;
  bp_count : Z
}.

Definition zero_page : bitmap_page :=
  {| bp_map := NULL; bp_hijacked := false; bp_pending := false; bp_count := 0 |}.

Record bitmap_counts : Type := mk_counts {
  bp : list bitmap_page;
  pages : Z;
  missing_pages : Z;
  chunkshift : Z;
  chunks : Z
}.

(** [bitmap->bp[page]].  A read past the table has no meaning in C; the
    model reads an all-zero slot there. *)
Definition slot (bitmap : bitmap_counts) (page : Z) : bitmap_page :=
  default zero_page (bp bitmap !! Z.to_nat page).

Definition set_slot (bitmap : bitmap_counts) (page : Z) (s : bitmap_page)
  : bitmap_counts :=
  {| bp := <[Z.to_nat page := s]> (bp bitmap);
     pages := pages bitmap;
     missing_pages := missing_pages bitmap;
     chunkshift := chunkshift bitmap;
     chunks := chunks bitmap |}.

Definition set_missing_pages (bitmap : bitmap_counts) (n : Z) : bitmap_counts :=
  {| bp := bp bitmap;
     pages := pages bitmap;
     missing_pages := n;
     chunkshift := chunkshift bitmap;
     chunks := chunks bitmap |}.

Definition with_map (s : bitmap_page) (m : map_t) : bitmap_page :=
  {| bp_map := m; bp_hijacked := bp_hijacked s;
     bp_pending := bp_pending s; bp_count := bp_count s |}.

Definition with_hijacked (s : bitmap_page) (h : bool) : bitmap_page :=
  {| bp_map := bp_map s; bp_hijacked := h;
     bp_pending := bp_pending s; bp_count := bp_count s |}.

Definition with_pending (s : bitmap_page) (p : bool) : bitmap_page :=
  {| bp_map := bp_map s; bp_hijacked := bp_hijacked s;
     bp_pending := p; bp_count := bp_count s |}.

Definition with_count (s : bitmap_page) (n : Z) : bitmap_page :=
  {| bp_map := bp_map s; bp_hijacked := bp_hijacked s;
     bp_pending := bp_pending s; bp_count := n |}.

(** [kzalloc(PAGE_SIZE, GFP_NOIO)]: the next outcome of the script says
    whether memory is available; an exhausted script always has memory.
    A page obtained is zero-filled. *)
Definition kzalloc (kz : list bool) : option (gmap Z Z) * list bool :=
  match kz with
  | [] => (Some ∅, [])
  | true :: kz' => (Some ∅, kz')
  | false :: kz' => (None, kz')
  end.

(** [bitmap_checkpage] (bitmap.c:48).  Returns the error code, the table and
    the rest of the allocation script.  The lock is dropped around
    [kzalloc]; in the sequential model nothing moves meanwhile, and the
    tests that follow are kept as the code has them. *)
Definition bitmap_checkpage (bitmap : bitmap_counts) (page : Z) (create : bool)
    (kz : list bool) : Z * bitmap_counts * list bool :=
  if pages bitmap <=? page then (- EINVAL, bitmap, kz)
  else if bp_hijacked (slot bitmap page) then (0, bitmap, kz)
  else if negb (map_is_null (bp_map (slot bitmap page))) then (0, bitmap, kz)
  else if negb create then (- ENOENT, bitmap, kz)
  else
    let '(mappage, kz') := kzalloc kz in
    match mappage with
    | None =>
        if map_is_null (bp_map (slot bitmap page))
        then (0, set_slot bitmap page (with_hijacked (slot bitmap page) true), kz')
        else (0, bitmap, kz')
    | Some cells =>
        if negb (map_is_null (bp_map (slot bitmap page)))
           || bp_hijacked (slot bitmap page)
        then (0, bitmap, kz')
        else
          (0,
           set_missing_pages
             (set_slot bitmap page (with_map (slot bitmap page) (MapPage cells)))
             (ulong (missing_pages bitmap - 1)),
           kz')
    end.

(** [bitmap_checkfree] (bitmap.c:102). *)
Definition bitmap_checkfree (bitmap : bitmap_counts) (page : Z) : bitmap_counts :=
  if negb (bp_count (slot bitmap page) =? 0) then bitmap
  else if bp_hijacked (slot bitmap page) then
    set_slot bitmap page (with_map (with_hijacked (slot bitmap page) false) NULL)
  else
    set_missing_pages
      (set_slot bitmap page (with_map (slot bitmap page) NULL))
      (ulong (missing_pages bitmap + 1)).

(** [bitmap_count_page] (bitmap.c:1144). *)
Definition bitmap_count_page (bitmap : bitmap_counts) (offset : Z) (inc : Z)
  : bitmap_counts :=
  let chunk := Z.shiftr offset (chunkshift bitmap) in
  let page := Z.shiftr chunk PAGE_COUNTER_SHIFT in
  bitmap_checkfree
    (set_slot bitmap page
       (with_count (slot bitmap page) (bp_count (slot bitmap page) + inc)))
    page.

(** [bitmap_set_pending] (bitmap.c:1153). *)
Definition bitmap_set_pending (bitmap : bitmap_counts) (offset : Z)
  : bitmap_counts :=
  let chunk := Z.shiftr offset (chunkshift bitmap) in
  let page := Z.shiftr chunk PAGE_COUNTER_SHIFT in
  if negb (bp_pending (slot bitmap page))
  then set_slot bitmap page (with_pending (slot bitmap page) true)
  else bitmap.

(** The [bitmap_counter_t *] that [bitmap_get_counter] returns: one of the
    two inline halves of a hijacked slot, or the counter at byte offset
    [pageoff] of the slot's page. *)
Inductive cell : Type :=
  | InlineCell (page : Z) (hi : bool)
  | PageCell (page : Z) (pageoff : Z).

Definition cell_page (bmc : cell) : Z :=
  match bmc with
  | InlineCell page _ => page
  | PageCell page _ => page
  end.

(** [*bmc].  Reading an inline half of a member that holds a page
    pointer, or a page counter through a member that holds none, has no
    meaning in C; the model reads 0. *)
Definition read_map (m : map_t) (bmc : cell) : Z :=
  match bmc, m with
  | InlineCell _ false, MapRaw c0 _ => u16 c0
  | InlineCell _ true, MapRaw _ c1 => u16 c1
  | PageCell _ pageoff, MapPage cells => u16 (default 0 (cells !! pageoff))
  | _, _ => 0
  end.

Definition read_counter (bitmap : bitmap_counts) (bmc : cell) : Z :=
  read_map (bp_map (slot bitmap (cell_page bmc))) bmc.

(** [*bmc = v].  The two meaningless stores are dropped. *)
Definition write_map (m : map_t) (bmc : cell) (v : Z) : map_t :=
  match bmc, m with
  | InlineCell _ false, MapRaw _ c1 => MapRaw (u16 v) c1
  | InlineCell _ true, MapRaw c0 _ => MapRaw c0 (u16 v)
  | PageCell _ pageoff, MapPage cells => MapPage (<[pageoff := u16 v]> cells)
  | _, _ => m
  end.

Definition write_counter (bitmap : bitmap_counts) (bmc : cell) (v : Z)
  : bitmap_counts :=
  let page := cell_page bmc in
  set_slot bitmap page
    (with_map (slot bitmap page) (write_map (bp_map (slot bitmap page)) bmc v)).

(** Result of [bitmap_get_counter]: the returned pointer ([None] is NULL),
    the value stored in [*blocks], the table and the rest of the script. *)
Record get_counter_result : Type := mk_gc {
  gc_bmc : option cell;
  gc_blocks : Z;
  gc_counts : bitmap_counts;
  gc_kz : list bool
}.

(** The [csize] that [bitmap_get_counter] computes for a slot. *)
Definition get_counter_csize (shift : Z) (s : bitmap_page) : Z :=
  if bp_hijacked s || map_is_null (bp_map s)
  then sector_t (Z.shiftl 1 (shift + PAGE_COUNTER_SHIFT - 1))
  else sector_t (Z.shiftl 1 shift).

(** [bitmap_get_counter] (bitmap.c:1294). *)
Definition bitmap_get_counter (bitmap : bitmap_counts) (offset : Z)
    (create : bool) (kz : list bool) : get_counter_result :=
  let chunk := Z.shiftr offset (chunkshift bitmap) in
  let page := Z.shiftr chunk PAGE_COUNTER_SHIFT in
  let pageoff := Z.shiftl (Z.land chunk PAGE_COUNTER_MASK) COUNTER_BYTE_SHIFT in
  let '(err, bitmap', kz') := bitmap_checkpage bitmap page create kz in
  let csize := get_counter_csize (chunkshift bitmap') (slot bitmap' page) in
  let blocks := sector_t (csize - Z.land offset (sector_t (csize - 1))) in
  if err <? 0 then
    {| gc_bmc := None; gc_blocks := blocks; gc_counts := bitmap'; gc_kz := kz' |}
  else if bp_hijacked (slot bitmap' page) then
    let hi := PAGE_COUNTER_MASK <? pageoff in
    {| gc_bmc := Some (InlineCell page hi); gc_blocks := blocks;
       gc_counts := bitmap'; gc_kz := kz' |}
  else
    {| gc_bmc := Some (PageCell page pageoff); gc_blocks := blocks;
       gc_counts := bitmap'; gc_kz := kz' |}.

(** ** The bitmap object: flags, storage image, environment *)

(** [enum bitmap_state]: the bits of [bitmap->flags] (and of the
    superblock's [state] word) that the file uses.  The word is kept as one
    boolean per bit. *)
Inductive bitmap_state : Type :=
  | BITMAP_STALE
  | BITMAP_WRITE_ERROR
  | BITMAP_HOSTENDIAN.

Record flag_word : Type := mk_flags {
  fl_stale : bool;
  fl_write_error : bool;
  fl_hostendian : bool
}.

Definition no_flags : flag_word :=
  {| fl_stale := false; fl_write_error := false; fl_hostendian := false |}.

Definition test_flag (nr : bitmap_state) (w : flag_word) : bool :=
  match nr with
  | BITMAP_STALE => fl_stale w
  | BITMAP_WRITE_ERROR => fl_write_error w
  | BITMAP_HOSTENDIAN => fl_hostendian w
  end.

Definition set_flag (nr : bitmap_state) (w : flag_word) : flag_word :=
  match nr with
  | BITMAP_STALE => mk_flags true (fl_write_error w) (fl_hostendian w)
  | BITMAP_WRITE_ERROR => mk_flags (fl_stale w) true (fl_hostendian w)
  | BITMAP_HOSTENDIAN => mk_flags (fl_stale w) (fl_write_error w) true
  end.

Definition clear_flag (nr : bitmap_state) (w : flag_word) : flag_word :=
  match nr with
  | BITMAP_STALE => mk_flags false (fl_write_error w) (fl_hostendian w)
  | BITMAP_WRITE_ERROR => mk_flags (fl_stale w) false (fl_hostendian w)
  | BITMAP_HOSTENDIAN => mk_flags (fl_stale w) (fl_write_error w) false
  end.

(** [enum bitmap_page_attr] (bitmap.c:865). *)
Definition BITMAP_PAGE_DIRTY : Z := 0.
Definition BITMAP_PAGE_PENDING : Z := 1.
Definition BITMAP_PAGE_NEEDWRITE : Z := 2.

(** The fields of [bitmap_super_t] that the functions below read back or
    test: the event counters and the state word.  The tunables that
    [bitmap_update_sb] copies next to them (daemon_sleep, write_behind,
    sync_size, chunksize, nodes, sectors_reserved) take no part in any
    function modelled here. *)
Record bitmap_super_t : Type := mk_sb {
  sb_events : Z;
  sb_events_cleared : Z;
  sb_state : flag_word
}.

Definition zero_sb : bitmap_super_t :=
  {| sb_events := 0; sb_events_cleared := 0; sb_state := no_flags |}.

(** A [struct page] of the file map: its [index] and its bit array, bit
    [nr] of the array (in the numbering of [set_bit]) being bit [nr] of
    [pg_data].  When the storage has a superblock it occupies the first
    [SIZEOF_SB] bytes of page 0; its fields are kept aside in [sb]. *)
Record page_t : Type := mk_pg {
  pg_index : Z;
  pg_data : Z
}.

(** [struct bitmap_storage].  [sb_page] says whether the pointer is set;
    when it is, the page is [filemap[0]] ([bitmap_storage_alloc]). *)
Record bitmap_storage : Type := mk_storage {
  st_file : bool;
  sb_page : bool;
  sb : bitmap_super_t;
  filemap : option (list page_t);
  filemap_attr : Z;
  file_pages : Z;
  st_bytes : Z
}.

Definition zero_storage : bitmap_storage :=
  {| st_file := false; sb_page := false; sb := zero_sb; filemap := None;
     filemap_attr := 0; file_pages := 0; st_bytes := 0 |}.

(** A member device ([struct md_rdev]) as [next_active_rdev] and
    [write_sb_page] read it.  A block device is known to them by its
    logical block size. *)
Record md_rdev : Type := mk_rdev {
  rd_raid_disk : Z;
  rd_faulty : bool;
  rd_sb_start : Z;
  rd_data_offset : Z;
  rd_meta_bdev : option Z;
  rd_bdev : Z
}.

(** The members of [struct mddev] (and of its [bitmap_info]) read or
    written by the functions below.  [md_external] is
    [bitmap_info.external], [md_mddev_external] is [mddev->external];
    [md_offset] is the signed [bitmap_info.offset]; [md_disks] is the
    list [mddev->disks]. *)
Record mddev_t : Type := mk_mddev {
  md_events : Z;
  md_degraded : Z;
  md_external : bool;
  md_offset : Z;
  md_file : bool;
  md_space : Z;
  md_chunksize : Z;
  md_daemon_sleep : Z;
  md_thread_timeout : Z;
  md_recovery_cp : Z;
  md_mddev_external : bool;
  md_dev_sectors : Z;
  md_disks : list md_rdev
}.

(** What leaves the bitmap: a page handed to the transport (with the
    superblock fields when it is page 0 of an image that has one), once
    for every [md_super_write] or [submit_bh] of it, a
    [wake_up] on one of the wait queues, a writer parked on the overflow
    queue, the sysfs notification of [can_clear]. *)
Inductive wait_queue : Type := write_wait | overflow_wait | behind_wait.

Inductive event : Type :=
  | EvWritePage (index : Z) (data : Z) (super : option bitmap_super_t)
  | EvWake (q : wait_queue)
  | EvSleep (q : wait_queue)
  | EvNotifyCanClear.

(** [struct bitmap], followed by the environment of the model: the
    outcomes still to come from [kzalloc], from [md_lock_super] and from
    the transport of a file-backed image, the completions not yet
    delivered to
    [end_bitmap_write], and the log of what left the bitmap (most recent
    first). *)
Record bitmap : Type := mk_bitmap {
  counts : bitmap_counts;
  storage : bitmap_storage;
  flags : flag_word;
  allclean : bool;
  need_sync : bool;
  events_cleared : Z;
  behind_writes : Z;
  behind_writes_used : Z;
  daemon_lastrun : Z;
  mddev : mddev_t;
  kz_script : list bool;
  lock_script : list Z;
  io_script : list Z;
  inflight : list bool;
  log : list event
}.

Definition set_counts (b : bitmap) (c : bitmap_counts) : bitmap :=
  mk_bitmap c (storage b) (flags b) (allclean b) (need_sync b)
    (events_cleared b) (behind_writes b) (behind_writes_used b)
    (daemon_lastrun b) (mddev b) (kz_script b) (lock_script b)
    (io_script b) (inflight b) (log b).

Definition set_storage (b : bitmap) (s : bitmap_storage) : bitmap :=
  mk_bitmap (counts b) s (flags b) (allclean b) (need_sync b)
    (events_cleared b) (behind_writes b) (behind_writes_used b)
    (daemon_lastrun b) (mddev b) (kz_script b) (lock_script b)
    (io_script b) (inflight b) (log b).

Definition set_flags (b : bitmap) (f : flag_word) : bitmap :=
  mk_bitmap (counts b) (storage b) f (allclean b) (need_sync b)
    (events_cleared b) (behind_writes b) (behind_writes_used b)
    (daemon_lastrun b) (mddev b) (kz_script b) (lock_script b)
    (io_script b) (inflight b) (log b).

Definition set_allclean (b : bitmap) (v : bool) : bitmap :=
  mk_bitmap (counts b) (storage b) (flags b) v (need_sync b)
    (events_cleared b) (behind_writes b) (behind_writes_used b)
    (daemon_lastrun b) (mddev b) (kz_script b) (lock_script b)
    (io_script b) (inflight b) (log b).

Definition set_need_sync (b : bitmap) (v : bool) : bitmap :=
  mk_bitmap (counts b) (storage b) (flags b) (allclean b) v
    (events_cleared b) (behind_writes b) (behind_writes_used b)
    (daemon_lastrun b) (mddev b) (kz_script b) (lock_script b)
    (io_script b) (inflight b) (log b).

Definition set_events_cleared (b : bitmap) (v : Z) : bitmap :=
  mk_bitmap (counts b) (storage b) (flags b) (allclean b) (need_sync b)
    v (behind_writes b) (behind_writes_used b)
    (daemon_lastrun b) (mddev b) (kz_script b) (lock_script b)
    (io_script b) (inflight b) (log b).

Definition set_behind (b : bitmap) (bw used : Z) : bitmap :=
  mk_bitmap (counts b) (storage b) (flags b) (allclean b) (need_sync b)
    (events_cleared b) bw used
    (daemon_lastrun b) (mddev b) (kz_script b) (lock_script b)
    (io_script b) (inflight b) (log b).

Definition set_daemon_lastrun (b : bitmap) (v : Z) : bitmap :=
  mk_bitmap (counts b) (storage b) (flags b) (allclean b) (need_sync b)
    (events_cleared b) (behind_writes b) (behind_writes_used b)
    v (mddev b) (kz_script b) (lock_script b)
    (io_script b) (inflight b) (log b).

Definition set_mddev (b : bitmap) (m : mddev_t) : bitmap :=
  mk_bitmap (counts b) (storage b) (flags b) (allclean b) (need_sync b)
    (events_cleared b) (behind_writes b) (behind_writes_used b)
    (daemon_lastrun b) m (kz_script b) (lock_script b)
    (io_script b) (inflight b) (log b).

Definition set_kz_script (b : bitmap) (kz : list bool) : bitmap :=
  mk_bitmap (counts b) (storage b) (flags b) (allclean b) (need_sync b)
    (events_cleared b) (behind_writes b) (behind_writes_used b)
    (daemon_lastrun b) (mddev b) kz (lock_script b)
    (io_script b) (inflight b) (log b).

Definition set_lock_script (b : bitmap) (l : list Z) : bitmap :=
  mk_bitmap (counts b) (storage b) (flags b) (allclean b) (need_sync b)
    (events_cleared b) (behind_writes b) (behind_writes_used b)
    (daemon_lastrun b) (mddev b) (kz_script b) l
    (io_script b) (inflight b) (log b).

Definition set_io_script (b : bitmap) (l : list Z) : bitmap :=
  mk_bitmap (counts b) (storage b) (flags b) (allclean b) (need_sync b)
    (events_cleared b) (behind_writes b) (behind_writes_used b)
    (daemon_lastrun b) (mddev b) (kz_script b) (lock_script b)
    l (inflight b) (log b).

Definition set_inflight (b : bitmap) (l : list bool) : bitmap :=
  mk_bitmap (counts b) (storage b) (flags b) (allclean b) (need_sync b)
    (events_cleared b) (behind_writes b) (behind_writes_used b)
    (daemon_lastrun b) (mddev b) (kz_script b) (lock_script b)
    (io_script b) l (log b).

Definition emit (b : bitmap) (e : event) : bitmap :=
  mk_bitmap (counts b) (storage b) (flags b) (allclean b) (need_sync b)
    (events_cleared b) (behind_writes b) (behind_writes_used b)
    (daemon_lastrun b) (mddev b) (kz_script b) (lock_script b)
    (io_script b) (inflight b) (e :: log b).

Definition set_sb (s : bitmap_storage) (v : bitmap_super_t) : bitmap_storage :=
  mk_storage (st_file s) (sb_page s) v (filemap s) (filemap_attr s)
    (file_pages s) (st_bytes s).

Definition set_filemap (s : bitmap_storage) (fm : option (list page_t))
  : bitmap_storage :=
  mk_storage (st_file s) (sb_page s) (sb s) fm (filemap_attr s)
    (file_pages s) (st_bytes s).

Definition set_filemap_attr (s : bitmap_storage) (a : Z) : bitmap_storage :=
  mk_storage (st_file s) (sb_page s) (sb s) (filemap s) a
    (file_pages s) (st_bytes s).

(** ** File bits and page attributes *)

(** [file_page_index] (bitmap.c:723). *)
Definition file_page_index (store : bitmap_storage) (chunk : Z) : Z :=
  let chunk := if sb_page store then ulong (chunk + Z.shiftl SIZEOF_SB 3)
               else chunk in
  Z.shiftr chunk PAGE_BIT_SHIFT.

(** [file_page_offset] (bitmap.c:732). *)
Definition file_page_offset (store : bitmap_storage) (chunk : Z) : Z :=
  let chunk := if sb_page store then ulong (chunk + Z.shiftl SIZEOF_SB 3)
               else chunk in
  Z.land chunk (PAGE_BITS - 1).

(** [filemap_get_page] (bitmap.c:747): the position in [filemap] of the
    page returned, [None] for NULL. *)
Definition filemap_get_page (store : bitmap_storage) (chunk : Z) : option Z :=
  if file_pages store <=? file_page_index store chunk then None
  else Some (file_page_index store chunk - file_page_index store 0).

(** [store->filemap[k]]. *)
Definition filemap_page (store : bitmap_storage) (k : Z) : option page_t :=
  match filemap store with
  | None => None
  | Some fm => fm !! Z.to_nat k
  end.

Definition set_filemap_page (store : bitmap_storage) (k : Z) (pg : page_t)
  : bitmap_storage :=
  match filemap store with
  | None => store
  | Some fm => set_filemap store (Some (<[Z.to_nat k := pg]> fm))
  end.

(** The bit operations of the kernel on a bit array.  The [_le] forms
    address the array in little-endian order whatever the host; the model
    is a little-endian host, where the swizzle is 0 (it is
    [(BITS_PER_LONG - 1) & ~7] on a big-endian one). *)
Definition BITOP_LE_SWIZZLE : Z := 0.
Definition set_bit (nr : Z) (a : Z) : Z := Z.setbit a nr.
Definition clear_bit (nr : Z) (a : Z) : Z := Z.clearbit a nr.
Definition test_bit (nr : Z) (a : Z) : bool := Z.testbit a nr.
Definition set_bit_le (nr : Z) (a : Z) : Z := set_bit (Z.lxor nr BITOP_LE_SWIZZLE) a.
Definition clear_bit_le (nr : Z) (a : Z) : Z := clear_bit (Z.lxor nr BITOP_LE_SWIZZLE) a.
Definition test_bit_le (nr : Z) (a : Z) : bool := test_bit (Z.lxor nr BITOP_LE_SWIZZLE) a.

(** [set_page_attr], [clear_page_attr], [test_page_attr],
    [test_and_clear_page_attr] (bitmap.c:872-895). *)
Definition set_page_attr (b : bitmap) (pnum attr : Z) : bitmap :=
  set_storage b
    (set_filemap_attr (storage b)
       (set_bit (Z.shiftl pnum 2 + attr) (filemap_attr (storage b)))).

Definition clear_page_attr (b : bitmap) (pnum attr : Z) : bitmap :=
  set_storage b
    (set_filemap_attr (storage b)
       (clear_bit (Z.shiftl pnum 2 + attr) (filemap_attr (storage b)))).

Definition test_page_attr (b : bitmap) (pnum attr : Z) : bool :=
  test_bit (Z.shiftl pnum 2 + attr) (filemap_attr (storage b)).

Definition test_and_clear_page_attr (b : bitmap) (pnum attr : Z)
  : bool * bitmap :=
  (test_page_attr b pnum attr, clear_page_attr b pnum attr).

(** [bitmap_file_set_bit] (bitmap.c:903). *)
Definition bitmap_file_set_bit (b : bitmap) (block : Z) : bitmap :=
  let chunk := Z.shiftr block (chunkshift (counts b)) in
  match filemap_get_page (storage b) chunk with
  | None => b
  | Some k =>
      match filemap_page (storage b) k with
      | None => b
      | Some page =>
          let bit := file_page_offset (storage b) chunk in
          let data :=
            if test_flag BITMAP_HOSTENDIAN (flags b)
            then set_bit bit (pg_data page)
            else set_bit_le bit (pg_data page) in
          let b1 :=
            set_storage b
              (set_filemap_page (storage b) k (mk_pg (pg_index page) data)) in
          set_page_attr b1 (pg_index page) BITMAP_PAGE_DIRTY
      end
  end.

(** [bitmap_file_clear_bit] (bitmap.c:927). *)
Definition bitmap_file_clear_bit (b : bitmap) (block : Z) : bitmap :=
  let chunk := Z.shiftr block (chunkshift (counts b)) in
  match filemap_get_page (storage b) chunk with
  | None => b
  | Some k =>
      match filemap_page (storage b) k with
      | None => b
      | Some page =>
          let bit := file_page_offset (storage b) chunk in
          let data :=
            if test_flag BITMAP_HOSTENDIAN (flags b)
            then clear_bit bit (pg_data page)
            else clear_bit_le bit (pg_data page) in
          let b1 :=
            set_storage b
              (set_filemap_page (storage b) k (mk_pg (pg_index page) data)) in
          if negb (test_page_attr b1 (pg_index page) BITMAP_PAGE_NEEDWRITE)
          then set_allclean
                 (set_page_attr b1 (pg_index page) BITMAP_PAGE_PENDING) false
          else b1
      end
  end.

(** The on-disk bit of a chunk as the image in memory has it (the test of
    [bitmap_init_from_disk], bitmap.c:1094); [false] when the image has no
    page for the chunk. *)
Definition file_test_bit (b : bitmap) (chunk : Z) : bool :=
  match filemap_get_page (storage b) chunk with
  | None => false
  | Some k =>
      match filemap_page (storage b) k with
      | None => false
      | Some page =>
          if test_flag BITMAP_HOSTENDIAN (flags b)
          then test_bit (file_page_offset (storage b) chunk) (pg_data page)
          else test_bit_le (file_page_offset (storage b) chunk) (pg_data page)
      end
  end.

(** ** Page transfers, the kick path, unplug *)

(** [md_lock_super] lives in md.c; its return value is the next outcome of
    the lock script (0 once the script is exhausted). *)
Definition md_lock_super (b : bitmap) : Z * bitmap :=
  match lock_script b with
  | [] => (0, b)
  | r :: l => (r, set_lock_script b l)
  end.

(** The completion status that the transport of a file-backed image
    gives the next buffer (0, success, once the script is exhausted). *)
Definition next_io (b : bitmap) : Z * bitmap :=
  match io_script b with
  | [] => (0, b)
  | r :: l => (r, set_io_script b l)
  end.

(** The image of [filemap[k]] as the transport receives it. *)
Definition page_image (b : bitmap) (k : Z) : event :=
  let pg := default (mk_pg k 0) (filemap_page (storage b) k) in
  EvWritePage (pg_index pg) (pg_data pg)
    (if sb_page (storage b) && (k =? 0) then Some (sb (storage b)) else None).

(** The members that the walk of [next_active_rdev] (bitmap.c:158)
    comes to: those that have a [raid_disk] and are not Faulty, in the
    order of [mddev->disks]. *)
Definition next_active_rdev (m : mddev_t) : list md_rdev :=
  List.filter (fun rdev => (0 <=? rd_raid_disk rdev) && negb (rd_faulty rdev))
    (md_disks m).

(** [roundup(x, y)]. *)
Definition roundup (x y : Z) : Z := (x + (y - 1)) / y * y.

(** [page->index] of [filemap[k]]. *)
Definition page_index (store : bitmap_storage) (k : Z) : Z :=
  pg_index (default (mk_pg k 0) (filemap_page store k)).

(** The [size] that [write_sb_page] gives the transfer of the page
    numbered [index] to [rdev] (bitmap.c:199-211): the last page of the
    image is cut to its bytes, rounded up to the block size of the
    device. *)
Definition sb_write_size (store : bitmap_storage) (rdev : md_rdev) (index : Z)
  : Z :=
  let bdev := match rd_meta_bdev rdev with
              | Some meta_bdev => meta_bdev
              | None => rd_bdev rdev
              end in
  if index =? ulong (file_pages store - 1) then
    let last_page_size := Z.land (st_bytes store) (PAGE_SIZE - 1) in
    roundup (if last_page_size =? 0 then PAGE_SIZE else last_page_size) bdev
  else PAGE_SIZE.

(** The tests of [write_sb_page] that lead to [bad_alignment]
    (bitmap.c:215-245).  Sums that involve a [sector_t] are unsigned;
    the test on a negative [offset] is made in signed arithmetic. *)
Definition bad_alignment (m : mddev_t) (store : bitmap_storage)
    (rdev : md_rdev) (index : Z) : bool :=
  let offset := md_offset m in
  let size := sb_write_size store rdev index in
  if md_mddev_external m then
    (rd_data_offset rdev
     <? sector_t (rd_sb_start rdev + offset + index * (PAGE_SIZE / 512)))
    && (sector_t (rd_sb_start rdev + offset)
        <? sector_t (rd_data_offset rdev + md_dev_sectors m + PAGE_SIZE / 512))
  else if offset <? 0 then
    (0 <? long_t (offset + long_t (index * (PAGE_SIZE / 512)) + size / 512))
    || (sector_t (rd_sb_start rdev + offset)
        <? sector_t (rd_data_offset rdev + md_dev_sectors m))
  else if rd_sb_start rdev <? rd_data_offset rdev then
    rd_data_offset rdev
    <? sector_t (rd_sb_start rdev + offset + index * (PAGE_SIZE / 512)
                 + size / 512)
  else false.

(** The loop of [write_sb_page] over the members still to visit: the page
    is handed to each in turn with [md_super_write], until one fails the
    alignment tests. *)
Fixpoint write_sb_page_walk (b : bitmap) (rdevs : list md_rdev) (k : Z)
  : Z * bitmap :=
  match rdevs with
  | [] => (0, b)
  | rdev :: rest =>
      if bad_alignment (mddev b) (storage b) rdev (page_index (storage b) k)
      then (- EINVAL, b)
      else write_sb_page_walk (emit b (page_image b k)) rest k
  end.

(** [write_sb_page] (bitmap.c:189).  [md_super_wait] and
    [md_unlock_super] change nothing in the bitmap. *)
Definition write_sb_page (b : bitmap) (k : Z) (wait : bool) : Z * bitmap :=
  let '(ret, b1) := md_lock_super b in
  if negb (ret =? 0) then (ret, b1)
  else write_sb_page_walk b1 (next_active_rdev (mddev b1)) k.

(** [end_bitmap_write] (bitmap.c:299), run for the oldest buffer in
    flight. *)
Definition end_bitmap_write (b : bitmap) : bitmap :=
  match inflight b with
  | [] => b
  | uptodate :: rest =>
      let b1 := if negb uptodate
                then set_flags b (set_flag BITMAP_WRITE_ERROR (flags b))
                else b in
      let b2 := set_inflight b1 rest in
      match rest with
      | [] => emit b2 (EvWake write_wait)
      | _ => b2
      end
  end.

Fixpoint complete_writes (n : nat) (b : bitmap) : bitmap :=
  match n with
  | O => b
  | S n' => complete_writes n' (end_bitmap_write b)
  end.

(** [wait_event(bitmap->write_wait, pending_writes == 0)]: every buffer in
    flight completes. *)
Definition wait_pending_writes (b : bitmap) : bitmap :=
  complete_writes (length (inflight b)) b.

(** [write_page] (bitmap.c:270) up to its last test.  For a file-backed
    image the buffers of the page are submitted; the model has one buffer
    per page, whose completion status is the transport's outcome. *)
Definition write_page_io (b : bitmap) (k : Z) (wait : bool) : bitmap :=
  if negb (st_file (storage b)) then
    let '(ret, b1) := write_sb_page b k wait in
    if ret =? - EINVAL
    then set_flags b1 (set_flag BITMAP_WRITE_ERROR (flags b1))
    else b1
  else
    let '(r, b1) := next_io b in
    let b2 := set_inflight (emit b1 (page_image b1 k)) (inflight b1 ++ [r =? 0]) in
    if wait then wait_pending_writes b2 else b2.

(** [write_page], [bitmap_update_sb] (bitmap.c:407) and [bitmap_file_kick]
    (bitmap.c:840) call one another: a write that finds WRITE_ERROR kicks,
    the kick rewrites the superblock, which is a write.  The chain stops
    at the second kick, which finds STALE set; the functions are tied with
    a depth, 2 being enough (a deeper chain does the same).

    [bitmap_update_sb] is modelled for one node: the per-node event pages
    written after the superblock ([bitmap->used], [mddev->avail_bitmap])
    refer to members that this file does not define. *)
Definition write_page_with (kick : bitmap -> bitmap) (b : bitmap) (k : Z)
    (wait : bool) : bitmap :=
  let b1 := write_page_io b k wait in
  if test_flag BITMAP_WRITE_ERROR (flags b1) then kick b1 else b1.

Definition bitmap_update_sb_with (kick : bitmap -> bitmap) (b : bitmap) : bitmap :=
  if md_external (mddev b) then b
  else if negb (sb_page (storage b)) then b
  else
    let ec := if md_events (mddev b) <? events_cleared b
              then md_events (mddev b) else events_cleared b in
    let b1 := set_events_cleared b ec in
    let b2 := set_storage b1
                (set_sb (storage b1)
                   {| sb_events := md_events (mddev b1);
                      sb_events_cleared := ec;
                      sb_state := flags b1 |}) in
    let '(ret, b3) := md_lock_super b2 in
    if negb (ret =? 0) then b3
    else write_page_with kick b3 0 true.

Fixpoint bitmap_file_kick_fuel (n : nat) (b : bitmap) : bitmap :=
  match n with
  | O => b
  | S n' =>
      if test_flag BITMAP_STALE (flags b) then b
      else bitmap_update_sb_with (bitmap_file_kick_fuel n')
             (set_flags b (set_flag BITMAP_STALE (flags b)))
  end.

Definition bitmap_file_kick : bitmap -> bitmap := bitmap_file_kick_fuel 2.
Definition write_page : bitmap -> Z -> bool -> bitmap :=
  write_page_with bitmap_file_kick.
Definition bitmap_update_sb : bitmap -> bitmap :=
  bitmap_update_sb_with bitmap_file_kick.

(** The loop of [bitmap_unplug] over the pages [i .. i + n): [inl] when
    the loop left through its inner [return] (no file map), [inr] with the
    [wait] flag when it ran through. *)
Fixpoint unplug_pages (n : nat) (b : bitmap) (i : Z) (wait : bool)
  : bitmap + bitmap * bool :=
  match n with
  | O => inr (b, wait)
  | S n' =>
      match filemap (storage b) with
      | None => inl b
      | Some _ =>
          let '(dirty, b1) := test_and_clear_page_attr b i BITMAP_PAGE_DIRTY in
          let '(need_write, b2) :=
            test_and_clear_page_attr b1 i BITMAP_PAGE_NEEDWRITE in
          let b3 := if dirty || need_write
                    then write_page (clear_page_attr b2 i BITMAP_PAGE_PENDING) i false
                    else b2 in
          unplug_pages n' b3 (i + 1) (wait || dirty)
      end
  end.

(** [bitmap_unplug] (bitmap.c:953).  [md_super_wait], the wait of a
    device-embedded image, changes nothing in the bitmap. *)
Definition bitmap_unplug (b : bitmap) : bitmap :=
  match filemap (storage b) with
  | None => b
  | Some _ =>
      if test_flag BITMAP_STALE (flags b) then b
      else
        match unplug_pages (Z.to_nat (file_pages (storage b))) b 0 false with
        | inl b1 => b1
        | inr (b1, wait) =>
            let b2 := if wait && st_file (storage b1)
                      then wait_pending_writes b1 else b1 in
            if test_flag BITMAP_WRITE_ERROR (flags b2)
            then bitmap_file_kick b2 else b2
        end
  end.

(** ** The write path: [bitmap_startwrite], [bitmap_endwrite] *)

(** How one pass of a loop over a sector range ends: the counter pointer
    was NULL (the function returns), the writer parked on the overflow
    queue, or the pass finished and reported [blocks]. *)
Inductive step_outcome : Type :=
  | StepNull
  | StepWait
  | StepNext (blocks : Z).

(** [bitmap_get_counter] on the table of the bitmap, with the allocation
    script of the environment. *)
Definition get_counter (b : bitmap) (offset : Z) (create : bool)
  : get_counter_result :=
  bitmap_get_counter (counts b) offset create (kz_script b).

Definition after_get_counter (b : bitmap) (r : get_counter_result) : bitmap :=
  set_kz_script (set_counts b (gc_counts r)) (gc_kz r).

Definition store_counter (b : bitmap) (bmc : cell) (v : Z) : bitmap :=
  set_counts b (write_counter (counts b) bmc v).

(** The body of the loop of [bitmap_startwrite] (bitmap.c:1353-1388). *)
Definition startwrite_step (b : bitmap) (offset : Z) : bitmap * step_outcome :=
  let r := get_counter b offset true in
  let b0 := after_get_counter b r in
  match gc_bmc r with
  | None => (b0, StepNull)
  | Some bmc =>
      if COUNTER (read_counter (counts b0) bmc) =? COUNTER_MAX
      then (emit b0 (EvSleep overflow_wait), StepWait)
      else
        let b1 :=
          if read_counter (counts b0) bmc =? 0 then
            let b' := bitmap_file_set_bit b0 offset in
            let b'' := set_counts b' (bitmap_count_page (counts b') offset 1) in
            store_counter b'' bmc 2
          else if read_counter (counts b0) bmc =? 1 then
            store_counter b0 bmc 2
          else b0 in
        (store_counter b1 bmc (read_counter (counts b1) bmc + 1),
         StepNext (gc_blocks r))
  end.

(** How [bitmap_startwrite] ends: it returned, or it is parked on the
    overflow queue with [sectors] still to cover from [offset] (it goes
    round the loop again, from there, when it is woken). *)
Inductive startwrite_result : Type :=
  | SwDone
  | SwWait (offset sectors : Z).

(** The loop [while (sectors)] of [bitmap_startwrite]; [None] when the
    fuel runs out. *)
Fixpoint startwrite_loop (fuel : nat) (b : bitmap) (offset sectors : Z)
  : option (bitmap * startwrite_result) :=
  match fuel with
  | O => if sectors =? 0 then Some (b, SwDone) else None
  | S fuel' =>
      if sectors =? 0 then Some (b, SwDone)
      else
        match startwrite_step b offset with
        | (b', StepNull) => Some (b', SwDone)
        | (b', StepWait) => Some (b', SwWait offset sectors)
        | (b', StepNext blocks) =>
            startwrite_loop fuel' b' (sector_t (offset + blocks))
              (if blocks <? sectors then sectors - blocks else 0)
        end
  end.

(** [bitmap_startwrite] (bitmap.c:1336).  [behind_writes] is an
    [atomic_t], read into the [int bw]; [behind_writes_used] is an
    [unsigned long], so the comparison and the store convert [bw] to
    [unsigned long]. *)
Definition bitmap_startwrite (b : bitmap) (offset sectors : Z) (behind : bool)
  : option (bitmap * startwrite_result) :=
  let b1 :=
    if behind then
      let bw := int_t (behind_writes b + 1) in
      set_behind b bw (if behind_writes_used b <? ulong bw then ulong bw
                       else behind_writes_used b)
    else b in
  startwrite_loop (Z.to_nat sectors) b1 offset sectors.

(** The body of the loop of [bitmap_endwrite] (bitmap.c:1414-1448). *)
Definition endwrite_step (b : bitmap) (offset : Z) (success : bool)
  : bitmap * step_outcome :=
  let r := get_counter b offset false in
  let b0 := after_get_counter b r in
  match gc_bmc r with
  | None => (b0, StepNull)
  | Some bmc =>
      let b1 :=
        if success && (md_degraded (mddev b0) =? 0)
           && (events_cleared b0 <? md_events (mddev b0))
        then emit (set_need_sync
                     (set_events_cleared b0 (md_events (mddev b0))) true)
               EvNotifyCanClear
        else b0 in
      let b2 :=
        if negb success && (NEEDED (read_counter (counts b1) bmc) =? 0)
        then store_counter b1 bmc
               (Z.lor (read_counter (counts b1) bmc) NEEDED_MASK)
        else b1 in
      let b3 :=
        if COUNTER (read_counter (counts b2) bmc) =? COUNTER_MAX
        then emit b2 (EvWake overflow_wait) else b2 in
      let b4 := store_counter b3 bmc (read_counter (counts b3) bmc - 1) in
      let b5 :=
        if read_counter (counts b4) bmc <=? 2
        then set_allclean
               (set_counts b4 (bitmap_set_pending (counts b4) offset)) false
        else b4 in
      (b5, StepNext (gc_blocks r))
  end.

Fixpoint endwrite_loop (fuel : nat) (b : bitmap) (offset sectors : Z)
    (success : bool) : option bitmap :=
  match fuel with
  | O => if sectors =? 0 then Some b else None
  | S fuel' =>
      if sectors =? 0 then Some b
      else
        match endwrite_step b offset success with
        | (b', StepNext blocks) =>
            endwrite_loop fuel' b' (sector_t (offset + blocks))
              (if blocks <? sectors then sectors - blocks else 0) success
        | (b', _) => Some b'
        end
  end.

(** [bitmap_endwrite] (bitmap.c:1400). *)
Definition bitmap_endwrite (b : bitmap) (offset sectors : Z)
    (success behind : bool) : option bitmap :=
  let b1 :=
    if behind then
      let bw := int_t (behind_writes b - 1) in
      let b' := set_behind b bw (behind_writes_used b) in
      if bw =? 0 then emit b' (EvWake behind_wait) else b'
    else b in
  endwrite_loop (Z.to_nat sectors) b1 offset sectors success.

(** ** The daemon *)

(** What [bitmap_daemon_work] does with one counter (bitmap.c:1251-1260). *)
Definition daemon_visit (b : bitmap) (block : Z) (bmc : cell) : bitmap :=
  if (read_counter (counts b) bmc =? 1) && negb (need_sync b) then
    let b1 := store_counter b bmc 0 in
    let b2 := set_counts b1 (bitmap_count_page (counts b1) block (-1)) in
    bitmap_file_clear_bit b2 block
  else if negb (read_counter (counts b) bmc =? 0)
          && (read_counter (counts b) bmc <=? 2) then
    let b1 := store_counter b bmc 1 in
    let b2 := set_counts b1 (bitmap_set_pending (counts b1) block) in
    set_allclean b2 false
  else b.

(** The loop over the counters (bitmap.c:1231-1261), from chunk [j];
    [None] when the fuel runs out. *)
Fixpoint daemon_counters (fuel : nat) (b : bitmap) (j nextpage : Z)
  : option bitmap :=
  if chunks (counts b) <=? j then Some b
  else
    match fuel with
    | O => None
    | S fuel' =>
        let block := sector_t (Z.shiftl j (chunkshift (counts b))) in
        let page := Z.shiftr j PAGE_COUNTER_SHIFT in
        let fresh := j =? nextpage in
        let nextpage' := if fresh then ulong (nextpage + PAGE_COUNTER_RATIO)
                         else nextpage in
        if fresh && negb (bp_pending (slot (counts b) page)) then
          daemon_counters fuel' b (ulong (Z.lor j PAGE_COUNTER_MASK + 1)) nextpage'
        else
          let b1 :=
            if fresh
            then set_counts b
                   (set_slot (counts b) page
                      (with_pending (slot (counts b) page) false))
            else b in
          let r := get_counter b1 block false in
          let b2 := after_get_counter b1 r in
          match gc_bmc r with
          | None =>
              daemon_counters fuel' b2 (ulong (Z.lor j PAGE_COUNTER_MASK + 1))
                nextpage'
          | Some bmc =>
              daemon_counters fuel' (daemon_visit b2 block bmc) (ulong (j + 1))
                nextpage'
          end
    end.

(** The first loop of the daemon: PENDING becomes NEEDWRITE
    (bitmap.c:1204). *)
Fixpoint daemon_promote (n : nat) (b : bitmap) (j : Z) : bitmap :=
  match n with
  | O => b
  | S n' =>
      let '(p, b1) := test_and_clear_page_attr b j BITMAP_PAGE_PENDING in
      daemon_promote n'
        (if p then set_page_attr b1 j BITMAP_PAGE_NEEDWRITE else b1) (j + 1)
  end.

(** The last loop of the daemon: write out the pages in NEEDWRITE up to
    the first DIRTY one, as long as the image is not STALE
    (bitmap.c:1272). *)
Fixpoint daemon_writeout (n : nat) (b : bitmap) (j : Z) : bitmap :=
  match n with
  | O => b
  | S n' =>
      if test_flag BITMAP_STALE (flags b) then b
      else if test_page_attr b j BITMAP_PAGE_DIRTY then b
      else
        let '(nw, b1) := test_and_clear_page_attr b j BITMAP_PAGE_NEEDWRITE in
        daemon_writeout n' (if nw then write_page b1 j false else b1) (j + 1)
  end.

Definition MAX_SCHEDULE_TIMEOUT : Z := 2 ^ 63 - 1.

Definition set_thread_timeout (b : bitmap) (t : Z) : bitmap :=
  set_mddev b
    (mk_mddev (md_events (mddev b)) (md_degraded (mddev b))
       (md_external (mddev b)) (md_offset (mddev b)) (md_file (mddev b))
       (md_space (mddev b)) (md_chunksize (mddev b))
       (md_daemon_sleep (mddev b)) t (md_recovery_cp (mddev b))
       (md_mddev_external (mddev b)) (md_dev_sectors (mddev b))
       (md_disks (mddev b))).

(** [time_before(a, b)]: the signed difference is negative. *)
Definition time_before (a b : Z) : bool :=
  (2 ^ 63 <=? ulong (a - b)).

(** The label [done] of [bitmap_daemon_work]. *)
Definition daemon_done (b : bitmap) : bitmap :=
  if negb (allclean b)
  then set_thread_timeout b (md_daemon_sleep (mddev b)) else b.

(** [bitmap_daemon_work] (bitmap.c:1172) for an array that has a bitmap,
    at time [jiffies]. *)
Definition bitmap_daemon_work (b : bitmap) (jiffies : Z) : option bitmap :=
  if time_before jiffies (daemon_lastrun b + md_daemon_sleep (mddev b))
  then Some (daemon_done b)
  else
    let b1 := set_daemon_lastrun b jiffies in
    if allclean b1
    then Some (daemon_done (set_thread_timeout b1 MAX_SCHEDULE_TIMEOUT))
    else
      let b2 := set_allclean b1 true in
      let b3 := daemon_promote (Z.to_nat (file_pages (storage b2))) b2 0 in
      let b4 :=
        if need_sync b3 && negb (md_external (mddev b3)) then
          let b' := set_need_sync b3 false in
          match filemap (storage b') with
          | None => b'
          | Some _ =>
              set_page_attr
                (set_storage b'
                   (set_sb (storage b')
                      (mk_sb (sb_events (sb (storage b')))
                         (events_cleared b')
                         (sb_state (sb (storage b'))))))
                0 BITMAP_PAGE_NEEDWRITE
          end
        else b3 in
      match daemon_counters (Z.to_nat (chunks (counts b4))) b4 0 0 with
      | None => None
      | Some b5 =>
          Some (daemon_done
                  (daemon_writeout (Z.to_nat (file_pages (storage b5))) b5 0))
      end.

(** ** Resync marks and memory bits *)

(** [__bitmap_start_sync] (bitmap.c:1453) for a bitmap that exists:
    the state, the return value and [*blocks]. *)
Definition __bitmap_start_sync (b : bitmap) (offset : Z) (degraded : bool)
  : bitmap * Z * Z :=
  let r := get_counter b offset false in
  let b0 := after_get_counter b r in
  match gc_bmc r with
  | None => (b0, 0, gc_blocks r)
  | Some bmc =>
      if negb (RESYNC (read_counter (counts b0) bmc) =? 0) then
        (b0, 1, gc_blocks r)
      else if negb (NEEDED (read_counter (counts b0) bmc) =? 0) then
        if negb degraded then
          let b1 := store_counter b0 bmc
                      (Z.lor (read_counter (counts b0) bmc) RESYNC_MASK) in
          let b2 := store_counter b1 bmc
                      (Z.land (read_counter (counts b1) bmc)
                         (Z.lnot NEEDED_MASK)) in
          (b2, 1, gc_blocks r)
        else (b0, 1, gc_blocks r)
      else (b0, 0, gc_blocks r)
  end.

(** [bitmap_end_sync] (bitmap.c:1505): the state and [*blocks]. *)
Definition bitmap_end_sync (b : bitmap) (offset : Z) (aborted : bool)
  : bitmap * Z :=
  let r := get_counter b offset false in
  let b0 := after_get_counter b r in
  match gc_bmc r with
  | None => (b0, gc_blocks r)
  | Some bmc =>
      if negb (RESYNC (read_counter (counts b0) bmc) =? 0) then
        let b1 := store_counter b0 bmc
                    (Z.land (read_counter (counts b0) bmc)
                       (Z.lnot RESYNC_MASK)) in
        if (NEEDED (read_counter (counts b1) bmc) =? 0) && aborted then
          (store_counter b1 bmc
             (Z.lor (read_counter (counts b1) bmc) NEEDED_MASK),
           gc_blocks r)
        else if read_counter (counts b1) bmc <=? 2 then
          (set_allclean
             (set_counts b1 (bitmap_set_pending (counts b1) offset)) false,
           gc_blocks r)
        else (b1, gc_blocks r)
      else (b0, gc_blocks r)
  end.

(** [bitmap_set_memory_bits] (bitmap.c:1583). *)
Definition bitmap_set_memory_bits (b : bitmap) (offset : Z) (needed : bool)
  : bitmap :=
  let r := get_counter b offset true in
  let b0 := after_get_counter b r in
  match gc_bmc r with
  | None => b0
  | Some bmc =>
      if read_counter (counts b0) bmc =? 0 then
        let b1 := store_counter b0 bmc
                    (Z.lor 2 (if needed then NEEDED_MASK else 0)) in
        let b2 := set_counts b1 (bitmap_count_page (counts b1) offset 1) in
        let b3 := set_counts b2 (bitmap_set_pending (counts b2) offset) in
        set_allclean b3 false
      else b0
  end.

Definition set_recovery_cp (b : bitmap) (v : Z) : bitmap :=
  set_mddev b
    (mk_mddev (md_events (mddev b)) (md_degraded (mddev b))
       (md_external (mddev b)) (md_offset (mddev b)) (md_file (mddev b))
       (md_space (mddev b)) (md_chunksize (mddev b))
       (md_daemon_sleep (mddev b)) (md_thread_timeout (mddev b)) v
       (md_mddev_external (mddev b)) (md_dev_sectors (mddev b))
       (md_disks (mddev b))).

(** [bitmap_dirty_bits] (bitmap.c:1608): the chunks [chunk .. chunk + n),
    where the C loop runs [chunk] from [s] to [e] included. *)
Fixpoint dirty_bits_loop (n : nat) (b : bitmap) (chunk : Z) : bitmap :=
  match n with
  | O => b
  | S n' =>
      let sec := sector_t (Z.shiftl chunk (chunkshift (counts b))) in
      let b1 := bitmap_set_memory_bits b sec true in
      let b2 := bitmap_file_set_bit b1 sec in
      let b3 := if sec <? md_recovery_cp (mddev b2)
                then set_recovery_cp b2 sec else b2 in
      dirty_bits_loop n' b3 (chunk + 1)
  end.

Definition bitmap_dirty_bits (b : bitmap) (s e : Z) : bitmap :=
  dirty_bits_loop (Z.to_nat (e - s + 1)) b s.

(** ** Resize *)

Definition DIV_ROUND_UP (n d : Z) : Z := (n + d - 1) / d.

(** An allocation made with GFP_KERNEL ([kmalloc], [alloc_page],
    [kzalloc] of the tables): whether memory is there is the next outcome
    of the allocation script. *)
Definition alloc_ok (kz : list bool) : bool * list bool :=
  match kz with
  | [] => (true, [])
  | ok :: kz' => (ok, kz')
  end.

(** The page loop of [bitmap_storage_alloc]: pages [pnum .. pnum + n)
    are allocated zero-filled; [inl] carries the number of pages obtained
    when an allocation fails. *)
Fixpoint storage_alloc_pages (n : nat) (pnum : Z) (acc : list page_t)
    (kz : list bool) : (Z * list page_t + list page_t) * list bool :=
  match n with
  | O => (inr acc, kz)
  | S n' =>
      let '(ok, kz') := alloc_ok kz in
      if ok then storage_alloc_pages n' (pnum + 1) (acc ++ [mk_pg pnum 0]) kz'
      else (inl (pnum, acc), kz')
  end.

(** [bitmap_storage_alloc] (bitmap.c:756) on a zeroed [store]: the return
    value, the store and the rest of the script. *)
Definition bitmap_storage_alloc (store : bitmap_storage) (chunks : Z)
    (with_super : bool) (kz : list bool) : Z * bitmap_storage * list bool :=
  let bytes := DIV_ROUND_UP chunks 8 + (if with_super then SIZEOF_SB else 0) in
  let num_pages := DIV_ROUND_UP bytes PAGE_SIZE in
  let '(ok_map, kz1) := alloc_ok kz in
  if negb ok_map then (- ENOMEM, store, kz1)
  else
    let '(ok_sb, kz2) :=
      if with_super && negb (sb_page store) then alloc_ok kz1 else (true, kz1) in
    if negb ok_sb then (- ENOMEM, set_filemap store (Some []), kz2)
    else
      let has_sb := sb_page store || with_super in
      let first := if has_sb then [mk_pg 0 0] else [] in
      let pnum := if has_sb then 1 else 0 in
      let store1 :=
        mk_storage (st_file store) has_sb (sb store) (Some first)
          (filemap_attr store) (file_pages store) (st_bytes store) in
      match storage_alloc_pages (Z.to_nat (num_pages - pnum)) pnum first kz2 with
      | (inl (got, fm), kz3) =>
          (- ENOMEM,
           mk_storage (st_file store1) (sb_page store1) (sb store1) (Some fm)
             (filemap_attr store1) got (st_bytes store1),
           kz3)
      | (inr fm, kz3) =>
          let n_pages := if num_pages <? pnum then pnum else num_pages in
          let '(ok_attr, kz4) := alloc_ok kz3 in
          if negb ok_attr then
            (- ENOMEM,
             mk_storage (st_file store1) (sb_page store1) (sb store1) (Some fm)
               (filemap_attr store1) n_pages (st_bytes store1),
             kz4)
          else
            (0,
             mk_storage (st_file store1) (sb_page store1) (sb store1) (Some fm)
               0 n_pages bytes,
             kz4)
      end.

(** [1 << n] computed in [int], as [bitmap_resize] does with its
    [int chunkshift] (bitmap.c:2089, 2098, 2134, 2159): C gives the shift a
    value only for [0 <= n <= 30]. *)
Definition int_shl1 (n : Z) : option Z :=
  if (0 <=? n) && (n <=? 30) then Some (Z.shiftl 1 n) else None.

(** The search for a chunk size that fits the reserved space (the
    [do ... while] of bitmap.c:2087); [None] when the fuel runs out or the
    search comes to a shift that has no value in [int]. *)
Fixpoint resize_fit (fuel : nat) (blocks space : Z) (external : bool)
    (chunkshift : Z) : option Z :=
  match fuel with
  | O => None
  | S fuel' =>
      match int_shl1 chunkshift with
      | None => None
      | Some csize =>
          let chunks := DIV_ROUND_UP blocks csize in
          let bytes :=
            DIV_ROUND_UP chunks 8 + (if external then 0 else SIZEOF_SB) in
          if Z.shiftl space 9 <? bytes
          then resize_fit fuel' blocks space external (chunkshift + 1)
          else Some chunkshift
      end
  end.

(** [ffz(~chunksize)]: the number of the lowest bit set in [chunksize]. *)
Definition ffz_not (chunksize : Z) : Z :=
  Z.log2 (Z.land chunksize (- chunksize)).

(** The inner loop of the overlap walk (bitmap.c:2157): it calls
    [bitmap_file_set_bit(bitmap, block)] once for every chunk-sized stride
    from [start] to [end_]; the stride is [1 << chunkshift], an [int].
    [None] when the fuel runs out or the stride has no value. *)
Fixpoint resize_set_bits (fuel : nat) (b : bitmap) (block start end_ : Z)
  : option bitmap :=
  if end_ <=? start then Some b
  else
    match fuel with
    | O => None
    | S fuel' =>
        match int_shl1 (chunkshift (counts b)) with
        | None => None
        | Some stride =>
            resize_set_bits fuel' (bitmap_file_set_bit b block) block
              (sector_t (start + stride)) end_
        end
    end.

(** One pass of the overlap walk (bitmap.c:2142-2171): the state and the
    stride added to [block].  [None] when [bmc_new] is NULL (the code
    dereferences it) or the inner loop has no result. *)
Definition resize_copy_step (b : bitmap) (old_counts : bitmap_counts)
    (block : Z) : option (bitmap * Z) :=
  let ro := bitmap_get_counter old_counts block false [] in
  let old_blocks := gc_blocks ro in
  let set :=
    match gc_bmc ro with
    | None => false
    | Some bmc_old =>
        negb (NEEDED (read_counter (gc_counts ro) bmc_old) =? 0)
    end in
  if set then
    let rn := get_counter b block true in
    let new_blocks := gc_blocks rn in
    let b0 := after_get_counter b rn in
    match gc_bmc rn with
    | None => None
    | Some bmc_new =>
        let filled :=
          if read_counter (counts b0) bmc_new =? 0 then
            let end_ := sector_t (block + new_blocks) in
            let start :=
              sector_t (Z.shiftl (Z.shiftr block (chunkshift (counts b0)))
                          (chunkshift (counts b0))) in
            match resize_set_bits (Z.to_nat (end_ - start)) b0 block start end_ with
            | None => None
            | Some b1 =>
                let b2 := store_counter b1 bmc_new 2 in
                let b3 := set_counts b2 (bitmap_count_page (counts b2) block 1) in
                Some (set_counts b3 (bitmap_set_pending (counts b3) block))
            end
          else Some b0 in
        match filled with
        | None => None
        | Some b4 =>
            Some (store_counter b4 bmc_new
                    (Z.lor (read_counter (counts b4) bmc_new) NEEDED_MASK),
                  if new_blocks <? old_blocks then new_blocks else old_blocks)
        end
    end
  else Some (b, old_blocks).

(** The overlap walk [for (block = 0; block < blocks; )]: the state and
    the value of [block] when it stops. *)
Fixpoint resize_copy (fuel : nat) (b : bitmap) (old_counts : bitmap_counts)
    (block blocks : Z) : option (bitmap * Z) :=
  if blocks <=? block then Some (b, block)
  else
    match fuel with
    | O => None
    | S fuel' =>
        match resize_copy_step b old_counts block with
        | None => None
        | Some (b', stride) =>
            resize_copy fuel' b' old_counts (sector_t (block + stride)) blocks
        end
    end.

(** One pass of the walk over the new space (bitmap.c:2177-2192). *)
Definition resize_grow_step (b : bitmap) (block : Z) : bitmap * Z :=
  let r := get_counter b block true in
  let b0 := after_get_counter b r in
  match gc_bmc r with
  | None => (b0, gc_blocks r)
  | Some bmc =>
      if read_counter (counts b0) bmc =? 0 then
        let b1 := store_counter b0 bmc (Z.lor NEEDED_MASK 2) in
        let b2 := set_counts b1 (bitmap_count_page (counts b1) block 1) in
        (set_counts b2 (bitmap_set_pending (counts b2) block), gc_blocks r)
      else (b0, gc_blocks r)
  end.

(** The walk [while (block < (chunks << chunkshift))]. *)
Fixpoint resize_grow (fuel : nat) (b : bitmap) (block limit : Z)
  : option bitmap :=
  if limit <=? block then Some b
  else
    match fuel with
    | O => None
    | S fuel' =>
        let '(b', stride) := resize_grow_step b block in
        resize_grow fuel' b' (sector_t (block + stride)) limit
    end.

Fixpoint resize_dirty_all (n : nat) (b : bitmap) (i : Z) : bitmap :=
  match n with
  | O => b
  | S n' => resize_dirty_all n' (set_page_attr b i BITMAP_PAGE_DIRTY) (i + 1)
  end.

Definition set_space_chunksize (b : bitmap) (space chunksize : Z) : bitmap :=
  set_mddev b
    (mk_mddev (md_events (mddev b)) (md_degraded (mddev b))
       (md_external (mddev b)) (md_offset (mddev b)) (md_file (mddev b))
       space chunksize
       (md_daemon_sleep (mddev b)) (md_thread_timeout (mddev b))
       (md_recovery_cp (mddev b))
       (md_mddev_external (mddev b)) (md_dev_sectors (mddev b))
       (md_disks (mddev b))).

(** The part of [bitmap_resize] that runs under [counts.lock]
    (bitmap.c:2140-2197), on a bitmap whose table and storage have been
    replaced. *)
Definition resize_locked (b : bitmap) (old_counts : bitmap_counts)
    (init : bool) : option bitmap :=
  let limit := ulong (Z.shiftl (chunks (counts b)) (chunkshift (counts b))) in
  let old_limit :=
    ulong (Z.shiftl (chunks old_counts) (chunkshift old_counts)) in
  let blocks := Z.min old_limit limit in
  match resize_copy (Z.to_nat blocks) b old_counts 0 blocks with
  | None => None
  | Some (b1, block) =>
      if init then Some b1
      else
        match resize_grow (Z.to_nat (limit - block)) b1 block limit with
        | None => None
        | Some b2 =>
            Some (resize_dirty_all (Z.to_nat (file_pages (storage b2))) b2 0)
        end
  end.

(** The choice of the chunk shift and of the space (bitmap.c:2068-2095):
    with [chunksize == 0] the smallest shift, from the current one, whose
    image fits the space; the shift of [chunksize] otherwise.  [None] when
    the search has no result. *)
Definition resize_chunkshift (b : bitmap) (blocks chunksize : Z)
  : option (Z * Z) :=
  let external := md_external (mddev b) in
  if chunksize =? 0 then
    let space :=
      if md_space (mddev b) =? 0 then
        DIV_ROUND_UP
          (DIV_ROUND_UP (chunks (counts b)) 8
           + (if external then 0 else SIZEOF_SB)) 512
      else md_space (mddev b) in
    match resize_fit 64 blocks space external (chunkshift (counts b)) with
    | None => None
    | Some shift => Some (shift, space)
    end
  else Some (ffz_not chunksize - BITMAP_BLOCK_SHIFT, md_space (mddev b)).

(** The part of [bitmap_resize] from the allocation of the new table
    (bitmap.c:2106-2200), the storage being allocated: the new chunk size
    [1 << (chunkshift + BITMAP_BLOCK_SHIFT)] is computed in [int]. *)
Definition resize_replace (b1 : bitmap) (store : bitmap_storage)
    (kz1 : list bool) (shift space nchunks : Z) (init : bool)
  : option (Z * bitmap) :=
  let npages := DIV_ROUND_UP nchunks PAGE_COUNTER_RATIO in
  let '(ok_bp, kz2) := alloc_ok kz1 in
  if negb ok_bp then Some (- ENOMEM, set_kz_script b1 kz2)
  else
    match int_shl1 (shift + BITMAP_BLOCK_SHIFT) with
    | None => None
    | Some new_chunksize =>
        let store1 :=
          mk_storage (st_file (storage b1)) (sb_page store)
            (if sb_page store && sb_page (storage b1)
             then sb (storage b1) else sb store)
            (filemap store) (filemap_attr store) (file_pages store)
            (st_bytes store) in
        let old_counts := counts b1 in
        let new_counts :=
          {| bp := replicate (Z.to_nat npages) zero_page;
             pages := npages;
             missing_pages := npages;
             chunkshift := shift;
             chunks := nchunks |} in
        let b2 :=
          set_space_chunksize
            (set_kz_script (set_counts (set_storage b1 store1) new_counts) kz2)
            space new_chunksize in
        match resize_locked b2 old_counts init with
        | None => None
        | Some b3 => Some (0, if init then b3 else bitmap_unplug b3)
        end
    end.

(** [bitmap_resize] (bitmap.c:2045): the return value and the state;
    [None] when a loop has no result or a shift computed in [int] has no
    value ([chunkshift] outside 0..30 at bitmap.c:2098, [chunkshift + 9]
    outside 0..30 at bitmap.c:2134).  [pers->quiesce] acts on the array,
    not on the bitmap. *)
Definition bitmap_resize (b : bitmap) (blocks chunksize : Z) (init : bool)
  : option (Z * bitmap) :=
  let external := md_external (mddev b) in
  match resize_chunkshift b blocks chunksize with
  | None => None
  | Some (shift, space) =>
      match int_shl1 shift with
      | None => None
      | Some csize =>
          let b1 := set_space_chunksize b space (md_chunksize (mddev b)) in
          let nchunks := DIV_ROUND_UP blocks csize in
          let '(ret, store, kz1) :=
            if negb (md_offset (mddev b1) =? 0) || md_file (mddev b1)
            then bitmap_storage_alloc zero_storage nchunks (negb external)
                   (kz_script b1)
            else (0, zero_storage, kz_script b1) in
          if negb (ret =? 0) then Some (ret, set_kz_script b1 kz1)
          else resize_replace b1 store kz1 shift space nchunks init
      end
  end.

(** ** The node tables of the cluster ([avail_bitmap], [reclaim_bitmap]) *)

(** The loop [for (i = 0; i < nodes; i++) if (a[i] == num) return i;]
    over an array of [nodes] entries, from index [i]; -1 when it runs
    through. *)
Fixpoint node_table_find (a : list Z) (i : Z) (num : Z) : Z :=
  match a with
  | [] => -1
  | x :: a' => if x =? num then i else node_table_find a' (i + 1) num
  end.

(** The loop [if (a[i] == -1) { a[i] = num; return i; }]: the index
    taken, if any, and the array. *)
Fixpoint node_table_take (a : list Z) (i : Z) (num : Z) : option Z * list Z :=
  match a with
  | [] => (None, [])
  | x :: a' =>
      if x =? -1 then (Some i, num :: a')
      else let '(r, a'') := node_table_take a' (i + 1) num in (r, x :: a'')
  end.

(** [exist_in_avail_bitmap] (bitmap.c:1781), on [mddev->avail_bitmap],
    an array of [bitmap_info.nodes] entries. *)
Definition exist_in_avail_bitmap (avail_bitmap : list Z) (num : Z) : Z :=
  node_table_find avail_bitmap 0 num.

(** [bitmap_add_avail_bitmap] (bitmap.c:1792): the return value and the
    array. *)
Definition bitmap_add_avail_bitmap (avail_bitmap : list Z) (num : Z)
  : Z * list Z :=
  let ret := exist_in_avail_bitmap avail_bitmap num in
  if ret <? 0 then
    match node_table_take avail_bitmap 0 num with
    | (Some i, a') => (i, a')
    | (None, a') => (ret, a')
    end
  else (ret, avail_bitmap).

(** [exist_in_reclaim_bitmap] (bitmap.c:1808) and
    [bitmap_add_reclaim_bitmap] (bitmap.c:1819): the same code on
    [mddev->reclaim_bitmap]. *)
Definition exist_in_reclaim_bitmap (reclaim_bitmap : list Z) (num : Z) : Z :=
  node_table_find reclaim_bitmap 0 num.

Definition bitmap_add_reclaim_bitmap (reclaim_bitmap : list Z) (num : Z)
  : Z * list Z :=
  let ret := exist_in_reclaim_bitmap reclaim_bitmap num in
  if ret <? 0 then
    match node_table_take reclaim_bitmap 0 num with
    | (Some i, a') => (i, a')
    | (None, a') => (ret, a')
    end
  else (ret, reclaim_bitmap).

(** ** The resync interface: [bitmap_start_sync], [bitmap_close_sync] *)

(** The loop of [bitmap_start_sync] (bitmap.c:1494): it runs while
    [*blocks < (PAGE_SIZE >> 9)]; [None] when the fuel runs out. *)
Fixpoint bitmap_start_sync_loop (fuel : nat) (b : bitmap) (offset : Z)
    (degraded : bool) (rv blocks : Z) : option (bitmap * Z * Z) :=
  if blocks <? Z.shiftr PAGE_SIZE 9 then
    match fuel with
    | O => None
    | S fuel' =>
        let '(b', rv1, blocks1) := __bitmap_start_sync b offset degraded in
        bitmap_start_sync_loop fuel' b' (sector_t (offset + blocks1)) degraded
          (Z.lor rv rv1) (sector_t (blocks + blocks1))
    end
  else Some (b, rv, blocks).

(** [bitmap_start_sync] (bitmap.c:1481): the state, the return value and
    [*blocks]. *)
Definition bitmap_start_sync (fuel : nat) (b : bitmap) (offset : Z)
    (degraded : bool) : option (bitmap * Z * Z) :=
  bitmap_start_sync_loop fuel b offset degraded 0 0.

(** The loop of [bitmap_close_sync] (bitmap.c:1546), with
    [resync_max_sectors] of the array; [None] when the fuel runs out. *)
Fixpoint bitmap_close_sync_loop (fuel : nat) (b : bitmap)
    (sector resync_max_sectors : Z) : option bitmap :=
  if sector <? resync_max_sectors then
    match fuel with
    | O => None
    | S fuel' =>
        let '(b', blocks) := bitmap_end_sync b sector false in
        bitmap_close_sync_loop fuel' b' (sector_t (sector + blocks))
          resync_max_sectors
    end
  else Some b.

(** [bitmap_close_sync] (bitmap.c:1536) for a bitmap that exists. *)
Definition bitmap_close_sync (fuel : nat) (b : bitmap)
    (resync_max_sectors : Z) : option bitmap :=
  bitmap_close_sync_loop fuel b 0 resync_max_sectors.

(** ** [bitmap_write_all] *)

(** The loop of [bitmap_write_all] over the pages [i .. i + n). *)
Fixpoint write_all_pages (n : nat) (b : bitmap) (i : Z) : bitmap :=
  match n with
  | O => b
  | S n' => write_all_pages n' (set_page_attr b i BITMAP_PAGE_NEEDWRITE) (i + 1)
  end.

(** [bitmap_write_all] (bitmap.c:1125) for a bitmap that exists. *)
Definition bitmap_write_all (b : bitmap) : bitmap :=
  match filemap (storage b) with
  | None => b
  | Some _ =>
      if st_file (storage b) then b
      else
        set_allclean
          (write_all_pages (Z.to_nat (file_pages (storage b))) b 0) false
  end.

(** * Notions used by the properties *)

(** Well-formedness of the table, the counters that exist, the
    scenarios of the claims, the states the interface reaches, the
    invariant of the walks of [bitmap_resize], and worked instances. *)

(** Linear arithmetic with divisions and remainders. *)
Ltac zdm := Z.div_mod_to_equations; lia.

(** Well-formedness of a slot: a member that points to a page is not
    hijacked, and raw bits other than NULL only occur in a hijacked
    slot. *)
Definition slot_okb (s : bitmap_page) : bool :=
  match bp_map s with
  | MapRaw c0 c1 => bp_hijacked s || ((c0 =? 0) && (c1 =? 0))
  | MapPage _ => negb (bp_hijacked s)
  end.

(** Well-formedness of the table: [bp] has [pages] slots, all well
    formed. *)
Definition counts_inv (c : bitmap_counts) : bool :=
  (length (bp c) =? Z.to_nat (pages c))%nat && forallb slot_okb (bp c).

Definition page_of (c : bitmap_counts) (offset : Z) : Z :=
  Z.shiftr (Z.shiftr offset (chunkshift c)) PAGE_COUNTER_SHIFT.

Definition pageoff_of (c : bitmap_counts) (offset : Z) : Z :=
  Z.shiftl (Z.land (Z.shiftr offset (chunkshift c)) PAGE_COUNTER_MASK)
    COUNTER_BYTE_SHIFT.

(** The member [m] holds what the pointer [bmc] designates: raw bits for
    an inline half, a page for a page counter. *)
Definition cell_fits (bmc : cell) (m : map_t) : bool :=
  match bmc, m with
  | InlineCell _ _, MapRaw _ _ => true
  | PageCell _ _, MapPage _ => true
  | _, _ => false
  end.

Definition cell_inline (bmc : cell) : bool :=
  match bmc with
  | InlineCell _ _ => true
  | PageCell _ _ => false
  end.

(** A pointer returned by [bitmap_get_counter] designates storage that
    exists: a half of the raw member of a hijacked slot, or a counter of
    the page of a slot that is not hijacked. *)
Definition cell_okb (c : bitmap_counts) (bmc : cell) : bool :=
  (0 <=? cell_page bmc)
  && (Z.to_nat (cell_page bmc) <? length (bp c))%nat
  && cell_fits bmc (bp_map (slot c (cell_page bmc)))
  && eqb (cell_inline bmc) (bp_hijacked (slot c (cell_page bmc))).

(** The counter word once [bitmap_endwrite] has marked a failed write. *)
Definition endwrite_marked (success : bool) (c : Z) : Z :=
  if negb success && (NEEDED c =? 0) then Z.lor c NEEDED_MASK else c.

(** A small array: chunks of 8 sectors (4 KiB), 16 chunks, one page slot;
    an internal superblock and one page of bits; one member device, with
    the superblock at sector 8, the bitmap 8 sectors after it and the
    data from sector 2048. *)
Definition ex_counts : bitmap_counts :=
  {| bp := [zero_page]; pages := 1; missing_pages := 1;
     chunkshift := 3; chunks := 16 |}.

Definition ex_storage : bitmap_storage :=
  {| st_file := false; sb_page := true; sb := zero_sb;
     filemap := Some [mk_pg 0 0]; filemap_attr := 0; file_pages := 1;
     st_bytes := 258 |}.

Definition ex_rdev : md_rdev :=
  {| rd_raid_disk := 0; rd_faulty := false; rd_sb_start := 8;
     rd_data_offset := 2048; rd_meta_bdev := None; rd_bdev := 512 |}.

Definition ex_mddev : mddev_t :=
  {| md_events := 7; md_degraded := 0; md_external := false; md_offset := 8;
     md_file := false; md_space := 8; md_chunksize := 4096;
     md_daemon_sleep := 5000; md_thread_timeout := 5000;
     md_recovery_cp := 0; md_mddev_external := false;
     md_dev_sectors := 128; md_disks := [ex_rdev] |}.

(** The bitmap at rest, with the outcomes to come from [kzalloc] and from
    the transport. *)
Definition ex_bitmap (kz : list bool) (io : list Z) : bitmap :=
  {| counts := ex_counts; storage := ex_storage; flags := no_flags;
     allclean := true; need_sync := false; events_cleared := 7;
     behind_writes := 0; behind_writes_used := 0; daemon_lastrun := 0;
     mddev := ex_mddev; kz_script := kz; lock_script := []; io_script := io;
     inflight := []; log := [] |}.

(** The state after [n] writes were started on chunk 0. *)
Fixpoint ex_started (n : nat) (b : bitmap) : bitmap :=
  match n with
  | O => b
  | S n' => ex_started n' (fst (startwrite_step b 0))
  end.

(** The pointer that [bitmap_get_counter] forms for [offset] when the
    slot needs no allocation. *)
Definition cell_for (c : bitmap_counts) (offset : Z) : cell :=
  if bp_hijacked (slot c (page_of c offset))
  then InlineCell (page_of c offset) (PAGE_COUNTER_MASK <? pageoff_of c offset)
  else PageCell (page_of c offset) (pageoff_of c offset).

(** The value it stores in [*blocks]. *)
Definition blocks_at (c : bitmap_counts) (offset : Z) : Z :=
  sector_t
    (get_counter_csize (chunkshift c) (slot c (page_of c offset))
     - Z.land offset
         (sector_t
            (get_counter_csize (chunkshift c) (slot c (page_of c offset)) - 1))).

(** [offset] has a counter in the table, and [bmc] points to it. *)
Definition found (c : bitmap_counts) (offset : Z) (bmc : cell) : Prop :=
  counts_inv c = true /\ cell_okb c bmc = true
  /\ bmc = cell_for c offset /\ page_of c offset < pages c.

(** The counter of the chunk of [offset] as a reader sees it
    ([bitmap_get_counter] without [create]); a counter that is not there
    reads as 0, which is what the page will hold once it is there. *)
Definition counter_at (c : bitmap_counts) (offset : Z) : Z :=
  match gc_bmc (bitmap_get_counter c offset false []) with
  | Some bmc => read_counter c bmc
  | None => 0
  end.

(** [n] calls of [bitmap_startwrite] on the same range, each of which
    returned. *)
Fixpoint startwrites (n : nat) (b : bitmap) (offset sectors : Z)
  : option bitmap :=
  match n with
  | O => Some b
  | S n' =>
      match bitmap_startwrite b offset sectors false with
      | Some (b', SwDone) => startwrites n' b' offset sectors
      | _ => None
      end
  end.

(** [n] calls of [bitmap_endwrite] on the same range, for writes that
    succeeded. *)
Fixpoint endwrites (n : nat) (b : bitmap) (offset sectors : Z)
  : option bitmap :=
  match n with
  | O => Some b
  | S n' =>
      match bitmap_endwrite b offset sectors true false with
      | Some b' => endwrites n' b' offset sectors
      | None => None
      end
  end.

(** [n] writes started, then ended, on the same range. *)
Definition matched_writes (n : nat) (b : bitmap) (offset sectors : Z)
  : option bitmap :=
  match startwrites n b offset sectors with
  | Some b1 => endwrites n b1 offset sectors
  | None => None
  end.

(** The first sector of the chunk of [offset]: the [block] the daemon
    works with, [(sector_t)j << chunkshift]. *)
Definition chunk_start (c : bitmap_counts) (offset : Z) : Z :=
  sector_t (Z.shiftl (Z.shiftr offset (chunkshift c)) (chunkshift c)).

(** The worked instance with the counter of chunk 0 saturated. *)
Definition ex_saturated : bitmap :=
  store_counter (ex_started 1 (ex_bitmap [] [])) (PageCell 0 0) COUNTER_MAX.

(** No page count has gone below zero. *)
Definition counts_nonneg (c : bitmap_counts) : Prop :=
  forall p, 0 <= bp_count (slot c p).

(** A table with a counter in it, as [bitmap_get_counter] returns them. *)
Definition table_ok (c : bitmap_counts) (bmc : cell) : Prop :=
  counts_inv c = true /\ cell_okb c bmc = true.

(** One call that returned, with sector numbers that are [sector_t]s,
    of [bitmap_startwrite], [bitmap_endwrite], [bitmap_daemon_work],
    [__bitmap_start_sync], [bitmap_end_sync], [bitmap_set_memory_bits]
    (the step of [bitmap_init_from_disk]), [bitmap_dirty_bits],
    [bitmap_unplug], [bitmap_update_sb] or [bitmap_resize].
    [bitmap_startwrite] counts the pages it makes busy, and is called
    while no page count has gone below zero. *)
Inductive api_step : bitmap -> bitmap -> Prop :=
  | api_startwrite b offset sectors behind b' res :
      0 <= offset -> counts_nonneg (counts b) ->
      bitmap_startwrite b offset sectors behind = Some (b', res) ->
      api_step b b'
  | api_endwrite b offset sectors success behind b' :
      0 <= offset ->
      bitmap_endwrite b offset sectors success behind = Some b' ->
      api_step b b'
  | api_daemon_work b jiffies b' :
      bitmap_daemon_work b jiffies = Some b' -> api_step b b'
  | api_start_sync b offset degraded :
      0 <= offset ->
      api_step b (fst (fst (__bitmap_start_sync b offset degraded)))
  | api_end_sync b offset aborted :
      0 <= offset -> api_step b (fst (bitmap_end_sync b offset aborted))
  | api_set_memory_bits b offset needed :
      0 <= offset -> api_step b (bitmap_set_memory_bits b offset needed)
  | api_dirty_bits b s e : api_step b (bitmap_dirty_bits b s e)
  | api_unplug b : api_step b (bitmap_unplug b)
  | api_update_sb b : api_step b (bitmap_update_sb b)
  | api_resize b blocks chunksize init ret b' :
      bitmap_resize b blocks chunksize init = Some (ret, b') ->
      api_step b b'.

Inductive reachable (b0 : bitmap) : bitmap -> Prop :=
  | reach_start : reachable b0 b0
  | reach_call b b' : reachable b0 b -> api_step b b' -> reachable b0 b'.

(** The worked instance after a write to chunk 0 was started while
    [kzalloc] had no memory: slot 0 is hijacked. *)
Definition ex_hijacked : bitmap :=
  fst (startwrite_step (ex_bitmap [false] []) 0).

(** [NEEDED_MASK | 2], the value of a counter that a walk has marked. *)
Definition MARKED : Z := Z.lor NEEDED_MASK 2.

(** The pending hint of the page of [offset]. *)
Definition pending_at (c : bitmap_counts) (offset : Z) : bool :=
  bp_pending (slot c (page_of c offset)).


(** The slot of a page holds counters. *)
Definition present (s : bitmap_page) : bool :=
  bp_hijacked s || negb (map_is_null (bp_map s)).

(** [bmc == bmc']: two pointers to the same counter. *)
Definition cell_eqb (x y : cell) : bool :=
  match x, y with
  | InlineCell p h, InlineCell q k => (p =? q) && eqb h k
  | PageCell p o, PageCell q o' => (p =? q) && (o =? o')
  | _, _ => false
  end.

(** [c'] comes from [c] by stores that leave every counter other than
    those [upd] changes as it was; no page comes or goes, and pending
    hints are kept. *)
Definition table_step (upd : cell -> Z -> Z) (c c' : bitmap_counts) : Prop :=
  counts_inv c' = true /\ pages c' = pages c /\ chunkshift c' = chunkshift c
  /\ chunks c' = chunks c
  /\ (forall bo, cell_okb c bo = true ->
        cell_okb c' bo = true
        /\ read_counter c' bo = upd bo (read_counter c bo))
  /\ (forall q, bp_hijacked (slot c' q) = bp_hijacked (slot c q)
                /\ present (slot c' q) = present (slot c q)
                /\ (bp_pending (slot c q) = true ->
                    bp_pending (slot c' q) = true)).

Definition keep : cell -> Z -> Z := fun _ x => x.

Definition put (bmc : cell) (v : Z) : cell -> Z -> Z :=
  fun bo x => if cell_eqb bo bmc then v else x.


(** The geometry [bitmap_resize] gives the new table: the sectors below
    the limit are on pages of the table, and sector numbers stay far from
    the end of [sector_t]. *)
Definition new_geometry (c : bitmap_counts) : Prop :=
  0 <= chunkshift c <= 52 /\ 0 <= chunks c
  /\ chunks c <= pages c * PAGE_COUNTER_RATIO
  /\ chunks c * 2 ^ chunkshift c < 2 ^ 63.

Definition same_geometry (c c' : bitmap_counts) : Prop :=
  pages c' = pages c /\ chunkshift c' = chunkshift c /\ chunks c' = chunks c.


Definition limit_of (c : bitmap_counts) : Z := chunks c * 2 ^ chunkshift c.

(** The worked instance with the counter of chunk 0 marked NEEDED. *)
Definition ex_needed : bitmap := bitmap_set_memory_bits (ex_bitmap [] []) 0 true.

(** The size in bytes of the image of [blocks] sectors at a chunk shift,
    as the search of [bitmap_resize] computes it (bitmap.c:2090-2093). *)
Definition image_bytes (blocks : Z) (external : bool) (shift : Z) : Z :=
  DIV_ROUND_UP (DIV_ROUND_UP blocks (Z.shiftl 1 shift)) 8
  + (if external then 0 else SIZEOF_SB).

(** The space in sectors that the search works with (bitmap.c:2073-2083). *)
Definition resize_space (b : bitmap) : Z :=
  if md_space (mddev b) =? 0 then
    DIV_ROUND_UP
      (DIV_ROUND_UP (chunks (counts b)) 8
       + (if md_external (mddev b) then 0 else SIZEOF_SB)) 512
  else md_space (mddev b).

(** Neither mark is set in the counter word. *)
Definition in_sync (v : Z) : Prop := NEEDED v = 0 /\ RESYNC v = 0.

(** Two images that differ at most in the superblock fields. *)
Definition image_eq (s s' : bitmap_storage) : Prop :=
  filemap s' = filemap s /\ filemap_attr s' = filemap_attr s
  /\ file_pages s' = file_pages s /\ sb_page s' = sb_page s
  /\ st_file s' = st_file s.

(** The page numbers [i .. i + n), in order. *)
Fixpoint pages_from (n : nat) (i : Z) : list Z :=
  match n with
  | O => []
  | S n' => i :: pages_from n' (i + 1)
  end.

(** The page has set bits or cleared bits to be written. *)
Definition to_flush (b : bitmap) (i : Z) : bool :=
  test_page_attr b i BITMAP_PAGE_DIRTY
  || test_page_attr b i BITMAP_PAGE_NEEDWRITE.

(** The number of [wake_up(&bitmap->behind_wait)] in a log. *)
Fixpoint behind_wakes (l : list event) : nat :=
  match l with
  | [] => O
  | EvWake behind_wait :: l' => S (behind_wakes l')
  | _ :: l' => behind_wakes l'
  end.

(** The shift of the span of sectors that the counter of [o] stands for:
    a chunk for a counter in a page, half the chunks of a page for a
    counter that is not there or is inline (the [csize] of
    [bitmap_get_counter]). *)
Definition span_shift (c : bitmap_counts) (o : Z) : Z :=
  if bp_hijacked (slot c (page_of c o))
     || map_is_null (bp_map (slot c (page_of c o)))
  then chunkshift c + 10 else chunkshift c.

(** The counter word after [bitmap_startwrite] has counted one more write:
    0 and 1 go to 2 first. *)
Definition bump (v : Z) : Z := if v <=? 1 then 3 else v + 1.

(** What one pass of a walk over spans does at sector [p], where [f] is
    what it makes of the counter word: the sectors of the rest of the span
    are changed by [f], those beyond are left alone, and so are those
    before [p] when [p] starts its span; the next sector starts one. *)
Definition pass_facts (f : Z -> Z) (c c' : bitmap_counts) (p blocks : Z)
  : Prop :=
  1 <= blocks <= 2 ^ 62
  /\ counts_inv c' = true
  /\ same_geometry c c'
  /\ (forall o, p <= o < p + blocks -> counter_at c' o = f (counter_at c o))
  /\ (forall o, p + blocks <= o -> counter_at c' o = counter_at c o)
  /\ (forall o, 0 <= o < p ->
        counter_at c' o = counter_at c o
        \/ counter_at c' o = f (counter_at c o))
  /\ (1 <= p -> present (slot c (page_of c (p - 1))) = true ->
      p mod 2 ^ span_shift c (p - 1) = 0 ->
      forall o, 0 <= o < p -> counter_at c' o = counter_at c o)
  /\ present (slot c' (page_of c' (p + blocks - 1))) = true
  /\ (p + blocks) mod 2 ^ span_shift c' (p + blocks - 1) = 0.

(** The state of a walk that started at [offset] on the table [c0] and
    has come to [p]. *)
Definition range_inv (f : Z -> Z) (c0 c : bitmap_counts) (offset p : Z)
  : Prop :=
  same_geometry c0 c /\ counts_inv c = true
  /\ ((p = offset /\ forall o, 0 <= o -> counter_at c o = counter_at c0 o)
      \/ (offset < p
          /\ present (slot c (page_of c (p - 1))) = true
          /\ p mod 2 ^ span_shift c (p - 1) = 0
          /\ (forall o, offset <= o < p ->
                counter_at c o = f (counter_at c0 o))
          /\ (forall o, p <= o -> counter_at c o = counter_at c0 o)
          /\ (forall o, 0 <= o < offset ->
                counter_at c o = counter_at c0 o
                \/ counter_at c o = f (counter_at c0 o)))).

(** Case analysis on every test of the goal. *)
Ltac split_ifs :=
  repeat match goal with
         | |- context [if ?c then _ else _] => destruct c
         end.

(** The image has a page for the bit of chunk [j], filed under its own
    index. *)
Definition has_page (s : bitmap_storage) (j : Z) : Prop :=
  exists k pg, filemap_get_page s j = Some k /\ filemap_page s k = Some pg
               /\ pg_index pg = k.

(** From [b] to [b'] the image kept its pages, no bit of it was cleared
    and no page lost DIRTY. *)
Definition intent_kept (b b' : bitmap) : Prop :=
  flags b' = flags b
  /\ sb_page (storage b') = sb_page (storage b)
  /\ file_pages (storage b') = file_pages (storage b)
  /\ (forall k pg, filemap_page (storage b) k = Some pg ->
        exists pg', filemap_page (storage b') k = Some pg'
                    /\ pg_index pg' = pg_index pg)
  /\ (forall j, 0 <= j < 2 ^ 64 - 2048 ->
        file_test_bit b j = true -> file_test_bit b' j = true)
  /\ (forall i,
        test_page_attr b i BITMAP_PAGE_DIRTY = true ->
        test_page_attr b' i BITMAP_PAGE_DIRTY = true).

(** The bitmap after the events [l], the last first, have left it. *)
Definition emits (b : bitmap) (l : list event) : bitmap :=
  mk_bitmap (counts b) (storage b) (flags b) (allclean b) (need_sync b)
    (events_cleared b) (behind_writes b) (behind_writes_used b)
    (daemon_lastrun b) (mddev b) (kz_script b) (lock_script b)
    (io_script b) (inflight b) (l ++ log b).

(** The number of members that receive the page numbered [index] when
    [write_sb_page] walks [rdevs]: those before the first that fails the
    alignment tests. *)
Fixpoint members_written (m : mddev_t) (store : bitmap_storage)
    (rdevs : list md_rdev) (index : Z) : nat :=
  match rdevs with
  | [] => O
  | rdev :: rest =>
      if bad_alignment m store rdev index then O
      else S (members_written m store rest index)
  end.

(** No page of the image fails the alignment tests of [write_sb_page] on
    a member that the walk comes to. *)
Definition members_aligned (b : bitmap) : Prop :=
  forall k rdev, 0 <= k < file_pages (storage b) ->
    In rdev (next_active_rdev (mddev b)) ->
    bad_alignment (mddev b) (storage b) rdev (page_index (storage b) k)
    = false.

(** What the transport receives when [write_sb_page] hands [filemap[k]]
    to every member the walk comes to. *)
Definition page_writes (b : bitmap) (k : Z) : list event :=
  repeat (page_image b k) (length (next_active_rdev (mddev b))).

(** What [bitmap_unplug] needs of the bitmap to hand pages to the
    transport without a failure: an image kept on the member devices,
    neither STALE nor in error, a member to write to, and no failure to
    come from the lock or from the alignment tests. *)
Definition transfers_ok (b : bitmap) : Prop :=
  filemap (storage b) <> None /\ st_file (storage b) = false
  /\ test_flag BITMAP_STALE (flags b) = false
  /\ test_flag BITMAP_WRITE_ERROR (flags b) = false
  /\ lock_script b = [] /\ next_active_rdev (mddev b) <> []
  /\ members_aligned b.


(** What the transfers read of the bitmap is the same in [b] and [b']:
    the lock script, the member devices, the size of the image and the
    index of every page. *)
Definition same_env (b b' : bitmap) : Prop :=
  lock_script b' = lock_script b /\ mddev b' = mddev b
  /\ st_file (storage b') = st_file (storage b)
  /\ file_pages (storage b') = file_pages (storage b)
  /\ st_bytes (storage b') = st_bytes (storage b)
  /\ (forall k, page_index (storage b') k = page_index (storage b) k)
  /\ (filemap (storage b) <> None -> filemap (storage b') <> None).

(** The sectors [o] and [o'] have the same counter in the table:
    [bitmap_get_counter] returns one pointer for both. *)
Definition same_counter (c : bitmap_counts) (o o' : Z) : Prop :=
  exists bmc, found c o bmc /\ found c o' bmc.


(** The counters of the table [c] are counters of the same sectors in
    [c']. *)
Definition cells_kept (c c' : bitmap_counts) : Prop :=
  forall o bmc, 0 <= o -> found c o bmc -> found c' o bmc.




(** * Properties *)

(** ** Arithmetic of the counter word *)

Lemma u16_range x : 0 <= u16 x < 65536.
Proof. unfold u16. apply Z.mod_pos_bound. lia. Qed.

Lemma u16_small x : 0 <= x < 65536 -> u16 x = x.
Proof. intros H. unfold u16. apply Z.mod_small. exact H. Qed.

Lemma u16_u16 x : u16 (u16 x) = u16 x.
Proof. apply u16_small, u16_range. Qed.

Lemma land_pow2 a n :
  0 <= n -> Z.land a (2 ^ n) = (a / 2 ^ n mod 2) * 2 ^ n.
Proof.
  intros Hn.
  assert (Hbit : Z.land a (2 ^ n) = if Z.testbit a n then 2 ^ n else 0).
  { apply Z.bits_inj'. intros m Hm.
    rewrite Z.land_spec, Z.pow2_bits_eqb by lia.
    destruct (Z.eqb_spec n m) as [->|Hne].
    - destruct (Z.testbit a m); simpl.
      + rewrite Z.pow2_bits_eqb, Z.eqb_refl by lia. reflexivity.
      + rewrite Z.bits_0. reflexivity.
    - rewrite andb_false_r. destruct (Z.testbit a n).
      + rewrite Z.pow2_bits_eqb by lia.
        symmetry. apply Z.eqb_neq. exact Hne.
      + rewrite Z.bits_0. reflexivity. }
  rewrite Hbit, <- (Z.testbit_spec' a n) by lia.
  destruct (Z.testbit a n); simpl; lia.
Qed.

Lemma COUNTER_eq x : COUNTER x = u16 x mod 16384.
Proof.
  unfold COUNTER. change COUNTER_MAX with (Z.ones 14).
  rewrite Z.land_ones by lia. reflexivity.
Qed.

Lemma RESYNC_eq x : RESYNC x = (u16 x / 16384 mod 2) * 16384.
Proof.
  unfold RESYNC. change RESYNC_MASK with (2 ^ 14).
  rewrite land_pow2 by lia. reflexivity.
Qed.

Lemma NEEDED_eq x : NEEDED x = (u16 x / 32768 mod 2) * 32768.
Proof.
  unfold NEEDED. change NEEDED_MASK with (2 ^ 15).
  rewrite land_pow2 by lia. reflexivity.
Qed.

Lemma lor_pow2 a n :
  0 <= n -> Z.lor a (2 ^ n) = a + 2 ^ n - (a / 2 ^ n mod 2) * 2 ^ n.
Proof.
  intros Hn. pose proof (Z.add_lor_land a (2 ^ n)) as H.
  rewrite land_pow2 in H by lia. lia.
Qed.

Lemma land_lnot_pow2 a n :
  0 <= n -> Z.land a (Z.lnot (2 ^ n)) = a - (a / 2 ^ n mod 2) * 2 ^ n.
Proof.
  intros Hn. rewrite <- Z.ldiff_land.
  pose proof (Z.add_lor_land (Z.ldiff a (2 ^ n)) (Z.land a (2 ^ n))) as H.
  assert (Hor : Z.lor (Z.ldiff a (2 ^ n)) (Z.land a (2 ^ n)) = a).
  { apply Z.bits_inj'. intros m Hm.
    rewrite Z.lor_spec, Z.ldiff_spec, Z.land_spec.
    destruct (Z.testbit a m), (Z.testbit (2 ^ n) m); reflexivity. }
  assert (Hand : Z.land (Z.ldiff a (2 ^ n)) (Z.land a (2 ^ n)) = 0).
  { apply Z.bits_inj'. intros m Hm.
    rewrite Z.land_spec, Z.ldiff_spec, Z.land_spec, Z.bits_0.
    destruct (Z.testbit a m), (Z.testbit (2 ^ n) m); reflexivity. }
  rewrite Hor, Hand, land_pow2 in H by lia. lia.
Qed.

(** Every counter word keeps its count within the field. *)
Lemma COUNTER_range x : 0 <= COUNTER x <= COUNTER_MAX.
Proof.
  rewrite COUNTER_eq. change COUNTER_MAX with 16383.
  pose proof (Z.mod_pos_bound (u16 x) 16384 ltac:(lia)). lia.
Qed.

(** The three fields make up the word. *)
Lemma counter_fields x : u16 x = NEEDED x + RESYNC x + COUNTER x.
Proof.
  rewrite NEEDED_eq, RESYNC_eq, COUNTER_eq.
  pose proof (u16_range x). zdm.
Qed.

(** An increment below saturation stays inside the count field. *)
Lemma counter_incr c :
  COUNTER c <> COUNTER_MAX ->
  COUNTER (u16 c + 1) = COUNTER c + 1
  /\ NEEDED (u16 c + 1) = NEEDED c
  /\ RESYNC (u16 c + 1) = RESYNC c
  /\ u16 (u16 c + 1) = u16 c + 1.
Proof.
  rewrite !COUNTER_eq, !NEEDED_eq, !RESYNC_eq.
  change COUNTER_MAX with 16383.
  pose proof (u16_range c) as Hr.
  generalize dependent (u16 c). intros v Hv Hsat. unfold u16. zdm.
Qed.

(** A decrement of a word whose count is not zero stays inside the count
    field. *)
Lemma counter_decr c :
  COUNTER c <> 0 ->
  COUNTER (u16 c - 1) = COUNTER c - 1
  /\ NEEDED (u16 c - 1) = NEEDED c
  /\ RESYNC (u16 c - 1) = RESYNC c
  /\ u16 (u16 c - 1) = u16 c - 1.
Proof.
  rewrite !COUNTER_eq, !NEEDED_eq, !RESYNC_eq.
  pose proof (u16_range c) as Hr.
  generalize dependent (u16 c). intros v Hv Hsat. unfold u16. zdm.
Qed.

Lemma NEEDED_set c :
  NEEDED (Z.lor (u16 c) NEEDED_MASK) = NEEDED_MASK
  /\ RESYNC (Z.lor (u16 c) NEEDED_MASK) = RESYNC c
  /\ COUNTER (Z.lor (u16 c) NEEDED_MASK) = COUNTER c
  /\ u16 (Z.lor (u16 c) NEEDED_MASK) = Z.lor (u16 c) NEEDED_MASK.
Proof.
  change NEEDED_MASK with (2 ^ 15). rewrite lor_pow2 by lia.
  rewrite !COUNTER_eq, !NEEDED_eq, !RESYNC_eq.
  pose proof (u16_range c) as Hr.
  generalize dependent (u16 c). intros v Hv. unfold u16. zdm.
Qed.

(** ** The page-slot table *)

Lemma slot_set_slot c p s :
  (Z.to_nat p < length (bp c))%nat -> slot (set_slot c p s) p = s.
Proof.
  intros H. unfold slot, set_slot. simpl.
  rewrite list_lookup_insert_eq by exact H. reflexivity.
Qed.

Lemma slot_set_slot_ne c p q s :
  Z.to_nat p <> Z.to_nat q -> slot (set_slot c p s) q = slot c q.
Proof.
  intros H. unfold slot, set_slot. simpl.
  rewrite list_lookup_insert_ne by exact H. reflexivity.
Qed.

Lemma slot_set_missing_pages c n p : slot (set_missing_pages c n) p = slot c p.
Proof. reflexivity. Qed.

Lemma forallb_insert {A} (f : A -> bool) (l : list A) (i : nat) (x : A) :
  forallb f l = true -> f x = true -> forallb f (<[i := x]> l) = true.
Proof.
  revert i. induction l as [|a l IH]; intros i Hl Hx; [exact Hl|].
  simpl in Hl. apply andb_true_iff in Hl as [Ha Hl].
  destruct i as [|i]; simpl.
  - rewrite Hx, Hl. reflexivity.
  - rewrite Ha, IH by assumption. reflexivity.
Qed.

Lemma forallb_lookup {A} (f : A -> bool) (l : list A) (i : nat) (x : A) :
  forallb f l = true -> l !! i = Some x -> f x = true.
Proof.
  revert i. induction l as [|a l IH]; intros i Hl Hi; [discriminate|].
  simpl in Hl. apply andb_true_iff in Hl as [Ha Hl].
  destruct i as [|i]; simpl in Hi.
  - injection Hi as <-. exact Ha.
  - eapply IH; eassumption.
Qed.

Lemma counts_inv_length c :
  counts_inv c = true -> length (bp c) = Z.to_nat (pages c).
Proof.
  unfold counts_inv. intros H. apply andb_true_iff in H as [H _].
  apply Nat.eqb_eq in H. exact H.
Qed.

Lemma counts_inv_slot c p : counts_inv c = true -> slot_okb (slot c p) = true.
Proof.
  unfold counts_inv. intros H. apply andb_true_iff in H as [_ H].
  unfold slot. destruct (bp c !! Z.to_nat p) as [s|] eqn:E; simpl.
  - eapply forallb_lookup; eassumption.
  - reflexivity.
Qed.

Lemma counts_inv_set_slot c p s :
  counts_inv c = true -> slot_okb s = true -> counts_inv (set_slot c p s) = true.
Proof.
  unfold counts_inv, set_slot. simpl. intros H Hs.
  apply andb_true_iff in H as [Hl Hf].
  rewrite length_insert, Hl. simpl. apply forallb_insert; assumption.
Qed.

Lemma counts_inv_set_missing_pages c n :
  counts_inv (set_missing_pages c n) = counts_inv c.
Proof. reflexivity. Qed.

Lemma in_table c p :
  counts_inv c = true -> 0 <= p < pages c -> (Z.to_nat p < length (bp c))%nat.
Proof. intros H Hp. rewrite (counts_inv_length c H). lia. Qed.

Lemma page_of_nonneg c offset : 0 <= offset -> 0 <= page_of c offset.
Proof.
  intros H. unfold page_of. apply Z.shiftr_nonneg, Z.shiftr_nonneg. exact H.
Qed.

(** *** [bitmap_checkpage] *)

(** The slot that [bitmap_checkpage] leaves, in the four ways it can
    succeed or fail. *)
Lemma bitmap_checkpage_cases c page create kz :
  counts_inv c = true -> 0 <= page ->
  let '(err, c', kz') := bitmap_checkpage c page create kz in
  (pages c <= page /\ err = - EINVAL /\ c' = c /\ kz' = kz)
  \/ (page < pages c /\ err = 0 /\ c' = c /\ kz' = kz
      /\ (bp_hijacked (slot c page) = true
          \/ exists cells, bp_hijacked (slot c page) = false
                           /\ bp_map (slot c page) = MapPage cells))
  \/ (page < pages c /\ create = false /\ err = - ENOENT /\ c' = c /\ kz' = kz
      /\ bp_hijacked (slot c page) = false /\ bp_map (slot c page) = NULL)
  \/ (page < pages c /\ create = true /\ err = 0
      /\ bp_hijacked (slot c page) = false /\ bp_map (slot c page) = NULL
      /\ ((kzalloc kz = (None, kz')
           /\ c' = set_slot c page (with_hijacked (slot c page) true))
          \/ (kzalloc kz = (Some ∅, kz')
              /\ c' = set_missing_pages
                        (set_slot c page (with_map (slot c page) (MapPage ∅)))
                        (ulong (missing_pages c - 1))))).
Proof.
  intros Hinv Hp. unfold bitmap_checkpage.
  destruct (Z.leb_spec (pages c) page) as [Hge|Hlt].
  { left. auto. }
  pose proof (counts_inv_slot c page Hinv) as Hok. unfold slot_okb in Hok.
  destruct (bp_hijacked (slot c page)) eqn:Hh.
  { right. left. auto 10. }
  destruct (bp_map (slot c page)) as [c0 c1|cells] eqn:Hm; simpl in Hok |- *.
  2:{ right. left. repeat (split; [solve [auto]|]). right. exists cells. auto. }
  rewrite Hok. simpl.
  apply andb_true_iff in Hok as [H0 H1].
  apply Z.eqb_eq in H0, H1. subst c0 c1.
  destruct create; simpl.
  2:{ right. right. left. auto 10. }
  destruct kz as [|[|] kz0]; simpl; right; right; right; auto 12.
Qed.

(** [bitmap_checkpage] keeps the table well formed. *)
Lemma bitmap_checkpage_inv c page create kz :
  counts_inv c = true -> 0 <= page ->
  counts_inv (snd (fst (bitmap_checkpage c page create kz))) = true.
Proof.
  intros Hinv Hp.
  pose proof (bitmap_checkpage_cases c page create kz Hinv Hp) as H.
  destruct (bitmap_checkpage c page create kz) as [[err c'] kz']. simpl.
  destruct H as [H|[H|[H|H]]].
  - destruct H as (_ & _ & -> & _). exact Hinv.
  - destruct H as (_ & _ & -> & _). exact Hinv.
  - destruct H as (_ & _ & _ & -> & _). exact Hinv.
  - destruct H as (_ & _ & _ & Hh & Hm & [[_ ->]|[_ ->]]).
    + apply counts_inv_set_slot; [exact Hinv|].
      unfold slot_okb. simpl. rewrite Hm. reflexivity.
    + rewrite counts_inv_set_missing_pages.
      apply counts_inv_set_slot; [exact Hinv|].
      unfold slot_okb. simpl. rewrite Hh. reflexivity.
Qed.

(** *** [bitmap_checkfree] *)

Lemma bitmap_checkfree_inv c page :
  counts_inv c = true -> counts_inv (bitmap_checkfree c page) = true.
Proof.
  intros Hinv. unfold bitmap_checkfree.
  destruct (bp_count (slot c page) =? 0); simpl; [|exact Hinv].
  destruct (bp_hijacked (slot c page)) eqn:Hh.
  - apply counts_inv_set_slot; [exact Hinv|]. reflexivity.
  - rewrite counts_inv_set_missing_pages.
    apply counts_inv_set_slot; [exact Hinv|].
    unfold slot_okb. simpl. rewrite Hh. reflexivity.
Qed.

(** *** Counter cells *)

Lemma cell_okb_nonneg c bmc : cell_okb c bmc = true -> 0 <= cell_page bmc.
Proof.
  unfold cell_okb. intros H. apply andb_true_iff in H as [H _].
  apply andb_true_iff in H as [H _]. apply andb_true_iff in H as [H _].
  apply Z.leb_le in H. exact H.
Qed.

Lemma cell_okb_in_table c bmc :
  cell_okb c bmc = true -> (Z.to_nat (cell_page bmc) < length (bp c))%nat.
Proof.
  unfold cell_okb. intros H. apply andb_true_iff in H as [H _].
  apply andb_true_iff in H as [H _]. apply andb_true_iff in H as [_ H].
  apply Nat.ltb_lt in H. exact H.
Qed.

Lemma cell_okb_fits c bmc :
  cell_okb c bmc = true -> cell_fits bmc (bp_map (slot c (cell_page bmc))) = true.
Proof.
  unfold cell_okb. intros H. apply andb_true_iff in H as [H _].
  apply andb_true_iff in H as [_ H]. exact H.
Qed.

Lemma cell_okb_hijacked c bmc :
  cell_okb c bmc = true ->
  bp_hijacked (slot c (cell_page bmc)) = cell_inline bmc.
Proof.
  unfold cell_okb. intros H. apply andb_true_iff in H as [_ H].
  apply eqb_prop in H. symmetry. exact H.
Qed.

Lemma read_write_map m bmc v :
  cell_fits bmc m = true -> read_map (write_map m bmc v) bmc = u16 v.
Proof.
  destruct bmc as [p [|]|p off], m as [c0 c1|cells]; simpl; try discriminate;
    intros _; try apply u16_u16.
  rewrite lookup_insert_eq. simpl. apply u16_u16.
Qed.

Lemma cell_fits_write_map m bmc v :
  cell_fits bmc (write_map m bmc v) = cell_fits bmc m.
Proof. destruct bmc as [p [|]|p off], m; reflexivity. Qed.

(** Reading back what was stored. *)
Lemma read_write_counter c bmc v :
  cell_okb c bmc = true ->
  read_counter (write_counter c bmc v) bmc = u16 v.
Proof.
  intros H. unfold read_counter, write_counter.
  rewrite slot_set_slot by (apply cell_okb_in_table; exact H).
  simpl. apply read_write_map. apply cell_okb_fits. exact H.
Qed.

Lemma read_counter_range c bmc : 0 <= read_counter c bmc < 65536.
Proof.
  unfold read_counter, read_map.
  destruct bmc as [p [|]|p off], (bp_map (slot c _)); try apply u16_range; lia.
Qed.

Lemma read_counter_u16 c bmc : u16 (read_counter c bmc) = read_counter c bmc.
Proof. apply u16_small, read_counter_range. Qed.

(** The slot of a cell after a store: only the [map] member moves. *)
Lemma slot_write_counter c bmc v :
  cell_okb c bmc = true ->
  slot (write_counter c bmc v) (cell_page bmc)
  = with_map (slot c (cell_page bmc))
      (write_map (bp_map (slot c (cell_page bmc))) bmc v).
Proof.
  intros H. unfold write_counter.
  apply slot_set_slot, cell_okb_in_table, H.
Qed.

Lemma cell_okb_write_counter c bmc v :
  cell_okb c bmc = true -> cell_okb (write_counter c bmc v) bmc = true.
Proof.
  intros H. unfold cell_okb.
  rewrite slot_write_counter by exact H.
  unfold write_counter at 1. simpl. rewrite length_insert.
  rewrite cell_fits_write_map.
  exact H.
Qed.

Lemma counts_inv_write_counter c bmc v :
  counts_inv c = true -> cell_okb c bmc = true ->
  counts_inv (write_counter c bmc v) = true.
Proof.
  intros Hinv H. unfold write_counter.
  apply counts_inv_set_slot; [exact Hinv|].
  unfold slot_okb. simpl.
  pose proof (cell_okb_fits c bmc H) as Hf.
  pose proof (cell_okb_hijacked c bmc H) as Hh.
  destruct bmc as [p [|]|p off], (bp_map (slot c _)); simpl in *;
    try discriminate; rewrite Hh; reflexivity.
Qed.

(** Members of the table that a store leaves alone. *)
Lemma write_counter_fields c bmc v :
  pages (write_counter c bmc v) = pages c
  /\ missing_pages (write_counter c bmc v) = missing_pages c
  /\ chunkshift (write_counter c bmc v) = chunkshift c
  /\ chunks (write_counter c bmc v) = chunks c.
Proof. repeat split. Qed.

Lemma slot_write_counter_members c bmc v p :
  bp_hijacked (slot (write_counter c bmc v) p) = bp_hijacked (slot c p)
  /\ bp_pending (slot (write_counter c bmc v) p) = bp_pending (slot c p)
  /\ bp_count (slot (write_counter c bmc v) p) = bp_count (slot c p).
Proof.
  unfold write_counter.
  destruct (Nat.eq_dec (Z.to_nat (cell_page bmc)) (Z.to_nat p)) as [E|E].
  - unfold slot, set_slot. simpl. rewrite <- E.
    destruct (Nat.lt_ge_cases (Z.to_nat (cell_page bmc)) (length (bp c))).
    + rewrite list_lookup_insert_eq by assumption. simpl. repeat split.
    + rewrite list_insert_ge by assumption. repeat split.
  - rewrite slot_set_slot_ne by exact E. repeat split.
Qed.

(** A read only looks at the [map] member of the slot of the cell. *)
Lemma read_counter_frame c c' bmc :
  bp_map (slot c' (cell_page bmc)) = bp_map (slot c (cell_page bmc)) ->
  read_counter c' bmc = read_counter c bmc.
Proof. unfold read_counter. intros ->. reflexivity. Qed.

Lemma cell_okb_frame c c' bmc :
  length (bp c') = length (bp c) ->
  bp_map (slot c' (cell_page bmc)) = bp_map (slot c (cell_page bmc)) ->
  bp_hijacked (slot c' (cell_page bmc)) = bp_hijacked (slot c (cell_page bmc)) ->
  cell_okb c' bmc = cell_okb c bmc.
Proof. unfold cell_okb. intros -> -> ->. reflexivity. Qed.

(** *** [bitmap_set_pending] and [bitmap_count_page] *)

Lemma bitmap_set_pending_slot c offset :
  (Z.to_nat (page_of c offset) < length (bp c))%nat ->
  slot (bitmap_set_pending c offset) (page_of c offset)
  = with_pending (slot c (page_of c offset)) true.
Proof.
  intros H. unfold bitmap_set_pending. fold (page_of c offset).
  destruct (bp_pending (slot c (page_of c offset))) eqn:E; simpl.
  - destruct (slot c (page_of c offset)); simpl in *. subst. reflexivity.
  - apply slot_set_slot. exact H.
Qed.

Lemma bitmap_set_pending_fields c offset :
  pages (bitmap_set_pending c offset) = pages c
  /\ missing_pages (bitmap_set_pending c offset) = missing_pages c
  /\ chunkshift (bitmap_set_pending c offset) = chunkshift c
  /\ chunks (bitmap_set_pending c offset) = chunks c
  /\ length (bp (bitmap_set_pending c offset)) = length (bp c).
Proof.
  unfold bitmap_set_pending.
  destruct (negb _); simpl; rewrite ?length_insert; repeat split.
Qed.

Lemma bitmap_set_pending_members c offset p :
  bp_map (slot (bitmap_set_pending c offset) p) = bp_map (slot c p)
  /\ bp_hijacked (slot (bitmap_set_pending c offset) p) = bp_hijacked (slot c p)
  /\ bp_count (slot (bitmap_set_pending c offset) p) = bp_count (slot c p).
Proof.
  unfold bitmap_set_pending. fold (page_of c offset).
  destruct (negb _); [|repeat split].
  destruct (Nat.eq_dec (Z.to_nat (page_of c offset)) (Z.to_nat p)) as [E|E].
  - unfold slot, set_slot. simpl. rewrite <- E.
    destruct (Nat.lt_ge_cases (Z.to_nat (page_of c offset)) (length (bp c))).
    + rewrite list_lookup_insert_eq by assumption. simpl. repeat split.
    + rewrite list_insert_ge by assumption. repeat split.
  - rewrite slot_set_slot_ne by exact E. repeat split.
Qed.

Lemma bitmap_set_pending_inv c offset :
  counts_inv c = true -> counts_inv (bitmap_set_pending c offset) = true.
Proof.
  intros Hinv. unfold bitmap_set_pending.
  destruct (negb _); [|exact Hinv].
  apply counts_inv_set_slot; [exact Hinv|].
  pose proof (counts_inv_slot c
    (Z.shiftr (Z.shiftr offset (chunkshift c)) PAGE_COUNTER_SHIFT) Hinv) as H.
  unfold slot_okb in *. simpl. exact H.
Qed.

(** When the count does not reach zero, [bitmap_count_page] only moves
    the [count] member. *)
Lemma bitmap_count_page_keep c offset inc :
  (Z.to_nat (page_of c offset) < length (bp c))%nat ->
  bp_count (slot c (page_of c offset)) + inc <> 0 ->
  bitmap_count_page c offset inc
  = set_slot c (page_of c offset)
      (with_count (slot c (page_of c offset))
         (bp_count (slot c (page_of c offset)) + inc)).
Proof.
  intros Hl Hne. unfold bitmap_count_page. fold (page_of c offset).
  unfold bitmap_checkfree. rewrite slot_set_slot by exact Hl. simpl.
  apply Z.eqb_neq in Hne. rewrite Hne. reflexivity.
Qed.

Lemma bitmap_count_page_inv c offset inc :
  counts_inv c = true -> counts_inv (bitmap_count_page c offset inc) = true.
Proof.
  intros Hinv. unfold bitmap_count_page.
  apply bitmap_checkfree_inv, counts_inv_set_slot; [exact Hinv|].
  pose proof (counts_inv_slot c
    (Z.shiftr (Z.shiftr offset (chunkshift c)) PAGE_COUNTER_SHIFT) Hinv) as H.
  unfold slot_okb in *. simpl. exact H.
Qed.

Lemma bitmap_count_page_fields c offset inc :
  pages (bitmap_count_page c offset inc) = pages c
  /\ chunkshift (bitmap_count_page c offset inc) = chunkshift c
  /\ chunks (bitmap_count_page c offset inc) = chunks c
  /\ length (bp (bitmap_count_page c offset inc)) = length (bp c).
Proof.
  unfold bitmap_count_page, bitmap_checkfree.
  destruct (negb _); [|destruct (bp_hijacked _)]; simpl;
    rewrite ?length_insert; repeat split.
Qed.

(** *** [bitmap_get_counter] *)

Lemma bitmap_get_counter_unfold c offset create kz :
  bitmap_get_counter c offset create kz
  = let page := page_of c offset in
    let pageoff := pageoff_of c offset in
    let '(err, c', kz') := bitmap_checkpage c page create kz in
    let csize := get_counter_csize (chunkshift c') (slot c' page) in
    let blocks := sector_t (csize - Z.land offset (sector_t (csize - 1))) in
    mk_gc
      (if err <? 0 then None
       else if bp_hijacked (slot c' page)
            then Some (InlineCell page (PAGE_COUNTER_MASK <? pageoff))
            else Some (PageCell page pageoff))
      blocks c' kz'.
Proof.
  unfold bitmap_get_counter, page_of, pageoff_of.
  destruct (bitmap_checkpage _ _ _ _) as [[err c'] kz']. simpl.
  destruct (err <? 0); [reflexivity|].
  destruct (bp_hijacked _); reflexivity.
Qed.

(** Without [create] the table and the script are left as they are. *)
Lemma bitmap_get_counter_nocreate c offset kz :
  gc_counts (bitmap_get_counter c offset false kz) = c
  /\ gc_kz (bitmap_get_counter c offset false kz) = kz.
Proof.
  rewrite bitmap_get_counter_unfold. unfold bitmap_checkpage. simpl.
  destruct (pages c <=? page_of c offset); [split; reflexivity|].
  destruct (bp_hijacked _); [split; reflexivity|].
  destruct (negb _); split; reflexivity.
Qed.

(** What a non-NULL result designates. *)
Lemma bitmap_get_counter_some c offset create kz bmc :
  counts_inv c = true -> 0 <= offset ->
  gc_bmc (bitmap_get_counter c offset create kz) = Some bmc ->
  let c' := gc_counts (bitmap_get_counter c offset create kz) in
  counts_inv c' = true
  /\ cell_okb c' bmc = true
  /\ cell_page bmc = page_of c offset
  /\ 0 <= page_of c offset < pages c
  /\ pages c' = pages c /\ chunkshift c' = chunkshift c
  /\ chunks c' = chunks c /\ length (bp c') = length (bp c)
  /\ bp_count (slot c' (page_of c offset)) = bp_count (slot c (page_of c offset))
  /\ bp_pending (slot c' (page_of c offset))
     = bp_pending (slot c (page_of c offset))
  /\ (forall q, Z.to_nat q <> Z.to_nat (page_of c offset) ->
                slot c' q = slot c q).
Proof.
  intros Hinv Hoff.
  pose proof (page_of_nonneg c offset Hoff) as Hp.
  assert (Hp' : (0 <=? page_of c offset) = true) by (apply Z.leb_le; exact Hp).
  pose proof (bitmap_checkpage_cases c (page_of c offset) create kz Hinv Hp) as H.
  pose proof (bitmap_checkpage_inv c (page_of c offset) create kz Hinv Hp) as Hinv'.
  rewrite bitmap_get_counter_unfold. cbv zeta.
  destruct (bitmap_checkpage c (page_of c offset) create kz) as [[err c'] kz'].
  simpl in Hinv' |- *.
  destruct H as [H|[H|[H|H]]].
  - destruct H as (_ & -> & _). simpl. discriminate.
  - destruct H as (Hlt & -> & -> & _ & Hs). simpl.
    assert (Hl : (Z.to_nat (page_of c offset) < length (bp c))%nat)
      by (apply in_table; [exact Hinv|lia]).
    apply Nat.ltb_lt in Hl.
    destruct Hs as [Hh|(cells & Hh & Hm)]; rewrite Hh; intros [= <-].
    + repeat split; try assumption; try lia.
      unfold cell_okb. simpl. rewrite Hp'. rewrite Hl, Hh. simpl.
      pose proof (counts_inv_slot c (page_of c offset) Hinv) as Hok.
      unfold slot_okb in Hok. rewrite Hh in Hok.
      destruct (bp_map (slot c (page_of c offset))); [reflexivity|discriminate].
    + repeat split; try assumption; try lia.
      unfold cell_okb. simpl. rewrite Hp'. rewrite Hl, Hh, Hm. reflexivity.
  - destruct H as (_ & _ & -> & _). simpl. discriminate.
  - destruct H as (Hlt & _ & -> & Hh & Hm & Hc). simpl.
    assert (Hl : (Z.to_nat (page_of c offset) < length (bp c))%nat)
      by (apply in_table; [exact Hinv|lia]).
    destruct Hc as [[_ ->]|[_ ->]].
    + rewrite slot_set_slot by exact Hl. simpl. intros [= <-].
      repeat split; try assumption; try lia.
      * unfold cell_okb. simpl. rewrite Hp'. rewrite length_insert.
        apply Nat.ltb_lt in Hl. rewrite Hl.
        rewrite slot_set_slot by (apply Nat.ltb_lt; exact Hl).
        simpl. rewrite Hm. reflexivity.
      * simpl. apply length_insert.
      * intros q Hq. apply slot_set_slot_ne. congruence.
    + rewrite slot_set_missing_pages, slot_set_slot by exact Hl. simpl.
      rewrite Hh. intros [= <-].
      repeat split; try assumption; try lia.
      * unfold cell_okb. simpl. rewrite Hp'. rewrite length_insert.
        apply Nat.ltb_lt in Hl. rewrite Hl.
        rewrite slot_set_missing_pages.
        rewrite slot_set_slot by (apply Nat.ltb_lt; exact Hl).
        simpl. rewrite Hh. reflexivity.
      * simpl. apply length_insert.
      * intros q Hq. rewrite slot_set_missing_pages.
        apply slot_set_slot_ne. congruence.
Qed.

(** The table stays well formed whatever the result. *)
Lemma bitmap_get_counter_inv c offset create kz :
  counts_inv c = true -> 0 <= offset ->
  counts_inv (gc_counts (bitmap_get_counter c offset create kz)) = true.
Proof.
  intros Hinv Hoff.
  pose proof (bitmap_checkpage_inv c (page_of c offset) create kz Hinv
                (page_of_nonneg c offset Hoff)) as H.
  rewrite bitmap_get_counter_unfold. cbv zeta.
  destruct (bitmap_checkpage c (page_of c offset) create kz) as [[err c'] kz'].
  exact H.
Qed.

(** A counter that exists is found again, with or without [create], and
    nothing is allocated for it. *)
Lemma bitmap_get_counter_existing c offset create kz bmc :
  counts_inv c = true -> 0 <= offset ->
  cell_okb c bmc = true ->
  gc_bmc (bitmap_get_counter c offset false kz) = Some bmc ->
  bitmap_get_counter c offset create kz = bitmap_get_counter c offset false kz.
Proof.
  intros Hinv Hoff Hok.
  rewrite !bitmap_get_counter_unfold. cbv zeta.
  unfold bitmap_checkpage.
  destruct (pages c <=? page_of c offset); [reflexivity|].
  destruct (bp_hijacked (slot c (page_of c offset))) eqn:Hh; [reflexivity|].
  destruct (negb (map_is_null _)) eqn:Hn; [reflexivity|].
  simpl. discriminate.
Qed.

Lemma sector_t_small x : 0 <= x < 2 ^ 64 -> sector_t x = x.
Proof. intros H. unfold sector_t. apply Z.mod_small. exact H. Qed.

Lemma ulong_small x : 0 <= x < 2 ^ 64 -> ulong x = x.
Proof. intros H. unfold ulong. apply Z.mod_small. exact H. Qed.

Lemma sector_t_range x : 0 <= sector_t x < 2 ^ 64.
Proof. unfold sector_t. apply Z.mod_pos_bound. lia. Qed.

Lemma shiftl_1_sector k : 0 <= k < 64 -> sector_t (Z.shiftl 1 k) = 2 ^ k.
Proof.
  intros H. rewrite Z.shiftl_1_l. apply sector_t_small.
  split; [apply Z.pow_nonneg; lia|].
  apply Z.pow_lt_mono_r; lia.
Qed.

(** The stride from [offset] to the end of a span of [2 ^ k] sectors. *)
Lemma span_blocks k offset :
  0 <= k < 64 -> 0 <= offset ->
  sector_t (2 ^ k - Z.land offset (sector_t (2 ^ k - 1)))
  = 2 ^ k - offset mod 2 ^ k
  /\ 1 <= 2 ^ k - offset mod 2 ^ k <= 2 ^ k.
Proof.
  intros Hk Hoff.
  assert (Hpow : 0 < 2 ^ k < 2 ^ 64).
  { split; [apply Z.pow_pos_nonneg; lia|apply Z.pow_lt_mono_r; lia]. }
  rewrite (sector_t_small (2 ^ k - 1)) by lia.
  replace (2 ^ k - 1) with (Z.ones k) by (rewrite Z.ones_equiv; lia).
  rewrite Z.land_ones by lia.
  pose proof (Z.mod_pos_bound offset (2 ^ k) ltac:(lia)) as Hm.
  split; [apply sector_t_small|]; lia.
Qed.

(** C7.  For every call of [bitmap_get_counter] (on a chunk shift and an
    offset in the range of their types): the span [csize] is
    [1 << (chunkshift + PAGE_COUNTER_SHIFT - 1)] when the slot, as
    [bitmap_checkpage] leaves it, is hijacked or has a NULL map, and
    [1 << chunkshift] otherwise; [*blocks] is
    [csize - (offset & (csize - 1))] in all cases, also when NULL is
    returned; and for a hijacked slot of the table the pointer returned is
    the inline counter numbered [pageoff > PAGE_COUNTER_MASK]. *)
Theorem bitmap_get_counter_span c offset create kz :
  0 <= chunkshift c -> chunkshift c + PAGE_COUNTER_SHIFT - 1 < 64 ->
  0 <= offset ->
  let r := bitmap_get_counter c offset create kz in
  let chunk := Z.shiftr offset (chunkshift c) in
  let page := Z.shiftr chunk PAGE_COUNTER_SHIFT in
  let pageoff := Z.shiftl (Z.land chunk PAGE_COUNTER_MASK) COUNTER_BYTE_SHIFT in
  let s := slot (gc_counts r) page in
  let csize :=
    if bp_hijacked s || map_is_null (bp_map s)
    then Z.shiftl 1 (chunkshift c + PAGE_COUNTER_SHIFT - 1)
    else Z.shiftl 1 (chunkshift c) in
  gc_blocks r = csize - Z.land offset (csize - 1)
  /\ 1 <= gc_blocks r <= csize
  /\ (bp_hijacked s = true -> page < pages c ->
      gc_bmc r = Some (InlineCell page (PAGE_COUNTER_MASK <? pageoff))).
Proof.
  intros Hs Hs' Hoff. cbv zeta.
  fold (page_of c offset). fold (pageoff_of c offset).
  rewrite bitmap_get_counter_unfold. cbv zeta.
  assert (Hshift : forall err c' kz',
             bitmap_checkpage c (page_of c offset) create kz = (err, c', kz') ->
             chunkshift c' = chunkshift c
             /\ (bp_hijacked (slot c' (page_of c offset)) = true ->
                 page_of c offset < pages c -> (err <? 0) = false)).
  { unfold bitmap_checkpage. intros err c' kz'.
    destruct (Z.leb_spec (pages c) (page_of c offset)).
    { intros [= <- <- <-]. split; [reflexivity|lia]. }
    destruct (bp_hijacked (slot c (page_of c offset))) eqn:Hh.
    { intros [= <- <- <-]. split; reflexivity. }
    destruct (negb (map_is_null _)) eqn:Hn.
    { intros [= <- <- <-]. split; reflexivity. }
    destruct create; simpl.
    2:{ intros [= <- <- <-]. split; [reflexivity|]. rewrite Hh. discriminate. }
    apply negb_false_iff in Hn. rewrite Hn. simpl.
    destruct (kzalloc kz) as [[cells|] kz0]; intros [= <- <- <-];
      split; reflexivity. }
  destruct (bitmap_checkpage c (page_of c offset) create kz)
    as [[err c'] kz'] eqn:Hcp.
  destruct (Hshift err c' kz' eq_refl) as [Hcs Herr]. simpl.
  unfold get_counter_csize. rewrite Hcs.
  set (k := if bp_hijacked (slot c' (page_of c offset))
                 || map_is_null (bp_map (slot c' (page_of c offset)))
            then chunkshift c + PAGE_COUNTER_SHIFT - 1
            else chunkshift c).
  assert (Hk : 0 <= k < 64).
  { subst k. change PAGE_COUNTER_SHIFT with 11 in *.
    destruct (_ || _); lia. }
  assert (Hcsize :
    (if bp_hijacked (slot c' (page_of c offset))
        || map_is_null (bp_map (slot c' (page_of c offset)))
     then sector_t (Z.shiftl 1 (chunkshift c + PAGE_COUNTER_SHIFT - 1))
     else sector_t (Z.shiftl 1 (chunkshift c))) = 2 ^ k).
  { subst k. destruct (_ || _); apply shiftl_1_sector; assumption. }
  rewrite Hcsize.
  assert (Hplain :
    (if bp_hijacked (slot c' (page_of c offset))
        || map_is_null (bp_map (slot c' (page_of c offset)))
     then Z.shiftl 1 (chunkshift c + PAGE_COUNTER_SHIFT - 1)
     else Z.shiftl 1 (chunkshift c)) = 2 ^ k).
  { subst k. destruct (_ || _); apply Z.shiftl_1_l. }
  rewrite Hplain.
  destruct (span_blocks k offset Hk Hoff) as [Hb Hr].
  rewrite Hb.
  replace (2 ^ k - 1) with (Z.ones k) by (rewrite Z.ones_equiv; lia).
  rewrite Z.land_ones by lia.
  split; [reflexivity|]. split; [exact Hr|].
  intros Hh Hlt. rewrite (Herr Hh Hlt), Hh. reflexivity.
Qed.

(** ** File bits *)

Lemma bitmap_file_set_bit_frame b block :
  counts (bitmap_file_set_bit b block) = counts b
  /\ flags (bitmap_file_set_bit b block) = flags b
  /\ allclean (bitmap_file_set_bit b block) = allclean b
  /\ need_sync (bitmap_file_set_bit b block) = need_sync b
  /\ kz_script (bitmap_file_set_bit b block) = kz_script b
  /\ log (bitmap_file_set_bit b block) = log b
  /\ mddev (bitmap_file_set_bit b block) = mddev b
  /\ events_cleared (bitmap_file_set_bit b block) = events_cleared b.
Proof.
  unfold bitmap_file_set_bit.
  destruct (filemap_get_page _ _); [|repeat split].
  destruct (filemap_page _ _); repeat split.
Qed.

Lemma filemap_page_set_filemap_page store k pg pg' :
  filemap_page store k = Some pg ->
  filemap_page (set_filemap_page store k pg') k = Some pg'.
Proof.
  unfold filemap_page, set_filemap_page.
  destruct (filemap store) as [fm|] eqn:E; [|discriminate].
  intros H. simpl. apply list_lookup_insert_eq.
  apply lookup_lt_Some in H. exact H.
Qed.

Lemma set_filemap_page_frame store k pg :
  sb_page (set_filemap_page store k pg) = sb_page store
  /\ file_pages (set_filemap_page store k pg) = file_pages store
  /\ filemap_attr (set_filemap_page store k pg) = filemap_attr store.
Proof.
  unfold set_filemap_page. destruct (filemap store); repeat split.
Qed.

Lemma file_page_offset_nonneg store chunk : 0 <= file_page_offset store chunk.
Proof.
  unfold file_page_offset. apply Z.land_nonneg. right.
  change (PAGE_BITS - 1) with 32767. lia.
Qed.

Lemma filemap_get_page_ext s s' chunk :
  sb_page s' = sb_page s -> file_pages s' = file_pages s ->
  filemap_get_page s' chunk = filemap_get_page s chunk.
Proof.
  intros H1 H2. unfold filemap_get_page, file_page_index. rewrite H1, H2.
  reflexivity.
Qed.

Lemma file_page_offset_ext s s' chunk :
  sb_page s' = sb_page s -> file_page_offset s' chunk = file_page_offset s chunk.
Proof. intros H1. unfold file_page_offset. rewrite H1. reflexivity. Qed.

(** When the image has a page for the chunk, [bitmap_file_set_bit] sets
    the chunk's bit in it and marks the page DIRTY. *)
Lemma bitmap_file_set_bit_sets b block k pg :
  filemap_get_page (storage b) (Z.shiftr block (chunkshift (counts b))) = Some k ->
  filemap_page (storage b) k = Some pg ->
  0 <= pg_index pg ->
  file_test_bit (bitmap_file_set_bit b block)
    (Z.shiftr block (chunkshift (counts b))) = true
  /\ test_page_attr (bitmap_file_set_bit b block) (pg_index pg)
       BITMAP_PAGE_DIRTY = true.
Proof.
  intros Hk Hpg Hidx. unfold bitmap_file_set_bit. rewrite Hk, Hpg.
  set (chunk := Z.shiftr block (chunkshift (counts b))) in *.
  set (off := file_page_offset (storage b) chunk).
  set (pg' := mk_pg (pg_index pg)
                (if test_flag BITMAP_HOSTENDIAN (flags b)
                 then set_bit off (pg_data pg)
                 else set_bit_le off (pg_data pg))).
  destruct (set_filemap_page_frame (storage b) k pg') as (Hsb & Hfp & _).
  pose proof (filemap_page_set_filemap_page (storage b) k pg pg' Hpg) as Hpg'.
  split.
  - unfold file_test_bit. simpl.
    rewrite (filemap_get_page_ext (storage b)) by (simpl; assumption).
    rewrite (file_page_offset_ext (storage b)) by (simpl; assumption).
    rewrite Hk.
    unfold filemap_page in Hpg' |- *. simpl. rewrite Hpg'.
    fold off. subst pg'. simpl.
    assert (Hn : 0 <= off) by apply file_page_offset_nonneg.
    destruct (fl_hostendian (flags b));
      unfold test_bit_le, set_bit_le, test_bit, set_bit;
      rewrite ?Z.lxor_0_r; apply Z.setbit_eq; exact Hn.
  - unfold test_page_attr, set_page_attr, test_bit, set_bit. simpl.
    apply Z.setbit_eq.
    rewrite Z.shiftl_mul_pow2 by lia. change BITMAP_PAGE_DIRTY with 0. lia.
Qed.

(** ** [bitmap_startwrite] *)

Lemma NEEDED_small c : 0 <= c < 16384 -> NEEDED c = 0 /\ RESYNC c = 0 /\ COUNTER c = c.
Proof.
  intros H. rewrite NEEDED_eq, RESYNC_eq, COUNTER_eq.
  rewrite (u16_small c) by lia. zdm.
Qed.

(** What [bitmap_get_counter] leaves of the bitmap. *)
Lemma after_get_counter_frame b r :
  counts (after_get_counter b r) = gc_counts r
  /\ kz_script (after_get_counter b r) = gc_kz r
  /\ storage (after_get_counter b r) = storage b
  /\ flags (after_get_counter b r) = flags b
  /\ allclean (after_get_counter b r) = allclean b
  /\ need_sync (after_get_counter b r) = need_sync b
  /\ log (after_get_counter b r) = log b.
Proof. repeat split. Qed.

(** [bitmap_count_page] on the page of a cell, when the count does not
    reach zero: the cell and its value stay, the count moves. *)
Lemma bitmap_count_page_cell c offset inc bmc :
  cell_okb c bmc = true -> page_of c offset = cell_page bmc ->
  bp_count (slot c (cell_page bmc)) + inc <> 0 ->
  cell_okb (bitmap_count_page c offset inc) bmc = true
  /\ read_counter (bitmap_count_page c offset inc) bmc = read_counter c bmc
  /\ bp_count (slot (bitmap_count_page c offset inc) (cell_page bmc))
     = bp_count (slot c (cell_page bmc)) + inc.
Proof.
  intros Hok Hpg Hne.
  pose proof (cell_okb_in_table c bmc Hok) as Hl.
  rewrite bitmap_count_page_keep by (rewrite Hpg; assumption).
  rewrite Hpg.
  assert (Hs : slot (set_slot c (cell_page bmc)
                       (with_count (slot c (cell_page bmc))
                          (bp_count (slot c (cell_page bmc)) + inc)))
                 (cell_page bmc)
               = with_count (slot c (cell_page bmc))
                   (bp_count (slot c (cell_page bmc)) + inc))
    by (apply slot_set_slot; exact Hl).
  split; [|split].
  - rewrite <- Hok. apply cell_okb_frame.
    + simpl. apply length_insert.
    + rewrite Hs. reflexivity.
    + rewrite Hs. reflexivity.
  - apply read_counter_frame. rewrite Hs. reflexivity.
  - rewrite Hs. reflexivity.
Qed.

(** [bitmap_set_pending] on the page of a cell. *)
Lemma bitmap_set_pending_cell c offset bmc :
  cell_okb c bmc = true -> page_of c offset = cell_page bmc ->
  cell_okb (bitmap_set_pending c offset) bmc = true
  /\ read_counter (bitmap_set_pending c offset) bmc = read_counter c bmc
  /\ bp_pending (slot (bitmap_set_pending c offset) (cell_page bmc)) = true
  /\ bp_count (slot (bitmap_set_pending c offset) (cell_page bmc))
     = bp_count (slot c (cell_page bmc)).
Proof.
  intros Hok Hpg.
  pose proof (cell_okb_in_table c bmc Hok) as Hl.
  destruct (bitmap_set_pending_members c offset (cell_page bmc)) as (Hm & Hh & Hn).
  destruct (bitmap_set_pending_fields c offset) as (_ & _ & _ & _ & Hlen).
  split; [|split; [|split]].
  - rewrite <- Hok. apply cell_okb_frame; assumption.
  - apply read_counter_frame. exact Hm.
  - rewrite <- Hpg. rewrite bitmap_set_pending_slot by (rewrite Hpg; exact Hl).
    reflexivity.
  - exact Hn.
Qed.

(** A store into a cell, and what it leaves of the slot. *)
Lemma store_cell c bmc v :
  cell_okb c bmc = true ->
  cell_okb (write_counter c bmc v) bmc = true
  /\ read_counter (write_counter c bmc v) bmc = u16 v
  /\ bp_count (slot (write_counter c bmc v) (cell_page bmc))
     = bp_count (slot c (cell_page bmc))
  /\ bp_pending (slot (write_counter c bmc v) (cell_page bmc))
     = bp_pending (slot c (cell_page bmc)).
Proof.
  intros Hok.
  destruct (slot_write_counter_members c bmc v (cell_page bmc)) as (_ & Hp & Hn).
  split; [|split; [|split]].
  - apply cell_okb_write_counter. exact Hok.
  - apply read_write_counter. exact Hok.
  - exact Hn.
  - exact Hp.
Qed.

(** C1.  One pass of the loop of [bitmap_startwrite] on a counter that is
    not saturated ([COUNTER( *bmc) != COUNTER_MAX]), in a well-formed table
    whose page count is not about to wrap.  If the counter is 0, the
    on-disk bit is set by [bitmap_file_set_bit], the count of the page
    slot goes up by one through [bitmap_count_page] and the counter
    becomes 3; if it is 1 it becomes 3; otherwise it goes up by exactly
    one.  The NEEDED and RESYNC bits are unchanged in all three cases. *)
Theorem startwrite_step_counter b offset bmc :
  counts_inv (counts b) = true -> 0 <= offset ->
  gc_bmc (get_counter b offset true) = Some bmc ->
  let r := get_counter b offset true in
  let b0 := after_get_counter b r in
  let c := read_counter (counts b0) bmc in
  let n := bp_count (slot (counts b0) (cell_page bmc)) in
  let b' := fst (startwrite_step b offset) in
  COUNTER c <> COUNTER_MAX ->
  n <> -1 ->
  snd (startwrite_step b offset) = StepNext (gc_blocks r)
  /\ NEEDED (read_counter (counts b') bmc) = NEEDED c
  /\ RESYNC (read_counter (counts b') bmc) = RESYNC c
  /\ (c = 0 ->
      read_counter (counts b') bmc = 3
      /\ bp_count (slot (counts b') (cell_page bmc)) = n + 1
      /\ storage b' = storage (bitmap_file_set_bit b0 offset)
      /\ (forall k pg,
            filemap_get_page (storage b)
              (Z.shiftr offset (chunkshift (counts b))) = Some k ->
            filemap_page (storage b) k = Some pg ->
            0 <= pg_index pg ->
            file_test_bit b' (Z.shiftr offset (chunkshift (counts b))) = true
            /\ test_page_attr b' (pg_index pg) BITMAP_PAGE_DIRTY = true))
  /\ (c = 1 ->
      read_counter (counts b') bmc = 3
      /\ bp_count (slot (counts b') (cell_page bmc)) = n
      /\ storage b' = storage b)
  /\ (c <> 0 -> c <> 1 ->
      read_counter (counts b') bmc = c + 1
      /\ COUNTER (read_counter (counts b') bmc) = COUNTER c + 1
      /\ bp_count (slot (counts b') (cell_page bmc)) = n
      /\ storage b' = storage b).
Proof.
  intros Hinv Hoff Hbmc. cbv zeta. unfold startwrite_step.
  destruct (bitmap_get_counter_some (counts b) offset true (kz_script b) bmc
              Hinv Hoff Hbmc)
    as (Hinv0 & Hok & Hpage & Hrange & _ & Hshift & _).
  fold (get_counter b offset true) in Hinv0, Hok, Hshift.
  remember (get_counter b offset true) as r eqn:Hr.
  rewrite Hbmc.
  remember (after_get_counter b r) as b0 eqn:Hb0.
  assert (Hc0 : counts b0 = gc_counts r) by (subst b0; reflexivity).
  assert (Hs0 : storage b0 = storage b) by (subst b0; reflexivity).
  rewrite <- Hc0 in Hinv0, Hok, Hshift.
  remember (read_counter (counts b0) bmc) as c eqn:Hc.
  intros Hsat Hn.
  apply Z.eqb_neq in Hsat. rewrite Hsat.
  pose proof (read_counter_range (counts b0) bmc) as Hcr. rewrite <- Hc in Hcr.
  assert (Hpg : page_of (counts b0) offset = cell_page bmc).
  { rewrite Hpage. unfold page_of. rewrite Hshift. reflexivity. }
  destruct (Z.eqb_spec c 0) as [E0|N0]; [|destruct (Z.eqb_spec c 1) as [E1|N1]].
  - (* the counter was 0 *)
    cbn [fst snd].
    destruct (bitmap_file_set_bit_frame b0 offset) as (Hcf & _).
    remember (bitmap_file_set_bit b0 offset) as bs eqn:Hbs.
    rewrite Hcf.
    destruct (bitmap_count_page_cell (counts b0) offset 1 bmc Hok Hpg
                ltac:(lia)) as (Hok1 & _ & Hn1).
    remember (bitmap_count_page (counts b0) offset 1) as c1 eqn:Hc1.
    unfold store_counter. cbn [counts set_counts storage].
    destruct (store_cell c1 bmc 2 Hok1) as (Hok2 & Hr2 & Hn2 & _).
    rewrite !Hr2. change (u16 2 + 1) with 3.
    destruct (store_cell (write_counter c1 bmc 2) bmc 3 Hok2)
      as (_ & Hr3 & Hn3 & _).
    rewrite !Hr3, !Hn3, !Hn2, !Hn1. change (u16 3) with 3. subst c.
    rewrite E0.
    repeat split; try reflexivity; try lia.
    + destruct (bitmap_file_set_bit_sets b0 offset k pg) as [Hbit _];
        try assumption; try (rewrite Hs0; assumption).
      { rewrite Hs0, Hshift. assumption. }
      rewrite Hshift, Hbs in *. exact Hbit.
    + destruct (bitmap_file_set_bit_sets b0 offset k pg) as [_ Hattr];
        try assumption; try (rewrite Hs0; assumption).
      { rewrite Hs0, Hshift. assumption. }
      rewrite Hbs. exact Hattr.
  - (* the counter was 1 *)
    cbn [fst snd].
    unfold store_counter. cbn [counts set_counts storage].
    destruct (store_cell (counts b0) bmc 2 Hok) as (Hok2 & Hr2 & Hn2 & _).
    rewrite !Hr2. change (u16 2 + 1) with 3.
    destruct (store_cell (write_counter (counts b0) bmc 2) bmc 3 Hok2)
      as (_ & Hr3 & Hn3 & _).
    rewrite !Hr3, !Hn3, !Hn2. change (u16 3) with 3. rewrite E1.
    repeat split; try reflexivity; try lia; try assumption.
  - (* any other value *)
    cbn [fst snd]. rewrite <- Hc.
    unfold store_counter. cbn [counts set_counts storage].
    destruct (store_cell (counts b0) bmc (c + 1) Hok) as (_ & Hr1 & Hn1 & _).
    rewrite Hr1, Hn1.
    apply Z.eqb_neq in Hsat.
    destruct (counter_incr c Hsat) as (Hi1 & Hi2 & Hi3 & Hi4).
    rewrite (u16_small c) in Hi1, Hi2, Hi3, Hi4 by exact Hcr.
    unfold COUNTER, NEEDED, RESYNC in *. rewrite !u16_u16.
    repeat split; try assumption; try lia.
Qed.

(** ** [bitmap_endwrite] *)

Lemma endwrite_marked_needed c :
  0 <= c < 65536 -> NEEDED (endwrite_marked false c) = NEEDED_MASK.
Proof.
  intros Hc. unfold endwrite_marked. simpl.
  destruct (Z.eqb_spec (NEEDED c) 0) as [E|N].
  - destruct (NEEDED_set c) as (H & _). rewrite (u16_small c) in H by exact Hc.
    exact H.
  - rewrite NEEDED_eq in *. change NEEDED_MASK with 32768.
    rewrite (u16_small c) in * by exact Hc. zdm.
Qed.

Lemma endwrite_marked_range success c :
  0 <= c < 65536 -> 0 <= endwrite_marked success c < 65536.
Proof.
  intros Hc. unfold endwrite_marked.
  destruct (negb success && (NEEDED c =? 0)); [|exact Hc].
  destruct (NEEDED_set c) as (_ & _ & _ & H).
  rewrite (u16_small c) in H by exact Hc. rewrite <- H. apply u16_range.
Qed.

(** C2.  One pass of the loop of [bitmap_endwrite] on a counter that
    exists.  When [success] is false the NEEDED bit is set in the counter;
    the counter is then decremented by one (as a 16-bit word); and if the
    word that results is at most 2 the pending hint of the owning page is
    raised and [allclean] cleared, both being left alone otherwise.  As
    long as the count field was not zero the decrement stays inside it,
    so that the NEEDED bit just set is still there afterwards. *)
Theorem endwrite_step_counter b offset success bmc :
  counts_inv (counts b) = true -> 0 <= offset ->
  gc_bmc (get_counter b offset false) = Some bmc ->
  let c := read_counter (counts b) bmc in
  let m := endwrite_marked success c in
  let b' := fst (endwrite_step b offset success) in
  snd (endwrite_step b offset success)
  = StepNext (gc_blocks (get_counter b offset false))
  /\ (success = false -> NEEDED m = NEEDED_MASK)
  /\ (success = true -> m = c)
  /\ read_counter (counts b') bmc = u16 (m - 1)
  /\ (u16 (m - 1) <= 2 ->
      bp_pending (slot (counts b') (cell_page bmc)) = true
      /\ allclean b' = false)
  /\ (2 < u16 (m - 1) ->
      bp_pending (slot (counts b') (cell_page bmc))
      = bp_pending (slot (counts b) (cell_page bmc))
      /\ allclean b' = allclean b)
  /\ (COUNTER c <> 0 ->
      COUNTER (read_counter (counts b') bmc) = COUNTER c - 1
      /\ RESYNC (read_counter (counts b') bmc) = RESYNC c
      /\ NEEDED (read_counter (counts b') bmc) = NEEDED m).
Proof.
  intros Hinv Hoff Hbmc. cbv zeta.
  destruct (bitmap_get_counter_some (counts b) offset false (kz_script b) bmc
              Hinv Hoff Hbmc)
    as (_ & Hok & Hpage & _ & _ & Hshift & _).
  destruct (bitmap_get_counter_nocreate (counts b) offset (kz_script b))
    as [Hgc Hkz].
  fold (get_counter b offset false) in Hok, Hshift, Hgc, Hkz.
  remember (endwrite_step b offset success) as res eqn:Hres.
  unfold endwrite_step in Hres. cbv zeta in Hres.
  remember (get_counter b offset false) as r eqn:Hr.
  rewrite Hbmc in Hres. rewrite Hgc in Hok, Hshift.
  assert (Hpg : page_of (counts b) offset = cell_page bmc) by congruence.
  pose proof (read_counter_range (counts b) bmc) as Hcr.
  remember (read_counter (counts b) bmc) as c eqn:Hc.
  remember (after_get_counter b r) as b0 eqn:Hb0.
  assert (Hc0 : counts b0 = counts b) by (subst b0; simpl; exact Hgc).
  assert (Ha0 : allclean b0 = allclean b) by (subst b0; reflexivity).
  (* the event counter update leaves the table alone *)
  remember (if success && (md_degraded (mddev b0) =? 0)
               && (events_cleared b0 <? md_events (mddev b0))
            then emit (set_need_sync
                         (set_events_cleared b0 (md_events (mddev b0))) true)
                   EvNotifyCanClear
            else b0) as b1 eqn:Hb1.
  assert (Hc1 : counts b1 = counts b)
    by (subst b1; destruct (success && _ && _); simpl; exact Hc0).
  assert (Ha1 : allclean b1 = allclean b)
    by (subst b1; destruct (success && _ && _); simpl; exact Ha0).
  clear Hb1. rewrite Hc1, <- Hc in Hres.
  (* the NEEDED store *)
  set (m := endwrite_marked success c).
  pose proof (endwrite_marked_range success c Hcr) as Hmr. fold m in Hmr.
  remember (if negb success && (NEEDED c =? 0)
            then store_counter b1 bmc (Z.lor c NEEDED_MASK) else b1)
    as b2 eqn:Hb2.
  assert (H2 : cell_okb (counts b2) bmc = true
               /\ read_counter (counts b2) bmc = m
               /\ bp_pending (slot (counts b2) (cell_page bmc))
                  = bp_pending (slot (counts b) (cell_page bmc))
               /\ chunkshift (counts b2) = chunkshift (counts b)
               /\ allclean b2 = allclean b).
  { subst b2 m. unfold endwrite_marked.
    destruct (negb success && (NEEDED c =? 0)) eqn:E.
    - unfold store_counter. cbn [counts set_counts allclean]. rewrite Hc1.
      destruct (store_cell (counts b) bmc (Z.lor c NEEDED_MASK) Hok)
        as (Hk & Hrd & _ & Hp).
      repeat split; try assumption.
      rewrite Hrd. destruct (NEEDED_set c) as (_ & _ & _ & H).
      rewrite (u16_small c) in H by exact Hcr. exact H.
    - rewrite Hc1. repeat split; try assumption. symmetry. exact Hc. }
  destruct H2 as (Hok2 & Hr2 & Hp2 & Hsh2 & Ha2). clear Hb2.
  rewrite Hr2 in Hres.
  remember (if COUNTER m =? COUNTER_MAX then emit b2 (EvWake overflow_wait)
            else b2) as b3 eqn:Hb3.
  assert (Hc3 : counts b3 = counts b2)
    by (subst b3; destruct (_ =? _); reflexivity).
  assert (Ha3 : allclean b3 = allclean b2)
    by (subst b3; destruct (_ =? _); reflexivity).
  clear Hb3. rewrite Hc3, Hr2 in Hres.
  remember (store_counter b3 bmc (m - 1)) as b4 eqn:Hb4.
  destruct (store_cell (counts b2) bmc (m - 1) Hok2) as (Hok4 & Hr4 & _ & Hp4).
  assert (Hc4 : counts b4 = write_counter (counts b2) bmc (m - 1))
    by (subst b4; unfold store_counter; simpl; rewrite Hc3; reflexivity).
  assert (Ha4 : allclean b4 = allclean b) by (subst b4; simpl; congruence).
  clear Hb4. rewrite <- Hc4 in Hok4, Hr4, Hp4. rewrite Hr4 in Hres.
  assert (Hm1 : success = false -> NEEDED m = NEEDED_MASK).
  { intros ->. apply endwrite_marked_needed. exact Hcr. }
  assert (Hm2 : success = true -> m = c) by (intros ->; reflexivity).
  assert (Hfield : COUNTER c <> 0 ->
                   COUNTER (u16 (m - 1)) = COUNTER c - 1
                   /\ RESYNC (u16 (m - 1)) = RESYNC c
                   /\ NEEDED (u16 (m - 1)) = NEEDED m).
  { intros Hnz.
    assert (Hcm : COUNTER m = COUNTER c /\ RESYNC m = RESYNC c).
    { subst m. unfold endwrite_marked.
      destruct (negb success && (NEEDED c =? 0)); [|split; reflexivity].
      destruct (NEEDED_set c) as (_ & Hrs & Hco & _).
      rewrite (u16_small c) in Hrs, Hco by exact Hcr. split; assumption. }
    destruct Hcm as [Hcm Hrm].
    destruct (counter_decr m ltac:(congruence)) as (D1 & D2 & D3 & _).
    rewrite (u16_small m) in D1, D2, D3 by exact Hmr.
    unfold COUNTER, NEEDED, RESYNC in *. rewrite !u16_u16.
    repeat split; congruence. }
  destruct (Z.leb_spec (u16 (m - 1)) 2) as [Hle|Hgt];
    subst res; cbn [fst snd counts set_counts allclean set_allclean].
  - destruct (bitmap_set_pending_cell (counts b4) offset bmc Hok4)
      as (_ & Hr5 & Hp5 & _).
    { rewrite <- Hpg. unfold page_of. rewrite Hc4. simpl. rewrite Hsh2.
      reflexivity. }
    rewrite Hr5, Hr4, Hp5.
    repeat split; try assumption; try lia; try reflexivity.
  - rewrite Hr4, Hp4, Hp2, Ha4.
    repeat split; try assumption; try lia; try reflexivity.
Qed.

(** ** The daemon *)

Lemma bitmap_file_clear_bit_frame b block :
  counts (bitmap_file_clear_bit b block) = counts b
  /\ flags (bitmap_file_clear_bit b block) = flags b
  /\ need_sync (bitmap_file_clear_bit b block) = need_sync b
  /\ kz_script (bitmap_file_clear_bit b block) = kz_script b
  /\ log (bitmap_file_clear_bit b block) = log b.
Proof.
  unfold bitmap_file_clear_bit.
  destruct (filemap_get_page _ _); [|repeat split].
  destruct (filemap_page _ _); [|repeat split].
  destruct (negb _); repeat split.
Qed.

(** When the image has a page for the chunk, [bitmap_file_clear_bit]
    clears the chunk's bit in it and, unless the page is already in
    NEEDWRITE, marks it PENDING and clears [allclean]. *)
Lemma bitmap_file_clear_bit_clears b block k pg :
  filemap_get_page (storage b) (Z.shiftr block (chunkshift (counts b))) = Some k ->
  filemap_page (storage b) k = Some pg ->
  0 <= pg_index pg ->
  file_test_bit (bitmap_file_clear_bit b block)
    (Z.shiftr block (chunkshift (counts b))) = false
  /\ (test_page_attr b (pg_index pg) BITMAP_PAGE_NEEDWRITE = false ->
      test_page_attr (bitmap_file_clear_bit b block) (pg_index pg)
        BITMAP_PAGE_PENDING = true
      /\ allclean (bitmap_file_clear_bit b block) = false).
Proof.
  intros Hk Hpg Hidx. unfold bitmap_file_clear_bit. rewrite Hk, Hpg.
  set (chunk := Z.shiftr block (chunkshift (counts b))) in *.
  set (off := file_page_offset (storage b) chunk).
  set (pg' := mk_pg (pg_index pg)
                (if test_flag BITMAP_HOSTENDIAN (flags b)
                 then clear_bit off (pg_data pg)
                 else clear_bit_le off (pg_data pg))).
  destruct (set_filemap_page_frame (storage b) k pg') as (Hsb & Hfp & Hattr).
  pose proof (filemap_page_set_filemap_page (storage b) k pg pg' Hpg) as Hpg'.
  set (b1 := set_storage b (set_filemap_page (storage b) k pg')).
  assert (Hnw : test_page_attr b1 (pg_index pg) BITMAP_PAGE_NEEDWRITE
                = test_page_attr b (pg_index pg) BITMAP_PAGE_NEEDWRITE).
  { unfold test_page_attr. subst b1. simpl. rewrite Hattr. reflexivity. }
  assert (Hbit : forall bx, storage bx = storage b1 \/
                   (exists a, storage bx = set_filemap_attr (storage b1) a) ->
                   flags bx = flags b ->
                   file_test_bit bx chunk = false).
  { intros bx Hst Hfl. unfold file_test_bit.
    assert (Hgp : filemap_get_page (storage bx) chunk = Some k).
    { rewrite <- Hk. apply filemap_get_page_ext;
        destruct Hst as [->|[a ->]]; subst b1; simpl; assumption. }
    assert (Hfo : file_page_offset (storage bx) chunk = off).
    { apply file_page_offset_ext.
      destruct Hst as [->|[a ->]]; subst b1; simpl; assumption. }
    assert (Hfm : filemap_page (storage bx) k = Some pg').
    { destruct Hst as [->|[a ->]]; subst b1; simpl; exact Hpg'. }
    rewrite Hgp, Hfm, Hfo, Hfl. subst pg'. simpl.
    assert (Hn : 0 <= off) by apply file_page_offset_nonneg.
    destruct (fl_hostendian (flags b));
      unfold test_bit_le, clear_bit_le, test_bit, clear_bit;
      rewrite ?Z.lxor_0_r; apply Z.clearbit_eq. }
  destruct (test_page_attr b1 (pg_index pg) BITMAP_PAGE_NEEDWRITE) eqn:E; simpl.
  - split.
    + apply Hbit; [left; reflexivity|reflexivity].
    + rewrite <- Hnw. discriminate.
  - split.
    + apply Hbit; [right; eexists; reflexivity|reflexivity].
    + intros _. split; [|reflexivity].
      unfold test_page_attr, set_page_attr, test_bit, set_bit. simpl.
      apply Z.setbit_eq.
      rewrite Z.shiftl_mul_pow2 by lia. change BITMAP_PAGE_PENDING with 1. lia.
Qed.

(** When the count reaches zero [bitmap_count_page] releases the slot. *)
Lemma bitmap_count_page_release c offset inc :
  (Z.to_nat (page_of c offset) < length (bp c))%nat ->
  bp_count (slot c (page_of c offset)) + inc = 0 ->
  let s' := slot (bitmap_count_page c offset inc) (page_of c offset) in
  bp_map s' = NULL /\ bp_hijacked s' = false /\ bp_count s' = 0
  /\ missing_pages (bitmap_count_page c offset inc)
     = if bp_hijacked (slot c (page_of c offset)) then missing_pages c
       else ulong (missing_pages c + 1).
Proof.
  intros Hl Hz. cbv zeta. unfold bitmap_count_page. fold (page_of c offset).
  unfold bitmap_checkfree. rewrite !slot_set_slot by exact Hl. simpl.
  rewrite Hz. simpl.
  destruct (bp_hijacked (slot c (page_of c offset))) eqn:Hh.
  - rewrite slot_set_slot by (simpl; rewrite length_insert; exact Hl).
    repeat split.
  - rewrite slot_set_missing_pages.
    rewrite slot_set_slot by (simpl; rewrite length_insert; exact Hl).
    simpl. repeat split; assumption.
Qed.

(** C3.  What the daemon does with a counter it visits ([bmc] is the
    pointer that [bitmap_get_counter] returns for [block], without
    create).  If the counter equals 1 and [need_sync] is 0: the counter is
    set to 0, the count of the page slot goes down by one through
    [bitmap_count_page] (which releases the slot when it reaches zero),
    and [bitmap_file_clear_bit] clears the on-disk bit, marking the
    storage page PENDING unless it is already in NEEDWRITE.  Otherwise, if
    the counter is 1 or 2, it is set to 1 and the pending hint of the page
    is raised (and [allclean] cleared).  Any other counter is left
    alone. *)
Theorem daemon_visit_counter b block bmc :
  counts_inv (counts b) = true -> 0 <= block ->
  gc_bmc (get_counter b block false) = Some bmc ->
  let c := read_counter (counts b) bmc in
  let n := bp_count (slot (counts b) (cell_page bmc)) in
  let b' := daemon_visit b block bmc in
  (c = 1 -> need_sync b = false ->
     bp_count (slot (counts b') (cell_page bmc)) = n - 1
     /\ (n <> 1 -> read_counter (counts b') bmc = 0)
     /\ (n = 1 -> bp_map (slot (counts b') (cell_page bmc)) = NULL
                  /\ bp_hijacked (slot (counts b') (cell_page bmc)) = false)
     /\ storage b' = storage (bitmap_file_clear_bit b block)
     /\ (forall k pg,
           filemap_get_page (storage b)
             (Z.shiftr block (chunkshift (counts b))) = Some k ->
           filemap_page (storage b) k = Some pg ->
           0 <= pg_index pg ->
           file_test_bit b' (Z.shiftr block (chunkshift (counts b))) = false
           /\ (test_page_attr b (pg_index pg) BITMAP_PAGE_NEEDWRITE = false ->
               test_page_attr b' (pg_index pg) BITMAP_PAGE_PENDING = true
               /\ allclean b' = false)))
  /\ (~ (c = 1 /\ need_sync b = false) -> 1 <= c <= 2 ->
     read_counter (counts b') bmc = 1
     /\ bp_pending (slot (counts b') (cell_page bmc)) = true
     /\ allclean b' = false
     /\ bp_count (slot (counts b') (cell_page bmc)) = n
     /\ storage b' = storage b)
  /\ (c = 0 \/ 2 < c -> b' = b).
Proof.
  intros Hinv Hoff Hbmc. cbv zeta.
  destruct (bitmap_get_counter_some (counts b) block false (kz_script b) bmc
              Hinv Hoff Hbmc)
    as (_ & Hok & Hpage & _ & _ & Hshift & _).
  destruct (bitmap_get_counter_nocreate (counts b) block (kz_script b))
    as [Hgc _].
  rewrite Hgc in Hok, Hshift.
  assert (Hpg : page_of (counts b) block = cell_page bmc) by congruence.
  pose proof (cell_okb_in_table _ _ Hok) as Hl.
  pose proof (read_counter_range (counts b) bmc) as Hcr.
  unfold daemon_visit.
  remember (read_counter (counts b) bmc) as c eqn:Hc.
  split; [|split].
  - (* the bit can be cleared *)
    intros -> Hns. rewrite Hns. cbn [Z.eqb Pos.eqb negb andb].
    destruct (store_cell (counts b) bmc 0 Hok) as (Hok1 & Hr1 & Hn1 & Hp1).
    remember (store_counter b bmc 0) as b1 eqn:Hb1.
    assert (Hc1 : counts b1 = write_counter (counts b) bmc 0)
      by (subst b1; reflexivity).
    assert (Hs1 : storage b1 = storage b) by (subst b1; reflexivity).
    assert (Hf1 : flags b1 = flags b) by (subst b1; reflexivity).
    assert (Ha1 : allclean b1 = allclean b) by (subst b1; reflexivity).
    rewrite <- Hc1 in Hok1, Hr1, Hn1, Hp1.
    assert (Hpg1 : page_of (counts b1) block = cell_page bmc)
      by (rewrite <- Hpg, Hc1; reflexivity).
    clear Hb1.
    remember (set_counts b1 (bitmap_count_page (counts b1) block (-1)))
      as b2 eqn:Hb2.
    destruct (bitmap_file_clear_bit_frame b2 block) as (Hcf & _).
    rewrite Hcf.
    assert (Hc2 : counts b2 = bitmap_count_page (counts b1) block (-1))
      by (subst b2; reflexivity).
    assert (Hs2 : storage b2 = storage b) by (subst b2; simpl; exact Hs1).
    assert (Hsh2 : chunkshift (counts b2) = chunkshift (counts b)).
    { rewrite Hc2.
      destruct (bitmap_count_page_fields (counts b1) block (-1)) as (_ & -> & _).
      rewrite Hc1. reflexivity. }
    assert (Hext : forall bx by_, storage bx = storage by_ ->
               flags bx = flags by_ -> allclean bx = allclean by_ ->
               chunkshift (counts bx) = chunkshift (counts by_) ->
               storage (bitmap_file_clear_bit bx block)
               = storage (bitmap_file_clear_bit by_ block)
               /\ flags (bitmap_file_clear_bit bx block)
                  = flags (bitmap_file_clear_bit by_ block)
               /\ allclean (bitmap_file_clear_bit bx block)
                  = allclean (bitmap_file_clear_bit by_ block)).
    { intros bx by_ Hs Hf Ha Hsh. unfold bitmap_file_clear_bit.
      rewrite Hs, Hf, Hsh.
      destruct (filemap_get_page _ _); [|auto].
      destruct (filemap_page _ _); [|auto].
      unfold test_page_attr. simpl.
      destruct (negb _); simpl; auto. }
    destruct (Hext b2 b Hs2 ltac:(subst b2; simpl; congruence)
                ltac:(subst b2; simpl; congruence) Hsh2) as (He1 & He2 & He3).
    split; [|split; [|split; [|split]]].
    + rewrite Hc2.
      destruct (Z.eq_dec (bp_count (slot (counts b1) (cell_page bmc)) + -1) 0)
        as [Ez|Nz].
      * destruct (bitmap_count_page_release (counts b1) block (-1))
          as (_ & _ & Hrel & _).
        { rewrite Hpg1, Hc1. unfold write_counter. simpl.
          rewrite length_insert. exact Hl. }
        { rewrite Hpg1. exact Ez. }
        rewrite Hpg1 in Hrel. rewrite Hrel. lia.
      * destruct (bitmap_count_page_cell (counts b1) block (-1) bmc Hok1 Hpg1 Nz)
          as (_ & _ & Hn2).
        rewrite Hn2. lia.
    + intros Hn. rewrite Hc2.
      destruct (bitmap_count_page_cell (counts b1) block (-1) bmc Hok1 Hpg1
                  ltac:(lia)) as (_ & Hr2 & _).
      rewrite Hr2, Hr1. reflexivity.
    + intros Hn. rewrite Hc2.
      destruct (bitmap_count_page_release (counts b1) block (-1))
        as (Hrm & Hrh & _).
      { rewrite Hpg1, Hc1. unfold write_counter. simpl.
        rewrite length_insert. exact Hl. }
      { rewrite Hpg1. lia. }
      rewrite Hpg1 in Hrm, Hrh. split; assumption.
    + exact He1.
    + intros k pg Hk Hpgk Hidx.
      destruct (bitmap_file_clear_bit_clears b block k pg Hk Hpgk Hidx)
        as [Hbit Hpend].
      split.
      * unfold file_test_bit in *. rewrite He1, He2. exact Hbit.
      * intros Hnw. destruct (Hpend Hnw) as [Hp Ha].
        split; [|congruence].
        unfold test_page_attr in *. rewrite He1. exact Hp.
  - (* demote to 1 *)
    intros Hnot Hrange.
    assert (Hcond : (c =? 1) && negb (need_sync b) = false).
    { destruct (Z.eqb_spec c 1), (need_sync b); simpl; try reflexivity.
      exfalso. apply Hnot. split; [assumption|reflexivity]. }
    rewrite Hcond.
    assert (Hc2 : negb (c =? 0) && (c <=? 2) = true).
    { apply andb_true_iff. split; [apply negb_true_iff, Z.eqb_neq|apply Z.leb_le]; lia. }
    rewrite Hc2.
    unfold store_counter. cbn [counts set_counts allclean set_allclean storage].
    destruct (store_cell (counts b) bmc 1 Hok) as (Hok1 & Hr1 & Hn1 & _).
    destruct (bitmap_set_pending_cell (write_counter (counts b) bmc 1)
                block bmc Hok1) as (_ & Hr2 & Hp2 & Hn2).
    { rewrite <- Hpg. reflexivity. }
    rewrite Hr2, Hr1, Hp2, Hn2, Hn1. repeat split.
  - (* nothing to do *)
    intros Hout.
    assert (Hcond : (c =? 1) && negb (need_sync b) = false).
    { destruct (Z.eqb_spec c 1); [lia|reflexivity]. }
    rewrite Hcond.
    assert (Hc2 : negb (c =? 0) && (c <=? 2) = false).
    { destruct (Z.eqb_spec c 0); [reflexivity|]. simpl. apply Z.leb_gt. lia. }
    rewrite Hc2. reflexivity.
Qed.

(** ** Memory bits *)

(** A store into one cell leaves every other cell alone. *)
Lemma read_write_other c bmc bmc' v :
  cell_okb c bmc = true -> cell_okb c bmc' = true -> bmc <> bmc' ->
  read_counter (write_counter c bmc v) bmc' = read_counter c bmc'.
Proof.
  intros Hok Hok' Hne. unfold read_counter, write_counter.
  destruct (Z.eq_dec (cell_page bmc) (cell_page bmc')) as [E|N].
  - rewrite <- E.
    rewrite slot_set_slot by (apply cell_okb_in_table; exact Hok).
    simpl.
    pose proof (cell_okb_fits c bmc Hok) as Hf.
    pose proof (cell_okb_fits c bmc' Hok') as Hf'.
    rewrite <- E in Hf'.
    destruct bmc as [p hi|p off], bmc' as [p' hi'|p' off']; simpl in *; subst p';
      destruct (bp_map (slot c p)) as [c0 c1|cells]; try discriminate.
    + destruct hi, hi'; simpl; try reflexivity; exfalso; apply Hne; reflexivity.
    + simpl. rewrite lookup_insert_ne; [reflexivity|].
      intros ->. apply Hne. reflexivity.
  - rewrite slot_set_slot_ne; [reflexivity|].
    pose proof (cell_okb_nonneg c bmc Hok). pose proof (cell_okb_nonneg c bmc' Hok').
    lia.
Qed.

Lemma cell_okb_write_other c bmc bmc' v :
  cell_okb c bmc = true -> cell_okb c bmc' = true ->
  cell_okb (write_counter c bmc v) bmc' = true.
Proof.
  intros Hok Hok'.
  destruct (Z.eq_dec (cell_page bmc) (cell_page bmc')) as [E|N].
  - rewrite <- Hok'. unfold cell_okb. rewrite <- E.
    rewrite slot_write_counter by exact Hok.
    unfold write_counter at 1. simpl. rewrite length_insert.
    f_equal. f_equal.
    destruct bmc as [p [|]|p off], bmc' as [p' hi'|p' off'],
      (bp_map (slot c _)); reflexivity.
  - rewrite <- Hok'. apply cell_okb_frame.
    + unfold write_counter. simpl. apply length_insert.
    + unfold write_counter. rewrite slot_set_slot_ne; [reflexivity|].
      pose proof (cell_okb_nonneg c bmc Hok).
      pose proof (cell_okb_nonneg c bmc' Hok'). lia.
    + unfold write_counter. rewrite slot_set_slot_ne; [reflexivity|].
      pose proof (cell_okb_nonneg c bmc Hok).
      pose proof (cell_okb_nonneg c bmc' Hok'). lia.
Qed.

(** A cell that [bitmap_get_counter] had to make room for reads 0: the
    page obtained is zero-filled, and a slot is hijacked only when its
    member is NULL. *)
Lemma bitmap_get_counter_fresh c offset kz bmc :
  counts_inv c = true -> 0 <= offset ->
  gc_bmc (bitmap_get_counter c offset true kz) = Some bmc ->
  (bitmap_get_counter c offset true kz = bitmap_get_counter c offset false kz
   /\ gc_counts (bitmap_get_counter c offset true kz) = c
   /\ gc_kz (bitmap_get_counter c offset true kz) = kz)
  \/ (gc_bmc (bitmap_get_counter c offset false kz) = None
      /\ bp_map (slot c (page_of c offset)) = NULL
      /\ bp_hijacked (slot c (page_of c offset)) = false
      /\ forall bmc', cell_page bmc' = page_of c offset ->
           read_counter (gc_counts (bitmap_get_counter c offset true kz)) bmc' = 0).
Proof.
  intros Hinv Hoff.
  pose proof (page_of_nonneg c offset Hoff) as Hp.
  pose proof (bitmap_checkpage_cases c (page_of c offset) true kz Hinv Hp) as H.
  pose proof (bitmap_checkpage_cases c (page_of c offset) false kz Hinv Hp) as H'.
  rewrite !bitmap_get_counter_unfold. cbv zeta.
  destruct (bitmap_checkpage c (page_of c offset) true kz) as [[err c'] kz'].
  destruct (bitmap_checkpage c (page_of c offset) false kz) as [[err2 c2] kz2].
  simpl.
  destruct H as [H|[H|[H|H]]].
  - destruct H as (_ & -> & _). simpl. discriminate.
  - destruct H as (Hlt & -> & -> & -> & Hs). intros _. left.
    destruct H' as [H'|[H'|[H'|H']]].
    + lia.
    + destruct H' as (_ & -> & -> & -> & _). auto.
    + destruct H' as (_ & _ & _ & _ & _ & Hh & Hm). exfalso.
      destruct Hs as [Hs|(cells & _ & Hs)]; unfold NULL in *; congruence.
    + destruct H' as (_ & Hf & _). discriminate.
  - destruct H as (_ & Hf & _). discriminate.
  - destruct H as (Hlt & _ & -> & Hh & Hm & Hc). intros _. right.
    assert (Hl : (Z.to_nat (page_of c offset) < length (bp c))%nat)
      by (apply in_table; [exact Hinv|lia]).
    destruct H' as [H'|[H'|[H'|H']]].
    + lia.
    + destruct H' as (_ & _ & _ & _ & Hs). exfalso.
      destruct Hs as [Hs|(cells & _ & Hs)]; unfold NULL in *; congruence.
    + destruct H' as (_ & _ & -> & -> & _). simpl.
      repeat split; try assumption.
      intros bmc' Hpg. unfold read_counter. rewrite Hpg.
      destruct Hc as [[_ ->]|[_ ->]].
      * rewrite slot_set_slot by exact Hl. simpl. rewrite Hm.
        destruct bmc' as [? [|]|]; reflexivity.
      * rewrite slot_set_missing_pages, slot_set_slot by exact Hl. simpl.
        destruct bmc' as [? [|]|]; try reflexivity.
    + destruct H' as (_ & Hf & _). discriminate.
Qed.

Lemma bitmap_count_page_members c offset inc q :
  (Z.to_nat (page_of c offset) < length (bp c))%nat ->
  bp_count (slot c (page_of c offset)) + inc <> 0 ->
  bp_map (slot (bitmap_count_page c offset inc) q) = bp_map (slot c q)
  /\ bp_hijacked (slot (bitmap_count_page c offset inc) q) = bp_hijacked (slot c q)
  /\ bp_pending (slot (bitmap_count_page c offset inc) q) = bp_pending (slot c q).
Proof.
  intros Hl Hne. rewrite bitmap_count_page_keep by assumption.
  destruct (Nat.eq_dec (Z.to_nat (page_of c offset)) (Z.to_nat q)) as [E|N].
  - unfold slot, set_slot. simpl. rewrite <- E.
    rewrite list_lookup_insert_eq by exact Hl. repeat split.
  - rewrite slot_set_slot_ne by exact N. repeat split.
Qed.




(** ** Write errors and the kick *)

Lemma md_lock_super_frame b :
  storage (snd (md_lock_super b)) = storage b
  /\ flags (snd (md_lock_super b)) = flags b
  /\ log (snd (md_lock_super b)) = log b
  /\ io_script (snd (md_lock_super b)) = io_script b
  /\ mddev (snd (md_lock_super b)) = mddev b.
Proof. unfold md_lock_super. destruct (lock_script b); repeat split. Qed.

Lemma next_io_frame b :
  storage (snd (next_io b)) = storage b
  /\ flags (snd (next_io b)) = flags b
  /\ log (snd (next_io b)) = log b
  /\ inflight (snd (next_io b)) = inflight b.
Proof. unfold next_io. destruct (io_script b); repeat split. Qed.

Lemma end_bitmap_write_frame b :
  storage (end_bitmap_write b) = storage b
  /\ fl_stale (flags (end_bitmap_write b)) = fl_stale (flags b).
Proof.
  unfold end_bitmap_write.
  destruct (inflight b) as [|[|] [|u rest]]; split; reflexivity.
Qed.

Lemma complete_writes_frame n b :
  storage (complete_writes n b) = storage b
  /\ fl_stale (flags (complete_writes n b)) = fl_stale (flags b).
Proof.
  revert b. induction n as [|n IH]; intros b; [split; reflexivity|].
  simpl. destruct (IH (end_bitmap_write b)) as [H1 H2].
  destruct (end_bitmap_write_frame b) as (H3 & H4).
  split; congruence.
Qed.

Lemma emits_nil b : emits b [] = b.
Proof. destruct b. reflexivity. Qed.

Lemma emit_emits b e l : emits (emit b e) l = emits b (l ++ [e]).
Proof. unfold emits, emit. cbn. rewrite <- app_assoc. reflexivity. Qed.

Lemma repeat_snoc {A} (x : A) n : repeat x n ++ [x] = x :: repeat x n.
Proof. induction n as [|n IH]; [reflexivity|]. cbn. rewrite IH. reflexivity. Qed.

(** The walk of [write_sb_page]: the members before the first that fails
    the alignment tests receive the page, and nothing else changes; the
    walk returns [-EINVAL] when a member fails them. *)
Lemma write_sb_page_walk_spec rdevs : forall b k,
  let n := members_written (mddev b) (storage b) rdevs
             (page_index (storage b) k) in
  write_sb_page_walk b rdevs k
  = (if (n =? length rdevs)%nat then 0 else - EINVAL,
     emits b (repeat (page_image b k) n)).
Proof.
  induction rdevs as [|rdev rest IH]; intros b k; cbv zeta;
    cbn [write_sb_page_walk members_written length].
  - rewrite emits_nil. reflexivity.
  - destruct (bad_alignment (mddev b) (storage b) rdev
                (page_index (storage b) k)).
    + cbn [repeat Nat.eqb]. rewrite emits_nil. reflexivity.
    + rewrite IH. cbv zeta.
      change (mddev (emit b (page_image b k))) with (mddev b).
      change (storage (emit b (page_image b k))) with (storage b).
      change (page_image (emit b (page_image b k)) k) with (page_image b k).
      rewrite emit_emits, repeat_snoc. reflexivity.
Qed.

Lemma write_sb_page_frame b k wait :
  storage (snd (write_sb_page b k wait)) = storage b
  /\ flags (snd (write_sb_page b k wait)) = flags b.
Proof.
  unfold write_sb_page.
  destruct (md_lock_super_frame b) as (Hs & Hf & _).
  destruct (md_lock_super b) as [ret b1]. simpl in Hs, Hf.
  destruct (negb (ret =? 0)); simpl; [split; assumption|].
  rewrite write_sb_page_walk_spec. cbv zeta. cbn [snd emits storage flags].
  split; assumption.
Qed.

(** A page transfer leaves the image in memory and the STALE flag as they
    were. *)
Lemma write_page_io_frame b k wait :
  storage (write_page_io b k wait) = storage b
  /\ fl_stale (flags (write_page_io b k wait)) = fl_stale (flags b).
Proof.
  unfold write_page_io.
  destruct (st_file (storage b)); simpl.
  - destruct (next_io_frame b) as (Hs & Hf & _).
    destruct (next_io b) as [r b1]. simpl in Hs, Hf.
    destruct wait.
    + unfold wait_pending_writes.
      match goal with
      | |- context [complete_writes ?n ?x] =>
          destruct (complete_writes_frame n x) as [H1 H2]
      end.
      rewrite H1, H2. simpl. split; congruence.
    + simpl. split; congruence.
  - destruct (write_sb_page_frame b k wait) as [Hs Hf].
    destruct (write_sb_page b k wait) as [ret b1]. simpl in Hs, Hf.
    destruct (ret =? - EINVAL); simpl; split; congruence.
Qed.

(** Once STALE is set a kick does nothing, whatever the depth. *)
Lemma bitmap_file_kick_fuel_stale n b :
  test_flag BITMAP_STALE (flags b) = true -> bitmap_file_kick_fuel n b = b.
Proof.
  intros H. destruct n; [reflexivity|].
  cbn [bitmap_file_kick_fuel]. rewrite H. reflexivity.
Qed.

(** A write on an image that is STALE never kicks again. *)
Lemma write_page_with_stale n b k wait :
  test_flag BITMAP_STALE (flags b) = true ->
  write_page_with (bitmap_file_kick_fuel n) b k wait = write_page_io b k wait.
Proof.
  intros H. unfold write_page_with.
  destruct (write_page_io_frame b k wait) as [_ Hf].
  destruct (test_flag BITMAP_WRITE_ERROR _); [|reflexivity].
  apply bitmap_file_kick_fuel_stale. simpl in *. congruence.
Qed.

Lemma bitmap_update_sb_with_stale n b :
  test_flag BITMAP_STALE (flags b) = true ->
  bitmap_update_sb_with (bitmap_file_kick_fuel (S n)) b
  = bitmap_update_sb_with (bitmap_file_kick_fuel 1) b.
Proof.
  intros H. unfold bitmap_update_sb_with.
  destruct (md_external (mddev b)); [reflexivity|].
  destruct (negb (sb_page (storage b))); [reflexivity|].
  match goal with
  | |- context [md_lock_super ?x] =>
      destruct (md_lock_super_frame x) as (_ & Hf & _);
      destruct (md_lock_super x) as [ret b3]
  end.
  simpl in Hf.
  destruct (negb (ret =? 0)); [reflexivity|].
  rewrite !write_page_with_stale by (simpl; rewrite Hf; exact H).
  reflexivity.
Qed.

(** The depth 2 given to [bitmap_file_kick] covers every deeper chain. *)
Lemma bitmap_file_kick_fuel_enough n b :
  bitmap_file_kick_fuel (S (S n)) b = bitmap_file_kick b.
Proof.
  unfold bitmap_file_kick.
  change (bitmap_file_kick_fuel (S (S n)) b)
    with (if test_flag BITMAP_STALE (flags b) then b
          else bitmap_update_sb_with (bitmap_file_kick_fuel (S n))
                 (set_flags b (set_flag BITMAP_STALE (flags b)))).
  change (bitmap_file_kick_fuel 2 b)
    with (if test_flag BITMAP_STALE (flags b) then b
          else bitmap_update_sb_with (bitmap_file_kick_fuel 1)
                 (set_flags b (set_flag BITMAP_STALE (flags b)))).
  destruct (test_flag BITMAP_STALE (flags b)); [reflexivity|].
  apply bitmap_update_sb_with_stale. reflexivity.
Qed.


Lemma md_lock_super_nil b : lock_script b = [] -> md_lock_super b = (0, b).
Proof. intros H. unfold md_lock_super. rewrite H. reflexivity. Qed.

Lemma members_written_all m store rdevs index :
  (forall rdev, In rdev rdevs -> bad_alignment m store rdev index = false) ->
  members_written m store rdevs index = length rdevs.
Proof.
  induction rdevs as [|rdev rest IH]; intros H; [reflexivity|].
  cbn [members_written length]. rewrite (H rdev (or_introl eq_refl)).
  rewrite IH; [reflexivity|]. intros r Hr. apply H. right. exact Hr.
Qed.

Lemma members_written_le m store rdevs index :
  (members_written m store rdevs index <= length rdevs)%nat.
Proof.
  induction rdevs as [|rdev rest IH]; [reflexivity|].
  cbn [members_written length]. destruct (bad_alignment _ _ _ _); lia.
Qed.

(** A transfer of a device-embedded image, the lock being granted: the
    page goes to the members before the first that fails the alignment
    tests, WRITE_ERROR is set when one fails them, and nothing else
    changes. *)
Lemma write_page_io_embedded b k wait :
  st_file (storage b) = false -> lock_script b = [] ->
  let rdevs := next_active_rdev (mddev b) in
  let n := members_written (mddev b) (storage b) rdevs
             (page_index (storage b) k) in
  write_page_io b k wait
  = if (n =? length rdevs)%nat
    then emits b (repeat (page_image b k) n)
    else set_flags (emits b (repeat (page_image b k) n))
           (set_flag BITMAP_WRITE_ERROR (flags b)).
Proof.
  intros Hf Hl. cbv zeta. unfold write_page_io, write_sb_page.
  rewrite Hf. cbn [negb]. rewrite (md_lock_super_nil b Hl). cbn [Z.eqb negb].
  rewrite write_sb_page_walk_spec. cbv zeta.
  destruct (_ =? _)%nat; reflexivity.
Qed.

(** A transfer of a device-embedded image that meets no obstacle hands
    the page to every member the walk comes to and changes nothing
    else. *)
Lemma write_page_io_embedded_ok b k wait :
  st_file (storage b) = false -> lock_script b = [] ->
  (forall rdev, In rdev (next_active_rdev (mddev b)) ->
     bad_alignment (mddev b) (storage b) rdev (page_index (storage b) k)
     = false) ->
  write_page_io b k wait = emits b (page_writes b k).
Proof.
  intros Hf Hl Hi. rewrite (write_page_io_embedded b k wait Hf Hl). cbv zeta.
  rewrite (members_written_all _ _ _ _ Hi), Nat.eqb_refl. reflexivity.
Qed.





(** * Worked instances *)

Lemma bitmap_get_counter_span_witness :
  let r := bitmap_get_counter
             {| bp := [mk_page NULL true false 0]; pages := 1;
                missing_pages := 1; chunkshift := 3; chunks := 2048 |}
             8200 false [] in
  gc_blocks r = 8184 /\ gc_bmc r = Some (InlineCell 0 true).
Proof.
  pose proof (bitmap_get_counter_span
                {| bp := [mk_page NULL true false 0]; pages := 1;
                   missing_pages := 1; chunkshift := 3; chunks := 2048 |}
                8200 false []
                ltac:(simpl; lia) ltac:(vm_compute; reflexivity)
                ltac:(lia)) as H.
  cbv zeta in H. destruct H as (Hb & _ & Hc).
  split.
  - rewrite Hb. vm_compute. reflexivity.
  - rewrite Hc; [vm_compute; reflexivity|reflexivity|vm_compute; reflexivity].
Defined.

Lemma startwrite_step_counter_witness :
  read_counter (counts (fst (startwrite_step (ex_bitmap [] []) 0))) (PageCell 0 0)
  = 3
  /\ bp_count (slot (counts (fst (startwrite_step (ex_bitmap [] []) 0))) 0) = 1
  /\ file_test_bit (fst (startwrite_step (ex_bitmap [] []) 0)) 0 = true.
Proof.
  pose proof (startwrite_step_counter (ex_bitmap [] []) 0 (PageCell 0 0)
                ltac:(reflexivity) ltac:(lia) ltac:(vm_compute; reflexivity)) as H.
  cbv zeta in H.
  specialize (H ltac:(vm_compute; discriminate) ltac:(vm_compute; discriminate)).
  destruct H as (_ & _ & _ & H0 & _).
  destruct (H0 ltac:(vm_compute; reflexivity)) as (Hr & Hn & _ & Hbit).
  split; [exact Hr|]. split; [exact Hn|].
  destruct (Hbit 0 (mk_pg 0 0) ltac:(vm_compute; reflexivity)
              ltac:(vm_compute; reflexivity) ltac:(simpl; lia)) as [Hb _].
  exact Hb.
Defined.

Lemma endwrite_step_counter_witness :
  let b := ex_started 1 (ex_bitmap [] []) in
  read_counter (counts b) (PageCell 0 0) = 3
  /\ read_counter (counts (fst (endwrite_step b 0 true))) (PageCell 0 0) = 2
  /\ bp_pending (slot (counts (fst (endwrite_step b 0 true))) 0) = true
  /\ allclean (fst (endwrite_step b 0 true)) = false.
Proof.
  cbv zeta.
  pose proof (endwrite_step_counter (ex_started 1 (ex_bitmap [] [])) 0 true
                (PageCell 0 0)
                ltac:(vm_compute; reflexivity) ltac:(lia)
                ltac:(vm_compute; reflexivity)) as H.
  cbv zeta in H. destruct H as (_ & _ & _ & Hr & Hp & _).
  split; [vm_compute; reflexivity|].
  split; [rewrite Hr; vm_compute; reflexivity|].
  apply Hp. vm_compute. discriminate.
Defined.

Lemma daemon_visit_counter_witness :
  let b := fst (endwrite_step (ex_started 1 (ex_bitmap [] [])) 0 true) in
  let b1 := daemon_visit b 0 (PageCell 0 0) in
  let b2 := daemon_visit b1 0 (PageCell 0 0) in
  read_counter (counts b) (PageCell 0 0) = 2
  /\ read_counter (counts b1) (PageCell 0 0) = 1
  /\ bp_count (slot (counts b2) 0) = 0
  /\ bp_map (slot (counts b2) 0) = NULL
  /\ file_test_bit b1 0 = true
  /\ file_test_bit b2 0 = false.
Proof.
  cbv zeta.
  set (b := fst (endwrite_step (ex_started 1 (ex_bitmap [] [])) 0 true)).
  set (b1 := daemon_visit b 0 (PageCell 0 0)).
  pose proof (daemon_visit_counter b 0 (PageCell 0 0)
                ltac:(vm_compute; reflexivity) ltac:(lia)
                ltac:(vm_compute; reflexivity)) as H.
  pose proof (daemon_visit_counter b1 0 (PageCell 0 0)
                ltac:(vm_compute; reflexivity) ltac:(lia)
                ltac:(vm_compute; reflexivity)) as H1.
  cbv zeta in H, H1.
  destruct H as (_ & Hd & _). destruct H1 as (Hc & _).
  destruct Hd as (Hr1 & _);
    [vm_compute; intros [E _]; discriminate|vm_compute; split; discriminate|].
  destruct Hc as (Hn2 & _ & Hfree & _ & Hbit);
    [exact Hr1|vm_compute; reflexivity|].
  destruct (Hfree ltac:(vm_compute; reflexivity)) as [Hm _].
  cbn [cell_page] in Hn2, Hm.
  destruct (Hbit 0 (mk_pg 0 (2 ^ 2048)) ltac:(vm_compute; reflexivity)
              ltac:(vm_compute; reflexivity) ltac:(simpl; lia)) as [Hb _].
  split; [vm_compute; reflexivity|]. split; [exact Hr1|].
  split; [rewrite Hn2; vm_compute; reflexivity|]. split; [exact Hm|].
  split; [vm_compute; reflexivity|exact Hb].
Defined.




(** ** Counters that exist *)

Lemma cell_for_page c offset : cell_page (cell_for c offset) = page_of c offset.
Proof. unfold cell_for. destruct (bp_hijacked _); reflexivity. Qed.

Lemma found_page c offset bmc : found c offset bmc -> cell_page bmc = page_of c offset.
Proof. intros (_ & _ & -> & _). apply cell_for_page. Qed.

(** A counter that exists is what [bitmap_get_counter] returns, with or
    without [create]; the table and the script are left alone. *)
Lemma found_get_counter c offset create kz bmc :
  found c offset bmc ->
  bitmap_get_counter c offset create kz
  = mk_gc (Some bmc) (blocks_at c offset) c kz.
Proof.
  intros (Hinv & Hok & Hbmc & Hlt).
  pose proof (cell_okb_fits c bmc Hok) as Hf.
  pose proof (cell_okb_hijacked c bmc Hok) as Hh.
  rewrite Hbmc, cell_for_page in Hf, Hh.
  rewrite bitmap_get_counter_unfold. cbv zeta. unfold bitmap_checkpage.
  destruct (Z.leb_spec (pages c) (page_of c offset)); [lia|].
  unfold cell_for in Hf, Hh, Hbmc.
  destruct (bp_hijacked (slot c (page_of c offset))) eqn:Hj.
  - simpl. rewrite Hj. subst bmc. reflexivity.
  - destruct (bp_map (slot c (page_of c offset))) eqn:Hm; [discriminate|].
    simpl. rewrite Hj. subst bmc. reflexivity.
Qed.

(** What [bitmap_get_counter] returns exists in the table it leaves. *)
Lemma get_counter_found c offset create kz bmc :
  counts_inv c = true -> 0 <= offset ->
  gc_bmc (bitmap_get_counter c offset create kz) = Some bmc ->
  found (gc_counts (bitmap_get_counter c offset create kz)) offset bmc
  /\ gc_blocks (bitmap_get_counter c offset create kz)
     = blocks_at (gc_counts (bitmap_get_counter c offset create kz)) offset.
Proof.
  intros Hinv Hoff Hbmc.
  destruct (bitmap_get_counter_some c offset create kz bmc Hinv Hoff Hbmc)
    as (Hinv' & Hok & Hpage & Hrange & Hpages & Hshift & _).
  revert Hbmc Hinv' Hok Hpages Hshift.
  rewrite bitmap_get_counter_unfold. cbv zeta.
  destruct (bitmap_checkpage c (page_of c offset) create kz) as [[err c'] kz'].
  simpl. intros Hbmc Hinv' Hok Hpages Hshift.
  assert (Hpo : page_of c' offset = page_of c offset)
    by (unfold page_of; rewrite Hshift; reflexivity).
  assert (Hpf : pageoff_of c' offset = pageoff_of c offset)
    by (unfold pageoff_of; rewrite Hshift; reflexivity).
  split.
  - repeat split; try assumption; try lia.
    unfold cell_for. rewrite Hpo, Hpf.
    destruct (err <? 0); [discriminate|].
    destruct (bp_hijacked (slot c' (page_of c offset))); congruence.
  - unfold blocks_at. rewrite Hpo. reflexivity.
Qed.

(** A counter stays the counter of [offset] as long as the table keeps
    its shape and the cell its storage. *)
Lemma found_frame c c' offset bmc :
  found c offset bmc ->
  counts_inv c' = true -> cell_okb c' bmc = true ->
  pages c' = pages c -> chunkshift c' = chunkshift c ->
  found c' offset bmc /\ blocks_at c' offset = blocks_at c offset.
Proof.
  intros (Hinv & Hok & Hbmc & Hlt) Hinv' Hok' Hpages Hshift.
  assert (Hpo : page_of c' offset = page_of c offset)
    by (unfold page_of; rewrite Hshift; reflexivity).
  assert (Hpf : pageoff_of c' offset = pageoff_of c offset)
    by (unfold pageoff_of; rewrite Hshift; reflexivity).
  pose proof (cell_okb_hijacked c bmc Hok) as Hh.
  pose proof (cell_okb_hijacked c' bmc Hok') as Hh'.
  pose proof (cell_okb_fits c bmc Hok) as Hf.
  pose proof (cell_okb_fits c' bmc Hok') as Hf'.
  assert (Hcp : cell_page bmc = page_of c offset)
    by (rewrite Hbmc; apply cell_for_page).
  rewrite Hcp in Hh, Hh', Hf, Hf'.
  split.
  - repeat split; try assumption; try lia.
    rewrite Hbmc at 1. unfold cell_for. rewrite Hpo, Hpf, Hh', Hh. reflexivity.
  - unfold blocks_at, get_counter_csize. rewrite Hpo, Hshift, Hh', Hh.
    destruct bmc as [p hi|p off]; simpl in *; [reflexivity|].
    destruct (bp_map (slot c _)), (bp_map (slot c' _)); try discriminate;
      reflexivity.
Qed.

Lemma after_get_counter_found b offset create bmc :
  found (counts b) offset bmc ->
  get_counter b offset create
  = mk_gc (Some bmc) (blocks_at (counts b) offset) (counts b) (kz_script b)
  /\ after_get_counter b (get_counter b offset create) = b.
Proof.
  intros Hf. unfold get_counter.
  rewrite (found_get_counter _ _ create (kz_script b) _ Hf).
  split; [reflexivity|]. destruct b; reflexivity.
Qed.

(** [bitmap_startwrite]'s pass over a counter that exists and is not
    saturated. *)
Lemma startwrite_step_found b offset bmc :
  found (counts b) offset bmc ->
  COUNTER (read_counter (counts b) bmc) <> COUNTER_MAX ->
  bp_count (slot (counts b) (cell_page bmc)) <> -1 ->
  exists b',
    startwrite_step b offset = (b', StepNext (blocks_at (counts b) offset))
    /\ found (counts b') offset bmc
    /\ blocks_at (counts b') offset = blocks_at (counts b) offset
    /\ chunkshift (counts b') = chunkshift (counts b)
    /\ read_counter (counts b') bmc
       = (if read_counter (counts b) bmc <=? 1 then 3
          else read_counter (counts b) bmc + 1)
    /\ bp_count (slot (counts b') (cell_page bmc))
       = (if read_counter (counts b) bmc =? 0
          then bp_count (slot (counts b) (cell_page bmc)) + 1
          else bp_count (slot (counts b) (cell_page bmc)))
    /\ mddev b' = mddev b /\ events_cleared b' = events_cleared b
    /\ need_sync b' = need_sync b.
Proof.
  intros Hf Hsat Hn.
  destruct (after_get_counter_found b offset true bmc Hf) as [Hgc Hafter].
  pose proof Hf as (Hinv & Hok & Hbmc & Hlt).
  pose proof (found_page _ _ _ Hf) as Hpg. symmetry in Hpg.
  pose proof (read_counter_range (counts b) bmc) as Hcr.
  unfold startwrite_step. rewrite Hafter, Hgc. cbn [gc_bmc gc_blocks].
  remember (read_counter (counts b) bmc) as v eqn:Hv.
  apply Z.eqb_neq in Hsat. rewrite Hsat.
  destruct (Z.eqb_spec v 0) as [E0|N0]; [|destruct (Z.eqb_spec v 1) as [E1|N1]].
  - (* 0: set the bit, count the page, 2, then 3 *)
    destruct (bitmap_file_set_bit_frame b offset)
      as (Hcf & _ & _ & Hns & _ & _ & Hmd & Hec).
    remember (bitmap_file_set_bit b offset) as bs eqn:Hbs.
    rewrite Hcf.
    destruct (bitmap_count_page_cell (counts b) offset 1 bmc Hok Hpg
                ltac:(lia)) as (Hok1 & _ & Hn1).
    pose proof (bitmap_count_page_inv (counts b) offset 1 Hinv) as Hinv1.
    destruct (bitmap_count_page_fields (counts b) offset 1)
      as (Hp1 & Hs1 & _).
    remember (bitmap_count_page (counts b) offset 1) as c1 eqn:Hc1.
    destruct (store_cell c1 bmc 2 Hok1) as (Hok2 & Hr2 & Hn2 & _).
    pose proof (counts_inv_write_counter c1 bmc 2 Hinv1 Hok1) as Hinv2.
    destruct (store_cell (write_counter c1 bmc 2) bmc 3 Hok2)
      as (Hok3 & Hr3 & Hn3 & _).
    pose proof (counts_inv_write_counter _ bmc 3 Hinv2 Hok2) as Hinv3.
    eexists. split; [reflexivity|].
    unfold store_counter.
    cbn [counts set_counts mddev events_cleared need_sync].
    rewrite !Hr2. change (u16 2 + 1) with 3.
    destruct (found_frame (counts b) (write_counter (write_counter c1 bmc 2) bmc 3)
                offset bmc Hf Hinv3 Hok3) as [Hf3 Hb3];
      [simpl; congruence|simpl; congruence|].
    rewrite Hr3, Hn3, Hn2, Hn1, E0.
    repeat (split; [first [assumption|reflexivity|congruence|
                            (rewrite ?Hs5; cbn; congruence)]|]);
      first [assumption|reflexivity|congruence].
  - (* 1: 2, then 3 *)
    destruct (store_cell (counts b) bmc 2 Hok) as (Hok2 & Hr2 & Hn2 & _).
    pose proof (counts_inv_write_counter _ bmc 2 Hinv Hok) as Hinv2.
    destruct (store_cell (write_counter (counts b) bmc 2) bmc 3 Hok2)
      as (Hok3 & Hr3 & Hn3 & _).
    pose proof (counts_inv_write_counter _ bmc 3 Hinv2 Hok2) as Hinv3.
    eexists. split; [reflexivity|].
    unfold store_counter.
    cbn [counts set_counts mddev events_cleared need_sync].
    rewrite !Hr2. change (u16 2 + 1) with 3.
    destruct (found_frame (counts b)
                (write_counter (write_counter (counts b) bmc 2) bmc 3)
                offset bmc Hf Hinv3 Hok3) as [Hf3 Hb3];
      [reflexivity|reflexivity|].
    rewrite Hr3, Hn3, Hn2, E1.
    repeat (split; [first [assumption|reflexivity|congruence|
                            (rewrite ?Hs5; cbn; congruence)]|]);
      first [assumption|reflexivity|congruence].
  - (* one more *)
    destruct (store_cell (counts b) bmc (v + 1) Hok) as (Hok1 & Hr1 & Hn1 & _).
    pose proof (counts_inv_write_counter _ bmc (v + 1) Hinv Hok) as Hinv1.
    eexists. split; [reflexivity|].
    unfold store_counter.
    cbn [counts set_counts mddev events_cleared need_sync].
    rewrite <- Hv.
    destruct (found_frame (counts b) (write_counter (counts b) bmc (v + 1))
                offset bmc Hf Hinv1 Hok1) as [Hf1 Hb1];
      [reflexivity|reflexivity|].
    rewrite Hr1, Hn1.
    apply Z.eqb_neq in Hsat.
    destruct (counter_incr v Hsat) as (_ & _ & _ & Hi).
    rewrite (u16_small v) in Hi by exact Hcr.
    destruct (Z.leb_spec v 1); [lia|].
    repeat (split; [first [assumption|reflexivity|congruence|
                            (rewrite ?Hs5; cbn; congruence)]|]);
      first [assumption|reflexivity|congruence].
Qed.

(** The first pass, which may have to make room for the counter, is a
    pass over the counter once it is there. *)
Lemma startwrite_step_after b offset bmc :
  counts_inv (counts b) = true -> 0 <= offset ->
  gc_bmc (get_counter b offset true) = Some bmc ->
  found (counts (after_get_counter b (get_counter b offset true))) offset bmc
  /\ startwrite_step b offset
     = startwrite_step (after_get_counter b (get_counter b offset true)) offset.
Proof.
  intros Hinv Hoff Hbmc.
  destruct (get_counter_found (counts b) offset true (kz_script b) bmc
              Hinv Hoff Hbmc) as [Hf Hbl].
  fold (get_counter b offset true) in Hf, Hbl.
  remember (get_counter b offset true) as r eqn:Hr.
  assert (Hf0 : found (counts (after_get_counter b r)) offset bmc) by exact Hf.
  split; [exact Hf0|].
  destruct (after_get_counter_found _ offset true bmc Hf0) as [Hgc Hafter].
  unfold startwrite_step at 2. rewrite Hafter, Hgc.
  unfold startwrite_step. rewrite <- Hr, Hbmc. cbn [gc_bmc gc_blocks].
  change (counts (after_get_counter b r)) with (gc_counts r).
  rewrite Hbl. reflexivity.
Qed.

(** [bitmap_endwrite]'s pass, for a write that succeeded, over a counter
    whose count is not zero. *)
Lemma endwrite_step_found b offset bmc :
  found (counts b) offset bmc ->
  COUNTER (read_counter (counts b) bmc) <> 0 ->
  exists b',
    endwrite_step b offset true = (b', StepNext (blocks_at (counts b) offset))
    /\ found (counts b') offset bmc
    /\ blocks_at (counts b') offset = blocks_at (counts b) offset
    /\ chunkshift (counts b') = chunkshift (counts b)
    /\ read_counter (counts b') bmc = read_counter (counts b) bmc - 1
    /\ bp_count (slot (counts b') (cell_page bmc))
       = bp_count (slot (counts b) (cell_page bmc)).
Proof.
  intros Hf Hnz.
  destruct (after_get_counter_found b offset false bmc Hf) as [Hgc Hafter].
  pose proof Hf as (Hinv & Hok & Hbmc & Hlt).
  pose proof (found_page _ _ _ Hf) as Hpg. symmetry in Hpg.
  pose proof (read_counter_range (counts b) bmc) as Hcr.
  unfold endwrite_step. rewrite Hafter, Hgc. cbn [gc_bmc gc_blocks].
  remember (if true && (md_degraded (mddev b) =? 0)
               && (events_cleared b <? md_events (mddev b))
            then emit (set_need_sync
                         (set_events_cleared b (md_events (mddev b))) true)
                   EvNotifyCanClear
            else b) as b1 eqn:Hb1.
  assert (Hc1 : counts b1 = counts b)
    by (subst b1; destruct (true && _ && _); reflexivity).
  clear Hb1. cbn [negb andb].
  remember (if COUNTER (read_counter (counts b1) bmc) =? COUNTER_MAX
            then emit b1 (EvWake overflow_wait) else b1) as b3 eqn:Hb3.
  assert (Hc3 : counts b3 = counts b)
    by (subst b3; destruct (_ =? _); simpl; exact Hc1).
  clear Hb3.
  remember (read_counter (counts b) bmc) as v eqn:Hv.
  destruct (store_cell (counts b) bmc (v - 1) Hok) as (Hok4 & Hr4 & Hn4 & _).
  pose proof (counts_inv_write_counter _ bmc (v - 1) Hinv Hok) as Hinv4.
  destruct (counter_decr v Hnz) as (_ & _ & _ & Hd).
  rewrite (u16_small v) in Hd by exact Hcr. rewrite Hd in Hr4.
  destruct (found_frame (counts b) (write_counter (counts b) bmc (v - 1))
              offset bmc Hf Hinv4 Hok4) as [Hf4 Hb4];
    [reflexivity|reflexivity|].
  unfold store_counter. cbn [counts set_counts]. rewrite Hc3, <- Hv, Hr4.
  destruct (Z.leb_spec (v - 1) 2).
  - destruct (bitmap_set_pending_cell _ offset bmc Hok4) as (Hok5 & Hr5 & _ & Hn5).
    { rewrite <- Hpg. reflexivity. }
    pose proof (bitmap_set_pending_inv _ offset Hinv4) as Hinv5.
    destruct (bitmap_set_pending_fields (write_counter (counts b) bmc (v - 1)) offset)
      as (Hp5 & _ & Hs5 & _).
    destruct (found_frame (counts b)
                (bitmap_set_pending (write_counter (counts b) bmc (v - 1)) offset)
                offset bmc Hf Hinv5 Hok5) as [Hf5 Hb5];
      [rewrite Hp5; reflexivity|rewrite Hs5; reflexivity|].
    eexists. split; [reflexivity|].
    cbn [counts set_counts set_allclean].
    rewrite Hr5, Hr4, Hn5, Hn4. repeat (split; [first [assumption|reflexivity|congruence|
                            (rewrite ?Hs5; cbn; congruence)]|]);
      first [assumption|reflexivity|congruence].
  - eexists. split; [reflexivity|].
    cbn [counts set_counts]. rewrite Hr4, Hn4. repeat (split; [first [assumption|reflexivity|congruence|
                            (rewrite ?Hs5; cbn; congruence)]|]);
      first [assumption|reflexivity|congruence].
Qed.

(** ** Matched writes on one chunk *)

Lemma found_counter_at c offset bmc :
  found c offset bmc -> counter_at c offset = read_counter c bmc.
Proof.
  intros Hf. unfold counter_at.
  rewrite (found_get_counter _ _ false [] _ Hf). reflexivity.
Qed.

(** A span never ends before the chunk does. *)
Lemma blocks_at_chunk c offset :
  0 <= chunkshift c -> chunkshift c + PAGE_COUNTER_SHIFT - 1 < 64 ->
  0 <= offset ->
  2 ^ chunkshift c - offset mod 2 ^ chunkshift c <= blocks_at c offset.
Proof.
  intros Hs Hs' Hoff. unfold blocks_at, get_counter_csize.
  change PAGE_COUNTER_SHIFT with 11 in *.
  destruct (_ || _).
  - rewrite shiftl_1_sector by lia.
    destruct (span_blocks (chunkshift c + 11 - 1) offset ltac:(lia) Hoff)
      as [-> _].
    replace (chunkshift c + 11 - 1) with (chunkshift c + 10) by lia.
    rewrite Z.pow_add_r by lia.
    assert (Hp : 0 < 2 ^ chunkshift c) by (apply Z.pow_pos_nonneg; lia).
    rewrite Z.rem_mul_r by lia.
    pose proof (Z.mod_pos_bound (offset / 2 ^ chunkshift c) (2 ^ 10)
                  ltac:(lia)) as Hm.
    nia.
  - rewrite shiftl_1_sector by lia.
    destruct (span_blocks (chunkshift c) offset ltac:(lia) Hoff) as [-> _].
    lia.
Qed.

(** A call of [bitmap_startwrite] that stays inside one span is one
    pass of its loop. *)
Lemma startwrite_single b offset sectors b' blocks :
  startwrite_step b offset = (b', StepNext blocks) ->
  1 <= sectors <= blocks ->
  bitmap_startwrite b offset sectors false = Some (b', SwDone).
Proof.
  intros Hstep Hsec. unfold bitmap_startwrite.
  destruct (Z.to_nat sectors) as [|k] eqn:Hk; [lia|].
  cbn [startwrite_loop].
  destruct (Z.eqb_spec sectors 0); [lia|].
  rewrite Hstep.
  destruct (Z.ltb_spec blocks sectors); [lia|].
  destruct k; reflexivity.
Qed.

Lemma endwrite_single b offset sectors b' blocks :
  endwrite_step b offset true = (b', StepNext blocks) ->
  1 <= sectors <= blocks ->
  bitmap_endwrite b offset sectors true false = Some b'.
Proof.
  intros Hstep Hsec. unfold bitmap_endwrite.
  destruct (Z.to_nat sectors) as [|k] eqn:Hk; [lia|].
  cbn [endwrite_loop].
  destruct (Z.eqb_spec sectors 0); [lia|].
  rewrite Hstep.
  destruct (Z.ltb_spec blocks sectors); [lia|].
  destruct k; reflexivity.
Qed.

(** Counts add up below saturation. *)
Lemma counter_add v k :
  0 <= v < 65536 -> 0 <= k -> COUNTER v + k <= COUNTER_MAX ->
  COUNTER (v + k) = COUNTER v + k /\ 0 <= v + k < 65536.
Proof.
  rewrite !COUNTER_eq. change COUNTER_MAX with 16383.
  intros Hv Hk. unfold u16. zdm.
Qed.

Lemma startwrites_found offset sectors bmc n : forall b,
  found (counts b) offset bmc ->
  1 <= sectors <= blocks_at (counts b) offset ->
  2 <= read_counter (counts b) bmc ->
  COUNTER (read_counter (counts b) bmc) + Z.of_nat n <= COUNTER_MAX ->
  bp_count (slot (counts b) (cell_page bmc)) <> -1 ->
  exists b',
    startwrites n b offset sectors = Some b'
    /\ found (counts b') offset bmc
    /\ blocks_at (counts b') offset = blocks_at (counts b) offset
    /\ chunkshift (counts b') = chunkshift (counts b)
    /\ read_counter (counts b') bmc = read_counter (counts b) bmc + Z.of_nat n
    /\ bp_count (slot (counts b') (cell_page bmc))
       = bp_count (slot (counts b) (cell_page bmc)).
Proof.
  induction n as [|n IH]; intros b Hf Hsec Hv Hmax Hcnt.
  - exists b. cbn [startwrites]. rewrite Z.add_0_r.
    repeat (split; [first [assumption|reflexivity]|]); reflexivity.
  - pose proof (read_counter_range (counts b) bmc) as Hr.
    destruct (counter_add (read_counter (counts b) bmc) 1 Hr ltac:(lia)
                ltac:(lia)) as [Hc1 Hr1].
    destruct (startwrite_step_found b offset bmc Hf ltac:(lia) Hcnt)
      as (b1 & Hstep & Hf1 & Hb1 & Hs1 & Hv1 & Hn1 & _).
    destruct (Z.leb_spec (read_counter (counts b) bmc) 1); [lia|].
    destruct (Z.eqb_spec (read_counter (counts b) bmc) 0); [lia|].
    destruct (IH b1 Hf1) as (b' & Hrun & Hf' & Hb' & Hs' & Hv' & Hn').
    { rewrite Hb1. exact Hsec. }
    { rewrite Hv1. lia. }
    { rewrite Hv1, Hc1. lia. }
    { rewrite Hn1. exact Hcnt. }
    exists b'. cbn [startwrites].
    rewrite (startwrite_single b offset sectors b1 _ Hstep Hsec).
    rewrite Hrun, Hb', Hb1, Hs', Hs1, Hv', Hv1, Hn', Hn1.
    repeat (split; [first [assumption|reflexivity|lia]|]); lia.
Qed.

Lemma endwrites_found offset sectors bmc n : forall b,
  found (counts b) offset bmc ->
  1 <= sectors <= blocks_at (counts b) offset ->
  Z.of_nat n <= COUNTER (read_counter (counts b) bmc) ->
  exists b',
    endwrites n b offset sectors = Some b'
    /\ found (counts b') offset bmc
    /\ blocks_at (counts b') offset = blocks_at (counts b) offset
    /\ chunkshift (counts b') = chunkshift (counts b)
    /\ read_counter (counts b') bmc = read_counter (counts b) bmc - Z.of_nat n
    /\ bp_count (slot (counts b') (cell_page bmc))
       = bp_count (slot (counts b) (cell_page bmc)).
Proof.
  induction n as [|n IH]; intros b Hf Hsec Hv.
  - exists b. cbn [endwrites]. rewrite Z.sub_0_r.
    repeat (split; [first [assumption|reflexivity]|]); reflexivity.
  - pose proof (read_counter_range (counts b) bmc) as Hr.
    destruct (counter_decr (read_counter (counts b) bmc) ltac:(lia))
      as (Hc1 & _).
    rewrite (u16_small _ Hr) in Hc1.
    destruct (endwrite_step_found b offset bmc Hf ltac:(lia))
      as (b1 & Hstep & Hf1 & Hb1 & Hs1 & Hv1 & Hn1).
    destruct (IH b1 Hf1) as (b' & Hrun & Hf' & Hb' & Hs' & Hv' & Hn').
    { rewrite Hb1. exact Hsec. }
    { rewrite Hv1, Hc1. lia. }
    exists b'. cbn [endwrites].
    rewrite (endwrite_single b offset sectors b1 _ Hstep Hsec).
    rewrite Hrun, Hb', Hb1, Hs', Hs1, Hv', Hv1, Hn', Hn1.
    repeat (split; [first [assumption|reflexivity|lia]|]); lia.
Qed.

(** With [create], every chunk of the table gets its counter. *)
Lemma bitmap_get_counter_create c offset kz :
  counts_inv c = true -> 0 <= offset -> page_of c offset < pages c ->
  exists bmc, gc_bmc (bitmap_get_counter c offset true kz) = Some bmc.
Proof.
  intros Hinv Hoff Hlt.
  rewrite bitmap_get_counter_unfold. cbv zeta.
  pose proof (bitmap_checkpage_cases c (page_of c offset) true kz Hinv
                (page_of_nonneg c offset Hoff)) as Hc.
  destruct (bitmap_checkpage c (page_of c offset) true kz) as [[err c'] kz'].
  assert (He : err = 0).
  { destruct Hc as [(H & _)|[(_ & H & _)|[(_ & H & _)|(_ & _ & H & _)]]];
      [lia|exact H|discriminate|exact H]. }
  subst err. cbn [gc_bmc]. change (0 <? 0) with false. cbv iota.
  match goal with
  | |- context [if ?x then Some _ else Some _] => destruct x
  end; eexists; reflexivity.
Qed.

(** A page that is not there reads as zeroes. *)
Lemma counter_at_absent c offset :
  bp_map (slot c (page_of c offset)) = NULL ->
  bp_hijacked (slot c (page_of c offset)) = false ->
  counter_at c offset = 0.
Proof.
  intros Hm Hh. unfold counter_at.
  rewrite bitmap_get_counter_unfold. cbv zeta. unfold bitmap_checkpage.
  destruct (pages c <=? page_of c offset); [reflexivity|].
  rewrite Hh, Hm. reflexivity.
Qed.

Lemma chunk_start_chunk c offset :
  0 <= chunkshift c -> 0 <= offset < 2 ^ 64 ->
  Z.shiftr (chunk_start c offset) (chunkshift c)
  = Z.shiftr offset (chunkshift c).
Proof.
  intros Hs Hoff. unfold chunk_start.
  assert (Hp : 0 < 2 ^ chunkshift c) by (apply Z.pow_pos_nonneg; lia).
  rewrite sector_t_small.
  - rewrite Z.shiftr_shiftl_l by lia. rewrite Z.sub_diag. apply Z.shiftl_0_r.
  - rewrite Z.shiftl_mul_pow2, Z.shiftr_div_pow2 by lia.
    pose proof (Z.mul_div_le offset (2 ^ chunkshift c) Hp).
    pose proof (Z.div_pos offset (2 ^ chunkshift c) ltac:(lia) Hp).
    nia.
Qed.

Lemma found_same_chunk c o1 o2 bmc :
  Z.shiftr o1 (chunkshift c) = Z.shiftr o2 (chunkshift c) ->
  found c o1 bmc -> found c o2 bmc.
Proof.
  intros He (Hinv & Hok & Hbmc & Hlt).
  unfold found, cell_for, page_of, pageoff_of in *.
  rewrite <- He. auto.
Qed.

Lemma counter_at_same_chunk c c' o1 o2 :
  chunkshift c' = chunkshift c ->
  Z.shiftr o1 (chunkshift c) = Z.shiftr o2 (chunkshift c) ->
  counter_at c' o1 = counter_at c' o2.
Proof.
  intros Hs He. unfold counter_at.
  rewrite !bitmap_get_counter_unfold. cbv zeta.
  unfold page_of, pageoff_of. rewrite Hs, He.
  destruct (bitmap_checkpage c' _ false []) as [[err c''] kz'].
  reflexivity.
Qed.

(** The daemon's visit to a counter that reads 2. *)
Lemma daemon_visit_found_2 b block bmc :
  found (counts b) block bmc ->
  read_counter (counts b) bmc = 2 ->
  found (counts (daemon_visit b block bmc)) block bmc
  /\ read_counter (counts (daemon_visit b block bmc)) bmc = 1
  /\ need_sync (daemon_visit b block bmc) = need_sync b
  /\ chunkshift (counts (daemon_visit b block bmc)) = chunkshift (counts b).
Proof.
  intros Hf Hv.
  pose proof Hf as (Hinv & Hok & Hbmc & Hlt).
  pose proof (found_page _ _ _ Hf) as Hpg. symmetry in Hpg.
  unfold daemon_visit. rewrite Hv. cbn [Z.eqb Pos.eqb andb negb Z.leb Z.compare Pos.compare Pos.compare_cont].
  destruct (store_cell (counts b) bmc 1 Hok) as (Hok1 & Hr1 & _).
  pose proof (counts_inv_write_counter _ bmc 1 Hinv Hok) as Hinv1.
  destruct (bitmap_set_pending_cell _ block bmc Hok1 Hpg) as (Hok2 & Hr2 & _).
  pose proof (bitmap_set_pending_inv _ block Hinv1) as Hinv2.
  destruct (bitmap_set_pending_fields (write_counter (counts b) bmc 1) block)
    as (Hp2 & _ & Hs2 & _).
  destruct (found_frame (counts b)
              (bitmap_set_pending (write_counter (counts b) bmc 1) block)
              block bmc Hf Hinv2 Hok2) as [Hf2 _];
    [rewrite Hp2; reflexivity|rewrite Hs2; reflexivity|].
  unfold store_counter. cbn [counts set_counts set_allclean need_sync].
  rewrite Hr2, Hr1, Hs2. repeat (split; [first [assumption|reflexivity]|]).
  reflexivity.
Qed.

(** The daemon's visit to a counter that reads 1, while no sync is
    needed: the chunk reads 0 after it, whether the page stays or goes. *)
Lemma daemon_visit_found_1 b block bmc :
  found (counts b) block bmc ->
  read_counter (counts b) bmc = 1 -> need_sync b = false ->
  counter_at (counts (daemon_visit b block bmc)) block = 0.
Proof.
  intros Hf Hv Hns.
  pose proof Hf as (Hinv & Hok & Hbmc & Hlt).
  pose proof (found_page _ _ _ Hf) as Hpg. symmetry in Hpg.
  unfold daemon_visit. rewrite Hv, Hns. cbn [Z.eqb Pos.eqb andb negb].
  destruct (bitmap_file_clear_bit_frame
              (set_counts (store_counter b bmc 0)
                 (bitmap_count_page (counts (store_counter b bmc 0)) block (-1)))
              block) as (-> & _).
  unfold store_counter. cbn [counts set_counts].
  destruct (store_cell (counts b) bmc 0 Hok) as (Hok1 & Hr1 & Hn1 & _).
  pose proof (counts_inv_write_counter _ bmc 0 Hinv Hok) as Hinv1.
  pose proof (cell_okb_in_table _ _ Hok1) as Hl1.
  remember (write_counter (counts b) bmc 0) as c1 eqn:Hc1.
  assert (Hs1 : chunkshift c1 = chunkshift (counts b))
    by (subst c1; reflexivity).
  assert (Hp1 : pages c1 = pages (counts b)) by (subst c1; reflexivity).
  assert (Hpg1 : page_of c1 block = cell_page bmc)
    by (unfold page_of in *; rewrite Hs1; exact Hpg).
  destruct (bitmap_count_page_fields c1 block (-1)) as (Hp2 & Hs2 & _).
  assert (Hpg2 : page_of (bitmap_count_page c1 block (-1)) block
                 = page_of c1 block)
    by (unfold page_of; rewrite Hs2; reflexivity).
  destruct (Z.eq_dec (bp_count (slot c1 (page_of c1 block)) + -1) 0) as [E|N].
  - destruct (bitmap_count_page_release c1 block (-1)) as (Hm & Hh & _);
      [rewrite Hpg1; exact Hl1|exact E|].
    apply counter_at_absent; rewrite Hpg2; assumption.
  - assert (N' : bp_count (slot c1 (cell_page bmc)) + -1 <> 0)
      by (rewrite <- Hpg1; exact N).
    destruct (bitmap_count_page_cell c1 block (-1) bmc Hok1 Hpg1 N')
      as (Hok2 & Hr2 & _).
    pose proof (bitmap_count_page_inv c1 block (-1) Hinv1) as Hinv2.
    destruct (found_frame (counts b) (bitmap_count_page c1 block (-1))
                block bmc Hf Hinv2 Hok2) as [Hf2 _]; [congruence|congruence|].
    rewrite (found_counter_at _ _ _ Hf2), Hr2, Hr1. reflexivity.
Qed.

(** What the first [bitmap_startwrite] on a chunk finds once the counter
    is there: the value the chunk read before. *)
Lemma first_counter b offset bmc :
  counts_inv (counts b) = true -> 0 <= offset ->
  gc_bmc (get_counter b offset true) = Some bmc ->
  let b0 := after_get_counter b (get_counter b offset true) in
  read_counter (counts b0) bmc = counter_at (counts b) offset
  /\ chunkshift (counts b0) = chunkshift (counts b)
  /\ bp_count (slot (counts b0) (cell_page bmc))
     = bp_count (slot (counts b) (page_of (counts b) offset)).
Proof.
  intros Hinv Hoff Hbmc. cbv zeta.
  destruct (startwrite_step_after b offset bmc Hinv Hoff Hbmc) as [Hf _].
  unfold get_counter in *.
  destruct (bitmap_get_counter_some _ _ _ _ _ Hinv Hoff Hbmc)
    as (_ & _ & Hpg & _ & _ & Hs & _ & _ & Hn & _).
  cbv zeta in Hs, Hn.
  change (counts (after_get_counter b ?r)) with (gc_counts r) in *.
  rewrite Hpg. split; [|split; assumption].
  destruct (bitmap_get_counter_fresh _ _ _ _ Hinv Hoff Hbmc)
    as [(_ & Hc & _)|(_ & Hm & Hh & Hz)].
  - rewrite Hc in *. symmetry. apply found_counter_at. exact Hf.
  - rewrite (counter_at_absent _ _ Hm Hh). apply Hz. exact Hpg.
Qed.

Lemma daemon_visit_chunkshift b block bmc :
  chunkshift (counts (daemon_visit b block bmc)) = chunkshift (counts b).
Proof.
  unfold daemon_visit.
  destruct (_ && negb (need_sync b)); [|destruct (_ && _)].
  - destruct (bitmap_file_clear_bit_frame
                (set_counts (store_counter b bmc 0)
                   (bitmap_count_page (counts (store_counter b bmc 0)) block
                      (-1))) block) as (-> & _).
    cbn [counts set_counts].
    destruct (bitmap_count_page_fields (counts (store_counter b bmc 0)) block
                (-1)) as (_ & -> & _).
    reflexivity.
  - cbn [counts set_counts set_allclean].
    destruct (bitmap_set_pending_fields (counts (store_counter b bmc 1)) block)
      as (_ & _ & -> & _).
    reflexivity.
  - reflexivity.
Qed.

(** C6 (amended).  On one chunk of the table, [n >= 1] calls of
    [bitmap_startwrite] followed by [n] calls of [bitmap_endwrite] with
    [success = true], each inside the chunk and none of them meeting a
    saturated counter, all return; the counter goes up by [n] and comes
    back to the value it had before when that value was 2 or more, and
    to 2 when it was 0 or 1.  [bitmap_endwrite] leaves the 2 there, whatever
    [need_sync] is: the daemon's visit to the counter makes it 1, and its
    next visit, if no sync is needed then, makes it 0. *)
Theorem write_balance b offset sectors n :
  counts_inv (counts b) = true ->
  0 <= chunkshift (counts b) ->
  chunkshift (counts b) + PAGE_COUNTER_SHIFT - 1 < 64 ->
  0 <= offset < 2 ^ 64 ->
  page_of (counts b) offset < pages (counts b) ->
  1 <= sectors
    <= 2 ^ chunkshift (counts b) - offset mod 2 ^ chunkshift (counts b) ->
  0 <= bp_count (slot (counts b) (page_of (counts b) offset)) ->
  (1 <= n)%nat ->
  let v := counter_at (counts b) offset in
  let v' := if v <=? 1 then 2 else v in
  COUNTER v' + Z.of_nat n <= COUNTER_MAX ->
  exists b1 b2 bmc,
    startwrites n b offset sectors = Some b1
    /\ counter_at (counts b1) offset = v' + Z.of_nat n
    /\ endwrites n b1 offset sectors = Some b2
    /\ counter_at (counts b2) offset = v'
    /\ found (counts b2) (chunk_start (counts b2) offset) bmc
    /\ (v <= 1 ->
        let b3 := daemon_visit b2 (chunk_start (counts b2) offset) bmc in
        counter_at (counts b3) offset = 1
        /\ (need_sync b3 = false ->
            counter_at
              (counts (daemon_visit b3 (chunk_start (counts b3) offset) bmc))
              offset = 0)).
Proof.
  intros Hinv Hs Hs' Hoff Hlt Hsec Hcnt Hn v v' Hmax.
  destruct Hoff as [Hoff Hoff64].
  destruct (bitmap_get_counter_create (counts b) offset (kz_script b)
              Hinv Hoff Hlt) as [bmc Hbmc].
  fold (get_counter b offset true) in Hbmc.
  destruct (startwrite_step_after b offset bmc Hinv Hoff Hbmc) as [Hf0 Hstep0].
  destruct (first_counter b offset bmc Hinv Hoff Hbmc) as (Hv0 & Hs0 & Hn0).
  fold v in Hv0.
  remember (after_get_counter b (get_counter b offset true)) as b0 eqn:Hb0.
  pose proof (read_counter_range (counts b0) bmc) as Hr0. rewrite Hv0 in Hr0.
  assert (Hr' : 0 <= v' < 65536 /\ 2 <= v')
    by (subst v'; destruct (Z.leb_spec v 1); lia).
  destruct Hr' as [Hr' Hv'2].
  assert (Hsat : COUNTER v <> COUNTER_MAX).
  { subst v'. destruct (Z.leb_spec v 1).
    - assert (Hc : COUNTER v <= 1); [|change COUNTER_MAX with 16383; lia].
      rewrite COUNTER_eq, u16_small by lia. zdm.
    - lia. }
  (* the first call *)
  destruct (startwrite_step_found b0 offset bmc Hf0) as
    (b1' & Hstep & Hf1 & Hb1 & Hs1 & Hv1 & Hn1 & _);
    [rewrite Hv0; exact Hsat|rewrite Hn0; lia|].
  rewrite Hv0 in Hv1. fold v' in Hv1.
  assert (Hv1' : read_counter (counts b1') bmc = v' + 1)
    by (rewrite Hv1; subst v'; destruct (v <=? 1); reflexivity).
  clear Hv1.
  pose proof (blocks_at_chunk (counts b0) offset ltac:(lia) ltac:(lia) Hoff)
    as Hbl. rewrite Hs0 in Hbl.
  assert (Hsec0 : 1 <= sectors <= blocks_at (counts b0) offset)
    by (split; [apply Hsec|exact (Z.le_trans _ _ _ (proj2 Hsec) Hbl)]).
  rewrite <- Hstep0 in Hstep.
  pose proof (startwrite_single b offset sectors b1' _ Hstep Hsec0)
    as Hcall.
  destruct (counter_add v' 1 Hr' ltac:(lia) ltac:(lia)) as [Hc1 Hr1].
  (* the other calls *)
  destruct n as [|m]; [lia|].
  destruct (startwrites_found offset sectors bmc m b1' Hf1)
    as (b1 & Hrun1 & Hfb1 & Hbb1 & Hsb1 & Hvb1 & Hnb1).
  { rewrite Hb1. exact Hsec0. }
  { rewrite Hv1'. lia. }
  { rewrite Hv1', Hc1. lia. }
  { rewrite Hn1, Hn0. destruct (_ =? 0); lia. }
  rewrite Hv1' in Hvb1.
  destruct (counter_add v' (Z.of_nat (S m)) Hr' ltac:(lia) Hmax) as [Hcn Hrn].
  (* the calls of bitmap_endwrite *)
  destruct (endwrites_found offset sectors bmc (S m) b1 Hfb1)
    as (b2 & Hrun2 & Hfb2 & Hbb2 & Hsb2 & Hvb2 & _).
  { rewrite Hbb1, Hb1. exact Hsec0. }
  { rewrite Hvb1. replace (v' + 1 + Z.of_nat m) with (v' + Z.of_nat (S m))
      by lia. rewrite Hcn. pose proof (COUNTER_range v'). lia. }
  rewrite Hvb1 in Hvb2.
  assert (Hv2 : read_counter (counts b2) bmc = v') by lia.
  assert (Hcs2 : chunkshift (counts b2) = chunkshift (counts b)) by congruence.
  pose proof (chunk_start_chunk (counts b2) offset ltac:(lia) ltac:(lia))
    as Hcs.
  assert (Hfs2 : found (counts b2) (chunk_start (counts b2) offset) bmc)
    by (apply (found_same_chunk _ offset); [symmetry; exact Hcs|exact Hfb2]).
  exists b1, b2, bmc.
  split; [cbn [startwrites]; rewrite Hcall; exact Hrun1|].
  split; [rewrite (found_counter_at _ _ _ Hfb1); lia|].
  split; [exact Hrun2|].
  split; [rewrite (found_counter_at _ _ _ Hfb2); exact Hv2|].
  split; [exact Hfs2|].
  intros Hle. cbv zeta.
  assert (E2 : v' = 2) by (subst v'; destruct (Z.leb_spec v 1); lia).
  rewrite E2 in Hv2.
  destruct (daemon_visit_found_2 b2 _ bmc Hfs2 Hv2) as (Hf3 & Hv3 & _ & Hs3).
  remember (daemon_visit b2 (chunk_start (counts b2) offset) bmc) as b3 eqn:Hb3.
  assert (Hcs3 : chunk_start (counts b3) offset = chunk_start (counts b2) offset)
    by (unfold chunk_start; rewrite Hs3; reflexivity).
  split.
  - rewrite <- (counter_at_same_chunk (counts b2) (counts b3) _ offset Hs3 Hcs).
    rewrite (found_counter_at _ _ _ Hf3). exact Hv3.
  - intros Hns. rewrite Hcs3.
    rewrite <- (counter_at_same_chunk (counts b2) _ _ offset
                  (eq_trans (daemon_visit_chunkshift b3 _ bmc) Hs3) Hcs).
    apply daemon_visit_found_1; assumption.
Qed.

Lemma write_balance_witness :
  option_map (fun b2 => counter_at (counts b2) 0)
    (matched_writes 1 (ex_bitmap [] []) 0 1) = Some 2.
Proof.
  destruct (write_balance (ex_bitmap [] []) 0 1 1
              ltac:(reflexivity) ltac:(vm_compute; discriminate)
              ltac:(vm_compute; reflexivity)
              ltac:(vm_compute; intuition congruence)
              ltac:(vm_compute; reflexivity)
              ltac:(vm_compute; intuition congruence)
              ltac:(vm_compute; discriminate) ltac:(lia)
              ltac:(vm_compute; discriminate))
    as (b1 & b2 & bmc & H1 & _ & H2 & H3 & _).
  unfold matched_writes. rewrite H1, H2. cbn [option_map].
  f_equal. exact H3.
Defined.

(** The claim C6 says that the counter is back at its prior value after
    the matched calls.  On the worked instance chunk 0 is idle: it reads
    0, and no sync is needed.  One write of one sector is started and
    ended with [success = true]: the chunk reads 2, and [need_sync] is as
    it was. *)
Lemma matched_write_leaves_two :
  counter_at (counts (ex_bitmap [] [])) 0 = 0
  /\ need_sync (ex_bitmap [] []) = false
  /\ option_map (fun b2 => (counter_at (counts b2) 0, need_sync b2))
       (matched_writes 1 (ex_bitmap [] []) 0 1) = Some (2, false).
Proof.
  split; [reflexivity|]. split; [reflexivity|]. vm_compute. reflexivity.
Qed.

(** ** Saturated counters *)

Lemma endwrite_marked_counter success c :
  0 <= c < 65536 -> COUNTER (endwrite_marked success c) = COUNTER c.
Proof.
  intros Hc. unfold endwrite_marked.
  destruct (negb success && (NEEDED c =? 0)); [|reflexivity].
  destruct (NEEDED_set c) as (_ & _ & H & _).
  rewrite (u16_small c) in H by exact Hc. exact H.
Qed.

(** [bitmap_startwrite] in front of a saturated counter: it goes to sleep
    on the overflow queue, and the table is as it was. *)
Lemma startwrite_step_saturated b offset bmc :
  found (counts b) offset bmc ->
  COUNTER (read_counter (counts b) bmc) = COUNTER_MAX ->
  startwrite_step b offset = (emit b (EvSleep overflow_wait), StepWait).
Proof.
  intros Hf Hsat.
  destruct (after_get_counter_found b offset true bmc Hf) as [Hgc Hafter].
  unfold startwrite_step. rewrite Hafter, Hgc. cbn [gc_bmc gc_blocks].
  rewrite Hsat, Z.eqb_refl. reflexivity.
Qed.

(** [bitmap_endwrite] on a saturated counter: the sleepers on the
    overflow queue are woken, then the counter is decremented. *)
Lemma endwrite_step_wakes b offset bmc success :
  found (counts b) offset bmc ->
  COUNTER (read_counter (counts b) bmc) = COUNTER_MAX ->
  exists b',
    endwrite_step b offset success
    = (b', StepNext (blocks_at (counts b) offset))
    /\ (exists l, log b' = EvWake overflow_wait :: l
                  /\ (l = log b \/ l = EvNotifyCanClear :: log b))
    /\ COUNTER (read_counter (counts b') bmc) = COUNTER_MAX - 1.
Proof.
  intros Hf Hsat.
  destruct (after_get_counter_found b offset false bmc Hf) as [Hgc Hafter].
  pose proof Hf as (Hinv & Hok & Hbmc & Hlt).
  pose proof (found_page _ _ _ Hf) as Hpg. symmetry in Hpg.
  pose proof (read_counter_range (counts b) bmc) as Hcr.
  unfold endwrite_step. rewrite Hafter, Hgc. cbn [gc_bmc gc_blocks].
  remember (if success && (md_degraded (mddev b) =? 0)
               && (events_cleared b <? md_events (mddev b))
            then emit (set_need_sync
                         (set_events_cleared b (md_events (mddev b))) true)
                   EvNotifyCanClear
            else b) as b1 eqn:Hb1.
  assert (Hc1 : counts b1 = counts b)
    by (subst b1; destruct (success && _ && _); reflexivity).
  assert (Hl1 : log b1 = log b \/ log b1 = EvNotifyCanClear :: log b)
    by (subst b1; destruct (success && _ && _); [right|left]; reflexivity).
  clear Hb1.
  remember (read_counter (counts b) bmc) as v eqn:Hv.
  remember (if negb success && (NEEDED (read_counter (counts b1) bmc) =? 0)
            then store_counter b1 bmc
                   (Z.lor (read_counter (counts b1) bmc) NEEDED_MASK)
            else b1) as b2 eqn:Hb2.
  assert (H2 : cell_okb (counts b2) bmc = true
               /\ read_counter (counts b2) bmc = endwrite_marked success v
               /\ log b2 = log b1).
  { subst b2. unfold endwrite_marked. rewrite Hc1, <- Hv.
    destruct (negb success && (NEEDED v =? 0)).
    - unfold store_counter. cbn [counts set_counts log]. rewrite Hc1.
      destruct (store_cell (counts b) bmc (Z.lor v NEEDED_MASK) Hok)
        as (Hok2 & Hr2 & _).
      destruct (NEEDED_set v) as (_ & _ & _ & Hu).
      rewrite (u16_small v) in Hu by exact Hcr.
      rewrite Hu in Hr2. auto.
    - rewrite Hc1, <- Hv. auto. }
  destruct H2 as (Hok2 & Hr2 & Hl2). clear Hb2.
  pose proof (endwrite_marked_counter success v Hcr) as Hcm.
  pose proof (endwrite_marked_range success v Hcr) as Hmr.
  remember (endwrite_marked success v) as m eqn:Hm.
  rewrite Hr2, Hcm, Hsat, Z.eqb_refl.
  cbn [counts emit]. unfold store_counter at 1 2.
  cbn [counts set_counts emit]. rewrite Hr2.
  destruct (store_cell (counts b2) bmc (m - 1) Hok2) as (Hok4 & Hr4 & _).
  destruct (counter_decr m) as (Hd & _ & _ & Hu).
  { rewrite Hcm, Hsat. discriminate. }
  rewrite (u16_small m) in Hd, Hu by exact Hmr. rewrite Hu in Hr4.
  assert (Hbig : 2 < m - 1).
  { rewrite Hcm, Hsat, COUNTER_eq in Hd. change COUNTER_MAX with 16383 in Hd.
    pose proof (u16_range (m - 1)) as Hur. rewrite Hu in Hur.
    rewrite u16_small in Hd by exact Hur. zdm. }
  match goal with
  | |- context [?x <=? 2] =>
      replace (x <=? 2) with false
        by (symmetry; apply Z.leb_gt; cbn [counts set_counts store_counter emit];
            rewrite Hr4; exact Hbig)
  end.
  eexists. split; [reflexivity|].
  unfold store_counter. cbn [counts set_counts log emit].
  rewrite Hr4, Hd, Hcm, Hsat, Hl2.
  split; [|reflexivity]. eexists. split; [reflexivity|exact Hl1].
Qed.

(** C5.  The count field of every counter of every table lies between 0
    and COUNTER_MAX, in the states the interface reaches as in all others.
    In front of a counter whose count is COUNTER_MAX, [bitmap_startwrite]
    does not increment: it goes to sleep on the overflow queue, with the
    whole range still to do and the table as it was; [bitmap_endwrite] on
    such a counter wakes the overflow queue and takes the count to
    COUNTER_MAX - 1.  Below COUNTER_MAX, [bitmap_startwrite] adds one to
    the count (an idle counter, 0 or 1, going to 3), which stays within
    COUNTER_MAX. *)
Theorem counter_max_guard b offset bmc :
  found (counts b) offset bmc ->
  let v := read_counter (counts b) bmc in
  (forall c bo, 0 <= COUNTER (read_counter c bo) <= COUNTER_MAX)
  /\ (COUNTER v = COUNTER_MAX ->
      startwrite_step b offset = (emit b (EvSleep overflow_wait), StepWait)
      /\ (forall sectors, 1 <= sectors ->
          bitmap_startwrite b offset sectors false
          = Some (emit b (EvSleep overflow_wait), SwWait offset sectors))
      /\ counts (emit b (EvSleep overflow_wait)) = counts b
      /\ forall success, exists b',
           endwrite_step b offset success
           = (b', StepNext (blocks_at (counts b) offset))
           /\ (exists l, log b' = EvWake overflow_wait :: l
                         /\ (l = log b \/ l = EvNotifyCanClear :: log b))
           /\ COUNTER (read_counter (counts b') bmc) = COUNTER_MAX - 1)
  /\ (COUNTER v <> COUNTER_MAX ->
      bp_count (slot (counts b) (cell_page bmc)) <> -1 ->
      exists b',
        startwrite_step b offset = (b', StepNext (blocks_at (counts b) offset))
        /\ COUNTER (read_counter (counts b') bmc)
           = (if v <=? 1 then 3 else COUNTER v + 1)
        /\ COUNTER (read_counter (counts b') bmc) <= COUNTER_MAX).
Proof.
  intros Hf v. split; [intros c bo; apply COUNTER_range|]. split.
  - intros Hsat.
    pose proof (startwrite_step_saturated b offset bmc Hf Hsat) as Hstep.
    split; [exact Hstep|]. split; [|split; [reflexivity|]].
    + intros sectors Hsec. unfold bitmap_startwrite.
      destruct (Z.to_nat sectors) as [|k] eqn:Hk; [lia|].
      cbn [startwrite_loop].
      destruct (Z.eqb_spec sectors 0); [lia|].
      rewrite Hstep. reflexivity.
    + intros success. apply endwrite_step_wakes; assumption.
  - intros Hsat Hcnt.
    destruct (startwrite_step_found b offset bmc Hf Hsat Hcnt)
      as (b' & Hstep & _ & _ & _ & Hv' & _).
    exists b'. split; [exact Hstep|]. fold v in Hv'.
    pose proof (read_counter_range (counts b) bmc) as Hr. fold v in Hr.
    assert (Hc : COUNTER (read_counter (counts b') bmc)
                 = (if v <=? 1 then 3 else COUNTER v + 1)).
    { rewrite Hv'. destruct (Z.leb_spec v 1); [reflexivity|].
      pose proof (COUNTER_range v).
      apply (counter_add v 1 Hr); lia. }
    split; [exact Hc|]. apply COUNTER_range.
Qed.

Lemma counter_max_guard_witness :
  COUNTER (read_counter (counts ex_saturated) (PageCell 0 0)) = COUNTER_MAX
  /\ startwrite_step ex_saturated 0
     = (emit ex_saturated (EvSleep overflow_wait), StepWait)
  /\ bitmap_startwrite ex_saturated 0 8 false
     = Some (emit ex_saturated (EvSleep overflow_wait), SwWait 0 8).
Proof.
  assert (Hf : found (counts ex_saturated) 0 (PageCell 0 0))
    by (repeat split; vm_compute; reflexivity).
  pose proof (counter_max_guard ex_saturated 0 (PageCell 0 0) Hf) as H.
  cbv zeta in H. destruct H as (_ & H & _).
  assert (Hsat : COUNTER (read_counter (counts ex_saturated) (PageCell 0 0))
                 = COUNTER_MAX) by (vm_compute; reflexivity).
  destruct (H Hsat) as (Hstep & Hcall & _).
  split; [exact Hsat|]. split; [exact Hstep|]. apply Hcall. lia.
Defined.

(** ** The table under the operations of the interface *)

(** The transfers leave the table alone. *)
Lemma counts_md_lock_super b : counts (snd (md_lock_super b)) = counts b.
Proof. unfold md_lock_super. destruct (lock_script b); reflexivity. Qed.

Lemma counts_next_io b : counts (snd (next_io b)) = counts b.
Proof. unfold next_io. destruct (io_script b); reflexivity. Qed.

Lemma counts_write_sb_page b k wait :
  counts (snd (write_sb_page b k wait)) = counts b.
Proof.
  unfold write_sb_page.
  pose proof (counts_md_lock_super b) as H1.
  destruct (md_lock_super b) as [ret b1]. cbn [snd] in H1.
  destruct (negb (ret =? 0)); cbn [snd]; [exact H1|].
  rewrite write_sb_page_walk_spec. cbv zeta. cbn [snd emits counts].
  exact H1.
Qed.

Lemma counts_end_bitmap_write b : counts (end_bitmap_write b) = counts b.
Proof.
  unfold end_bitmap_write. destruct (inflight b) as [|u rest]; [reflexivity|].
  destruct rest, (negb u); reflexivity.
Qed.

Lemma counts_complete_writes n : forall b,
  counts (complete_writes n b) = counts b.
Proof.
  induction n as [|n IH]; intros b; [reflexivity|].
  cbn [complete_writes]. rewrite IH. apply counts_end_bitmap_write.
Qed.

Lemma counts_write_page_io b k wait :
  counts (write_page_io b k wait) = counts b.
Proof.
  unfold write_page_io. destruct (negb (st_file (storage b))).
  - pose proof (counts_write_sb_page b k wait) as H.
    destruct (write_sb_page b k wait) as [ret b1]. cbn [snd] in H.
    destruct (ret =? - EINVAL); exact H.
  - pose proof (counts_next_io b) as H.
    destruct (next_io b) as [r b1]. cbn [snd] in H.
    destruct wait; [unfold wait_pending_writes; rewrite counts_complete_writes|];
      exact H.
Qed.

Lemma counts_write_page_with kick b k wait :
  (forall x, counts (kick x) = counts x) ->
  counts (write_page_with kick b k wait) = counts b.
Proof.
  intros Hk. unfold write_page_with.
  destruct (test_flag _ _); rewrite ?Hk; apply counts_write_page_io.
Qed.

Lemma counts_bitmap_update_sb_with kick b :
  (forall x, counts (kick x) = counts x) ->
  counts (bitmap_update_sb_with kick b) = counts b.
Proof.
  intros Hk. unfold bitmap_update_sb_with.
  destruct (md_external (mddev b)); [reflexivity|].
  destruct (negb (sb_page (storage b))); [reflexivity|].
  match goal with
  | |- context [md_lock_super ?x] =>
      pose proof (counts_md_lock_super x) as H;
      destruct (md_lock_super x) as [ret b3]
  end.
  cbn [snd] in H.
  destruct (negb (ret =? 0)); [exact H|].
  rewrite (counts_write_page_with kick b3 0 true Hk). exact H.
Qed.

Lemma counts_bitmap_file_kick_fuel n : forall b,
  counts (bitmap_file_kick_fuel n b) = counts b.
Proof.
  induction n as [|n IH]; intros b; [reflexivity|].
  cbn [bitmap_file_kick_fuel].
  destruct (test_flag BITMAP_STALE (flags b)); [reflexivity|].
  rewrite (counts_bitmap_update_sb_with _ _ IH). reflexivity.
Qed.

Lemma counts_write_page b k wait : counts (write_page b k wait) = counts b.
Proof.
  apply counts_write_page_with. intros x. apply counts_bitmap_file_kick_fuel.
Qed.

Lemma counts_bitmap_update_sb b : counts (bitmap_update_sb b) = counts b.
Proof.
  apply counts_bitmap_update_sb_with. intros x.
  apply counts_bitmap_file_kick_fuel.
Qed.

Lemma counts_unplug_pages n : forall b i wait,
  counts (match unplug_pages n b i wait with
          | inl b1 => b1
          | inr (b1, _) => b1
          end) = counts b.
Proof.
  induction n as [|n IH]; intros b i wait; [reflexivity|].
  cbn [unplug_pages]. destruct (filemap (storage b)); [|reflexivity].
  unfold test_and_clear_page_attr.
  rewrite IH. destruct (_ || _); [rewrite counts_write_page|]; reflexivity.
Qed.

Lemma counts_bitmap_unplug b : counts (bitmap_unplug b) = counts b.
Proof.
  unfold bitmap_unplug. destruct (filemap (storage b)); [|reflexivity].
  destruct (test_flag BITMAP_STALE (flags b)); [reflexivity|].
  pose proof (counts_unplug_pages (Z.to_nat (file_pages (storage b))) b 0 false)
    as H.
  destruct (unplug_pages _ b 0 false) as [b1|[b1 wait]]; [exact H|].
  assert (H2 : counts (if wait && st_file (storage b1)
                       then wait_pending_writes b1 else b1) = counts b).
  { destruct (wait && _); [unfold wait_pending_writes;
                           rewrite counts_complete_writes|]; exact H. }
  destruct (test_flag BITMAP_WRITE_ERROR _);
    [unfold bitmap_file_kick; rewrite counts_bitmap_file_kick_fuel|]; exact H2.
Qed.

Lemma counts_daemon_promote n : forall b j,
  counts (daemon_promote n b j) = counts b.
Proof.
  induction n as [|n IH]; intros b j; [reflexivity|].
  cbn [daemon_promote]. unfold test_and_clear_page_attr.
  rewrite IH. destruct (test_page_attr _ _ _); reflexivity.
Qed.

Lemma counts_daemon_writeout n : forall b j,
  counts (daemon_writeout n b j) = counts b.
Proof.
  induction n as [|n IH]; intros b j; [reflexivity|].
  cbn [daemon_writeout].
  destruct (test_flag BITMAP_STALE (flags b)); [reflexivity|].
  destruct (test_page_attr b j BITMAP_PAGE_DIRTY); [reflexivity|].
  unfold test_and_clear_page_attr.
  rewrite IH. destruct (test_page_attr _ _ _);
    [rewrite counts_write_page|]; reflexivity.
Qed.

Lemma counts_daemon_done b : counts (daemon_done b) = counts b.
Proof. unfold daemon_done. destruct (negb (allclean b)); reflexivity. Qed.

Lemma slot_set_slot_cases c page s p :
  slot (set_slot c page s) p = s \/ slot (set_slot c page s) p = slot c p.
Proof.
  unfold slot, set_slot. cbn [bp].
  destruct (decide (Z.to_nat page = Z.to_nat p)) as [E|N].
  - rewrite <- E.
    destruct (decide (Z.to_nat page < length (bp c))%nat) as [Hl|Hl].
    + left. rewrite list_lookup_insert_eq by exact Hl. reflexivity.
    + right. rewrite list_insert_ge by lia. reflexivity.
  - right. rewrite list_lookup_insert_ne by exact N. reflexivity.
Qed.

Lemma counts_nonneg_set_slot c page s :
  counts_nonneg c -> 0 <= bp_count s -> counts_nonneg (set_slot c page s).
Proof.
  intros Hc Hs p.
  destruct (slot_set_slot_cases c page s p) as [-> | ->]; [exact Hs|apply Hc].
Qed.

Lemma counts_nonneg_get_counter c offset create kz :
  counts_nonneg c ->
  counts_nonneg (gc_counts (bitmap_get_counter c offset create kz)).
Proof.
  intros Hc. rewrite bitmap_get_counter_unfold. cbv zeta.
  assert (H : counts_nonneg
                (snd (fst (bitmap_checkpage c (page_of c offset) create kz)))).
  { unfold bitmap_checkpage.
    destruct (pages c <=? _); [exact Hc|].
    destruct (bp_hijacked _); [exact Hc|].
    destruct (map_is_null _) eqn:Hn; cbn [negb orb]; [|exact Hc].
    destruct (negb create); [exact Hc|].
    destruct (kzalloc kz) as [[cells|] kz']; cbn [snd fst].
    - intros p. apply (counts_nonneg_set_slot c (page_of c offset)
                         (with_map (slot c (page_of c offset)) (MapPage cells))
                         Hc (Hc _) p).
    - apply counts_nonneg_set_slot; [exact Hc|apply Hc]. }
  destruct (bitmap_checkpage c (page_of c offset) create kz) as [[err c'] kz'].
  exact H.
Qed.

Lemma counts_nonneg_write_counter c bmc v :
  counts_nonneg c -> counts_nonneg (write_counter c bmc v).
Proof.
  intros Hc p. destruct (slot_write_counter_members c bmc v p) as (_ & _ & ->).
  apply Hc.
Qed.

Lemma counts_nonneg_set_pending c offset :
  counts_nonneg c -> counts_nonneg (bitmap_set_pending c offset).
Proof.
  intros Hc p. destruct (bitmap_set_pending_members c offset p) as (_ & _ & ->).
  apply Hc.
Qed.

(** One more busy counter on the page of a counter. *)
Lemma count_page_up c offset bmc :
  table_ok c bmc -> page_of c offset = cell_page bmc -> counts_nonneg c ->
  table_ok (bitmap_count_page c offset 1) bmc
  /\ counts_nonneg (bitmap_count_page c offset 1).
Proof.
  intros [Hinv Hok] Hpg Hc.
  pose proof (Hc (cell_page bmc)) as H0.
  destruct (bitmap_count_page_cell c offset 1 bmc Hok Hpg ltac:(lia))
    as (Hok' & _).
  split; [split; [apply bitmap_count_page_inv; exact Hinv|exact Hok']|].
  rewrite bitmap_count_page_keep.
  - apply counts_nonneg_set_slot; [exact Hc|]. cbn [bp_count with_count].
    pose proof (Hc (page_of c offset)). lia.
  - rewrite Hpg. apply (cell_okb_in_table c bmc Hok).
  - rewrite Hpg. lia.
Qed.

Lemma table_ok_write_counter c bmc v :
  table_ok c bmc -> table_ok (write_counter c bmc v) bmc.
Proof.
  intros [Hinv Hok]. split.
  - apply counts_inv_write_counter; assumption.
  - apply cell_okb_write_counter. exact Hok.
Qed.

Lemma table_ok_set_pending c offset bmc :
  table_ok c bmc -> page_of c offset = cell_page bmc ->
  table_ok (bitmap_set_pending c offset) bmc.
Proof.
  intros [Hinv Hok] Hpg. split.
  - apply bitmap_set_pending_inv. exact Hinv.
  - apply (bitmap_set_pending_cell c offset bmc Hok Hpg).
Qed.

(** [bitmap_get_counter] hands out counters of a well-formed table. *)
Lemma table_ok_get_counter b offset create bmc :
  counts_inv (counts b) = true -> 0 <= offset ->
  gc_bmc (get_counter b offset create) = Some bmc ->
  table_ok (counts (after_get_counter b (get_counter b offset create))) bmc
  /\ page_of (counts (after_get_counter b (get_counter b offset create)))
       offset = cell_page bmc.
Proof.
  intros Hinv Hoff Hbmc. unfold get_counter in *.
  destruct (bitmap_get_counter_some _ _ _ _ _ Hinv Hoff Hbmc)
    as (Hinv' & Hok & Hpg & _ & _ & Hs & _).
  cbv zeta in *.
  change (counts (after_get_counter b ?r)) with (gc_counts r).
  split; [split; assumption|].
  unfold page_of in *. rewrite Hs. symmetry. exact Hpg.
Qed.

Lemma page_of_write_counter c bmc v offset :
  page_of (write_counter c bmc v) offset = page_of c offset.
Proof. reflexivity. Qed.

Lemma page_of_count_page c o inc offset :
  page_of (bitmap_count_page c o inc) offset = page_of c offset.
Proof.
  unfold page_of.
  destruct (bitmap_count_page_fields c o inc) as (_ & -> & _). reflexivity.
Qed.

Lemma page_of_set_pending c o offset :
  page_of (bitmap_set_pending c o) offset = page_of c offset.
Proof.
  unfold page_of.
  destruct (bitmap_set_pending_fields c o) as (_ & _ & -> & _). reflexivity.
Qed.

(** *** [bitmap_startwrite] *)

Lemma startwrite_step_inv b offset :
  counts_inv (counts b) = true -> 0 <= offset -> counts_nonneg (counts b) ->
  counts_inv (counts (fst (startwrite_step b offset))) = true
  /\ counts_nonneg (counts (fst (startwrite_step b offset))).
Proof.
  intros Hinv Hoff Hc. unfold startwrite_step.
  pose proof (bitmap_get_counter_inv (counts b) offset true (kz_script b)
                Hinv Hoff) as Hinv0.
  pose proof (counts_nonneg_get_counter (counts b) offset true (kz_script b) Hc)
    as Hc0.
  fold (get_counter b offset true) in Hinv0, Hc0.
  destruct (gc_bmc (get_counter b offset true)) as [bmc|] eqn:Hbmc;
    [|split; assumption].
  destruct (table_ok_get_counter b offset true bmc Hinv Hoff Hbmc)
    as [Hok Hpg].
  change (gc_counts (get_counter b offset true))
    with (counts (after_get_counter b (get_counter b offset true)))
    in Hinv0, Hc0.
  remember (after_get_counter b (get_counter b offset true)) as b0 eqn:Hb0.
  destruct (_ =? COUNTER_MAX); [split; assumption|].
  cbn [fst].
  match goal with
  | |- context [store_counter ?x bmc (read_counter (counts ?x) bmc + 1)] =>
      assert (H1 : table_ok (counts x) bmc /\ counts_nonneg (counts x))
  end.
  { destruct (read_counter (counts b0) bmc =? 0);
      [|destruct (read_counter (counts b0) bmc =? 1)].
    - unfold store_counter. cbn [counts set_counts].
      destruct (bitmap_file_set_bit_frame b0 offset) as (-> & _).
      destruct (count_page_up (counts b0) offset bmc Hok Hpg Hc0) as [Hok1 Hc1].
      split; [apply table_ok_write_counter; exact Hok1|].
      apply counts_nonneg_write_counter. exact Hc1.
    - unfold store_counter. cbn [counts set_counts].
      split; [apply table_ok_write_counter; exact Hok|].
      apply counts_nonneg_write_counter. exact Hc0.
    - split; assumption. }
  destruct H1 as [Hok1 Hc1].
  unfold store_counter at 1. cbn [counts set_counts].
  split; [apply table_ok_write_counter; exact Hok1|].
  apply counts_nonneg_write_counter. exact Hc1.
Qed.

Lemma startwrite_loop_inv fuel : forall b offset sectors b' res,
  startwrite_loop fuel b offset sectors = Some (b', res) ->
  counts_inv (counts b) = true -> 0 <= offset -> counts_nonneg (counts b) ->
  counts_inv (counts b') = true /\ counts_nonneg (counts b').
Proof.
  induction fuel as [|fuel IH]; intros b offset sectors b' res Hrun Hinv Hoff Hc;
    cbn [startwrite_loop] in Hrun.
  - destruct (sectors =? 0); [|discriminate].
    injection Hrun as <- _. split; assumption.
  - destruct (sectors =? 0); [injection Hrun as <- _; split; assumption|].
    destruct (startwrite_step_inv b offset Hinv Hoff Hc) as [Hinv1 Hc1].
    destruct (startwrite_step b offset) as [b1 [| |blocks]]; cbn [fst] in *.
    + injection Hrun as <- _. split; assumption.
    + injection Hrun as <- _. split; assumption.
    + apply (IH _ _ _ _ _ Hrun Hinv1); [|exact Hc1].
      apply (sector_t_range (offset + blocks)).
Qed.

Lemma bitmap_startwrite_inv b offset sectors behind b' res :
  bitmap_startwrite b offset sectors behind = Some (b', res) ->
  counts_inv (counts b) = true -> 0 <= offset -> counts_nonneg (counts b) ->
  counts_inv (counts b') = true /\ counts_nonneg (counts b').
Proof.
  unfold bitmap_startwrite. intros Hrun Hinv Hoff Hc.
  apply (startwrite_loop_inv _ _ _ _ _ _ Hrun); [| exact Hoff |];
    destruct behind; assumption.
Qed.

(** *** [bitmap_endwrite] *)

Lemma endwrite_step_inv b offset success :
  counts_inv (counts b) = true -> 0 <= offset ->
  counts_inv (counts (fst (endwrite_step b offset success))) = true.
Proof.
  intros Hinv Hoff. unfold endwrite_step.
  pose proof (bitmap_get_counter_inv (counts b) offset false (kz_script b)
                Hinv Hoff) as Hinv0.
  fold (get_counter b offset false) in Hinv0.
  destruct (gc_bmc (get_counter b offset false)) as [bmc|] eqn:Hbmc;
    [|exact Hinv0].
  destruct (table_ok_get_counter b offset false bmc Hinv Hoff Hbmc)
    as [Hok Hpg].
  remember (after_get_counter b (get_counter b offset false)) as b0 eqn:Hb0.
  clear Hb0 Hinv0 Hbmc. cbn [fst].
  remember (if success && (md_degraded (mddev b0) =? 0)
               && (events_cleared b0 <? md_events (mddev b0))
            then emit (set_need_sync
                         (set_events_cleared b0 (md_events (mddev b0))) true)
                   EvNotifyCanClear
            else b0) as b1 eqn:Hb1.
  assert (Hc1 : counts b1 = counts b0)
    by (subst b1; destruct (success && _ && _); reflexivity).
  clear Hb1. rewrite <- Hc1 in Hok, Hpg.
  remember (if negb success && (NEEDED (read_counter (counts b1) bmc) =? 0)
            then store_counter b1 bmc
                   (Z.lor (read_counter (counts b1) bmc) NEEDED_MASK)
            else b1) as b2 eqn:Hb2.
  assert (H2 : table_ok (counts b2) bmc
               /\ page_of (counts b2) offset = cell_page bmc).
  { subst b2. destruct (negb success && _); [|split; assumption].
    unfold store_counter. cbn [counts set_counts].
    split; [apply table_ok_write_counter; exact Hok|exact Hpg]. }
  destruct H2 as [Hok2 Hpg2]. clear Hb2.
  remember (if COUNTER (read_counter (counts b2) bmc) =? COUNTER_MAX
            then emit b2 (EvWake overflow_wait) else b2) as b3 eqn:Hb3.
  assert (Hc3 : counts b3 = counts b2)
    by (subst b3; destruct (_ =? _); reflexivity).
  clear Hb3. rewrite <- Hc3 in Hok2, Hpg2.
  unfold store_counter. cbn [counts set_counts].
  pose proof (table_ok_write_counter _ bmc
                (read_counter (counts b3) bmc - 1) Hok2) as Hok4.
  destruct (_ <=? 2); cbn [counts set_counts set_allclean].
  - apply bitmap_set_pending_inv. apply Hok4.
  - apply Hok4.
Qed.

Lemma endwrite_loop_inv fuel : forall b offset sectors success b',
  endwrite_loop fuel b offset sectors success = Some b' ->
  counts_inv (counts b) = true -> 0 <= offset ->
  counts_inv (counts b') = true.
Proof.
  induction fuel as [|fuel IH]; intros b offset sectors success b' Hrun Hinv Hoff;
    cbn [endwrite_loop] in Hrun.
  - destruct (sectors =? 0); [|discriminate]. injection Hrun as <-. exact Hinv.
  - destruct (sectors =? 0); [injection Hrun as <-; exact Hinv|].
    pose proof (endwrite_step_inv b offset success Hinv Hoff) as Hinv1.
    destruct (endwrite_step b offset success) as [b1 [| |blocks]];
      cbn [fst] in *.
    + injection Hrun as <-. exact Hinv1.
    + injection Hrun as <-. exact Hinv1.
    + apply (IH _ _ _ _ _ Hrun Hinv1).
      apply (sector_t_range (offset + blocks)).
Qed.

Lemma bitmap_endwrite_inv b offset sectors success behind b' :
  bitmap_endwrite b offset sectors success behind = Some b' ->
  counts_inv (counts b) = true -> 0 <= offset ->
  counts_inv (counts b') = true.
Proof.
  unfold bitmap_endwrite. intros Hrun Hinv Hoff.
  apply (endwrite_loop_inv _ _ _ _ _ _ Hrun); [|exact Hoff].
  destruct behind; [|exact Hinv].
  destruct (_ =? 0); exact Hinv.
Qed.

(** *** The daemon *)

Lemma daemon_visit_inv b block bmc :
  table_ok (counts b) bmc -> page_of (counts b) block = cell_page bmc ->
  counts_inv (counts (daemon_visit b block bmc)) = true.
Proof.
  intros Hok Hpg. unfold daemon_visit.
  destruct (_ && negb (need_sync b)); [|destruct (_ && _)].
  - destruct (bitmap_file_clear_bit_frame
                (set_counts (store_counter b bmc 0)
                   (bitmap_count_page (counts (store_counter b bmc 0)) block
                      (-1))) block) as (-> & _).
    unfold store_counter. cbn [counts set_counts].
    apply bitmap_count_page_inv. apply (table_ok_write_counter _ _ 0 Hok).
  - unfold store_counter. cbn [counts set_counts set_allclean].
    apply bitmap_set_pending_inv. apply (table_ok_write_counter _ _ 1 Hok).
  - apply Hok.
Qed.

Lemma daemon_counters_inv fuel : forall b j nextpage b',
  daemon_counters fuel b j nextpage = Some b' ->
  counts_inv (counts b) = true -> counts_inv (counts b') = true.
Proof.
  induction fuel as [|fuel IH]; intros b j nextpage b' Hrun Hinv;
    cbn [daemon_counters] in Hrun.
  - destruct (chunks (counts b) <=? j); [|discriminate].
    injection Hrun as <-. exact Hinv.
  - destruct (chunks (counts b) <=? j); [injection Hrun as <-; exact Hinv|].
    cbv zeta in Hrun.
    destruct ((j =? nextpage) && negb _) in Hrun;
      [exact (IH _ _ _ _ Hrun Hinv)|].
    remember (if j =? nextpage
              then set_counts b
                     (set_slot (counts b) (Z.shiftr j PAGE_COUNTER_SHIFT)
                        (with_pending
                           (slot (counts b) (Z.shiftr j PAGE_COUNTER_SHIFT))
                           false))
              else b) as b1 eqn:Hb1.
    assert (Hinv1 : counts_inv (counts b1) = true).
    { subst b1. destruct (j =? nextpage); [|exact Hinv].
      cbn [counts set_counts]. apply counts_inv_set_slot; [exact Hinv|].
      pose proof (counts_inv_slot (counts b) (Z.shiftr j PAGE_COUNTER_SHIFT)
                    Hinv) as Hs.
      unfold slot_okb in *. exact Hs. }
    clear Hb1.
    remember (sector_t (Z.shiftl j (chunkshift (counts b)))) as block eqn:Hblock.
    assert (Hoff : 0 <= block) by (subst block; apply sector_t_range).
    pose proof (bitmap_get_counter_inv (counts b1) block false (kz_script b1)
                  Hinv1 Hoff) as Hinv2.
    fold (get_counter b1 block false) in Hinv2.
    destruct (gc_bmc (get_counter b1 block false)) as [bmc|] eqn:Hbmc.
    + destruct (table_ok_get_counter b1 block false bmc Hinv1 Hoff Hbmc)
        as [Hok Hpg].
      apply (IH _ _ _ _ Hrun). apply daemon_visit_inv; assumption.
    + exact (IH _ _ _ _ Hrun Hinv2).
Qed.

Lemma bitmap_daemon_work_inv b jiffies b' :
  bitmap_daemon_work b jiffies = Some b' ->
  counts_inv (counts b) = true -> counts_inv (counts b') = true.
Proof.
  unfold bitmap_daemon_work. intros Hrun Hinv.
  destruct (time_before _ _).
  { injection Hrun as <-. rewrite counts_daemon_done. exact Hinv. }
  cbv zeta in Hrun.
  destruct (allclean (set_daemon_lastrun b jiffies)).
  { injection Hrun as <-. rewrite counts_daemon_done. exact Hinv. }
  match type of Hrun with
  | match daemon_counters _ ?x _ _ with _ => _ end = _ =>
      assert (Hinv4 : counts_inv (counts x) = true);
      [|destruct (daemon_counters (Z.to_nat (chunks (counts x))) x 0 0)
          as [b5|] eqn:Hloop; [|discriminate]]
  end.
  { destruct (_ && _).
    - destruct (filemap _); cbn [counts set_counts set_need_sync set_page_attr
                                   set_storage];
        rewrite counts_daemon_promote; exact Hinv.
    - rewrite counts_daemon_promote. exact Hinv. }
  injection Hrun as <-.
  rewrite counts_daemon_done, counts_daemon_writeout.
  exact (daemon_counters_inv _ _ _ _ _ Hloop Hinv4).
Qed.

(** *** Resync marks and memory bits *)

Lemma bitmap_start_sync_inv b offset degraded :
  counts_inv (counts b) = true -> 0 <= offset ->
  counts_inv (counts (fst (fst (__bitmap_start_sync b offset degraded)))) = true.
Proof.
  intros Hinv Hoff. unfold __bitmap_start_sync.
  pose proof (bitmap_get_counter_inv (counts b) offset false (kz_script b)
                Hinv Hoff) as Hinv0.
  fold (get_counter b offset false) in Hinv0.
  destruct (gc_bmc (get_counter b offset false)) as [bmc|] eqn:Hbmc;
    [|exact Hinv0].
  destruct (table_ok_get_counter b offset false bmc Hinv Hoff Hbmc)
    as [Hok _].
  destruct (negb (RESYNC _ =? 0)); [exact Hinv0|].
  destruct (negb (NEEDED _ =? 0)); [|exact Hinv0].
  destruct (negb degraded); [|exact Hinv0].
  unfold store_counter. cbn [fst counts set_counts].
  apply table_ok_write_counter, table_ok_write_counter. exact Hok.
Qed.

Lemma bitmap_end_sync_inv b offset aborted :
  counts_inv (counts b) = true -> 0 <= offset ->
  counts_inv (counts (fst (bitmap_end_sync b offset aborted))) = true.
Proof.
  intros Hinv Hoff. unfold bitmap_end_sync.
  pose proof (bitmap_get_counter_inv (counts b) offset false (kz_script b)
                Hinv Hoff) as Hinv0.
  fold (get_counter b offset false) in Hinv0.
  destruct (gc_bmc (get_counter b offset false)) as [bmc|] eqn:Hbmc;
    [|exact Hinv0].
  destruct (table_ok_get_counter b offset false bmc Hinv Hoff Hbmc)
    as [Hok _].
  destruct (negb (RESYNC _ =? 0)); [|exact Hinv0].
  cbv zeta.
  match goal with
  | |- context [store_counter ?x bmc ?v] =>
      pose proof (table_ok_write_counter _ bmc v Hok) as Hok1
  end.
  destruct (_ && aborted).
  - unfold store_counter. cbn [fst counts set_counts].
    apply table_ok_write_counter. exact Hok1.
  - destruct (_ <=? 2); unfold store_counter;
      cbn [fst counts set_counts set_allclean].
    + apply bitmap_set_pending_inv. apply Hok1.
    + apply Hok1.
Qed.

Lemma bitmap_set_memory_bits_inv b offset needed :
  counts_inv (counts b) = true -> 0 <= offset ->
  counts_inv (counts (bitmap_set_memory_bits b offset needed)) = true.
Proof.
  intros Hinv Hoff. unfold bitmap_set_memory_bits.
  pose proof (bitmap_get_counter_inv (counts b) offset true (kz_script b)
                Hinv Hoff) as Hinv0.
  fold (get_counter b offset true) in Hinv0.
  destruct (gc_bmc (get_counter b offset true)) as [bmc|] eqn:Hbmc;
    [|exact Hinv0].
  destruct (table_ok_get_counter b offset true bmc Hinv Hoff Hbmc)
    as [Hok _].
  destruct (_ =? 0); [|exact Hinv0].
  unfold store_counter. cbn [counts set_counts set_allclean].
  apply bitmap_set_pending_inv, bitmap_count_page_inv.
  apply table_ok_write_counter. exact Hok.
Qed.

Lemma dirty_bits_loop_inv n : forall b chunk,
  counts_inv (counts b) = true ->
  counts_inv (counts (dirty_bits_loop n b chunk)) = true.
Proof.
  induction n as [|n IH]; intros b chunk Hinv; [exact Hinv|].
  cbn [dirty_bits_loop]. cbv zeta. apply IH.
  match goal with
  | |- counts_inv (counts (if ?c then set_recovery_cp ?x _ else ?x)) = true =>
      assert (H : counts_inv (counts x) = true);
      [|destruct c; exact H]
  end.
  destruct (bitmap_file_set_bit_frame
              (bitmap_set_memory_bits b
                 (sector_t (Z.shiftl chunk (chunkshift (counts b)))) true)
              (sector_t (Z.shiftl chunk (chunkshift (counts b))))) as (-> & _).
  apply bitmap_set_memory_bits_inv; [exact Hinv|apply sector_t_range].
Qed.

(** *** [bitmap_resize] *)

Lemma counts_resize_set_bits fuel : forall b block start end_ b',
  resize_set_bits fuel b block start end_ = Some b' -> counts b' = counts b.
Proof.
  induction fuel as [|fuel IH]; intros b block start end_ b' Hrun;
    cbn [resize_set_bits] in Hrun.
  - destruct (end_ <=? start); [|discriminate]. injection Hrun as <-.
    reflexivity.
  - destruct (end_ <=? start); [injection Hrun as <-; reflexivity|].
    destruct (int_shl1 (chunkshift (counts b))) as [stride|]; [|discriminate].
    rewrite (IH _ _ _ _ _ Hrun).
    apply (bitmap_file_set_bit_frame b block).
Qed.

Lemma counts_resize_dirty_all n : forall b i,
  counts (resize_dirty_all n b i) = counts b.
Proof.
  induction n as [|n IH]; intros b i; [reflexivity|].
  cbn [resize_dirty_all]. rewrite IH. reflexivity.
Qed.

(** Marking a counter that [bitmap_get_counter] returned: if it is zero
    it becomes [v], with the page counted and flagged. *)
Lemma mark_zero_inv c block bmc v :
  table_ok c bmc -> page_of c block = cell_page bmc -> counts_nonneg c ->
  let c' := bitmap_set_pending
              (bitmap_count_page (write_counter c bmc v) block 1) block in
  table_ok c' bmc /\ page_of c' block = cell_page bmc /\ counts_nonneg c'.
Proof.
  intros Hok Hpg Hc. cbv zeta.
  pose proof (table_ok_write_counter c bmc v Hok) as Hok1.
  pose proof (counts_nonneg_write_counter c bmc v Hc) as Hc1.
  destruct (count_page_up (write_counter c bmc v) block bmc Hok1 Hpg Hc1)
    as [Hok2 Hc2].
  assert (Hpg2 : page_of (bitmap_count_page (write_counter c bmc v) block 1)
                   block = cell_page bmc)
    by (rewrite page_of_count_page; exact Hpg).
  split; [apply table_ok_set_pending; assumption|].
  split; [rewrite page_of_set_pending; exact Hpg2|].
  apply counts_nonneg_set_pending. exact Hc2.
Qed.

Lemma resize_copy_step_inv b old_counts block b' stride :
  resize_copy_step b old_counts block = Some (b', stride) ->
  counts_inv (counts b) = true -> 0 <= block -> counts_nonneg (counts b) ->
  counts_inv (counts b') = true /\ counts_nonneg (counts b').
Proof.
  unfold resize_copy_step. cbv zeta. intros Hrun Hinv Hoff Hc.
  match type of Hrun with
  | (if ?s then _ else _) = _ => destruct s
  end; [|injection Hrun as <- _; split; assumption].
  pose proof (counts_nonneg_get_counter (counts b) block true (kz_script b) Hc)
    as Hc0.
  fold (get_counter b block true) in Hc0.
  destruct (gc_bmc (get_counter b block true)) as [bmc|] eqn:Hbmc;
    [|discriminate].
  destruct (table_ok_get_counter b block true bmc Hinv Hoff Hbmc)
    as [Hok Hpg].
  change (gc_counts (get_counter b block true))
    with (counts (after_get_counter b (get_counter b block true))) in Hc0.
  remember (after_get_counter b (get_counter b block true)) as b0 eqn:Hb0.
  clear Hb0 Hbmc.
  destruct (read_counter (counts b0) bmc =? 0).
  - match type of Hrun with
    | match (match resize_set_bits ?f ?x ?bl ?s ?e with _ => _ end) with _ => _ end = _ =>
        destruct (resize_set_bits f x bl s e) as [b1|] eqn:Hbits;
        [|discriminate]
    end.
    injection Hrun as <- _.
    pose proof (counts_resize_set_bits _ _ _ _ _ _ Hbits) as Hc1.
    unfold store_counter. cbn [counts set_counts]. rewrite Hc1.
    destruct (mark_zero_inv (counts b0) block bmc 2 Hok Hpg Hc0)
      as (Hok2 & _ & Hc2).
    split; [apply table_ok_write_counter; exact Hok2|].
    apply counts_nonneg_write_counter. exact Hc2.
  - injection Hrun as <- _.
    unfold store_counter. cbn [counts set_counts].
    split; [apply table_ok_write_counter; exact Hok|].
    apply counts_nonneg_write_counter. exact Hc0.
Qed.

Lemma resize_copy_inv fuel : forall b old_counts block blocks b' block',
  resize_copy fuel b old_counts block blocks = Some (b', block') ->
  counts_inv (counts b) = true -> 0 <= block -> counts_nonneg (counts b) ->
  counts_inv (counts b') = true /\ counts_nonneg (counts b') /\ 0 <= block'.
Proof.
  induction fuel as [|fuel IH];
    intros b old_counts block blocks b' block' Hrun Hinv Hoff Hc;
    cbn [resize_copy] in Hrun.
  - destruct (blocks <=? block); [|discriminate].
    injection Hrun as <- <-. auto.
  - destruct (blocks <=? block); [injection Hrun as <- <-; auto|].
    destruct (resize_copy_step b old_counts block) as [[b1 stride]|] eqn:Hstep;
      [|discriminate].
    destruct (resize_copy_step_inv _ _ _ _ _ Hstep Hinv Hoff Hc) as [Hinv1 Hc1].
    apply (IH _ _ _ _ _ _ Hrun Hinv1); [|exact Hc1].
    apply (sector_t_range (block + stride)).
Qed.

Lemma resize_grow_step_inv b block :
  counts_inv (counts b) = true -> 0 <= block -> counts_nonneg (counts b) ->
  counts_inv (counts (fst (resize_grow_step b block))) = true
  /\ counts_nonneg (counts (fst (resize_grow_step b block))).
Proof.
  intros Hinv Hoff Hc. unfold resize_grow_step.
  pose proof (bitmap_get_counter_inv (counts b) block true (kz_script b)
                Hinv Hoff) as Hinv0.
  pose proof (counts_nonneg_get_counter (counts b) block true (kz_script b) Hc)
    as Hc0.
  fold (get_counter b block true) in Hinv0, Hc0.
  destruct (gc_bmc (get_counter b block true)) as [bmc|] eqn:Hbmc;
    [|split; assumption].
  destruct (table_ok_get_counter b block true bmc Hinv Hoff Hbmc)
    as [Hok Hpg].
  destruct (_ =? 0); [|split; assumption].
  unfold store_counter. cbn [fst counts set_counts].
  destruct (mark_zero_inv _ block bmc (Z.lor NEEDED_MASK 2) Hok Hpg Hc0)
    as (Hok2 & _ & Hc2).
  split; [apply Hok2|exact Hc2].
Qed.

Lemma resize_grow_inv fuel : forall b block limit b',
  resize_grow fuel b block limit = Some b' ->
  counts_inv (counts b) = true -> 0 <= block -> counts_nonneg (counts b) ->
  counts_inv (counts b') = true /\ counts_nonneg (counts b').
Proof.
  induction fuel as [|fuel IH]; intros b block limit b' Hrun Hinv Hoff Hc;
    cbn [resize_grow] in Hrun.
  - destruct (limit <=? block); [|discriminate].
    injection Hrun as <-. auto.
  - destruct (limit <=? block); [injection Hrun as <-; auto|].
    destruct (resize_grow_step_inv b block Hinv Hoff Hc) as [Hinv1 Hc1].
    destruct (resize_grow_step b block) as [b1 stride]. cbn [fst] in *.
    apply (IH _ _ _ _ Hrun Hinv1); [|exact Hc1].
    apply (sector_t_range (block + stride)).
Qed.

Lemma resize_locked_inv b old_counts init b' :
  resize_locked b old_counts init = Some b' ->
  counts_inv (counts b) = true -> counts_nonneg (counts b) ->
  counts_inv (counts b') = true /\ counts_nonneg (counts b').
Proof.
  unfold resize_locked. cbv zeta. intros Hrun Hinv Hc.
  match type of Hrun with
  | match resize_copy ?f ?x ?o ?z ?bl with _ => _ end = _ =>
      destruct (resize_copy f x o z bl) as [[b1 block]|] eqn:Hcopy;
      [|discriminate]
  end.
  destruct (resize_copy_inv _ _ _ _ _ _ _ Hcopy Hinv ltac:(lia) Hc)
    as (Hinv1 & Hc1 & Hb1).
  destruct init; [injection Hrun as <-; auto|].
  match type of Hrun with
  | match resize_grow ?f ?x ?bl ?l with _ => _ end = _ =>
      destruct (resize_grow f x bl l) as [b2|] eqn:Hgrow; [|discriminate]
  end.
  injection Hrun as <-. rewrite counts_resize_dirty_all.
  exact (resize_grow_inv _ _ _ _ _ Hgrow Hinv1 Hb1 Hc1).
Qed.

(** The table [bitmap_resize] starts from: [kzalloc]ed, so all zero. *)
Lemma fresh_table_inv n missing shift nchunks :
  let c := {| bp := replicate (Z.to_nat n) zero_page; pages := n;
              missing_pages := missing; chunkshift := shift;
              chunks := nchunks |} in
  counts_inv c = true /\ counts_nonneg c.
Proof.
  cbv zeta. split.
  - unfold counts_inv. cbn [bp pages]. rewrite length_replicate, Nat.eqb_refl.
    cbn [andb]. induction (Z.to_nat n) as [|k IH]; [reflexivity|exact IH].
  - intros p. unfold slot. cbn [bp].
    destruct (replicate (Z.to_nat n) zero_page !! Z.to_nat p) as [s|] eqn:Hs;
      cbn [default]; [|reflexivity].
    apply lookup_replicate in Hs. destruct Hs as [-> _]. reflexivity.
Qed.

Lemma bitmap_resize_inv b blocks chunksize init ret b' :
  bitmap_resize b blocks chunksize init = Some (ret, b') ->
  counts_inv (counts b) = true -> counts_inv (counts b') = true.
Proof.
  unfold bitmap_resize. cbv zeta. intros Hrun Hinv.
  match type of Hrun with
  | match ?f with _ => _ end = _ =>
      destruct f as [[shift space]|]; [|discriminate]
  end.
  destruct (int_shl1 shift) as [csize|]; [|discriminate].
  match type of Hrun with
  | context [bitmap_storage_alloc ?a1 ?a2 ?a3 ?a4] =>
      match type of Hrun with
      | context [if ?c then bitmap_storage_alloc a1 a2 a3 a4 else ?e] =>
          destruct (if c then bitmap_storage_alloc a1 a2 a3 a4 else e)
            as [[r store] kz1]
      end
  end.
  destruct (negb (r =? 0)); [injection Hrun as _ <-; exact Hinv|].
  unfold resize_replace in Hrun. cbv zeta in Hrun.
  destruct (alloc_ok kz1) as [ok_bp kz2].
  destruct (negb ok_bp); [injection Hrun as _ <-; exact Hinv|].
  destruct (int_shl1 (shift + BITMAP_BLOCK_SHIFT)) as [new_chunksize|];
    [|discriminate].
  match type of Hrun with
  | match resize_locked ?x ?o ?i with _ => _ end = _ =>
      destruct (resize_locked x o i) as [b3|] eqn:Hlocked; [|discriminate];
      destruct (resize_locked_inv _ _ _ _ Hlocked) as [Hinv3 _]
  end.
  - apply fresh_table_inv.
  - apply fresh_table_inv.
  - injection Hrun as _ <-.
    destruct init; [|rewrite counts_bitmap_unplug]; exact Hinv3.
Qed.

(** *** The states the interface reaches *)

Lemma api_step_inv b b' :
  api_step b b' -> counts_inv (counts b) = true -> counts_inv (counts b') = true.
Proof.
  intros Hstep Hinv.
  destruct Hstep as [b offset sectors behind b' res Hoff Hc Hrun
                    |b offset sectors success behind b' Hoff Hrun
                    |b jiffies b' Hrun
                    |b offset degraded Hoff
                    |b offset aborted Hoff
                    |b offset needed Hoff
                    |b s e
                    |b
                    |b
                    |b blocks chunksize init ret b' Hrun].
  - apply (bitmap_startwrite_inv _ _ _ _ _ _ Hrun Hinv Hoff Hc).
  - apply (bitmap_endwrite_inv _ _ _ _ _ _ Hrun Hinv Hoff).
  - apply (bitmap_daemon_work_inv _ _ _ Hrun Hinv).
  - apply bitmap_start_sync_inv; assumption.
  - apply bitmap_end_sync_inv; assumption.
  - apply bitmap_set_memory_bits_inv; assumption.
  - apply dirty_bits_loop_inv. exact Hinv.
  - rewrite counts_bitmap_unplug. exact Hinv.
  - rewrite counts_bitmap_update_sb. exact Hinv.
  - apply (bitmap_resize_inv _ _ _ _ _ _ Hrun Hinv).
Qed.

Lemma reachable_inv b0 b :
  counts_inv (counts b0) = true -> reachable b0 b ->
  counts_inv (counts b) = true.
Proof.
  intros Hinv Hreach. induction Hreach as [|b b' _ IH Hstep]; [exact Hinv|].
  exact (api_step_inv b b' Hstep IH).
Qed.

(** What a well-formed slot holds. *)
Lemma slot_okb_cases s :
  slot_okb s = true ->
  (bp_hijacked s = true -> exists c0 c1, bp_map s = MapRaw c0 c1)
  /\ (bp_hijacked s = false ->
      bp_map s = NULL \/ exists cells, bp_map s = MapPage cells).
Proof.
  unfold slot_okb, NULL. destruct (bp_map s) as [c0 c1|cells], (bp_hijacked s);
    cbn [orb negb]; intros H; split; intros E; try discriminate; eauto.
  apply andb_true_iff in H. destruct H as [H0 H1].
  apply Z.eqb_eq in H0, H1. subst. left. reflexivity.
Qed.

(** [bitmap_checkfree] on a slot of the table whose count is zero. *)
Lemma bitmap_checkfree_release c page :
  (Z.to_nat page < length (bp c))%nat -> bp_count (slot c page) = 0 ->
  bp_map (slot (bitmap_checkfree c page) page) = NULL
  /\ bp_hijacked (slot (bitmap_checkfree c page) page) = false
  /\ missing_pages (bitmap_checkfree c page)
     = (if bp_hijacked (slot c page) then missing_pages c
        else ulong (missing_pages c + 1)).
Proof.
  intros Hl H0. unfold bitmap_checkfree. rewrite H0. cbn [Z.eqb negb].
  destruct (bp_hijacked (slot c page)) eqn:Hh.
  - rewrite slot_set_slot by exact Hl. repeat split.
  - rewrite slot_set_missing_pages, slot_set_slot by exact Hl.
    cbn [bp_map bp_hijacked with_map]. rewrite Hh. repeat split.
Qed.

(** C9 (amended).  In every state that calls of the interface (those of
    [api_step]) reach from a well-formed table, every slot is well formed: a hijacked slot holds
    no page pointer in [map] (the member holds the two inline counters,
    and is NULL only while both are zero), and a slot that is not
    hijacked holds NULL or a page.  [bitmap_checkpage] hijacks a slot only
    while its [map] is NULL.  [bitmap_checkfree] on a slot whose [count]
    is zero leaves [map] NULL and [hijacked] clear, and increments
    [missing_pages] unless the slot was hijacked; it leaves a slot whose
    [count] is not zero alone. *)
Theorem slot_invariant b0 b :
  counts_inv (counts b0) = true -> reachable b0 b ->
  counts_inv (counts b) = true
  /\ (forall p,
        (bp_hijacked (slot (counts b) p) = true ->
         exists c0 c1, bp_map (slot (counts b) p) = MapRaw c0 c1)
        /\ (bp_hijacked (slot (counts b) p) = false ->
            bp_map (slot (counts b) p) = NULL
            \/ exists cells, bp_map (slot (counts b) p) = MapPage cells))
  /\ (forall page create kz,
        0 <= page ->
        let c' := snd (fst (bitmap_checkpage (counts b) page create kz)) in
        bp_hijacked (slot (counts b) page) = false ->
        bp_hijacked (slot c' page) = true ->
        bp_map (slot c' page) = NULL)
  /\ (forall page,
        0 <= page < pages (counts b) ->
        bp_count (slot (counts b) page) = 0 ->
        let c' := bitmap_checkfree (counts b) page in
        bp_map (slot c' page) = NULL
        /\ bp_hijacked (slot c' page) = false
        /\ missing_pages c'
           = (if bp_hijacked (slot (counts b) page)
              then missing_pages (counts b)
              else ulong (missing_pages (counts b) + 1))
        /\ counts_inv c' = true)
  /\ (forall page,
        bp_count (slot (counts b) page) <> 0 ->
        bitmap_checkfree (counts b) page = counts b).
Proof.
  intros Hinv0 Hreach.
  pose proof (reachable_inv b0 b Hinv0 Hreach) as Hinv.
  split; [exact Hinv|]. split; [|split; [|split]].
  - intros p. apply slot_okb_cases, counts_inv_slot. exact Hinv.
  - intros page create kz Hpage. cbv zeta. intros Hh Hh'.
    pose proof (bitmap_checkpage_cases (counts b) page create kz Hinv Hpage)
      as Hc.
    destruct (bitmap_checkpage (counts b) page create kz) as [[err c'] kz'].
    cbn [fst snd] in *.
    destruct Hc as [(_ & _ & -> & _)|[(_ & _ & -> & _)|[(_ & _ & _ & -> & _)|
                    (Hlt & _ & _ & _ & Hm & [(_ & ->)|(_ & ->)])]]];
      try congruence.
    + rewrite slot_set_slot; [exact Hm|].
      apply in_table; [exact Hinv|lia].
    + rewrite slot_set_missing_pages, slot_set_slot in Hh';
        [cbn [bp_hijacked with_map] in Hh'; congruence
        |apply in_table; [exact Hinv|lia]].
  - intros page Hpage H0. cbv zeta.
    assert (Hl : (Z.to_nat page < length (bp (counts b)))%nat)
      by (apply in_table; [exact Hinv|lia]).
    destruct (bitmap_checkfree_release (counts b) page Hl H0) as (H1 & H2 & H3).
    repeat split; try assumption. apply bitmap_checkfree_inv. exact Hinv.
  - intros page Hn. unfold bitmap_checkfree.
    destruct (Z.eqb_spec (bp_count (slot (counts b) page)) 0); [contradiction|].
    reflexivity.
Qed.

Lemma slot_invariant_witness :
  reachable (ex_bitmap [false] []) ex_hijacked
  /\ counts_inv (counts ex_hijacked) = true.
Proof.
  assert (Hreach : reachable (ex_bitmap [false] []) ex_hijacked).
  { apply (reach_call _ (ex_bitmap [false] [])); [apply reach_start|].
    apply (api_startwrite _ 0 1 false _ SwDone); [lia| |reflexivity].
    intros p. unfold slot. cbn [counts ex_bitmap ex_counts bp].
    destruct (Z.to_nat p) as [|[|k]]; cbn; lia. }
  split; [exact Hreach|].
  apply (slot_invariant (ex_bitmap [false] []) ex_hijacked
           ltac:(reflexivity) Hreach).
Defined.

(** The claim C9 says that a hijacked slot has a NULL [map].  On the
    worked instance a write to chunk 0 is started while [kzalloc] has no
    memory: slot 0 is hijacked, and its [map] member, which now is the
    storage of the counter of the write, is not NULL. *)
Lemma hijacked_map_holds_counter :
  bitmap_startwrite (ex_bitmap [false] []) 0 1 false = Some (ex_hijacked, SwDone)
  /\ bp_hijacked (slot (counts ex_hijacked) 0) = true
  /\ bp_map (slot (counts ex_hijacked) 0) = MapRaw 3 0
  /\ map_is_null (bp_map (slot (counts ex_hijacked) 0)) = false.
Proof. repeat split. Qed.

(** ** [bitmap_resize]: what the two walks mark *)

Lemma cell_eqb_spec x y : reflect (x = y) (cell_eqb x y).
Proof.
  destruct x as [p h|p o], y as [q k|q o']; cbn [cell_eqb];
    try (constructor; discriminate).
  - destruct (Z.eqb_spec p q) as [->|N], (eqb_spec h k) as [->|M];
      constructor; congruence.
  - destruct (Z.eqb_spec p q) as [->|N], (Z.eqb_spec o o') as [->|M];
      constructor; congruence.
Qed.

(** *** Spans *)

(** The sectors from [block] to the end of its window of [2 ^ k]
    sectors are in that window. *)
Lemma span_window k block o :
  0 <= k -> 0 <= block ->
  block <= o < block + (2 ^ k - block mod 2 ^ k) ->
  o / 2 ^ k = block / 2 ^ k.
Proof.
  intros Hk Hb Ho.
  assert (Hp : 0 < 2 ^ k) by (apply Z.pow_pos_nonneg; lia).
  pose proof (Z.div_mod block (2 ^ k) ltac:(lia)) as E.
  pose proof (Z.mod_pos_bound block (2 ^ k) Hp) as Hm.
  symmetry. apply (Z.div_unique o (2 ^ k) (block / 2 ^ k)
                     (o - 2 ^ k * (block / 2 ^ k))); lia.
Qed.

Lemma div_window k j a b :
  0 <= k -> 0 <= j -> a / 2 ^ k = b / 2 ^ k -> a / 2 ^ (k + j) = b / 2 ^ (k + j).
Proof.
  intros Hk Hj E.
  assert (Hp : 0 < 2 ^ k) by (apply Z.pow_pos_nonneg; lia).
  assert (Hq : 0 < 2 ^ j) by (apply Z.pow_pos_nonneg; lia).
  rewrite Z.pow_add_r by lia.
  rewrite <- !Z.div_div by lia. rewrite E. reflexivity.
Qed.

(** The inline counter of a chunk is chosen by bit 10 of the chunk
    number. *)
Lemma pageoff_hi c o :
  0 <= chunkshift c ->
  (PAGE_COUNTER_MASK <? pageoff_of c o)
  = Z.odd (o / 2 ^ (chunkshift c + 10)).
Proof.
  intros Hs. unfold pageoff_of.
  change PAGE_COUNTER_MASK with (Z.ones 11). change COUNTER_BYTE_SHIFT with 1.
  rewrite Z.land_ones, Z.shiftl_mul_pow2, Z.shiftr_div_pow2 by lia.
  rewrite Z.pow_add_r, <- Z.div_div by (try apply Z.pow_pos_nonneg; lia).
  generalize (o / 2 ^ chunkshift c). intros ch.
  change (Z.ones 11) with 2047. change (2 ^ 11) with 2048.
  change (2 ^ 10) with 1024. change (2 ^ 1) with 2.
  pose proof (Zmod_odd (ch / 1024)) as Ho.
  destruct (Z.odd (ch / 1024)), (Z.ltb_spec 2047 (ch mod 2048 * 2));
    first [reflexivity | exfalso; zdm].
Qed.

Lemma page_of_div c o :
  0 <= chunkshift c -> page_of c o = o / 2 ^ (chunkshift c + 11).
Proof.
  intros Hs. unfold page_of. change PAGE_COUNTER_SHIFT with 11.
  rewrite !Z.shiftr_div_pow2 by lia.
  rewrite Z.pow_add_r, Z.div_div by (try apply Z.pow_pos_nonneg; lia).
  reflexivity.
Qed.

Lemma pageoff_of_div c o :
  0 <= chunkshift c ->
  pageoff_of c o = Z.shiftl (Z.land (o / 2 ^ chunkshift c) PAGE_COUNTER_MASK)
                     COUNTER_BYTE_SHIFT.
Proof.
  intros Hs. unfold pageoff_of. rewrite Z.shiftr_div_pow2 by lia. reflexivity.
Qed.

(** [blocks_at] is the rest of the window of the counter. *)
Lemma blocks_at_window c block :
  0 <= chunkshift c -> chunkshift c + 10 < 64 -> 0 <= block ->
  let k := if bp_hijacked (slot c (page_of c block))
              || map_is_null (bp_map (slot c (page_of c block)))
           then chunkshift c + 10 else chunkshift c in
  blocks_at c block = 2 ^ k - block mod 2 ^ k
  /\ 1 <= blocks_at c block <= 2 ^ k.
Proof.
  intros Hs Hs' Hb. cbv zeta. unfold blocks_at, get_counter_csize.
  change PAGE_COUNTER_SHIFT with 11.
  replace (chunkshift c + 11 - 1) with (chunkshift c + 10) by lia.
  destruct (_ || _); rewrite shiftl_1_sector by lia.
  - destruct (span_blocks (chunkshift c + 10) block ltac:(lia) Hb) as [E R].
    rewrite E. split; [reflexivity|exact R].
  - destruct (span_blocks (chunkshift c) block ltac:(lia) Hb) as [E R].
    rewrite E. split; [reflexivity|exact R].
Qed.

(** The sectors of a span are on the page of its first sector, and
    lead to the same counter. *)
Lemma span_cell c block o :
  0 <= chunkshift c -> chunkshift c + 10 < 64 -> 0 <= block ->
  block <= o < block + blocks_at c block ->
  page_of c o = page_of c block
  /\ (present (slot c (page_of c block)) = true ->
      cell_for c o = cell_for c block).
Proof.
  intros Hs Hs' Hb Ho.
  destruct (blocks_at_window c block Hs Hs' Hb) as [E _]. cbv zeta in E.
  rewrite E in Ho. clear E.
  assert (Hw : o / 2 ^ (chunkshift c + 10) = block / 2 ^ (chunkshift c + 10)).
  { destruct (_ || _).
    - apply span_window; [lia|exact Hb|exact Ho].
    - apply div_window; [lia|lia|]. apply span_window; [lia|exact Hb|exact Ho]. }
  assert (Hpg : page_of c o = page_of c block).
  { rewrite !page_of_div by exact Hs.
    replace (chunkshift c + 11) with (chunkshift c + 10 + 1) by lia.
    apply div_window; [lia|lia|exact Hw]. }
  split; [exact Hpg|].
  unfold present, cell_for. rewrite Hpg.
  destruct (bp_hijacked (slot c (page_of c block))) eqn:Hh; cbn [orb].
  - intros _. rewrite !pageoff_hi, Hw by exact Hs. reflexivity.
  - intros Hn. apply negb_true_iff in Hn. rewrite Hn in Ho. cbn [orb] in Ho.
    rewrite !pageoff_of_div by exact Hs.
    rewrite (span_window _ _ _ Hs Hb Ho). reflexivity.
Qed.

(** *** Reading a chunk *)

Lemma present_cases s :
  slot_okb s = true ->
  (present s = true /\ (bp_hijacked s = true
                        \/ exists cells, bp_hijacked s = false
                                         /\ bp_map s = MapPage cells))
  \/ (present s = false /\ bp_hijacked s = false /\ bp_map s = NULL).
Proof.
  unfold slot_okb, present, NULL.
  destruct (bp_map s) as [c0 c1|cells], (bp_hijacked s); cbn; intros H;
    try discriminate; eauto 6.
  apply andb_true_iff in H. destruct H as [H0 H1].
  apply Z.eqb_eq in H0, H1. subst. right. auto.
Qed.

(** A chunk reads as its counter when its page holds counters, and as 0
    when it does not or when it is beyond the table. *)
Lemma counter_at_cases c o :
  counts_inv c = true -> 0 <= o ->
  (present (slot c (page_of c o)) = true /\ page_of c o < pages c
   /\ found c o (cell_for c o)
   /\ counter_at c o = read_counter c (cell_for c o))
  \/ ((present (slot c (page_of c o)) = false \/ pages c <= page_of c o)
      /\ counter_at c o = 0).
Proof.
  intros Hinv Ho.
  pose proof (page_of_nonneg c o Ho) as Hp.
  destruct (Z.le_gt_cases (pages c) (page_of c o)) as [Hout|Hin].
  { right. split; [right; exact Hout|].
    unfold counter_at. rewrite bitmap_get_counter_unfold. cbv zeta.
    unfold bitmap_checkpage.
    destruct (Z.leb_spec (pages c) (page_of c o)); [reflexivity|lia]. }
  destruct (present_cases _ (counts_inv_slot c (page_of c o) Hinv))
    as [[Hpr Hk]|(Hpr & Hh & Hm)].
  - left. split; [exact Hpr|]. split; [exact Hin|].
    assert (Hf : found c o (cell_for c o)).
    { split; [exact Hinv|]. split; [|split; [reflexivity|exact Hin]].
      unfold cell_okb. rewrite cell_for_page.
      pose proof (in_table c (page_of c o) Hinv ltac:(lia)) as Hl.
      apply Nat.ltb_lt in Hl. rewrite Hl.
      destruct (Z.leb_spec 0 (page_of c o)); [|lia].
      unfold cell_for.
      destruct Hk as [Hh|(cells & Hh & Hm)]; rewrite Hh; cbn.
      - pose proof (counts_inv_slot c (page_of c o) Hinv) as Hs.
        unfold slot_okb in Hs. rewrite Hh in Hs.
        destruct (bp_map (slot c (page_of c o))); [reflexivity|discriminate].
      - rewrite Hm. reflexivity. }
    split; [exact Hf|]. apply found_counter_at. exact Hf.
  - right. split; [left; exact Hpr|]. apply counter_at_absent; assumption.
Qed.

(** A chunk reads the same in two tables of the same geometry whose
    slots for its page are the same. *)
Lemma counter_at_slot c c' o :
  pages c' = pages c -> chunkshift c' = chunkshift c ->
  slot c' (page_of c o) = slot c (page_of c o) ->
  counter_at c' o = counter_at c o /\ pending_at c' o = pending_at c o.
Proof.
  intros Hp Hs Hslot.
  assert (Hpg : page_of c' o = page_of c o)
    by (unfold page_of; rewrite Hs; reflexivity).
  assert (Hpo : pageoff_of c' o = pageoff_of c o)
    by (unfold pageoff_of; rewrite Hs; reflexivity).
  split; [|unfold pending_at; rewrite Hpg, Hslot; reflexivity].
  unfold counter_at. rewrite !bitmap_get_counter_unfold. cbv zeta.
  rewrite Hpg, Hpo. unfold bitmap_checkpage. rewrite Hp, Hslot.
  destruct (pages c <=? page_of c o); [reflexivity|].
  destruct (bp_hijacked (slot c (page_of c o))) eqn:Hh.
  - cbn [gc_bmc]. change (0 <? 0) with false. cbv iota. rewrite Hslot, Hh.
    unfold read_counter. cbn [cell_page]. rewrite Hslot. reflexivity.
  - destruct (negb (map_is_null _)); [|reflexivity].
    cbn [gc_bmc]. change (0 <? 0) with false. cbv iota. rewrite Hslot, Hh.
    unfold read_counter. cbn [cell_page]. rewrite Hslot. reflexivity.
Qed.

(** *** Stores into the new table *)

Lemma slot_to_nat c p q : Z.to_nat p = Z.to_nat q -> slot c p = slot c q.
Proof. unfold slot. intros ->. reflexivity. Qed.

Lemma slot_set_slot_which c page s p :
  (slot (set_slot c page s) p = s /\ slot c p = slot c page)
  \/ slot (set_slot c page s) p = slot c p.
Proof.
  destruct (decide (Z.to_nat page = Z.to_nat p)) as [E|N].
  - destruct (decide (Z.to_nat page < length (bp c))%nat) as [Hl|Hl].
    + left. rewrite <- (slot_to_nat (set_slot c page s) page p E).
      rewrite slot_set_slot by exact Hl.
      split; [reflexivity|]. symmetry. apply slot_to_nat. exact E.
    + right. unfold slot, set_slot. cbn [bp].
      rewrite list_insert_ge by lia. reflexivity.
  - right. apply slot_set_slot_ne. exact N.
Qed.



Lemma table_step_trans f g c1 c2 c3 :
  table_step f c1 c2 -> table_step g c2 c3 ->
  table_step (fun bo x => g bo (f bo x)) c1 c3.
Proof.
  intros (_ & Hp1 & Hs1 & Hn1 & Hc1 & Hq1) (Hi2 & Hp2 & Hs2 & Hn2 & Hc2 & Hq2).
  split; [exact Hi2|]. split; [congruence|]. split; [congruence|].
  split; [congruence|]. split.
  - intros bo Hok. destruct (Hc1 bo Hok) as [Hok1 Hr1].
    destruct (Hc2 bo Hok1) as [Hok2 Hr2]. split; [exact Hok2|].
    rewrite Hr2, Hr1. reflexivity.
  - intros q. destruct (Hq1 q) as (A1 & B1 & C1), (Hq2 q) as (A2 & B2 & C2).
    split; [congruence|]. split; [congruence|]. auto.
Qed.

Lemma table_step_ext f g c c' :
  (forall bo x, f bo x = g bo x) -> table_step f c c' -> table_step g c c'.
Proof.
  intros E (H1 & H2 & H3 & H4 & H5 & H6). repeat (split; [assumption|]).
  split; [|exact H6]. intros bo Hok. destruct (H5 bo Hok) as [A B].
  split; [exact A|]. rewrite B. apply E.
Qed.

Lemma table_step_write c bmc v :
  table_ok c bmc -> 0 <= v < 65536 ->
  table_step (put bmc v) c (write_counter c bmc v).
Proof.
  intros [Hinv Hok] Hv.
  split; [apply counts_inv_write_counter; assumption|].
  split; [reflexivity|]. split; [reflexivity|]. split; [reflexivity|]. split.
  - intros bo Hbo. split; [apply cell_okb_write_other; assumption|].
    unfold put. destruct (cell_eqb_spec bo bmc) as [->|N].
    + rewrite read_write_counter by exact Hok. apply u16_small. exact Hv.
    + apply read_write_other; [assumption|assumption|congruence].
  - intros q.
    destruct (slot_write_counter_members c bmc v q) as (Hh & Hp & _).
    split; [exact Hh|]. split; [|rewrite Hp; auto].
    unfold write_counter.
    destruct (slot_set_slot_which c (cell_page bmc)
                (with_map (slot c (cell_page bmc))
                   (write_map (bp_map (slot c (cell_page bmc))) bmc v)) q)
      as [[-> E]| ->]; [|reflexivity].
    rewrite E. unfold present. cbn [bp_hijacked bp_map with_map].
    pose proof (cell_okb_fits c bmc Hok) as Hf.
    pose proof (cell_okb_hijacked c bmc Hok) as Hh'.
    destruct bmc as [p [|]|p off], (bp_map (slot c _)); cbn in *;
      try discriminate; rewrite Hh'; reflexivity.
Qed.

Lemma table_step_count_page c block bmc :
  table_ok c bmc -> page_of c block = cell_page bmc -> counts_nonneg c ->
  table_step keep c (bitmap_count_page c block 1).
Proof.
  intros [Hinv Hok] Hpg Hc.
  pose proof (cell_okb_in_table c bmc Hok) as Hl. rewrite <- Hpg in Hl.
  assert (Hne : bp_count (slot c (page_of c block)) + 1 <> 0)
    by (pose proof (Hc (page_of c block)); lia).
  destruct (bitmap_count_page_fields c block 1) as (Hp & Hs & Hn & Hlen).
  split; [apply bitmap_count_page_inv; exact Hinv|].
  split; [exact Hp|]. split; [exact Hs|]. split; [exact Hn|]. split.
  - intros bo Hbo.
    destruct (bitmap_count_page_members c block 1 (cell_page bo) Hl Hne)
      as (Hm & Hh & _).
    split; [rewrite <- Hbo; apply cell_okb_frame; assumption|].
    apply read_counter_frame. exact Hm.
  - intros q.
    destruct (bitmap_count_page_members c block 1 q Hl Hne) as (Hm & Hh & Hpe).
    split; [exact Hh|]. split; [unfold present; rewrite Hm, Hh; reflexivity|].
    rewrite Hpe. auto.
Qed.

Lemma table_step_set_pending c block :
  counts_inv c = true -> table_step keep c (bitmap_set_pending c block).
Proof.
  intros Hinv.
  destruct (bitmap_set_pending_fields c block) as (Hp & _ & Hs & Hn & Hlen).
  split; [apply bitmap_set_pending_inv; exact Hinv|].
  split; [exact Hp|]. split; [exact Hs|]. split; [exact Hn|]. split.
  - intros bo Hbo.
    destruct (bitmap_set_pending_members c block (cell_page bo)) as (Hm & Hh & _).
    split; [rewrite <- Hbo; apply cell_okb_frame; assumption|].
    apply read_counter_frame. exact Hm.
  - intros q.
    destruct (bitmap_set_pending_members c block q) as (Hm & Hh & _).
    split; [exact Hh|]. split; [unfold present; rewrite Hm, Hh; reflexivity|].
    unfold bitmap_set_pending. destruct (negb _); [|auto].
    destruct (slot_set_slot_which c
                (Z.shiftr (Z.shiftr block (chunkshift c)) PAGE_COUNTER_SHIFT)
                (with_pending
                   (slot c (Z.shiftr (Z.shiftr block (chunkshift c))
                              PAGE_COUNTER_SHIFT)) true) q)
      as [[-> _]| ->]; auto.
Qed.

(** *** Marking a counter *)

Lemma found_step f c c' o bo :
  table_step f c c' -> found c o bo -> found c' o bo.
Proof.
  intros (Hinv' & Hp & Hs & _ & Hc & Hq) (Hinv & Hok & Hbo & Hlt).
  assert (Hpg : page_of c' o = page_of c o)
    by (unfold page_of; rewrite Hs; reflexivity).
  split; [exact Hinv'|]. split; [apply (Hc bo Hok)|].
  split; [|rewrite Hpg, Hp; exact Hlt].
  rewrite Hbo. unfold cell_for, pageoff_of. rewrite Hpg, Hs.
  destruct (Hq (page_of c o)) as (-> & _). reflexivity.
Qed.

(** After stores that put [v] into [bmc]: the chunks of [bmc] read [v],
    the others read as before. *)
Lemma table_step_counter_at c c' bmc v o :
  counts_inv c = true -> table_step (put bmc v) c c' -> 0 <= o ->
  (found c o bmc -> counter_at c' o = v)
  /\ ((found c o bmc /\ counter_at c' o = v)
      \/ counter_at c' o = counter_at c o)
  /\ (pending_at c o = true -> pending_at c' o = true).
Proof.
  intros Hinv Hstep Ho.
  pose proof Hstep as (Hinv' & Hp & Hs & _ & Hc & Hq).
  assert (Hpg : page_of c' o = page_of c o)
    by (unfold page_of; rewrite Hs; reflexivity).
  split; [|split].
  - intros Hf. pose proof (found_step _ _ _ _ _ Hstep Hf) as Hf'.
    rewrite (found_counter_at _ _ _ Hf').
    destruct Hf as (_ & Hok & _). destruct (Hc bmc Hok) as [_ ->].
    unfold put. destruct (cell_eqb_spec bmc bmc); [reflexivity|contradiction].
  - destruct (counter_at_cases c o Hinv Ho)
      as [(Hpr & Hlt & Hf & Hr)|[Hno Hr]].
    + pose proof (found_step _ _ _ _ _ Hstep Hf) as Hf'.
      rewrite (found_counter_at _ _ _ Hf'), Hr.
      pose proof Hf as (_ & Hok & _). destruct (Hc _ Hok) as [_ ->].
      unfold put. destruct (cell_eqb_spec (cell_for c o) bmc) as [E|]; [|auto].
      left. rewrite E in Hf. auto.
    + right. rewrite Hr.
      destruct (counter_at_cases c' o Hinv' Ho)
        as [(Hpr' & Hlt' & _)|[_ Hr']]; [|exact Hr'].
      rewrite Hpg in Hpr', Hlt'. destruct (Hq (page_of c o)) as (_ & E & _).
      rewrite E in Hpr'. destruct Hno as [Hno|Hno]; [congruence|lia].
  - unfold pending_at. rewrite Hpg. apply Hq.
Qed.

(** [bitmap_get_counter] with [create] on a chunk of the table: the
    counter is there afterwards, and every chunk reads as before. *)
Lemma get_counter_create c block kz :
  counts_inv c = true -> 0 <= block -> page_of c block < pages c ->
  let r := bitmap_get_counter c block true kz in
  exists bmc,
    gc_bmc r = Some bmc
    /\ found (gc_counts r) block bmc
    /\ gc_blocks r = blocks_at (gc_counts r) block
    /\ pages (gc_counts r) = pages c
    /\ chunkshift (gc_counts r) = chunkshift c
    /\ chunks (gc_counts r) = chunks c
    /\ (forall o, 0 <= o ->
          counter_at (gc_counts r) o = counter_at c o
          /\ pending_at (gc_counts r) o = pending_at c o).
Proof.
  intros Hinv Hb Hlt. cbv zeta.
  destruct (bitmap_get_counter_create c block kz Hinv Hb Hlt) as [bmc Hbmc].
  exists bmc. split; [exact Hbmc|].
  destruct (get_counter_found c block true kz bmc Hinv Hb Hbmc) as [Hf Hbl].
  destruct (bitmap_get_counter_some c block true kz bmc Hinv Hb Hbmc)
    as (Hinv' & _ & _ & _ & Hp & Hs & Hn & _ & _ & Hpe & Hother).
  cbv zeta in *.
  split; [exact Hf|]. split; [exact Hbl|]. split; [exact Hp|].
  split; [exact Hs|]. split; [exact Hn|].
  intros o Ho.
  destruct (bitmap_get_counter_fresh c block kz bmc Hinv Hb Hbmc)
    as [(_ & -> & _)|(_ & Hm & Hh & Hz)]; [split; reflexivity|].
  remember (gc_counts (bitmap_get_counter c block true kz)) as c0 eqn:Hc0.
  assert (Hpg : page_of c0 o = page_of c o)
    by (unfold page_of; rewrite Hs; reflexivity).
  pose proof (page_of_nonneg c o Ho) as Hpo.
  pose proof (page_of_nonneg c block Hb) as Hpb.
  destruct (Z.eq_dec (page_of c o) (page_of c block)) as [E|N].
  - split.
    + rewrite (counter_at_absent c o) by (rewrite E; assumption).
      destruct (counter_at_cases c0 o Hinv' Ho) as [(_ & _ & _ & ->)|[_ ->]];
        [|reflexivity].
      apply Hz. rewrite cell_for_page, Hpg. exact E.
    + unfold pending_at. rewrite Hpg, E. exact Hpe.
  - apply counter_at_slot; [exact Hp|exact Hs|].
    apply Hother. intros E. apply N. apply Z2Nat.inj; [lia|lia|]. exact E.
Qed.

Lemma MARKED_eq : MARKED = 32770.
Proof. reflexivity. Qed.




(** *** The walks *)

Lemma found_present c o bmc :
  found c o bmc -> present (slot c (page_of c o)) = true.
Proof.
  intros Hf. pose proof Hf as (_ & Hok & _ & _).
  rewrite <- (found_page _ _ _ Hf).
  pose proof (cell_okb_fits c bmc Hok) as Hfit.
  pose proof (cell_okb_hijacked c bmc Hok) as Hh.
  unfold present. rewrite Hh.
  destruct bmc, (bp_map (slot c _)); cbn in *; try discriminate; reflexivity.
Qed.

(** The sectors of the span of a counter lead to that counter. *)
Lemma found_span c block o bmc :
  0 <= chunkshift c -> chunkshift c + 10 < 64 -> 0 <= block ->
  found c block bmc -> block <= o < block + blocks_at c block ->
  found c o bmc.
Proof.
  intros Hs Hs' Hb Hf Ho.
  destruct (span_cell c block o Hs Hs' Hb Ho) as [Hpg Hcell].
  pose proof (Hcell (found_present _ _ _ Hf)) as E.
  destruct Hf as (Hinv & Hok & Hbmc & Hlt).
  split; [exact Hinv|]. split; [exact Hok|].
  split; [congruence|]. rewrite Hpg. exact Hlt.
Qed.

(** The sectors of a span read the same. *)
Lemma counter_at_span c block o :
  counts_inv c = true -> 0 <= chunkshift c -> chunkshift c + 10 < 64 ->
  0 <= block -> block <= o < block + blocks_at c block ->
  counter_at c o = counter_at c block.
Proof.
  intros Hinv Hs Hs' Hb Ho.
  destruct (span_cell c block o Hs Hs' Hb Ho) as [Hpg _].
  destruct (counter_at_cases c block Hinv Hb)
    as [(_ & _ & Hf & Hr)|[Hno Hr]].
  - rewrite (found_counter_at _ _ _ (found_span _ _ _ _ Hs Hs' Hb Hf Ho)).
    symmetry. exact Hr.
  - rewrite Hr.
    destruct (counter_at_cases c o Hinv ltac:(lia))
      as [(Hpr & Hlt & _)|[_ Hr']]; [|exact Hr'].
    rewrite Hpg in Hpr, Hlt. destruct Hno; [congruence|lia].
Qed.


Lemma same_geometry_new c c' :
  same_geometry c c' -> new_geometry c -> new_geometry c'.
Proof. intros (Hp & Hs & Hn). unfold new_geometry. rewrite Hp, Hs, Hn. auto. Qed.

Lemma in_limit c block :
  new_geometry c -> 0 <= block < chunks c * 2 ^ chunkshift c ->
  page_of c block < pages c.
Proof.
  intros ((Hs & _) & Hn & Hp & _) Hb.
  rewrite page_of_div by exact Hs.
  rewrite Z.pow_add_r, <- Z.div_div by (try apply Z.pow_pos_nonneg; lia).
  assert (H2 : 0 < 2 ^ chunkshift c) by (apply Z.pow_pos_nonneg; lia).
  assert (Hc : block / 2 ^ chunkshift c < chunks c)
    by (apply Z.div_lt_upper_bound; lia).
  change PAGE_COUNTER_RATIO with 2048 in Hp. change (2 ^ 11) with 2048.
  apply Z.div_lt_upper_bound; lia.
Qed.

(** The inner loop of the overlap walk has a result. *)
Lemma int_shl1_some n : 0 <= n <= 30 -> int_shl1 n = Some (2 ^ n).
Proof.
  intros Hn. unfold int_shl1.
  destruct (Z.leb_spec 0 n); [|lia]. destruct (Z.leb_spec n 30); [|lia].
  cbn [andb]. rewrite Z.shiftl_mul_pow2, Z.mul_1_l by lia. reflexivity.
Qed.

Lemma int_shl1_inv n v : int_shl1 n = Some v -> 0 <= n <= 30 /\ v = 2 ^ n.
Proof.
  unfold int_shl1. destruct (Z.leb_spec 0 n); [|discriminate].
  destruct (Z.leb_spec n 30); [|discriminate]. cbn [andb].
  rewrite Z.shiftl_mul_pow2, Z.mul_1_l by lia. intros [= <-]. lia.
Qed.


Lemma blocks_at_bound c block :
  0 <= chunkshift c <= 52 -> 0 <= block -> 1 <= blocks_at c block <= 2 ^ 62.
Proof.
  intros Hs Hb.
  destruct (blocks_at_window c block ltac:(lia) ltac:(lia) Hb) as [_ H].
  cbv zeta in H. split; [lia|].
  apply (Z.le_trans _ _ _ (proj2 H)).
  apply Z.pow_le_mono_r; [lia|]. destruct (_ || _); lia.
Qed.








(** *** The new table *)




(** With [init] false the walk over the new space starts where the
    overlap walk stopped.  On the worked instance, whose only page is not
    allocated, the first stride of the overlap walk is the span of a
    missing page, 8192 sectors: resized to 256 sectors, the instance has
    no counter marked, and sector 200 reads 0. *)
Lemma resize_walk_overshoots :
  option_map (fun rb => (fst rb, chunks (counts (snd rb)),
                         counter_at (counts (snd rb)) 200))
    (bitmap_resize (ex_bitmap [] []) 256 4096 false)
  = Some (0, 32, 0)
  /\ blocks_at (counts (ex_bitmap [] [])) 0 = 8192.
Proof. split; vm_compute; reflexivity. Qed.

(** ** The node tables *)

Lemma node_table_find_range a : forall i num,
  node_table_find a i num = -1 /\ ~ In num a
  \/ (i <= node_table_find a i num < i + Z.of_nat (length a)
      /\ a !! Z.to_nat (node_table_find a i num - i) = Some num
      /\ forall j, (j < Z.to_nat (node_table_find a i num - i))%nat ->
                   a !! j <> Some num).
Proof.
  induction a as [|x a IH]; intros i num; cbn [node_table_find].
  - left. split; [reflexivity|intros []].
  - destruct (Z.eqb_spec x num) as [->|N].
    + right. rewrite Z.sub_diag. cbn [length]. split; [lia|].
      split; [reflexivity|]. intros j Hj. cbn in Hj. lia.
    + destruct (IH (i + 1) num) as [[E Hn]|(Hr & Hl & Hf)].
      * left. split; [exact E|]. intros [H|H]; [congruence|contradiction].
      * right. cbn [length]. split; [lia|].
        replace (Z.to_nat (node_table_find a (i + 1) num - i))
          with (S (Z.to_nat (node_table_find a (i + 1) num - (i + 1))))
          by lia.
        split; [exact Hl|]. intros [|j] Hj; cbn.
        -- congruence.
        -- apply Hf. lia.
Qed.

Lemma lookup_In (a : list Z) j x : a !! j = Some x -> In x a.
Proof.
  intros H. apply (proj1 (list_elem_of_In a x)).
  apply (list_elem_of_lookup_2 a j). exact H.
Qed.

Lemma node_table_find_first a : forall i num r,
  a !! r = Some num -> (forall j, (j < r)%nat -> a !! j <> Some num) ->
  node_table_find a i num = i + Z.of_nat r.
Proof.
  induction a as [|x a IH]; intros i num r Hr Hfirst; [discriminate|].
  cbn [node_table_find]. destruct r as [|r].
  - cbn in Hr. injection Hr as ->. rewrite Z.eqb_refl. lia.
  - destruct (Z.eqb_spec x num) as [->|N].
    + exfalso. apply (Hfirst 0%nat); [lia|reflexivity].
    + rewrite (IH (i + 1) num r Hr); [lia|].
      intros j Hj. apply (Hfirst (S j)). lia.
Qed.

Lemma node_table_take_spec a : forall i num,
  (fst (node_table_take a i num) = None
   /\ snd (node_table_take a i num) = a /\ ~ In (-1) a)
  \/ exists r, fst (node_table_take a i num) = Some (i + Z.of_nat r)
               /\ snd (node_table_take a i num) = <[r := num]> a
               /\ a !! r = Some (-1)
               /\ forall j, (j < r)%nat -> a !! j <> Some (-1).
Proof.
  induction a as [|x a IH]; intros i num; cbn [node_table_take].
  - left. split; [reflexivity|]. split; [reflexivity|intros []].
  - destruct (Z.eqb_spec x (-1)) as [->|N].
    + right. exists 0%nat. cbn. split; [f_equal; lia|].
      split; [reflexivity|]. split; [reflexivity|]. intros j Hj. lia.
    + destruct (IH (i + 1) num) as [(E & Ea & Hn)|(r & E & Ea & Hr & Hf)];
        destruct (node_table_take a (i + 1) num) as [k a'']; cbn [fst snd] in *.
      * left. split; [exact E|]. split; [congruence|].
        intros [H|H]; [exact (N H)|exact (Hn H)].
      * right. exists (S r). split; [rewrite E; f_equal; lia|].
        split; [change (<[S r := num]> (x :: a)) with (x :: <[r := num]> a);
                congruence|]. split; [exact Hr|].
        intros [|j] Hj; cbn; [congruence|apply Hf; lia].
Qed.

(** X2.  [bitmap_add_avail_bitmap] on a table that holds [num] changes
    nothing and returns the first index at which [num] stands.  On a
    table that does not hold [num] but has a free entry (-1) it returns
    the index of the first free entry and stores [num] there, every other
    entry being as it was.  On a table with neither it returns -1 and
    changes nothing.  In every case the table keeps its length,
    [exist_in_avail_bitmap] afterwards finds [num] at the index returned
    when that is not negative, and a second call returns the same index
    and changes nothing. *)
Theorem bitmap_add_avail_bitmap_lookup a num :
  let r := fst (bitmap_add_avail_bitmap a num) in
  let a' := snd (bitmap_add_avail_bitmap a num) in
  (In num a ->
   a' = a /\ 0 <= r < Z.of_nat (length a)
   /\ a !! Z.to_nat r = Some num
   /\ forall j, (j < Z.to_nat r)%nat -> a !! j <> Some num)
  /\ (~ In num a -> In (-1) a ->
      0 <= r < Z.of_nat (length a)
      /\ a !! Z.to_nat r = Some (-1)
      /\ (forall j, (j < Z.to_nat r)%nat -> a !! j <> Some (-1))
      /\ a' = <[Z.to_nat r := num]> a
      /\ a' !! Z.to_nat r = Some num
      /\ forall j, j <> Z.to_nat r -> a' !! j = a !! j)
  /\ (~ In num a -> ~ In (-1) a -> r = -1 /\ a' = a)
  /\ (r < 0 -> r = -1 /\ a' = a /\ ~ In num a /\ ~ In (-1) a)
  /\ (0 <= r -> exist_in_avail_bitmap a' num = r)
  /\ length a' = length a
  /\ bitmap_add_avail_bitmap a' num = (r, a').
Proof.
  cbv zeta. unfold bitmap_add_avail_bitmap, exist_in_avail_bitmap.
  destruct (node_table_find_range a 0 num) as [[E Hn]|(Hr & Hl & Hf)].
  - (* [num] is not in the table *)
    rewrite E. cbn [Z.ltb Z.compare].
    destruct (node_table_take_spec a 0 num)
      as [(Et & Ea & Hfree)|(k & Et & Ea & Hk & Hfirst)];
      destruct (node_table_take a 0 num) as [t a']; cbn [fst snd] in *;
      subst t a'.
    + (* no free entry *)
      cbn [Z.ltb Z.compare fst snd].
      split; [intros H; contradiction|]. split; [intros _ H; contradiction|].
      split; [intros _ _; split; reflexivity|].
      split; [intros _; repeat split; assumption|].
      split; [intros H; exfalso; lia|].
      split; [reflexivity|].
      rewrite E. cbn [Z.ltb Z.compare].
      destruct (node_table_take_spec a 0 num)
        as [(Et & Ea & _)|(k & _ & _ & Hk & _)].
      * destruct (node_table_take a 0 num) as [t a']; cbn [fst snd] in *.
        subst. reflexivity.
      * exfalso. apply Hfree. apply (lookup_In a k). exact Hk.
    + (* the first free entry is taken *)
      cbn [fst snd]. rewrite Z.add_0_l, Nat2Z.id.
      pose proof (lookup_lt_Some a k (-1) Hk) as Hlen.
      assert (Hnew : <[k := num]> a !! k = Some num)
        by (apply list_lookup_insert_eq; exact Hlen).
      assert (Hfind : node_table_find (<[k := num]> a) 0 num = Z.of_nat k).
      { rewrite (node_table_find_first _ 0 num k Hnew); [lia|].
        intros j Hj. rewrite list_lookup_insert_ne by lia.
        intros Hin. apply Hn. apply (lookup_In a j). exact Hin. }
      split; [intros H; contradiction|]. split.
      { intros _ _. split; [lia|]. split; [exact Hk|].
        split; [exact Hfirst|]. split; [reflexivity|]. split; [exact Hnew|].
        intros j Hj. apply list_lookup_insert_ne. lia. }
      split.
      { intros _ Hno. exfalso. apply Hno. apply (lookup_In a k). exact Hk. }
      split; [lia|]. split; [intros _; exact Hfind|].
      split; [apply length_insert|].
      rewrite Hfind. destruct (Z.ltb_spec (Z.of_nat k) 0); [lia|reflexivity].
  - (* [num] is in the table *)
    rewrite Z.sub_0_r in Hl, Hf.
    destruct (Z.ltb_spec (node_table_find a 0 num) 0); [lia|].
    cbn [fst snd].
    split; [intros _; split; [reflexivity|]; split; [lia|];
            split; [exact Hl|exact Hf]|].
    split; [intros Hno; exfalso; apply Hno; apply (lookup_In a _ _ Hl)|].
    split; [intros Hno; exfalso; apply Hno; apply (lookup_In a _ _ Hl)|].
    split; [lia|]. split; [reflexivity|]. split; [reflexivity|].
    destruct (Z.ltb_spec (node_table_find a 0 num) 0); [lia|reflexivity].
Qed.

(** ** Page attributes *)

Lemma attr_bit_inj pnum attr pnum' attr' :
  0 <= attr < 4 -> 0 <= attr' < 4 ->
  Z.shiftl pnum 2 + attr = Z.shiftl pnum' 2 + attr' ->
  pnum = pnum' /\ attr = attr'.
Proof.
  intros Ha Ha'. rewrite !Z.shiftl_mul_pow2 by lia. change (2 ^ 2) with 4. lia.
Qed.

(** X3.  The attributes of the pages are independent bits: setting or
    clearing attribute [attr] of page [pnum] makes that attribute read
    set or clear and leaves every other attribute of every page as it
    was; [test_and_clear_page_attr] returns what the attribute was and
    clears it.  None of them touches the pages or anything outside
    [filemap_attr]. *)
Theorem page_attr_independent b pnum attr pnum' attr' :
  0 <= pnum -> 0 <= pnum' -> 0 <= attr < 4 -> 0 <= attr' < 4 ->
  test_page_attr (set_page_attr b pnum attr) pnum' attr'
  = (if (pnum =? pnum') && (attr =? attr') then true
     else test_page_attr b pnum' attr')
  /\ test_page_attr (clear_page_attr b pnum attr) pnum' attr'
     = (if (pnum =? pnum') && (attr =? attr') then false
        else test_page_attr b pnum' attr')
  /\ fst (test_and_clear_page_attr b pnum attr) = test_page_attr b pnum attr
  /\ test_page_attr (snd (test_and_clear_page_attr b pnum attr)) pnum' attr'
     = (if (pnum =? pnum') && (attr =? attr') then false
        else test_page_attr b pnum' attr')
  /\ filemap (storage (set_page_attr b pnum attr)) = filemap (storage b)
  /\ filemap (storage (clear_page_attr b pnum attr)) = filemap (storage b)
  /\ counts (set_page_attr b pnum attr) = counts b
  /\ counts (clear_page_attr b pnum attr) = counts b.
Proof.
  intros Hp Hp' Ha Ha'.
  assert (Hn : 0 <= Z.shiftl pnum 2 + attr)
    by (rewrite Z.shiftl_mul_pow2 by lia; lia).
  assert (Hn' : 0 <= Z.shiftl pnum' 2 + attr')
    by (rewrite Z.shiftl_mul_pow2 by lia; lia).
  assert (Hcase : (pnum =? pnum') && (attr =? attr')
                  = (Z.shiftl pnum 2 + attr =? Z.shiftl pnum' 2 + attr')).
  { destruct (Z.eqb_spec (Z.shiftl pnum 2 + attr) (Z.shiftl pnum' 2 + attr'))
      as [E|N].
    - destruct (attr_bit_inj _ _ _ _ Ha Ha' E) as [-> ->].
      rewrite !Z.eqb_refl. reflexivity.
    - destruct (Z.eqb_spec pnum pnum') as [->|]; [|reflexivity].
      destruct (Z.eqb_spec attr attr') as [->|]; [|reflexivity].
      contradiction. }
  assert (Hclear : test_page_attr (clear_page_attr b pnum attr) pnum' attr'
                   = (if (pnum =? pnum') && (attr =? attr') then false
                      else test_page_attr b pnum' attr')).
  { rewrite Hcase.
    unfold test_page_attr, clear_page_attr, test_bit, clear_bit.
    cbn [storage set_storage filemap_attr set_filemap_attr].
    destruct (Z.eqb_spec (Z.shiftl pnum 2 + attr) (Z.shiftl pnum' 2 + attr'))
      as [E|N].
    - rewrite <- E. apply Z.clearbit_eq.
    - apply Z.clearbit_neq; assumption. }
  split; [|split; [exact Hclear|]; split; [reflexivity|];
            split; [exact Hclear|]; repeat split].
  rewrite Hcase.
  unfold test_page_attr, set_page_attr, test_bit, set_bit.
  cbn [storage set_storage filemap_attr set_filemap_attr].
  destruct (Z.eqb_spec (Z.shiftl pnum 2 + attr) (Z.shiftl pnum' 2 + attr'))
    as [E|N].
  - rewrite <- E. apply Z.setbit_eq. exact Hn.
  - apply Z.setbit_neq; assumption.
Qed.

Lemma page_attr_independent_witness :
  test_page_attr (set_page_attr (ex_bitmap [] []) 3 BITMAP_PAGE_NEEDWRITE) 3
    BITMAP_PAGE_NEEDWRITE = true
  /\ test_page_attr (set_page_attr (ex_bitmap [] []) 3 BITMAP_PAGE_NEEDWRITE) 2
       BITMAP_PAGE_DIRTY = false.
Proof.
  split.
  - apply (page_attr_independent (ex_bitmap [] []) 3 BITMAP_PAGE_NEEDWRITE 3
             BITMAP_PAGE_NEEDWRITE ltac:(lia) ltac:(lia)
             ltac:(vm_compute; intuition congruence)
             ltac:(vm_compute; intuition congruence)).
  - apply (page_attr_independent (ex_bitmap [] []) 3 BITMAP_PAGE_NEEDWRITE 2
             BITMAP_PAGE_DIRTY ltac:(lia) ltac:(lia)
             ltac:(vm_compute; intuition congruence)
             ltac:(vm_compute; intuition congruence)).
Defined.

(** ** The place of a chunk's bit in the image *)

(** X4.  The bits of the chunks follow one another in the image, after
    the 256 bytes of the superblock when the image has one: the bit of
    [chunk] is bit [file_page_offset] of page [file_page_index], and page
    and offset together give back the chunk.  So two chunks never share a
    bit and no chunk has its bit inside the superblock.  The first page
    has index 0, so [filemap_get_page] returns [filemap[index]], and NULL
    exactly when the index is not below [file_pages]. *)
Theorem file_bit_place store chunk :
  0 <= chunk < 2 ^ 64 - 2048 ->
  let off := if sb_page store then SIZEOF_SB * 8 else 0 in
  file_page_index store chunk * PAGE_BITS + file_page_offset store chunk
  = chunk + off
  /\ 0 <= file_page_offset store chunk < PAGE_BITS
  /\ 0 <= file_page_index store chunk
  /\ (file_page_index store chunk = 0 -> off <= file_page_offset store chunk)
  /\ file_page_index store 0 = 0
  /\ filemap_get_page store chunk
     = (if file_pages store <=? file_page_index store chunk then None
        else Some (file_page_index store chunk))
  /\ (forall chunk', 0 <= chunk' < 2 ^ 64 - 2048 ->
        file_page_index store chunk' = file_page_index store chunk ->
        file_page_offset store chunk' = file_page_offset store chunk ->
        chunk' = chunk).
Proof.
  intros Hc. cbv zeta.
  assert (Hgen : forall c, 0 <= c < 2 ^ 64 - 2048 ->
            file_page_index store c * PAGE_BITS + file_page_offset store c
            = c + (if sb_page store then SIZEOF_SB * 8 else 0)
            /\ 0 <= file_page_offset store c < PAGE_BITS
            /\ 0 <= file_page_index store c).
  { intros c Hcc. unfold file_page_index, file_page_offset.
    change PAGE_BIT_SHIFT with 15. change PAGE_BITS with (2 ^ 15).
    change (Z.shiftl SIZEOF_SB 3) with 2048. change (SIZEOF_SB * 8) with 2048.
    change (2 ^ 15 - 1) with (Z.ones 15).
    rewrite Z.land_ones, Z.shiftr_div_pow2 by lia.
    destruct (sb_page store).
    - rewrite ulong_small by lia. change (2 ^ 15) with 32768. zdm.
    - change (2 ^ 15) with 32768. zdm. }
  destruct (Hgen chunk Hc) as (Hsum & Hoff & Hidx).
  split; [exact Hsum|]. split; [exact Hoff|]. split; [exact Hidx|].
  assert (H0 : file_page_index store 0 = 0).
  { unfold file_page_index. destruct (sb_page store); reflexivity. }
  split; [intros E; rewrite E in Hsum; lia|]. split; [exact H0|]. split.
  - unfold filemap_get_page. rewrite H0, Z.sub_0_r. reflexivity.
  - intros chunk' Hc' Ei Eo.
    destruct (Hgen chunk' Hc') as (Hsum' & _). rewrite Ei, Eo in Hsum'. lia.
Qed.

Lemma file_bit_place_witness :
  file_page_index ex_storage 40000 = 1
  /\ file_page_offset ex_storage 40000 = 9280.
Proof.
  destruct (file_bit_place ex_storage 40000
              ltac:(vm_compute; intuition congruence))
    as (Hsum & Hoff & _).
  cbv zeta in Hsum. change (sb_page ex_storage) with true in Hsum.
  cbv iota in Hsum.
  assert (E : file_page_index ex_storage 40000 = 1) by reflexivity.
  split; [exact E|]. rewrite E in Hsum.
  change PAGE_BITS with 32768 in Hsum. change (SIZEOF_SB * 8) with 2048 in Hsum.
  lia.
Defined.

(** ** The bit of a chunk after [bitmap_file_set_bit] and
       [bitmap_file_clear_bit] *)

Lemma file_test_bit_ext b b' chunk :
  sb_page (storage b') = sb_page (storage b) ->
  file_pages (storage b') = file_pages (storage b) ->
  filemap (storage b') = filemap (storage b) ->
  flags b' = flags b ->
  file_test_bit b' chunk = file_test_bit b chunk.
Proof.
  intros H1 H2 H3 H4. unfold file_test_bit.
  rewrite (filemap_get_page_ext (storage b) (storage b')) by assumption.
  rewrite (file_page_offset_ext (storage b) (storage b')) by assumption.
  unfold filemap_page. rewrite H3, H4. reflexivity.
Qed.

Lemma file_place_inj store c c' :
  0 <= c < 2 ^ 64 - 2048 -> 0 <= c' < 2 ^ 64 - 2048 ->
  file_page_index store c' = file_page_index store c ->
  file_page_offset store c' = file_page_offset store c ->
  c' = c.
Proof.
  intros Hc Hc' Ei Eo.
  assert (Hgen : forall x, 0 <= x < 2 ^ 64 - 2048 ->
            file_page_index store x * 32768 + file_page_offset store x
            = x + (if sb_page store then 2048 else 0)).
  { intros x Hx. unfold file_page_index, file_page_offset.
    change PAGE_BIT_SHIFT with 15. change PAGE_BITS with (2 ^ 15).
    change (Z.shiftl SIZEOF_SB 3) with 2048.
    change (2 ^ 15 - 1) with (Z.ones 15).
    rewrite Z.land_ones, Z.shiftr_div_pow2 by lia.
    destruct (sb_page store).
    - rewrite ulong_small by lia. change (2 ^ 15) with 32768. zdm.
    - change (2 ^ 15) with 32768. zdm. }
  pose proof (Hgen c Hc) as H1. pose proof (Hgen c' Hc') as H2.
  rewrite Ei, Eo in H2. lia.
Qed.

Lemma file_page_index_nonneg store c :
  0 <= c < 2 ^ 64 - 2048 -> 0 <= file_page_index store c.
Proof.
  intros Hc. unfold file_page_index. apply Z.shiftr_nonneg.
  destruct (sb_page store); [|lia].
  change (Z.shiftl SIZEOF_SB 3) with 2048. rewrite ulong_small by lia. lia.
Qed.

Lemma set_bit_either fl n a :
  (if test_flag BITMAP_HOSTENDIAN fl then set_bit n a else set_bit_le n a)
  = Z.setbit a n.
Proof.
  unfold set_bit_le, set_bit, BITOP_LE_SWIZZLE. rewrite Z.lxor_0_r.
  destruct (test_flag _ _); reflexivity.
Qed.

Lemma clear_bit_either fl n a :
  (if test_flag BITMAP_HOSTENDIAN fl then clear_bit n a else clear_bit_le n a)
  = Z.clearbit a n.
Proof.
  unfold clear_bit_le, clear_bit, BITOP_LE_SWIZZLE. rewrite Z.lxor_0_r.
  destruct (test_flag _ _); reflexivity.
Qed.

(** The bit of [chunk'] in an image whose page [k] has been replaced. *)
Lemma file_test_bit_replaced b b' chunk chunk' k pg data f :
  0 <= chunk < 2 ^ 64 - 2048 -> 0 <= chunk' < 2 ^ 64 - 2048 ->
  filemap_get_page (storage b) chunk = Some k ->
  filemap_page (storage b) k = Some pg ->
  sb_page (storage b') = sb_page (storage b) ->
  file_pages (storage b') = file_pages (storage b) ->
  flags b' = flags b ->
  filemap (storage b')
  = filemap (set_filemap_page (storage b) k (mk_pg (pg_index pg) data)) ->
  Z.testbit data (file_page_offset (storage b) chunk) = f ->
  (forall n, n <> file_page_offset (storage b) chunk ->
             Z.testbit data n = Z.testbit (pg_data pg) n) ->
  file_test_bit b' chunk'
  = if chunk' =? chunk then f else file_test_bit b chunk'.
Proof.
  intros Hc Hc' Hk Hpg Hsb Hfp Hfl Hfm Hbit Hother.
  unfold file_test_bit.
  rewrite (filemap_get_page_ext (storage b) (storage b')) by assumption.
  rewrite (file_page_offset_ext (storage b) (storage b')) by assumption.
  rewrite Hfl.
  assert (Hswz : forall n a, test_bit_le n a = Z.testbit a n).
  { intros n a. unfold test_bit_le, test_bit, BITOP_LE_SWIZZLE.
    rewrite Z.lxor_0_r. reflexivity. }
  assert (Htb : forall n a, (if test_flag BITMAP_HOSTENDIAN (flags b)
                             then test_bit n a else test_bit_le n a)
                            = Z.testbit a n).
  { intros n a. rewrite Hswz. destruct (test_flag _ _); reflexivity. }
  unfold filemap_get_page in Hk |- *.
  assert (H0 : file_page_index (storage b) 0 = 0)
    by (unfold file_page_index; destruct (sb_page (storage b)); reflexivity).
  rewrite H0, Z.sub_0_r in Hk |- *.
  destruct (file_pages (storage b) <=? file_page_index (storage b) chunk)
    eqn:Hle; [discriminate|]. injection Hk as Hk.
  pose proof (file_page_index_nonneg (storage b) chunk Hc) as Hk0.
  pose proof (file_page_index_nonneg (storage b) chunk' Hc') as Hk0'.
  unfold filemap_page in Hpg |- *. rewrite Hfm. unfold set_filemap_page.
  destruct (filemap (storage b)) as [fm|] eqn:Efm; [|discriminate].
  cbn [filemap set_filemap].
  destruct (Z.eqb_spec chunk' chunk) as [->|Hne].
  - rewrite Hle, Hk.
    rewrite list_lookup_insert_eq by (apply lookup_lt_Some in Hpg; exact Hpg).
    cbn [pg_data]. rewrite Htb. exact Hbit.
  - destruct (file_pages (storage b) <=? file_page_index (storage b) chunk');
      [reflexivity|].
    destruct (Z.eq_dec (file_page_index (storage b) chunk') k) as [Ek|Nk].
    + rewrite Ek.
      rewrite list_lookup_insert_eq by (apply lookup_lt_Some in Hpg; exact Hpg).
      rewrite Hpg. cbn [pg_data]. rewrite !Htb. apply Hother. intros Eo. apply Hne.
      apply (file_place_inj (storage b)); try assumption. congruence.
    + rewrite list_lookup_insert_ne by lia. reflexivity.
Qed.

(** X5.  [bitmap_file_set_bit] sets the bit of the block's chunk in the
    image and [bitmap_file_clear_bit] clears it, and neither changes the
    bit of any other chunk; so a bit set and then cleared reads clear, and
    a bit cleared and then set reads set.  When the image has no page for
    the chunk (the chunk lies beyond [file_pages]) both leave the bitmap
    as it was. *)
Theorem file_bit_set_clear b block chunk' :
  let chunk := Z.shiftr block (chunkshift (counts b)) in
  0 <= chunk < 2 ^ 64 - 2048 -> 0 <= chunk' < 2 ^ 64 - 2048 ->
  match filemap_get_page (storage b) chunk with
  | None => bitmap_file_set_bit b block = b
            /\ bitmap_file_clear_bit b block = b
  | Some k =>
      match filemap_page (storage b) k with
      | None => bitmap_file_set_bit b block = b
                /\ bitmap_file_clear_bit b block = b
      | Some _ =>
          file_test_bit (bitmap_file_set_bit b block) chunk'
          = (if chunk' =? chunk then true else file_test_bit b chunk')
          /\ file_test_bit (bitmap_file_clear_bit b block) chunk'
             = (if chunk' =? chunk then false else file_test_bit b chunk')
          /\ file_test_bit
               (bitmap_file_clear_bit (bitmap_file_set_bit b block) block)
               chunk = false
          /\ file_test_bit
               (bitmap_file_set_bit (bitmap_file_clear_bit b block) block)
               chunk = true
      end
  end.
Proof.
  intros chunk Hc Hc'.
  destruct (filemap_get_page (storage b) chunk) as [k|] eqn:Hk.
  2:{ unfold bitmap_file_set_bit, bitmap_file_clear_bit. fold chunk.
      rewrite Hk. split; reflexivity. }
  destruct (filemap_page (storage b) k) as [pg|] eqn:Hpg.
  2:{ unfold bitmap_file_set_bit, bitmap_file_clear_bit. fold chunk.
      rewrite Hk, Hpg. split; reflexivity. }
  pose proof (file_page_offset_nonneg (storage b) chunk) as Hoff.
  (* the two operations, on any bitmap whose image has the page *)
  assert (Hset : forall b0 pg0 c',
            0 <= c' < 2 ^ 64 - 2048 ->
            chunkshift (counts b0) = chunkshift (counts b) ->
            sb_page (storage b0) = sb_page (storage b) ->
            file_pages (storage b0) = file_pages (storage b) ->
            filemap_page (storage b0) k = Some pg0 ->
            file_test_bit (bitmap_file_set_bit b0 block) c'
            = if c' =? chunk then true else file_test_bit b0 c').
  { intros b0 pg0 c' Hc0 Hcs Hsb Hfp Hpg0.
    assert (Hk0 : filemap_get_page (storage b0) chunk = Some k)
      by (rewrite (filemap_get_page_ext (storage b)); assumption).
    pose proof (file_page_offset_ext (storage b) (storage b0) chunk Hsb) as Ho.
    destruct (set_filemap_page_frame (storage b0) k
                (mk_pg (pg_index pg0)
                   (Z.setbit (pg_data pg0) (file_page_offset (storage b0) chunk))))
      as (F1 & F2 & _).
    apply (file_test_bit_replaced b0 _ chunk c' k pg0
             (Z.setbit (pg_data pg0) (file_page_offset (storage b0) chunk)));
      try assumption.
    - unfold bitmap_file_set_bit. rewrite Hcs. fold chunk.
      rewrite Hk0, Hpg0, set_bit_either.
      exact F1.
    - unfold bitmap_file_set_bit. rewrite Hcs. fold chunk.
      rewrite Hk0, Hpg0, set_bit_either.
      exact F2.
    - unfold bitmap_file_set_bit. rewrite Hcs. fold chunk.
      rewrite Hk0, Hpg0, set_bit_either.
      reflexivity.
    - unfold bitmap_file_set_bit. rewrite Hcs. fold chunk.
      rewrite Hk0, Hpg0, set_bit_either.
      reflexivity.
    - apply Z.setbit_eq. rewrite Ho. exact Hoff.
    - intros n Hn. apply Z.setbit_neq; [rewrite Ho; exact Hoff|congruence]. }
  assert (Hclr : forall b0 pg0 c',
            0 <= c' < 2 ^ 64 - 2048 ->
            chunkshift (counts b0) = chunkshift (counts b) ->
            sb_page (storage b0) = sb_page (storage b) ->
            file_pages (storage b0) = file_pages (storage b) ->
            filemap_page (storage b0) k = Some pg0 ->
            file_test_bit (bitmap_file_clear_bit b0 block) c'
            = if c' =? chunk then false else file_test_bit b0 c').
  { intros b0 pg0 c' Hc0 Hcs Hsb Hfp Hpg0.
    assert (Hk0 : filemap_get_page (storage b0) chunk = Some k)
      by (rewrite (filemap_get_page_ext (storage b)); assumption).
    pose proof (file_page_offset_ext (storage b) (storage b0) chunk Hsb) as Ho.
    destruct (set_filemap_page_frame (storage b0) k
                (mk_pg (pg_index pg0)
                   (Z.clearbit (pg_data pg0)
                      (file_page_offset (storage b0) chunk))))
      as (F1 & F2 & _).
    apply (file_test_bit_replaced b0 _ chunk c' k pg0
             (Z.clearbit (pg_data pg0) (file_page_offset (storage b0) chunk)));
      try assumption.
    - unfold bitmap_file_clear_bit. rewrite Hcs. fold chunk.
      rewrite Hk0, Hpg0, clear_bit_either.
      destruct (negb _); exact F1.
    - unfold bitmap_file_clear_bit. rewrite Hcs. fold chunk.
      rewrite Hk0, Hpg0, clear_bit_either.
      destruct (negb _); exact F2.
    - unfold bitmap_file_clear_bit. rewrite Hcs. fold chunk.
      rewrite Hk0, Hpg0, clear_bit_either.
      destruct (negb _); reflexivity.
    - unfold bitmap_file_clear_bit. rewrite Hcs. fold chunk.
      rewrite Hk0, Hpg0, clear_bit_either.
      destruct (negb _); reflexivity.
    - apply Z.clearbit_eq.
    - intros n Hn. apply Z.clearbit_neq. congruence. }
  split; [apply (Hset b pg); auto|]. split; [apply (Hclr b pg); auto|].
  split.
  - destruct (bitmap_file_set_bit_frame b block) as (Hcs & _).
    assert (Hp : exists pg1,
               filemap_page (storage (bitmap_file_set_bit b block)) k = Some pg1
               /\ sb_page (storage (bitmap_file_set_bit b block))
                  = sb_page (storage b)
               /\ file_pages (storage (bitmap_file_set_bit b block))
                  = file_pages (storage b)).
    { unfold bitmap_file_set_bit. fold chunk. rewrite Hk, Hpg.
      cbn [set_page_attr storage set_storage filemap_page filemap
           set_filemap_attr sb_page file_pages].
      destruct (set_filemap_page_frame (storage b) k
                  (mk_pg (pg_index pg)
                     (if test_flag BITMAP_HOSTENDIAN (flags b)
                      then set_bit (file_page_offset (storage b) chunk)
                             (pg_data pg)
                      else set_bit_le (file_page_offset (storage b) chunk)
                             (pg_data pg)))) as (F1 & F2 & _).
      eexists. split; [|split; [exact F1|exact F2]].
      apply (filemap_page_set_filemap_page _ _ pg). exact Hpg. }
    destruct Hp as (pg1 & Hp1 & Hsb1 & Hfp1).
    rewrite (Hclr _ pg1 chunk Hc) by (try assumption; congruence).
    rewrite Z.eqb_refl. reflexivity.
  - destruct (bitmap_file_clear_bit_frame b block) as (Hcs & _).
    assert (Hp : exists pg1,
               filemap_page (storage (bitmap_file_clear_bit b block)) k
               = Some pg1
               /\ sb_page (storage (bitmap_file_clear_bit b block))
                  = sb_page (storage b)
               /\ file_pages (storage (bitmap_file_clear_bit b block))
                  = file_pages (storage b)).
    { unfold bitmap_file_clear_bit. fold chunk. rewrite Hk, Hpg.
      destruct (set_filemap_page_frame (storage b) k
                  (mk_pg (pg_index pg)
                     (if test_flag BITMAP_HOSTENDIAN (flags b)
                      then clear_bit (file_page_offset (storage b) chunk)
                             (pg_data pg)
                      else clear_bit_le (file_page_offset (storage b) chunk)
                             (pg_data pg)))) as (F1 & F2 & _).
      eexists.
      destruct (negb _);
        (split; [|split; [exact F1|exact F2]]);
        apply (filemap_page_set_filemap_page _ _ pg); exact Hpg. }
    destruct Hp as (pg1 & Hp1 & Hsb1 & Hfp1).
    rewrite (Hset _ pg1 chunk Hc) by (try assumption; congruence).
    rewrite Z.eqb_refl. reflexivity.
Qed.

Lemma file_bit_set_clear_witness :
  file_test_bit (bitmap_file_set_bit (ex_bitmap [] []) 16) 2 = true
  /\ file_test_bit (bitmap_file_set_bit (ex_bitmap [] []) 16) 3
     = file_test_bit (ex_bitmap [] []) 3
  /\ file_test_bit
       (bitmap_file_clear_bit (bitmap_file_set_bit (ex_bitmap [] []) 16) 16) 2
     = false.
Proof.
  split; [|split].
  - exact (proj1 (file_bit_set_clear (ex_bitmap [] []) 16 2
                    ltac:(vm_compute; intuition congruence)
                    ltac:(vm_compute; intuition congruence))).
  - exact (proj1 (file_bit_set_clear (ex_bitmap [] []) 16 3
                    ltac:(vm_compute; intuition congruence)
                    ltac:(vm_compute; intuition congruence))).
  - exact (proj1 (proj2 (proj2 (file_bit_set_clear (ex_bitmap [] []) 16 2
                    ltac:(vm_compute; intuition congruence)
                    ltac:(vm_compute; intuition congruence))))).
Defined.

(** ** A page obtained and given back *)

(** X6.  On a free slot (no page, not hijacked, no chunk counted)
    [bitmap_checkpage] with [create] returns 0 and leaves the slot usable,
    with a zeroed page when memory was there and hijacked when it was not;
    [bitmap_checkfree] on the result gives back the table as it was,
    [missing_pages] included. *)
Theorem checkpage_checkfree_round_trip c page kz :
  counts_inv c = true -> 0 <= page < pages c ->
  bp_map (slot c page) = NULL -> bp_hijacked (slot c page) = false ->
  bp_count (slot c page) = 0 -> 1 <= missing_pages c < 2 ^ 64 ->
  let err := fst (fst (bitmap_checkpage c page true kz)) in
  let c' := snd (fst (bitmap_checkpage c page true kz)) in
  err = 0
  /\ (bp_hijacked (slot c' page) = true /\ bp_map (slot c' page) = NULL
      /\ missing_pages c' = missing_pages c
      /\ fst (kzalloc kz) = None
      \/ bp_hijacked (slot c' page) = false
         /\ bp_map (slot c' page) = MapPage ∅
         /\ missing_pages c' = missing_pages c - 1
         /\ fst (kzalloc kz) = Some ∅)
  /\ (forall q, Z.to_nat q <> Z.to_nat page -> slot c' q = slot c q)
  /\ bitmap_checkfree c' page = c.
Proof.
  intros Hinv Hp Hmap Hh H0 Hmp. cbv zeta.
  assert (Hl : (Z.to_nat page < length (bp c))%nat).
  { unfold counts_inv in Hinv. apply andb_true_iff in Hinv as [Hlen _].
    apply Nat.eqb_eq in Hlen. lia. }
  assert (Hs : bp c !! Z.to_nat page = Some (slot c page)).
  { unfold slot. destruct (bp c !! Z.to_nat page) eqn:E; [reflexivity|].
    apply lookup_ge_None in E. lia. }
  unfold bitmap_checkpage.
  destruct (Z.leb_spec (pages c) page) as [Hge|_]; [lia|].
  rewrite Hh, Hmap. cbn [map_is_null NULL Z.eqb andb negb orb].
  destruct (slot c page) as [m h pe n] eqn:Es. cbn in Hmap, Hh, H0. subst.
  destruct kz as [|[|] kz]; cbn [kzalloc fst snd].
  - split; [reflexivity|]. split; [|split].
    + right. rewrite slot_set_missing_pages, slot_set_slot by exact Hl.
      cbn. unfold ulong. rewrite Z.mod_small by lia. repeat split.
    + intros q Hq. rewrite slot_set_missing_pages.
      apply slot_set_slot_ne. congruence.
    + unfold bitmap_checkfree.
      rewrite slot_set_missing_pages, slot_set_slot by exact Hl.
      cbn [bp_count with_map Z.eqb negb bp_hijacked].
      unfold set_missing_pages, set_slot. cbn.
      rewrite list_insert_insert_eq, list_insert_id by exact Hs.
      unfold ulong. rewrite (Z.mod_small (missing_pages c - 1)) by lia.
      replace (missing_pages c - 1 + 1) with (missing_pages c) by lia.
      rewrite Z.mod_small by lia. destruct c; reflexivity.
  - split; [reflexivity|]. split; [|split].
    + right. rewrite slot_set_missing_pages, slot_set_slot by exact Hl.
      cbn. unfold ulong. rewrite Z.mod_small by lia. repeat split.
    + intros q Hq. rewrite slot_set_missing_pages.
      apply slot_set_slot_ne. congruence.
    + unfold bitmap_checkfree.
      rewrite slot_set_missing_pages, slot_set_slot by exact Hl.
      cbn [bp_count with_map Z.eqb negb bp_hijacked].
      unfold set_missing_pages, set_slot. cbn.
      rewrite list_insert_insert_eq, list_insert_id by exact Hs.
      unfold ulong. rewrite (Z.mod_small (missing_pages c - 1)) by lia.
      replace (missing_pages c - 1 + 1) with (missing_pages c) by lia.
      rewrite Z.mod_small by lia. destruct c; reflexivity.
  - split; [reflexivity|]. split; [|split].
    + left. rewrite slot_set_slot by exact Hl. repeat split.
    + intros q Hq. apply slot_set_slot_ne. congruence.
    + unfold bitmap_checkfree. rewrite slot_set_slot by exact Hl.
      cbn [bp_count with_hijacked Z.eqb negb bp_hijacked].
      unfold set_slot. cbn.
      rewrite list_insert_insert_eq, list_insert_id by exact Hs.
      destruct c; reflexivity.
Qed.

Lemma checkpage_checkfree_round_trip_witness :
  bitmap_checkfree (snd (fst (bitmap_checkpage ex_counts 0 true [false]))) 0
  = ex_counts.
Proof.
  exact (proj2 (proj2 (proj2
    (checkpage_checkfree_round_trip ex_counts 0 [false]
       ltac:(reflexivity) ltac:(vm_compute; intuition congruence)
       ltac:(reflexivity) ltac:(reflexivity) ltac:(reflexivity)
       ltac:(vm_compute; intuition congruence))))).
Defined.

(** ** The image that [bitmap_storage_alloc] builds *)

Lemma storage_alloc_pages_inr n : forall pnum acc kz fm kz',
  storage_alloc_pages n pnum acc kz = (inr fm, kz') ->
  length fm = (length acc + n)%nat
  /\ (forall k, (k < length acc)%nat -> fm !! k = acc !! k)
  /\ (forall k, (length acc <= k < length acc + n)%nat ->
        fm !! k = Some (mk_pg (pnum + Z.of_nat (k - length acc)) 0)).
Proof.
  induction n as [|n IH]; intros pnum acc kz fm kz' H; cbn in H.
  - injection H as <- <-. split; [lia|]. split; [reflexivity|]. lia.
  - destruct (alloc_ok kz) as [ok kz1]. destruct ok; [|discriminate].
    apply IH in H as (Hlen & Hlow & Hhigh).
    rewrite length_app in Hlen, Hlow, Hhigh. cbn [length] in *.
    split; [lia|]. split.
    + intros k Hk. rewrite Hlow by lia. apply lookup_app_l. exact Hk.
    + intros k Hk. destruct (decide (k = length acc)) as [->|Hne].
      * rewrite Hlow by lia. rewrite lookup_app_r by lia.
        rewrite Nat.sub_diag. cbn. f_equal. f_equal. lia.
      * rewrite Hhigh by lia. f_equal. f_equal. lia.
Qed.

Lemma alloc_ok_true kz :
  (forall x, In x kz -> x = true) ->
  fst (alloc_ok kz) = true /\ forall x, In x (snd (alloc_ok kz)) -> x = true.
Proof.
  intros H. destruct kz as [|ok kz]; cbn.
  - split; [reflexivity|]. intros x [].
  - split; [apply H; left; reflexivity|]. intros x Hx. apply H. right. exact Hx.
Qed.

Lemma storage_alloc_pages_true n : forall pnum acc kz,
  (forall x, In x kz -> x = true) ->
  exists fm, fst (storage_alloc_pages n pnum acc kz) = inr fm
             /\ forall x, In x (snd (storage_alloc_pages n pnum acc kz)) ->
                          x = true.
Proof.
  induction n as [|n IH]; intros pnum acc kz H; cbn.
  - exists acc. split; [reflexivity|exact H].
  - destruct (alloc_ok_true kz H) as (H1 & H2).
    destruct (alloc_ok kz) as [ok kz1]. cbn in H1, H2. subst ok.
    apply IH. exact H2.
Qed.

(** X7.  [bitmap_storage_alloc] returns 0 or -ENOMEM, and 0 when no
    allocation fails.  When it returns 0 the image has [file_pages] pages
    in [filemap], page [k] with index [k] and all bits clear, the
    superblock page first when asked for; no page attribute is set;
    [bytes] is the size of the bits and of the superblock; and every
    chunk below [chunks] has its page in the image. *)
Theorem bitmap_storage_alloc_covers store chunks with_super kz :
  0 <= chunks < 2 ^ 63 ->
  (sb_page store = true -> with_super = true) ->
  let r := fst (fst (bitmap_storage_alloc store chunks with_super kz)) in
  let store' := snd (fst (bitmap_storage_alloc store chunks with_super kz)) in
  (r = 0 \/ r = - ENOMEM)
  /\ ((forall x, In x kz -> x = true) -> r = 0)
  /\ (r = 0 ->
      sb_page store' = with_super
      /\ st_bytes store'
         = DIV_ROUND_UP chunks 8 + (if with_super then SIZEOF_SB else 0)
      /\ file_pages store' = DIV_ROUND_UP (st_bytes store') PAGE_SIZE
      /\ filemap_attr store' = 0
      /\ (exists fm, filemap store' = Some fm
                     /\ Z.of_nat (length fm) = file_pages store')
      /\ (forall k, 0 <= k < file_pages store' ->
            filemap_page store' k = Some (mk_pg k 0))
      /\ (forall chunk, 0 <= chunk < chunks ->
            filemap_get_page store' chunk
            = Some (file_page_index store' chunk)
            /\ filemap_page store' (file_page_index store' chunk)
               = Some (mk_pg (file_page_index store' chunk) 0))).
Proof.
  intros Hc Hsb. cbv zeta. unfold bitmap_storage_alloc.
  set (bytes := DIV_ROUND_UP chunks 8 + (if with_super then SIZEOF_SB else 0)).
  set (num_pages := DIV_ROUND_UP bytes PAGE_SIZE).
  assert (Hbytes : 0 <= bytes
                   /\ chunks + (if with_super then 2048 else 0) <= 8 * bytes).
  { unfold bytes, DIV_ROUND_UP. change SIZEOF_SB with 256.
    destruct with_super; zdm. }
  assert (Hnum : 0 <= num_pages /\ bytes <= 4096 * num_pages
                 /\ (with_super = true -> 1 <= num_pages)).
  { unfold num_pages, DIV_ROUND_UP. change PAGE_SIZE with 4096.
    split; [zdm|]. split; [zdm|]. intros ->. unfold bytes in *.
    change SIZEOF_SB with 256 in *. unfold DIV_ROUND_UP in *. zdm. }
  destruct Hnum as (Hn0 & Hn1 & Hn2).
  destruct (alloc_ok kz) as [ok_map kz1] eqn:E1.
  destruct ok_map; cbn [negb].
  2:{ cbn [fst snd]. split; [right; reflexivity|]. split.
      - intros Hall. destruct (alloc_ok_true kz Hall) as (Ht & _).
        rewrite E1 in Ht. discriminate.
      - unfold ENOMEM. discriminate. }
  assert (Has : sb_page store || with_super = with_super).
  { destruct (sb_page store); [rewrite Hsb; reflexivity|reflexivity]. }
  destruct (if with_super && negb (sb_page store) then alloc_ok kz1
            else (true, kz1)) as [ok_sb kz2] eqn:E2.
  destruct ok_sb; cbn [negb].
  2:{ cbn [fst snd]. split; [right; reflexivity|]. split.
      - intros Hall. destruct (alloc_ok_true kz Hall) as (_ & Ht).
        rewrite E1 in Ht. cbn in Ht.
        destruct (with_super && negb (sb_page store)); [|discriminate].
        destruct (alloc_ok_true kz1 Ht) as (Ht2 & _).
        rewrite E2 in Ht2. discriminate.
      - unfold ENOMEM. discriminate. }
  rewrite Has.
  set (first := if with_super then [mk_pg 0 0] else []).
  set (pnum := if with_super then 1 else 0).
  assert (Hpn : pnum <= num_pages /\ Z.of_nat (length first) = pnum).
  { unfold pnum, first. destruct with_super; cbn; split; try lia;
      try (apply Hn2; reflexivity). }
  destruct Hpn as (Hpn & Hfl).
  destruct (storage_alloc_pages (Z.to_nat (num_pages - pnum)) pnum first kz2)
    as [[[got fm0]|fm] kz3] eqn:E3.
  { cbn [fst snd]. split; [right; reflexivity|]. split.
    - intros Hall. destruct (alloc_ok_true kz Hall) as (_ & Ht).
      rewrite E1 in Ht. cbn in Ht.
      assert (Ht2 : forall x, In x kz2 -> x = true).
      { destruct (with_super && negb (sb_page store)).
        - destruct (alloc_ok_true kz1 Ht) as (_ & Ht2).
          rewrite E2 in Ht2. exact Ht2.
        - injection E2 as <-. exact Ht. }
      destruct (storage_alloc_pages_true (Z.to_nat (num_pages - pnum)) pnum
                  first kz2 Ht2) as (fm & Hfm & _).
      rewrite E3 in Hfm. discriminate.
    - unfold ENOMEM. discriminate. }
  destruct (Z.ltb_spec num_pages pnum) as [Hlt|_]; [lia|].
  destruct (alloc_ok kz3) as [ok_attr kz4] eqn:E4.
  destruct ok_attr; cbn [negb fst snd].
  2:{ split; [right; reflexivity|]. split.
      - intros Hall. destruct (alloc_ok_true kz Hall) as (_ & Ht).
        rewrite E1 in Ht. cbn in Ht.
        assert (Ht2 : forall x, In x kz2 -> x = true).
        { destruct (with_super && negb (sb_page store)).
          - destruct (alloc_ok_true kz1 Ht) as (_ & Ht2).
            rewrite E2 in Ht2. exact Ht2.
          - injection E2 as <-. exact Ht. }
        destruct (storage_alloc_pages_true (Z.to_nat (num_pages - pnum)) pnum
                    first kz2 Ht2) as (fm' & Hfm & Ht3).
        rewrite E3 in Hfm, Ht3. cbn in Ht3.
        destruct (alloc_ok_true kz3 Ht3) as (Ht4 & _).
        rewrite E4 in Ht4. discriminate.
      - unfold ENOMEM. discriminate. }
  split; [left; reflexivity|]. split; [reflexivity|]. intros _.
  cbn [sb_page st_bytes file_pages filemap_attr filemap].
  destruct (storage_alloc_pages_inr _ _ _ _ _ _ E3) as (Hlen & Hlow & Hhigh).
  assert (Hpage : forall k, 0 <= k < num_pages ->
            fm !! Z.to_nat k = Some (mk_pg k 0)).
  { intros k Hk. destruct (Z.ltb_spec k pnum) as [Hkl|Hkg].
    - rewrite Hlow by lia. unfold pnum, first in *.
      destruct with_super; [|lia]. assert (k = 0) as -> by lia. reflexivity.
    - rewrite Hhigh by lia. f_equal. f_equal. lia. }
  split; [reflexivity|]. split; [reflexivity|]. split; [reflexivity|].
  split; [reflexivity|]. split; [exists fm; split; [reflexivity|lia]|].
  split; [intros k Hk; unfold filemap_page; cbn [filemap]; apply Hpage; exact Hk|].
  intros chunk Hch.
  set (store' := mk_storage (st_file store) with_super (sb store) (Some fm) 0
                   num_pages bytes).
  match goal with
  | |- filemap_get_page ?s _ = _ /\ _ => change s with store'
  end.
  assert (Hidx : 0 <= file_page_index store' chunk < num_pages).
  { unfold file_page_index, store'. cbn [sb_page].
    change PAGE_BIT_SHIFT with 15. change (Z.shiftl SIZEOF_SB 3) with 2048.
    rewrite Z.shiftr_div_pow2 by lia. change (2 ^ 15) with 32768.
    destruct with_super.
    - rewrite ulong_small by lia. zdm.
    - zdm. }
  assert (H0 : file_page_index store' 0 = 0)
    by (unfold file_page_index; destruct (sb_page store'); reflexivity).
  split.
  - unfold filemap_get_page. rewrite H0, Z.sub_0_r.
    change (file_pages store') with num_pages.
    destruct (Z.leb_spec num_pages (file_page_index store' chunk)); [lia|].
    reflexivity.
  - unfold filemap_page. cbn [filemap store']. apply Hpage. exact Hidx.
Qed.

Lemma bitmap_storage_alloc_covers_witness :
  fst (fst (bitmap_storage_alloc zero_storage 40000 true [])) = 0
  /\ file_pages (snd (fst (bitmap_storage_alloc zero_storage 40000 true [])))
     = 2.
Proof.
  pose proof (bitmap_storage_alloc_covers zero_storage 40000 true []
                ltac:(vm_compute; intuition congruence)
                ltac:(intros H; discriminate H)) as H.
  cbv zeta in H. destruct H as (_ & H0 & _). split.
  - apply H0. intros x [].
  - reflexivity.
Defined.

(** ** The choice of the chunk size *)

Lemma resize_fit_first fuel : forall blocks space external cs s,
  0 <= cs <= s -> s <= 30 -> (Z.to_nat (s - cs) < fuel)%nat ->
  image_bytes blocks external s <= Z.shiftl space 9 ->
  exists r, resize_fit fuel blocks space external cs = Some r
            /\ cs <= r <= s
            /\ image_bytes blocks external r <= Z.shiftl space 9
            /\ forall j, cs <= j < r ->
                 Z.shiftl space 9 < image_bytes blocks external j.
Proof.
  induction fuel as [|fuel IH];
    intros blocks space external cs s Hs Hs30 Hf Hfit; [lia|].
  cbn [resize_fit]. rewrite (int_shl1_some cs) by lia.
  replace (2 ^ cs) with (Z.shiftl 1 cs)
    by (rewrite Z.shiftl_mul_pow2 by lia; lia).
  fold (image_bytes blocks external cs).
  destruct (Z.ltb_spec (Z.shiftl space 9) (image_bytes blocks external cs))
    as [Hlt|Hge].
  - assert (cs <> s) by (intros ->; lia).
    destruct (IH blocks space external (cs + 1) s ltac:(lia) Hs30 ltac:(lia)
                Hfit)
      as (r & Hr & Hrs & Hfr & Hleast).
    exists r. split; [exact Hr|]. split; [lia|]. split; [exact Hfr|].
    intros j Hj. destruct (Z.eq_dec j cs) as [->|Hne]; [exact Hlt|].
    apply Hleast. lia.
  - exists cs. split; [reflexivity|]. split; [lia|]. split; [exact Hge|].
    intros j Hj. lia.
Qed.

Lemma ffz_not_pow2 k : 0 <= k -> ffz_not (2 ^ k) = k.
Proof.
  intros Hk. unfold ffz_not.
  replace (Z.land (2 ^ k) (- 2 ^ k)) with (2 ^ k); [apply Z.log2_pow2; exact Hk|].
  apply Z.bits_inj'. intros n Hn.
  replace (- 2 ^ k) with (Z.lnot (Z.ones k))
    by (rewrite Z.ones_equiv; unfold Z.lnot; lia).
  rewrite Z.land_spec, Z.lnot_spec, Z.pow2_bits_eqb by lia.
  destruct (Z.eqb_spec k n) as [->|Hne]; [|reflexivity].
  rewrite Z.ones_spec_high by lia. reflexivity.
Qed.

(** X8.  With [chunksize == 0], [bitmap_resize] keeps the current chunk
    size when the image of [blocks] sectors fits the space, and otherwise
    takes the first larger power of two at which it fits: the shift chosen
    fits, and no shift between the current one and it does.  The space is
    the one recorded, or, when none is, the size of the current image
    rounded up to sectors.  With a chunk size of [2 ^ k] bytes given, the
    shift is [k - 9].  Shifts and chunk sizes are those an [int] holds. *)
Theorem resize_chunkshift_least b blocks s :
  0 <= blocks < 2 ^ 63 ->
  0 <= chunkshift (counts b) <= s -> s <= 30 ->
  image_bytes blocks (md_external (mddev b)) s <= Z.shiftl (resize_space b) 9 ->
  (exists r,
      resize_chunkshift b blocks 0 = Some (r, resize_space b)
      /\ chunkshift (counts b) <= r <= s
      /\ image_bytes blocks (md_external (mddev b)) r
         <= Z.shiftl (resize_space b) 9
      /\ (forall j, chunkshift (counts b) <= j < r ->
            Z.shiftl (resize_space b) 9
            < image_bytes blocks (md_external (mddev b)) j)
      /\ (image_bytes blocks (md_external (mddev b)) (chunkshift (counts b))
          <= Z.shiftl (resize_space b) 9 -> r = chunkshift (counts b)))
  /\ (forall k, 0 <= k <= 30 ->
        resize_chunkshift b blocks (2 ^ k)
        = Some (k - BITMAP_BLOCK_SHIFT, md_space (mddev b))).
Proof.
  intros Hb Hs Hf Hfit. split.
  - destruct (resize_fit_first 64 blocks (resize_space b)
                (md_external (mddev b)) (chunkshift (counts b)) s
                ltac:(lia) Hf ltac:(lia) Hfit)
      as (r & Hr & Hrs & Hfr & Hleast).
    exists r. split.
    + unfold resize_chunkshift. cbn [Z.eqb]. fold (resize_space b).
      rewrite Hr. reflexivity.
    + split; [exact Hrs|]. split; [exact Hfr|]. split; [exact Hleast|].
      intros H0.
      destruct (Z.eq_dec r (chunkshift (counts b))) as [E|N]; [exact E|].
      specialize (Hleast (chunkshift (counts b)) ltac:(lia)). lia.
  - intros k Hk. unfold resize_chunkshift.
    destruct (Z.eqb_spec (2 ^ k) 0) as [E|_].
    + pose proof (Z.pow_pos_nonneg 2 k ltac:(lia) ltac:(lia)). lia.
    + rewrite ffz_not_pow2 by lia. reflexivity.
Qed.

Lemma resize_chunkshift_least_witness :
  resize_chunkshift (ex_bitmap [] []) 600000 0 = Some (5, 8).
Proof.
  destruct (resize_chunkshift_least (ex_bitmap [] []) 600000 5
              ltac:(vm_compute; intuition congruence)
              ltac:(vm_compute; intuition congruence)
              ltac:(vm_compute; intuition congruence)
              ltac:(vm_compute; intuition congruence))
    as ((r & Hr & Hrs & Hfr & _) & _).
  change (chunkshift (counts (ex_bitmap [] []))) with 3 in Hrs.
  assert (E : r = 3 \/ r = 4 \/ r = 5) by lia.
  destruct E as [-> | [-> | ->] ].
  - vm_compute in Hfr. exfalso. apply Hfr. reflexivity.
  - vm_compute in Hfr. exfalso. apply Hfr. reflexivity.
  - exact Hr.
Defined.

(** ** The resync marks *)

Lemma bitmap_get_counter_nocreate_kz c offset kz :
  bitmap_get_counter c offset false kz
  = mk_gc (gc_bmc (bitmap_get_counter c offset false []))
      (blocks_at c offset) c kz.
Proof.
  rewrite !bitmap_get_counter_unfold. cbv zeta. unfold bitmap_checkpage.
  unfold blocks_at.
  destruct (pages c <=? page_of c offset); [reflexivity|].
  destruct (bp_hijacked (slot c (page_of c offset))); [reflexivity|].
  destruct (negb (map_is_null _)); reflexivity.
Qed.

Lemma get_counter_nocreate b offset :
  after_get_counter b (get_counter b offset false) = b
  /\ gc_blocks (get_counter b offset false) = blocks_at (counts b) offset
  /\ gc_bmc (get_counter b offset false)
     = gc_bmc (bitmap_get_counter (counts b) offset false []).
Proof.
  unfold after_get_counter, get_counter.
  rewrite bitmap_get_counter_nocreate_kz. cbn [gc_counts gc_kz gc_blocks gc_bmc].
  split; [destruct b; reflexivity|]. split; reflexivity.
Qed.

Lemma set_counts_same b : set_counts b (counts b) = b.
Proof. destruct b; reflexivity. Qed.

Lemma table_step_put_same c bmc v :
  counts_inv c = true -> read_counter c bmc = v ->
  table_step (put bmc v) c c.
Proof.
  intros Hinv Hv. unfold table_step.
  repeat (split; [first [assumption|reflexivity]|]). split.
  - intros bo Hbo. split; [exact Hbo|]. unfold put.
    destruct (cell_eqb_spec bo bmc) as [->|_]; [exact Hv|reflexivity].
  - intros q. repeat split. auto.
Qed.

(** The words that the marks make of a counter word. *)
Lemma mark_words v :
  0 <= v < 65536 ->
  Z.lor v RESYNC_MASK = v + RESYNC_MASK - RESYNC v
  /\ Z.lor v NEEDED_MASK = v + NEEDED_MASK - NEEDED v
  /\ Z.land v (Z.lnot RESYNC_MASK) = v - RESYNC v
  /\ Z.land v (Z.lnot NEEDED_MASK) = v - NEEDED v
  /\ v = NEEDED v + RESYNC v + COUNTER v
  /\ (NEEDED v = 0 \/ NEEDED v = NEEDED_MASK)
  /\ (RESYNC v = 0 \/ RESYNC v = RESYNC_MASK)
  /\ 0 <= COUNTER v < RESYNC_MASK.
Proof.
  intros Hv. pose proof (counter_fields v) as Hf.
  rewrite (u16_small v Hv) in Hf.
  change RESYNC_MASK with (2 ^ 14). change NEEDED_MASK with (2 ^ 15).
  rewrite !lor_pow2, !land_lnot_pow2 by lia.
  rewrite NEEDED_eq, RESYNC_eq, COUNTER_eq in *. rewrite (u16_small v Hv) in *.
  change (2 ^ 14) with 16384. change (2 ^ 15) with 32768.
  repeat split; try zdm.
Qed.

Lemma fields_of v n r :
  0 <= v < 16384 -> (n = 0 \/ n = NEEDED_MASK) -> (r = 0 \/ r = RESYNC_MASK) ->
  NEEDED (n + r + v) = n /\ RESYNC (n + r + v) = r /\ COUNTER (n + r + v) = v
  /\ 0 <= n + r + v < 65536.
Proof.
  intros Hv Hn Hr. rewrite NEEDED_eq, RESYNC_eq, COUNTER_eq.
  change NEEDED_MASK with 32768 in *. change RESYNC_MASK with 16384 in *.
  assert (Hrange : 0 <= n + r + v < 65536) by lia.
  rewrite (u16_small _ Hrange).
  destruct Hn as [-> | ->], Hr as [-> | ->]; repeat split; zdm.
Qed.

Lemma store_found b bmc offset x :
  found (counts b) offset bmc -> 0 <= x < 65536 ->
  found (counts (store_counter b bmc x)) offset bmc
  /\ read_counter (counts (store_counter b bmc x)) bmc = x
  /\ table_step (put bmc x) (counts b) (counts (store_counter b bmc x))
  /\ blocks_at (counts (store_counter b bmc x)) offset
     = blocks_at (counts b) offset.
Proof.
  intros Hf Hx. pose proof Hf as (Hinv & Hok & _).
  assert (Hstep : table_step (put bmc x) (counts b)
                    (counts (store_counter b bmc x))).
  { unfold store_counter. destruct b. simpl.
    apply table_step_write; [split; assumption|exact Hx]. }
  pose proof Hstep as (Hinv' & Hp & Hcs & _ & Hcells & _).
  destruct (Hcells bmc Hok) as (Hok' & Hread).
  destruct (found_frame _ _ _ _ Hf Hinv' Hok' Hp Hcs) as (Hf' & Hbl).
  split; [exact Hf'|]. split.
  - rewrite Hread. unfold put.
    destruct (cell_eqb_spec bmc bmc) as [_|N]; [reflexivity|contradiction].
  - split; [exact Hstep|exact Hbl].
Qed.

Lemma put_put bmc x y bo v : put bmc y bo (put bmc x bo v) = put bmc y bo v.
Proof. unfold put. destruct (cell_eqb bo bmc); reflexivity. Qed.

(** [__bitmap_start_sync] on a chunk that has its counter. *)
Lemma start_sync_found b offset degraded bmc :
  found (counts b) offset bmc ->
  let v := read_counter (counts b) bmc in
  let res := __bitmap_start_sync b offset degraded in
  let x := if (RESYNC v =? 0) && negb (NEEDED v =? 0) && negb degraded
           then RESYNC_MASK + COUNTER v else v in
  snd res = blocks_at (counts b) offset
  /\ snd (fst res) = (if (RESYNC v =? 0) && (NEEDED v =? 0) then 0 else 1)
  /\ fst (fst res) = set_counts b (counts (fst (fst res)))
  /\ found (counts (fst (fst res))) offset bmc
  /\ read_counter (counts (fst (fst res))) bmc = x
  /\ table_step (put bmc x) (counts b) (counts (fst (fst res)))
  /\ blocks_at (counts (fst (fst res))) offset = blocks_at (counts b) offset.
Proof.
  intros Hf v res x. subst res. unfold __bitmap_start_sync.
  destruct (after_get_counter_found b offset false bmc Hf) as (Hr & Hb0).
  rewrite Hb0, Hr. cbn [gc_bmc gc_blocks]. fold v.
  pose proof Hf as (Hinv & _).
  assert (Hv : 0 <= v < 65536).
  { unfold v. rewrite <- read_counter_u16. apply u16_range. }
  destruct (mark_words v Hv) as (Hlr & Hln & Har & Han & Hsum & Hn & Hrs & Hc).
  assert (Hsame : forall y, y = v ->
            found (counts b) offset bmc /\ read_counter (counts b) bmc = y
            /\ table_step (put bmc y) (counts b) (counts b)
            /\ blocks_at (counts b) offset = blocks_at (counts b) offset).
  { intros y ->. split; [exact Hf|]. split; [reflexivity|].
    split; [apply table_step_put_same; [exact Hinv|reflexivity]|reflexivity]. }
  destruct (Z.eqb_spec (RESYNC v) 0) as [Hr0|Hr1]; cbn [negb andb].
  2:{ cbn [fst snd counts]. split; [reflexivity|]. split; [reflexivity|].
      split; [symmetry; apply set_counts_same|]. apply Hsame. reflexivity. }
  destruct (Z.eqb_spec (NEEDED v) 0) as [Hn0|Hn1]; cbn [negb andb].
  { cbn [fst snd counts]. split; [reflexivity|]. split; [reflexivity|].
    split; [symmetry; apply set_counts_same|]. apply Hsame. reflexivity. }
  destruct degraded; cbn [negb].
  { cbn [fst snd counts]. split; [reflexivity|]. split; [reflexivity|].
    split; [symmetry; apply set_counts_same|]. apply Hsame. reflexivity. }
  cbn [fst snd]. split; [reflexivity|]. split; [reflexivity|].
  assert (Hx1 : 0 <= Z.lor v RESYNC_MASK < 65536).
  { rewrite Hlr, Hr0. change RESYNC_MASK with 16384 in *.
    change NEEDED_MASK with 32768 in *. lia. }
  destruct (store_found b bmc offset (Z.lor v RESYNC_MASK) Hf Hx1)
    as (Hf1 & Hrd1 & Hst1 & Hbl1).
  set (b1 := store_counter b bmc (Z.lor v RESYNC_MASK)) in *.
  rewrite Hrd1.
  assert (Hval : Z.land (Z.lor v RESYNC_MASK) (Z.lnot NEEDED_MASK)
                 = RESYNC_MASK + COUNTER v).
  { destruct (mark_words _ Hx1) as (_ & _ & _ & Han1 & _).
    rewrite Han1, Hlr, Hr0.
    destruct (fields_of (COUNTER v) NEEDED_MASK RESYNC_MASK
                ltac:(change RESYNC_MASK with 16384 in Hc; lia)
                ltac:(right; reflexivity) ltac:(right; reflexivity))
      as (HN & _).
    replace (v + RESYNC_MASK - 0)
      with (NEEDED_MASK + RESYNC_MASK + COUNTER v) by lia.
    rewrite HN. lia. }
  rewrite Hval.
  assert (Hx2 : 0 <= RESYNC_MASK + COUNTER v < 65536).
  { change RESYNC_MASK with 16384 in *. lia. }
  destruct (store_found b1 bmc offset (RESYNC_MASK + COUNTER v) Hf1 Hx2)
    as (Hf2 & Hrd2 & Hst2 & Hbl2).
  split; [unfold b1, store_counter; destruct b; reflexivity|].
  split; [exact Hf2|]. split; [exact Hrd2|]. split.
  - eapply table_step_ext; [|exact (table_step_trans _ _ _ _ _ Hst1 Hst2)].
    intros bo y. apply put_put.
  - congruence.
Qed.

(** [bitmap_end_sync] on a chunk that has its counter. *)
Lemma end_sync_found b offset aborted bmc :
  found (counts b) offset bmc ->
  let v := read_counter (counts b) bmc in
  let res := bitmap_end_sync b offset aborted in
  let x := if RESYNC v =? 0 then v
           else if (NEEDED v =? 0) && aborted then NEEDED_MASK + COUNTER v
                else NEEDED v + COUNTER v in
  let flagged := negb (RESYNC v =? 0) && negb ((NEEDED v =? 0) && aborted)
                 && (NEEDED v + COUNTER v <=? 2) in
  snd res = blocks_at (counts b) offset
  /\ found (counts (fst res)) offset bmc
  /\ read_counter (counts (fst res)) bmc = x
  /\ table_step (put bmc x) (counts b) (counts (fst res))
  /\ blocks_at (counts (fst res)) offset = blocks_at (counts b) offset
  /\ allclean (fst res) = (if flagged then false else allclean b)
  /\ (flagged = true -> pending_at (counts (fst res)) offset = true)
  /\ storage (fst res) = storage b.
Proof.
  intros Hf v res x flagged. subst res. unfold bitmap_end_sync.
  destruct (after_get_counter_found b offset false bmc Hf) as (Hr & Hb0).
  rewrite Hb0, Hr. cbn [gc_bmc gc_blocks]. fold v.
  pose proof Hf as (Hinv & _).
  assert (Hv : 0 <= v < 65536).
  { unfold v. rewrite <- read_counter_u16. apply u16_range. }
  destruct (mark_words v Hv) as (Hlr & Hln & Har & Han & Hsum & Hn & Hrs & Hc).
  subst x flagged.
  destruct (Z.eqb_spec (RESYNC v) 0) as [Hr0|Hr1]; cbn [negb andb].
  { cbn [fst snd]. split; [reflexivity|]. split; [exact Hf|].
    split; [reflexivity|].
    split; [apply table_step_put_same; [exact Hinv|reflexivity]|].
    split; [reflexivity|]. split; [reflexivity|].
    split; [discriminate|reflexivity]. }
  assert (Hx1 : 0 <= Z.land v (Z.lnot RESYNC_MASK) < 65536).
  { rewrite Har. change RESYNC_MASK with 16384 in *.
    change NEEDED_MASK with 32768 in *. lia. }
  assert (Hval1 : Z.land v (Z.lnot RESYNC_MASK) = NEEDED v + COUNTER v).
  { rewrite Har. lia. }
  destruct (store_found b bmc offset _ Hf Hx1) as (Hf1 & Hrd1 & Hst1 & Hbl1).
  set (b1 := store_counter b bmc (Z.land v (Z.lnot RESYNC_MASK))) in *.
  rewrite Hrd1, Hval1 in *.
  destruct (fields_of (COUNTER v) (NEEDED v) 0
              ltac:(change RESYNC_MASK with 16384 in Hc; lia) Hn
              ltac:(left; reflexivity)) as (HN & _ & _ & _).
  rewrite Z.add_0_r in HN. rewrite HN.
  destruct ((NEEDED v =? 0) && aborted) eqn:Hab; cbn [negb andb].
  - apply andb_true_iff in Hab as (Hn0 & _). apply Z.eqb_eq in Hn0.
    assert (Hx2 : 0 <= Z.lor (NEEDED v + COUNTER v) NEEDED_MASK < 65536
                  /\ Z.lor (NEEDED v + COUNTER v) NEEDED_MASK
                     = NEEDED_MASK + COUNTER v).
    { destruct (mark_words (NEEDED v + COUNTER v) Hx1) as (_ & Hl & _).
      rewrite Hl, HN, Hn0. change RESYNC_MASK with 16384 in *.
      change NEEDED_MASK with 32768 in *. lia. }
    destruct Hx2 as (Hx2 & Hval2). rewrite Hval2 in *.
    destruct (store_found b1 bmc offset _ Hf1 Hx2) as (Hf2 & Hrd2 & Hst2 & Hbl2).
    cbn [fst snd]. split; [reflexivity|]. split; [exact Hf2|].
    split; [exact Hrd2|]. split.
    { eapply table_step_ext; [|exact (table_step_trans _ _ _ _ _ Hst1 Hst2)].
      intros bo y. apply put_put. }
    split; [congruence|]. split; [reflexivity|]. split; [discriminate|].
    reflexivity.
  - destruct (Z.leb_spec (NEEDED v + COUNTER v) 2) as [Hle|Hgt]; cbn [fst snd].
    + pose proof Hf1 as (Hinv1 & Hok1 & Hcell1 & Hlt1).
      pose proof (table_step_set_pending (counts b1) offset Hinv1) as Hst2.
      assert (Hpg : page_of (counts b1) offset = cell_page bmc).
      { rewrite Hcell1. unfold cell_for.
        destruct (bp_hijacked _); reflexivity. }
      destruct (bitmap_set_pending_cell (counts b1) offset bmc Hok1 Hpg)
        as (Hok2 & Hrd2 & Hpe2 & _).
      destruct (bitmap_set_pending_fields (counts b1) offset)
        as (Hp2 & _ & Hcs2 & _).
      destruct (found_frame _ (bitmap_set_pending (counts b1) offset) _ _ Hf1
                  (bitmap_set_pending_inv _ _ Hinv1) Hok2 Hp2 Hcs2)
        as (Hf2 & Hbl2).
      cbn [counts set_allclean set_counts allclean storage].
      split; [reflexivity|].
      assert (Hcounts : counts (set_allclean
                (set_counts b1 (bitmap_set_pending (counts b1) offset)) false)
              = bitmap_set_pending (counts b1) offset) by reflexivity.
      rewrite ?Hcounts.
      split; [exact Hf2|]. split; [rewrite Hrd2; exact Hrd1|]. split.
      { eapply table_step_ext; [|exact (table_step_trans _ _ _ _ _ Hst1 Hst2)].
        intros bo y. reflexivity. }
      split; [congruence|]. split; [reflexivity|]. split; [|reflexivity].
      intros _. unfold pending_at.
      replace (page_of (bitmap_set_pending (counts b1) offset) offset)
        with (cell_page bmc); [exact Hpe2|].
      rewrite <- Hpg. unfold page_of. rewrite Hcs2. reflexivity.
    + split; [reflexivity|]. split; [exact Hf1|]. split; [exact Hrd1|].
      split; [exact Hst1|]. split; [exact Hbl1|]. split; [reflexivity|].
      split; [discriminate|reflexivity].
Qed.

(** The chunk of [offset] has its counter, or reads as 0 and is left
    alone by a lookup without [create]. *)
Lemma lookup_cases b offset :
  counts_inv (counts b) = true -> 0 <= offset ->
  (exists bmc, found (counts b) offset bmc
               /\ counter_at (counts b) offset = read_counter (counts b) bmc)
  \/ (gc_bmc (get_counter b offset false) = None
      /\ counter_at (counts b) offset = 0).
Proof.
  intros Hinv Hoff.
  destruct (get_counter_nocreate b offset) as (_ & _ & Hbmc).
  destruct (gc_bmc (bitmap_get_counter (counts b) offset false [])) as [bmc|]
    eqn:E.
  - left. exists bmc.
    destruct (get_counter_found (counts b) offset false [] bmc Hinv Hoff E)
      as (Hf & _).
    rewrite (proj1 (bitmap_get_counter_nocreate (counts b) offset [])) in Hf.
    split; [exact Hf|apply found_counter_at; exact Hf].
  - right. split; [rewrite Hbmc; reflexivity|].
    unfold counter_at. rewrite E. reflexivity.
Qed.

Lemma counter_at_others c c' bmc v x o :
  counts_inv c = true -> read_counter c bmc = v ->
  table_step (put bmc x) c c' -> 0 <= o ->
  counter_at c' o = counter_at c o
  \/ (counter_at c o = v /\ counter_at c' o = x).
Proof.
  intros Hinv Hv Hst Ho.
  destruct (table_step_counter_at c c' bmc x o Hinv Hst Ho)
    as (_ & [(Hf & Hx)|He] & _).
  - right. split; [rewrite (found_counter_at _ _ _ Hf); exact Hv|exact Hx].
  - left. exact He.
Qed.

(** After stores that put [x] into the counter of [offset]: the sectors
    that have this counter read [x], every other sector reads as
    before. *)
Lemma table_step_frame c c' bmc x offset :
  counts_inv c = true -> found c offset bmc ->
  table_step (put bmc x) c c' ->
  (forall o, 0 <= o -> same_counter c o offset -> counter_at c' o = x)
  /\ (forall o, 0 <= o -> ~ same_counter c o offset ->
        counter_at c' o = counter_at c o).
Proof.
  intros Hinv Hf Hst. split.
  - intros o Ho (bo & Hfo & Hfp).
    assert (bo = bmc) as ->.
    { destruct Hf as (_ & _ & -> & _). destruct Hfp as (_ & _ & -> & _).
      reflexivity. }
    destruct (table_step_counter_at c c' bmc x o Hinv Hst Ho) as (Hx & _).
    apply Hx. exact Hfo.
  - intros o Ho Hns.
    destruct (table_step_counter_at c c' bmc x o Hinv Hst Ho)
      as (_ & [(Hfo & _)|E] & _); [|exact E].
    exfalso. apply Hns. exists bmc. split; assumption.
Qed.

(** X9.  [__bitmap_start_sync] returns 1 exactly when the counter of the
    chunk has RESYNC or NEEDED set.  When NEEDED is set, RESYNC is not and
    the array is not degraded, it moves the mark from NEEDED to RESYNC and
    keeps the count; in every other case the counter stays as it is.
    The sectors that have the same counter as [offset] read the new
    word, every sector that does not share it keeps its counter,
    [*blocks] is the rest of the counter's span, and neither the image
    nor [allclean] changes. *)
Theorem start_sync_marks b offset degraded :
  counts_inv (counts b) = true -> 0 <= offset ->
  let v := counter_at (counts b) offset in
  let res := __bitmap_start_sync b offset degraded in
  let x := if (RESYNC v =? 0) && negb (NEEDED v =? 0) && negb degraded
           then RESYNC_MASK + COUNTER v else v in
  snd (fst res) = (if (RESYNC v =? 0) && (NEEDED v =? 0) then 0 else 1)
  /\ snd res = blocks_at (counts b) offset
  /\ counter_at (counts (fst (fst res))) offset = x
  /\ (forall o, 0 <= o -> same_counter (counts b) o offset ->
        counter_at (counts (fst (fst res))) o = x)
  /\ (forall o, 0 <= o -> ~ same_counter (counts b) o offset ->
        counter_at (counts (fst (fst res))) o = counter_at (counts b) o)
  /\ counts_inv (counts (fst (fst res))) = true
  /\ storage (fst (fst res)) = storage b
  /\ allclean (fst (fst res)) = allclean b.
Proof.
  intros Hinv Hoff v res x.
  destruct (lookup_cases b offset Hinv Hoff) as [(bmc & Hf & Hv)|(Hnone & Hv)].
  - destruct (start_sync_found b offset degraded bmc Hf)
      as (Hbl & Hrv & Hb & Hf' & Hrd & Hst & _).
    fold res in Hbl, Hrv, Hb, Hf', Hrd, Hst.
    rewrite <- Hv in Hrv, Hrd, Hst. fold v in Hrv, Hrd, Hst. fold x in Hrd, Hst.
    destruct (table_step_frame _ _ bmc x offset Hinv Hf Hst) as (Hin & Hout).
    split; [exact Hrv|]. split; [exact Hbl|].
    split; [rewrite (found_counter_at _ _ _ Hf'); exact Hrd|].
    split; [exact Hin|]. split; [exact Hout|].
    split; [exact (proj1 Hf')|]. rewrite Hb. split; reflexivity.
  - assert (Hres : res = (b, 0, blocks_at (counts b) offset)).
    { unfold res, __bitmap_start_sync.
      destruct (get_counter_nocreate b offset) as (Hb0 & Hbl & _).
      rewrite Hnone, Hb0, Hbl. reflexivity. }
    assert (Hx : x = v).
    { unfold x, v. rewrite Hv. reflexivity. }
    rewrite Hres, Hx. cbn [fst snd]. unfold v. rewrite Hv.
    split; [reflexivity|]. split; [reflexivity|]. split; [reflexivity|].
    split; [|repeat split; auto].
    intros o Ho (bo & _ & Hfp). exfalso.
    pose proof (found_get_counter _ _ false (kz_script b) _ Hfp) as Hg.
    unfold get_counter in Hnone. rewrite Hg in Hnone. discriminate.
Qed.

Lemma start_sync_marks_witness :
  snd (fst (__bitmap_start_sync ex_needed 0 false)) = 1
  /\ counter_at
       (counts (fst (fst (__bitmap_start_sync ex_needed 0 false)))) 0
     = RESYNC_MASK + 2.
Proof.
  destruct (start_sync_marks ex_needed 0 false ltac:(reflexivity) ltac:(lia))
    as (Hrv & _ & Hx & _).
  split; [exact Hrv|exact Hx].
Defined.

(** X10.  [bitmap_end_sync] changes a counter only when RESYNC is set: it
    clears RESYNC, and sets NEEDED when the sync was aborted and NEEDED was
    clear.  When it does not set NEEDED and the counter is then 2 or
    less, the page is flagged pending and [allclean] is cleared, so that
    the daemon comes to clean the bit.  The sectors that have the same
    counter as [offset] read the new word, every sector that does not
    share it keeps its counter, and the image is not touched. *)
Theorem end_sync_marks b offset aborted :
  counts_inv (counts b) = true -> 0 <= offset ->
  let v := counter_at (counts b) offset in
  let res := bitmap_end_sync b offset aborted in
  let x := if RESYNC v =? 0 then v
           else if (NEEDED v =? 0) && aborted then NEEDED_MASK + COUNTER v
                else NEEDED v + COUNTER v in
  let flagged := negb (RESYNC v =? 0) && negb ((NEEDED v =? 0) && aborted)
                 && (NEEDED v + COUNTER v <=? 2) in
  snd res = blocks_at (counts b) offset
  /\ counter_at (counts (fst res)) offset = x
  /\ (forall o, 0 <= o -> same_counter (counts b) o offset ->
        counter_at (counts (fst res)) o = x)
  /\ (forall o, 0 <= o -> ~ same_counter (counts b) o offset ->
        counter_at (counts (fst res)) o = counter_at (counts b) o)
  /\ allclean (fst res) = (if flagged then false else allclean b)
  /\ (flagged = true -> pending_at (counts (fst res)) offset = true)
  /\ counts_inv (counts (fst res)) = true
  /\ storage (fst res) = storage b.
Proof.
  intros Hinv Hoff v res x flagged.
  destruct (lookup_cases b offset Hinv Hoff) as [(bmc & Hf & Hv)|(Hnone & Hv)].
  - destruct (end_sync_found b offset aborted bmc Hf)
      as (Hbl & Hf' & Hrd & Hst & _ & Hac & Hpe & Hsto).
    fold res in Hbl, Hf', Hrd, Hst, Hac, Hpe, Hsto.
    rewrite <- Hv in Hrd, Hst, Hac, Hpe.
    fold v in Hrd, Hst, Hac, Hpe. fold x in Hrd, Hst. fold flagged in Hac, Hpe.
    destruct (table_step_frame _ _ bmc x offset Hinv Hf Hst) as (Hin & Hout).
    split; [exact Hbl|].
    split; [rewrite (found_counter_at _ _ _ Hf'); exact Hrd|].
    split; [exact Hin|]. split; [exact Hout|].
    split; [exact Hac|]. split; [exact Hpe|].
    split; [exact (proj1 Hf')|exact Hsto].
  - assert (Hres : res = (b, blocks_at (counts b) offset)).
    { unfold res, bitmap_end_sync.
      destruct (get_counter_nocreate b offset) as (Hb0 & Hbl & _).
      rewrite Hnone, Hb0, Hbl. reflexivity. }
    assert (Hx : x = v /\ flagged = false).
    { unfold x, flagged, v. rewrite Hv. split; reflexivity. }
    destruct Hx as (Hx & Hfl).
    rewrite Hres, Hx, Hfl. cbn [fst snd]. unfold v. rewrite Hv.
    split; [reflexivity|]. split; [reflexivity|].
    split; [|repeat split; auto; discriminate].
    intros o Ho (bo & _ & Hfp). exfalso.
    pose proof (found_get_counter _ _ false (kz_script b) _ Hfp) as Hg.
    unfold get_counter in Hnone. rewrite Hg in Hnone. discriminate.
Qed.

Lemma end_sync_marks_witness :
  counter_at
    (counts (fst (bitmap_end_sync
                    (fst (fst (__bitmap_start_sync ex_needed 0 false)))
                    0 false))) 0 = 2
  /\ allclean (fst (bitmap_end_sync
                      (fst (fst (__bitmap_start_sync ex_needed 0 false)))
                      0 false)) = false.
Proof.
  destruct (end_sync_marks (fst (fst (__bitmap_start_sync ex_needed 0 false)))
              0 false ltac:(reflexivity) ltac:(lia))
    as (_ & Hx & _ & _ & Hac & _).
  split; [exact Hx|exact Hac].
Defined.

(** X11.  A resync of a chunk marked NEEDED, started on an array that is
    not degraded: [__bitmap_start_sync] returns 1 and leaves the counter
    with RESYNC set and NEEDED clear.  If the sync is then aborted,
    [bitmap_end_sync] puts every counter back as it was before the start;
    if it completes, the counter is left with its count alone, both marks
    clear. *)
Theorem resync_round_trip b offset :
  counts_inv (counts b) = true -> 0 <= offset ->
  RESYNC (counter_at (counts b) offset) = 0 ->
  NEEDED (counter_at (counts b) offset) <> 0 ->
  let v := counter_at (counts b) offset in
  let b1 := fst (fst (__bitmap_start_sync b offset false)) in
  snd (fst (__bitmap_start_sync b offset false)) = 1
  /\ RESYNC (counter_at (counts b1) offset) = RESYNC_MASK
  /\ NEEDED (counter_at (counts b1) offset) = 0
  /\ COUNTER (counter_at (counts b1) offset) = COUNTER v
  /\ (forall o, 0 <= o ->
        counter_at (counts (fst (bitmap_end_sync b1 offset true))) o
        = counter_at (counts b) o)
  /\ allclean (fst (bitmap_end_sync b1 offset true)) = allclean b
  /\ counter_at (counts (fst (bitmap_end_sync b1 offset false))) offset
     = COUNTER v.
Proof.
  intros Hinv Hoff Hr0 Hn1 v b1.
  destruct (lookup_cases b offset Hinv Hoff) as [(bmc & Hf & Hv)|(_ & Hv)].
  2:{ rewrite Hv in Hn1. contradiction Hn1. reflexivity. }
  fold v in Hr0, Hn1, Hv.
  assert (Hvr : 0 <= v < 65536).
  { rewrite Hv, <- read_counter_u16. apply u16_range. }
  destruct (mark_words v Hvr) as (_ & _ & _ & _ & Hsum & Hn & _ & Hc).
  destruct Hn as [Hn|Hn]; [contradiction|].
  assert (Hc' : 0 <= COUNTER v < 16384)
    by (change RESYNC_MASK with 16384 in Hc; exact Hc).
  destruct (start_sync_found b offset false bmc Hf)
    as (_ & Hrv & Hb & Hf1 & Hrd1 & Hst1 & _).
  fold b1 in Hb, Hf1, Hrd1, Hst1. rewrite <- Hv in Hrv, Hrd1, Hst1.
  rewrite Hr0, Hn in Hrv, Hrd1, Hst1.
  change ((0 =? 0) && (NEEDED_MASK =? 0)) with false in Hrv.
  change ((0 =? 0) && negb (NEEDED_MASK =? 0) && negb false) with true
    in Hrd1, Hst1.
  cbv iota in Hrv, Hrd1, Hst1.
  destruct (fields_of (COUNTER v) 0 RESYNC_MASK Hc' ltac:(left; reflexivity)
              ltac:(right; reflexivity)) as (HN1 & HR1 & HC1 & _).
  rewrite Z.add_0_l in HN1, HR1, HC1.
  pose proof (found_counter_at _ _ _ Hf1) as Hat1. rewrite Hrd1 in Hat1.
  split; [exact Hrv|]. rewrite Hat1.
  split; [exact HR1|]. split; [exact HN1|]. split; [exact HC1|].
  destruct (end_sync_found b1 offset true bmc Hf1)
    as (_ & _ & _ & Hst2 & _ & Hac2 & _).
  destruct (end_sync_found b1 offset false bmc Hf1)
    as (_ & Hf3 & Hrd3 & _).
  rewrite Hrd1 in Hst2, Hac2, Hrd3. rewrite HN1, HR1, HC1 in Hst2, Hac2, Hrd3.
  change (RESYNC_MASK =? 0) with false in Hst2, Hac2, Hrd3.
  change ((0 =? 0) && true) with true in Hst2, Hac2.
  change ((0 =? 0) && false) with false in Hrd3.
  cbn [negb andb] in Hac2. cbv iota in Hst2, Hac2, Hrd3.
  rewrite Z.add_0_l in Hrd3.
  split; [|split].
  - intros o Ho.
    assert (Hst : table_step (put bmc v) (counts b)
                    (counts (fst (bitmap_end_sync b1 offset true)))).
    { replace v with (NEEDED_MASK + COUNTER v) by lia.
      eapply table_step_ext; [|exact (table_step_trans _ _ _ _ _ Hst1 Hst2)].
      intros bo y. apply put_put. }
    destruct (counter_at_others _ _ bmc v v o Hinv (eq_sym Hv) Hst Ho)
      as [E|(E1 & E2)]; congruence.
  - rewrite Hac2, Hb. reflexivity.
  - rewrite (found_counter_at _ _ _ Hf3). exact Hrd3.
Qed.

Lemma resync_round_trip_witness :
  counter_at
    (counts (fst (bitmap_end_sync
                    (fst (fst (__bitmap_start_sync ex_needed 0 false)))
                    0 true))) 0
  = counter_at (counts ex_needed) 0.
Proof.
  destruct (resync_round_trip ex_needed 0 ltac:(reflexivity) ltac:(lia)
              ltac:(reflexivity) ltac:(vm_compute; discriminate))
    as (_ & _ & _ & _ & Hback & _).
  exact (Hback 0 ltac:(lia)).
Defined.

(** ** The resync interface *)

(** One pass of [bitmap_start_sync]. *)
Lemma start_sync_pass b offset degraded :
  counts_inv (counts b) = true -> 0 <= offset ->
  let v := counter_at (counts b) offset in
  let res := __bitmap_start_sync b offset degraded in
  snd res = blocks_at (counts b) offset
  /\ (snd (fst res) = 0 /\ fst (fst res) = b /\ in_sync v
      \/ snd (fst res) = 1 /\ ~ in_sync v)
  /\ counts_inv (counts (fst (fst res))) = true
  /\ chunkshift (counts (fst (fst res))) = chunkshift (counts b).
Proof.
  intros Hinv Hoff v res. unfold in_sync.
  destruct (lookup_cases b offset Hinv Hoff) as [(bmc & Hf & Hv)|(Hnone & Hv)].
  - destruct (start_sync_found b offset degraded bmc Hf)
      as (Hbl & Hrv & Hb & Hf' & _ & Hst & _).
    fold res in Hbl, Hrv, Hb, Hf', Hst. rewrite <- Hv in Hrv, Hst.
    fold v in Hrv, Hst.
    split; [exact Hbl|]. split.
    + destruct (Z.eqb_spec (RESYNC v) 0) as [Hr0|Hr1];
        destruct (Z.eqb_spec (NEEDED v) 0) as [Hn0|Hn1];
        cbn [andb negb] in Hrv, Hst;
        try (right; split; [exact Hrv|intros (? & ?); contradiction]).
      left. split; [exact Hrv|]. split; [|split; assumption].
      (* neither mark: nothing is stored *)
      unfold res, __bitmap_start_sync.
      destruct (after_get_counter_found b offset false bmc Hf) as (Hr & Hb0).
      rewrite Hb0, Hr. cbn [gc_bmc gc_blocks].
      rewrite <- Hv. fold v. rewrite Hr0, Hn0. reflexivity.
    + split; [exact (proj1 Hf')|].
      destruct Hst as (_ & _ & Hcs & _). exact Hcs.
  - assert (Hres : res = (b, 0, blocks_at (counts b) offset)).
    { unfold res, __bitmap_start_sync.
      destruct (get_counter_nocreate b offset) as (Hb0 & Hbl & _).
      rewrite Hnone, Hb0, Hbl. reflexivity. }
    rewrite Hres. cbn [fst snd]. unfold v. rewrite Hv.
    split; [reflexivity|]. split; [left; repeat split|]. split; auto.
Qed.

Lemma bitmap_start_sync_loop_ok degraded fuel : forall b offset rv blocks,
  counts_inv (counts b) = true -> 0 <= chunkshift (counts b) <= 52 ->
  0 <= offset < 2 ^ 63 + blocks -> 0 <= blocks ->
  (Z.to_nat (8 - blocks) <= fuel)%nat -> (rv = 0 \/ rv = 1) ->
  exists b' rv' blocks',
    bitmap_start_sync_loop fuel b offset degraded rv blocks
    = Some (b', rv', blocks')
    /\ 8 <= blocks' /\ blocks <= blocks' <= Z.max blocks (7 + 2 ^ 62)
    /\ (rv' = 0 \/ rv' = 1)
    /\ (rv' = 0 ->
        rv = 0 /\ b' = b
        /\ forall o, offset <= o < offset + (blocks' - blocks) ->
             in_sync (counter_at (counts b) o)).
Proof.
  induction fuel as [|fuel IH]; intros b offset rv blocks Hinv Hcs Hoff Hbl Hf Hrv;
    cbn [bitmap_start_sync_loop]; change (Z.shiftr PAGE_SIZE 9) with 8.
  - destruct (Z.ltb_spec blocks 8) as [Hlt|Hge]; [lia|].
    exists b, rv, blocks. split; [reflexivity|]. split; [lia|].
    split; [lia|]. split; [exact Hrv|]. intros ->. split; [reflexivity|].
    split; [reflexivity|]. intros o Ho. lia.
  - destruct (Z.ltb_spec blocks 8) as [Hlt|Hge].
    2:{ exists b, rv, blocks. split; [reflexivity|]. split; [lia|].
        split; [lia|]. split; [exact Hrv|]. intros ->. split; [reflexivity|].
        split; [reflexivity|]. intros o Ho. lia. }
    destruct (start_sync_pass b offset degraded Hinv ltac:(lia))
      as (Hb1 & Hcase & Hinv1 & Hcs1).
    destruct (__bitmap_start_sync b offset degraded) as [[b1 rv1] blocks1].
    cbn [fst snd] in Hb1, Hcase, Hinv1, Hcs1.
    pose proof (blocks_at_bound (counts b) offset Hcs ltac:(lia)) as Hbb.
    rewrite <- Hb1 in Hbb.
    assert (Hp62 : 2 ^ 62 = 4611686018427387904) by reflexivity.
    assert (Hp63 : 2 ^ 63 = 9223372036854775808) by reflexivity.
    assert (Hp64 : 2 ^ 64 = 18446744073709551616) by reflexivity.
    rewrite (sector_t_small (offset + blocks1)) by lia.
    rewrite (sector_t_small (blocks + blocks1)) by lia.
    assert (Hrv1 : rv1 = 0 \/ rv1 = 1) by (destruct Hcase as [(? & _)|(? & _)]; auto).
    assert (Hlor : Z.lor rv rv1 = 0 \/ Z.lor rv rv1 = 1).
    { destruct Hrv as [-> | ->], Hrv1 as [-> | ->]; auto. }
    destruct (Z.ltb_spec (blocks + blocks1) 8) as [Hlt2|Hge2].
    + destruct (IH b1 (offset + blocks1) (Z.lor rv rv1) (blocks + blocks1)
                  Hinv1 ltac:(lia) ltac:(lia) ltac:(lia) ltac:(lia) Hlor)
        as (b' & rv' & blocks' & Hrun & H8 & Hrange & Hrv' & Hclean).
      exists b', rv', blocks'. split; [exact Hrun|]. split; [exact H8|].
      split; [lia|]. split; [exact Hrv'|]. intros H0.
      destruct (Hclean H0) as (Hl0 & Hbe & Hall).
      assert (rv = 0 /\ rv1 = 0) as (-> & ->).
      { destruct Hrv as [-> | ->], Hrv1 as [-> | ->]; cbn in Hl0;
          first [discriminate Hl0|split; reflexivity]. }
      destruct Hcase as [(_ & -> & Hsync)|(Hone & _)]; [|discriminate].
      split; [reflexivity|]. split; [exact Hbe|]. intros o Ho.
      destruct (Z.lt_ge_cases o (offset + blocks1)) as [Hin|Hout].
      * rewrite (counter_at_span (counts b) offset o Hinv ltac:(lia) ltac:(lia)
                   ltac:(lia) ltac:(lia)). exact Hsync.
      * apply Hall. lia.
    + (* the next test ends the loop *)
      assert (Hrun : bitmap_start_sync_loop fuel b1 (offset + blocks1) degraded
                       (Z.lor rv rv1) (blocks + blocks1)
                     = Some (b1, Z.lor rv rv1, blocks + blocks1)).
      { destruct fuel; cbn [bitmap_start_sync_loop];
          change (Z.shiftr PAGE_SIZE 9) with 8;
          destruct (Z.ltb_spec (blocks + blocks1) 8); try lia; reflexivity. }
      exists b1, (Z.lor rv rv1), (blocks + blocks1).
      split; [exact Hrun|]. split; [lia|]. split; [lia|].
      split; [exact Hlor|]. intros Hl0.
      assert (rv = 0 /\ rv1 = 0) as (-> & ->).
      { destruct Hrv as [-> | ->], Hrv1 as [-> | ->]; cbn in Hl0;
          first [discriminate Hl0|split; reflexivity]. }
      destruct Hcase as [(_ & -> & Hsync)|(Hone & _)]; [|discriminate].
      split; [reflexivity|]. split; [reflexivity|]. intros o Ho.
      rewrite (counter_at_span (counts b) offset o Hinv ltac:(lia) ltac:(lia)
                 ltac:(lia) ltac:(lia)). exact Hsync.
Qed.

(** X12.  [bitmap_start_sync] ends within 8 passes and reports at least
    [PAGE_SIZE >> 9] = 8 sectors.  Its result is 0 or 1, and when it is 0
    the bitmap is unchanged and no sector of the range reported,
    [offset .. offset + *blocks), has NEEDED or RESYNC set in its counter:
    the resync may skip the range. *)
Theorem bitmap_start_sync_clean b offset degraded fuel :
  counts_inv (counts b) = true -> 0 <= chunkshift (counts b) <= 52 ->
  0 <= offset < 2 ^ 63 -> (8 <= fuel)%nat ->
  exists b' rv blocks,
    bitmap_start_sync fuel b offset degraded = Some (b', rv, blocks)
    /\ 8 <= blocks <= 7 + 2 ^ 62
    /\ (rv = 0 \/ rv = 1)
    /\ (rv = 0 ->
        b' = b
        /\ forall o, offset <= o < offset + blocks ->
             in_sync (counter_at (counts b) o)).
Proof.
  intros Hinv Hcs Hoff Hfuel. unfold bitmap_start_sync.
  destruct (bitmap_start_sync_loop_ok degraded fuel b offset 0 0 Hinv Hcs
              ltac:(lia) ltac:(lia) ltac:(lia) ltac:(left; reflexivity))
    as (b' & rv & blocks & Hrun & H8 & Hrange & Hrv & Hclean).
  exists b', rv, blocks. split; [exact Hrun|]. split; [lia|].
  split; [exact Hrv|]. intros H0. destruct (Hclean H0) as (_ & Hb & Hall).
  split; [exact Hb|]. intros o Ho. apply Hall. lia.
Qed.

Lemma bitmap_start_sync_clean_witness :
  exists b' rv blocks,
    bitmap_start_sync 8 (ex_bitmap [] []) 0 false = Some (b', rv, blocks)
    /\ 8 <= blocks <= 7 + 2 ^ 62
    /\ (rv = 0 \/ rv = 1)
    /\ (rv = 0 ->
        b' = ex_bitmap [] []
        /\ forall o, 0 <= o < 0 + blocks ->
             in_sync (counter_at (counts (ex_bitmap [] [])) o)).
Proof.
  exact (bitmap_start_sync_clean (ex_bitmap [] []) 0 false 8
           ltac:(reflexivity) ltac:(vm_compute; intuition congruence)
           ltac:(vm_compute; intuition congruence) ltac:(lia)).
Defined.

(** The word that [bitmap_end_sync] leaves when the sync was not
    aborted. *)
Lemma cleared_word v :
  0 <= v < 65536 ->
  let x := if RESYNC v =? 0 then v else NEEDED v + COUNTER v in
  NEEDED x = NEEDED v /\ COUNTER x = COUNTER v /\ RESYNC x = 0.
Proof.
  intros Hv x. subst x.
  destruct (mark_words v Hv) as (_ & _ & _ & _ & _ & Hn & _ & Hc).
  destruct (Z.eqb_spec (RESYNC v) 0) as [Hr0|Hr1]; [auto|].
  destruct (fields_of (COUNTER v) (NEEDED v) 0
              ltac:(change RESYNC_MASK with 16384 in Hc; lia) Hn
              ltac:(left; reflexivity)) as (HN & HR & HC & _).
  rewrite Z.add_0_r in HN, HR, HC. auto.
Qed.

(** One pass of [bitmap_close_sync]. *)
Lemma end_sync_pass b offset :
  counts_inv (counts b) = true -> 0 <= chunkshift (counts b) <= 52 ->
  0 <= offset ->
  let res := bitmap_end_sync b offset false in
  snd res = blocks_at (counts b) offset
  /\ counts_inv (counts (fst res)) = true
  /\ chunkshift (counts (fst res)) = chunkshift (counts b)
  /\ storage (fst res) = storage b
  /\ (forall o, offset <= o < offset + snd res ->
        RESYNC (counter_at (counts (fst res)) o) = 0)
  /\ (forall o, 0 <= o ->
        NEEDED (counter_at (counts (fst res)) o)
        = NEEDED (counter_at (counts b) o)
        /\ COUNTER (counter_at (counts (fst res)) o)
           = COUNTER (counter_at (counts b) o)
        /\ (RESYNC (counter_at (counts b) o) = 0 ->
            RESYNC (counter_at (counts (fst res)) o) = 0)).
Proof.
  intros Hinv Hcs Hoff res.
  destruct (lookup_cases b offset Hinv Hoff) as [(bmc & Hf & Hv)|(Hnone & Hv)].
  - destruct (end_sync_found b offset false bmc Hf)
      as (Hbl & Hf' & Hrd & Hst & Hbl' & _ & _ & Hsto).
    fold res in Hbl, Hf', Hrd, Hst, Hbl', Hsto.
    rewrite andb_false_r in Hrd, Hst.
    set (v := read_counter (counts b) bmc) in *.
    assert (Hvr : 0 <= v < 65536).
    { unfold v. rewrite <- read_counter_u16. apply u16_range. }
    destruct (cleared_word v Hvr) as (HN & HC & HR).
    set (x := if RESYNC v =? 0 then v else NEEDED v + COUNTER v) in *.
    pose proof Hst as (Hinv' & _ & Hcs' & _).
    split; [exact Hbl|]. split; [exact Hinv'|]. split; [exact Hcs'|].
    split; [exact Hsto|]. split.
    + intros o Ho. rewrite Hbl, <- Hbl' in Ho.
      rewrite (counter_at_span (counts (fst res)) offset o Hinv'
                 ltac:(lia) ltac:(lia) Hoff Ho).
      rewrite (found_counter_at _ _ _ Hf'), Hrd. exact HR.
    + intros o Ho.
      destruct (counter_at_others _ _ bmc v x o Hinv eq_refl Hst Ho)
        as [E|(E1 & E2)].
      * rewrite E. auto.
      * rewrite E1, E2. split; [exact HN|]. split; [exact HC|]. intros _.
        exact HR.
  - assert (Hres : res = (b, blocks_at (counts b) offset)).
    { unfold res, bitmap_end_sync.
      destruct (get_counter_nocreate b offset) as (Hb0 & Hbl & _).
      rewrite Hnone, Hb0, Hbl. reflexivity. }
    rewrite Hres. cbn [fst snd].
    split; [reflexivity|]. split; [exact Hinv|]. split; [reflexivity|].
    split; [reflexivity|]. split; [|auto].
    intros o Ho.
    rewrite (counter_at_span (counts b) offset o Hinv ltac:(lia) ltac:(lia)
               Hoff Ho), Hv. reflexivity.
Qed.

Lemma bitmap_close_sync_loop_ok max fuel : forall b sector,
  counts_inv (counts b) = true -> 0 <= chunkshift (counts b) <= 52 ->
  0 <= sector -> max <= 2 ^ 63 ->
  (Z.to_nat (max - sector) <= fuel)%nat ->
  (forall o, 0 <= o < sector -> RESYNC (counter_at (counts b) o) = 0) ->
  exists b',
    bitmap_close_sync_loop fuel b sector max = Some b'
    /\ counts_inv (counts b') = true
    /\ storage b' = storage b
    /\ (forall o, 0 <= o < max -> RESYNC (counter_at (counts b') o) = 0)
    /\ (forall o, 0 <= o ->
          NEEDED (counter_at (counts b') o) = NEEDED (counter_at (counts b) o)
          /\ COUNTER (counter_at (counts b') o)
             = COUNTER (counter_at (counts b) o)
          /\ (RESYNC (counter_at (counts b) o) = 0 ->
              RESYNC (counter_at (counts b') o) = 0)).
Proof.
  induction fuel as [|fuel IH]; intros b sector Hinv Hcs Hs Hmax Hf Hdone;
    cbn [bitmap_close_sync_loop].
  - destruct (Z.ltb_spec sector max) as [Hlt|Hge]; [lia|].
    exists b. split; [reflexivity|]. split; [exact Hinv|].
    split; [reflexivity|]. split; [intros o Ho; apply Hdone; lia|auto].
  - destruct (Z.ltb_spec sector max) as [Hlt|Hge].
    2:{ exists b. split; [reflexivity|]. split; [exact Hinv|].
        split; [reflexivity|]. split; [intros o Ho; apply Hdone; lia|auto]. }
    destruct (end_sync_pass b sector Hinv Hcs Hs)
      as (Hbl & Hinv1 & Hcs1 & Hsto1 & Hspan & Hkeep).
    pose proof (blocks_at_bound (counts b) sector Hcs Hs) as Hbb.
    rewrite <- Hbl in Hbb.
    destruct (bitmap_end_sync b sector false) as [b1 blocks].
    cbn [fst snd] in *.
    assert (Hp62 : 2 ^ 62 = 4611686018427387904) by reflexivity.
    assert (Hp63 : 2 ^ 63 = 9223372036854775808) by reflexivity.
    assert (Hp64 : 2 ^ 64 = 18446744073709551616) by reflexivity.
    rewrite (sector_t_small (sector + blocks)) by lia.
    destruct (IH b1 (sector + blocks) Hinv1 ltac:(lia) ltac:(lia) Hmax
                ltac:(lia)) as (b' & Hrun & Hinv' & Hsto' & Hclear & Hkeep').
    { intros o Ho. destruct (Z.lt_ge_cases o sector) as [Hlo|Hhi].
      - apply (Hkeep o ltac:(lia)). apply Hdone. lia.
      - apply Hspan. lia. }
    exists b'. split; [exact Hrun|]. split; [exact Hinv'|].
    split; [congruence|]. split; [exact Hclear|].
    intros o Ho. destruct (Hkeep o Ho) as (K1 & K2 & K3).
    destruct (Hkeep' o Ho) as (K1' & K2' & K3').
    split; [congruence|]. split; [congruence|]. auto.
Qed.

(** X13.  [bitmap_close_sync] ends, and afterwards no sector below
    [resync_max_sectors] has RESYNC set in its counter.  It changes no
    NEEDED mark and no count, sets RESYNC nowhere, and does not touch the
    image. *)
Theorem bitmap_close_sync_clears b resync_max_sectors fuel :
  counts_inv (counts b) = true -> 0 <= chunkshift (counts b) <= 52 ->
  resync_max_sectors <= 2 ^ 63 ->
  (Z.to_nat resync_max_sectors <= fuel)%nat ->
  exists b',
    bitmap_close_sync fuel b resync_max_sectors = Some b'
    /\ storage b' = storage b
    /\ (forall o, 0 <= o < resync_max_sectors ->
          RESYNC (counter_at (counts b') o) = 0)
    /\ (forall o, 0 <= o ->
          NEEDED (counter_at (counts b') o) = NEEDED (counter_at (counts b) o)
          /\ COUNTER (counter_at (counts b') o)
             = COUNTER (counter_at (counts b) o)
          /\ (RESYNC (counter_at (counts b) o) = 0 ->
              RESYNC (counter_at (counts b') o) = 0)).
Proof.
  intros Hinv Hcs Hmax Hfuel. unfold bitmap_close_sync.
  destruct (bitmap_close_sync_loop_ok resync_max_sectors fuel b 0 Hinv Hcs
              ltac:(lia) Hmax ltac:(lia) ltac:(intros o Ho; lia))
    as (b' & Hrun & _ & Hsto & Hclear & Hkeep).
  exists b'. auto.
Qed.

Lemma bitmap_close_sync_clears_witness :
  exists b',
    bitmap_close_sync 128
      (fst (fst (__bitmap_start_sync ex_needed 0 false))) 128 = Some b'
    /\ RESYNC (counter_at (counts b') 0) = 0
    /\ COUNTER (counter_at (counts b') 0) = 2.
Proof.
  destruct (bitmap_close_sync_clears
              (fst (fst (__bitmap_start_sync ex_needed 0 false))) 128 128
              ltac:(reflexivity) ltac:(vm_compute; intuition congruence)
              ltac:(vm_compute; intuition congruence) ltac:(lia))
    as (b' & Hrun & _ & Hclear & Hkeep).
  exists b'. split; [exact Hrun|]. split; [apply Hclear; lia|].
  destruct (Hkeep 0 ltac:(lia)) as (_ & HC & _). rewrite HC. reflexivity.
Defined.

(** ** Flushing the image: [bitmap_unplug], [bitmap_write_all] *)

Lemma image_eq_refl s : image_eq s s.
Proof. repeat split. Qed.

Lemma image_eq_of_eq s s' : s' = s -> image_eq s s'.
Proof. intros ->. apply image_eq_refl. Qed.

Lemma image_eq_trans s1 s2 s3 :
  image_eq s1 s2 -> image_eq s2 s3 -> image_eq s1 s3.
Proof.
  unfold image_eq. intros (A1 & A2 & A3 & A4 & A5) (B1 & B2 & B3 & B4 & B5).
  repeat split; congruence.
Qed.

Lemma image_write_page_with kick b k wait :
  (forall x, image_eq (storage x) (storage (kick x))) ->
  image_eq (storage b) (storage (write_page_with kick b k wait)).
Proof.
  intros Hk. unfold write_page_with.
  destruct (write_page_io_frame b k wait) as (Hs & _).
  destruct (test_flag _ _).
  - eapply image_eq_trans; [apply image_eq_of_eq; exact Hs|apply Hk].
  - apply image_eq_of_eq. exact Hs.
Qed.

Lemma image_bitmap_update_sb_with kick b :
  (forall x, image_eq (storage x) (storage (kick x))) ->
  image_eq (storage b) (storage (bitmap_update_sb_with kick b)).
Proof.
  intros Hk. unfold bitmap_update_sb_with.
  destruct (md_external (mddev b)); [apply image_eq_refl|].
  destruct (negb (sb_page (storage b))); [apply image_eq_refl|].
  match goal with
  | |- context [md_lock_super ?x] =>
      destruct (md_lock_super_frame x) as (Hs & _);
      destruct (md_lock_super x) as [ret b3]
  end.
  cbn [snd] in Hs.
  assert (H3 : image_eq (storage b) (storage b3)).
  { rewrite Hs. repeat split. }
  destruct (negb (ret =? 0)); [exact H3|].
  eapply image_eq_trans; [exact H3|apply image_write_page_with; exact Hk].
Qed.

Lemma image_bitmap_file_kick_fuel n : forall b,
  image_eq (storage b) (storage (bitmap_file_kick_fuel n b)).
Proof.
  induction n as [|n IH]; intros b; [apply image_eq_refl|].
  cbn [bitmap_file_kick_fuel].
  destruct (test_flag BITMAP_STALE (flags b)); [apply image_eq_refl|].
  eapply image_eq_trans; [|apply image_bitmap_update_sb_with; exact IH].
  repeat split.
Qed.

Lemma image_write_page b k wait :
  image_eq (storage b) (storage (write_page b k wait)).
Proof.
  apply image_write_page_with. intros x. apply image_bitmap_file_kick_fuel.
Qed.

Lemma test_page_attr_ext b b' pnum attr :
  filemap_attr (storage b') = filemap_attr (storage b) ->
  test_page_attr b' pnum attr = test_page_attr b pnum attr.
Proof. intros H. unfold test_page_attr. rewrite H. reflexivity. Qed.

Lemma attr_bit_eqb pnum attr pnum' attr' :
  0 <= attr < 4 -> 0 <= attr' < 4 ->
  (Z.shiftl pnum 2 + attr =? Z.shiftl pnum' 2 + attr')
  = (pnum =? pnum') && (attr =? attr').
Proof.
  intros Ha Ha'.
  destruct (Z.eqb_spec (Z.shiftl pnum 2 + attr) (Z.shiftl pnum' 2 + attr'))
    as [E|N].
  - destruct (attr_bit_inj _ _ _ _ Ha Ha' E) as [-> ->].
    rewrite !Z.eqb_refl. reflexivity.
  - destruct (Z.eqb_spec pnum pnum') as [->|]; [|reflexivity].
    destruct (Z.eqb_spec attr attr') as [->|]; [|reflexivity].
    contradiction.
Qed.

Lemma attr_bit_nonneg pnum attr :
  0 <= pnum -> 0 <= attr -> 0 <= Z.shiftl pnum 2 + attr.
Proof. intros Hp Ha. rewrite Z.shiftl_mul_pow2 by lia. lia. Qed.

Lemma test_clear_page_attr b pnum attr pnum' attr' :
  0 <= pnum -> 0 <= pnum' -> 0 <= attr < 4 -> 0 <= attr' < 4 ->
  test_page_attr (clear_page_attr b pnum attr) pnum' attr'
  = if (pnum =? pnum') && (attr =? attr') then false
    else test_page_attr b pnum' attr'.
Proof.
  intros Hp Hp' Ha Ha'. rewrite <- attr_bit_eqb by assumption.
  unfold test_page_attr, clear_page_attr, test_bit, clear_bit.
  cbn [storage set_storage filemap_attr set_filemap_attr].
  destruct (Z.eqb_spec (Z.shiftl pnum 2 + attr) (Z.shiftl pnum' 2 + attr'))
    as [E|N].
  - rewrite <- E. apply Z.clearbit_eq.
  - apply Z.clearbit_neq; assumption.
Qed.

Lemma test_set_page_attr b pnum attr pnum' attr' :
  0 <= pnum -> 0 <= pnum' -> 0 <= attr < 4 -> 0 <= attr' < 4 ->
  test_page_attr (set_page_attr b pnum attr) pnum' attr'
  = if (pnum =? pnum') && (attr =? attr') then true
    else test_page_attr b pnum' attr'.
Proof.
  intros Hp Hp' Ha Ha'. rewrite <- attr_bit_eqb by assumption.
  unfold test_page_attr, set_page_attr, test_bit, set_bit.
  cbn [storage set_storage filemap_attr set_filemap_attr].
  destruct (Z.eqb_spec (Z.shiftl pnum 2 + attr) (Z.shiftl pnum' 2 + attr'))
    as [E|N].
  - rewrite <- E. apply Z.setbit_eq. apply attr_bit_nonneg; lia.
  - apply Z.setbit_neq; [apply attr_bit_nonneg; lia|assumption].
Qed.

(** One page of the loop of [bitmap_unplug]. *)
Lemma unplug_page_attrs b i j a :
  0 <= i -> 0 <= j -> 0 <= a < 4 ->
  let dirty := test_page_attr b i BITMAP_PAGE_DIRTY in
  let need_write := test_page_attr b i BITMAP_PAGE_NEEDWRITE in
  let b2 := clear_page_attr (clear_page_attr b i BITMAP_PAGE_DIRTY) i
              BITMAP_PAGE_NEEDWRITE in
  let b3 := if dirty || need_write
            then write_page (clear_page_attr b2 i BITMAP_PAGE_PENDING) i false
            else b2 in
  test_page_attr (clear_page_attr b i BITMAP_PAGE_DIRTY) i
    BITMAP_PAGE_NEEDWRITE = need_write
  /\ filemap (storage b3) = filemap (storage b)
  /\ file_pages (storage b3) = file_pages (storage b)
  /\ st_file (storage b3) = st_file (storage b)
  /\ test_page_attr b3 j a
     = if i =? j then
         if (a =? BITMAP_PAGE_DIRTY) || (a =? BITMAP_PAGE_NEEDWRITE) then false
         else if (a =? BITMAP_PAGE_PENDING) && (dirty || need_write) then false
              else test_page_attr b j a
       else test_page_attr b j a.
Proof.
  intros Hi Hj Ha dirty need_write b2 b3.
  assert (HD : 0 <= BITMAP_PAGE_DIRTY < 4) by (vm_compute; intuition congruence).
  assert (HN : 0 <= BITMAP_PAGE_NEEDWRITE < 4)
    by (vm_compute; intuition congruence).
  assert (HP : 0 <= BITMAP_PAGE_PENDING < 4)
    by (vm_compute; intuition congruence).
  split.
  { rewrite test_clear_page_attr by assumption. rewrite Z.eqb_refl.
    reflexivity. }
  assert (H2 : test_page_attr b2 j a
               = if i =? j then
                   if (a =? BITMAP_PAGE_DIRTY) || (a =? BITMAP_PAGE_NEEDWRITE)
                   then false else test_page_attr b j a
                 else test_page_attr b j a).
  { unfold b2. rewrite !test_clear_page_attr by assumption.
    destruct (i =? j); cbn [andb]; [|reflexivity].
    rewrite (Z.eqb_sym BITMAP_PAGE_NEEDWRITE a), (Z.eqb_sym BITMAP_PAGE_DIRTY a).
    destruct (a =? BITMAP_PAGE_DIRTY), (a =? BITMAP_PAGE_NEEDWRITE);
      reflexivity. }
  subst b3. destruct (dirty || need_write).
  - destruct (image_write_page (clear_page_attr b2 i BITMAP_PAGE_PENDING) i false)
      as (F1 & F2 & F3 & _ & F5).
    split; [rewrite F1; reflexivity|]. split; [rewrite F3; reflexivity|].
    split; [rewrite F5; reflexivity|].
    rewrite (test_page_attr_ext _ _ j a F2).
    rewrite test_clear_page_attr by assumption. rewrite H2.
    rewrite (Z.eqb_sym BITMAP_PAGE_PENDING a), andb_true_r.
    destruct (i =? j); cbn [andb]; [|reflexivity].
    destruct (Z.eqb_spec a BITMAP_PAGE_PENDING) as [->|]; reflexivity.
  - split; [reflexivity|]. split; [reflexivity|]. split; [reflexivity|].
    rewrite H2, andb_false_r. reflexivity.
Qed.

Lemma unplug_pages_attrs n : forall b i wait,
  0 <= i -> filemap (storage b) <> None ->
  exists b1 w,
    unplug_pages n b i wait = inr (b1, w)
    /\ filemap (storage b1) = filemap (storage b)
    /\ file_pages (storage b1) = file_pages (storage b)
    /\ st_file (storage b1) = st_file (storage b)
    /\ forall j a, 0 <= j -> 0 <= a < 4 ->
         test_page_attr b1 j a
         = if (i <=? j) && (j <? i + Z.of_nat n) then
             if (a =? BITMAP_PAGE_DIRTY) || (a =? BITMAP_PAGE_NEEDWRITE)
             then false
             else if (a =? BITMAP_PAGE_PENDING)
                     && (test_page_attr b j BITMAP_PAGE_DIRTY
                         || test_page_attr b j BITMAP_PAGE_NEEDWRITE)
                  then false
                  else test_page_attr b j a
           else test_page_attr b j a.
Proof.
  induction n as [|n IH]; intros b i wait Hi Hfm.
  - exists b, wait. split; [reflexivity|]. repeat (split; [reflexivity|]).
    intros j a Hj Ha.
    destruct (Z.leb_spec i j), (Z.ltb_spec j (i + Z.of_nat 0)); cbn [andb];
      try reflexivity; lia.
  - cbn [unplug_pages].
    destruct (filemap (storage b)) as [fm|] eqn:Efm; [|contradiction].
    unfold test_and_clear_page_attr.
    pose proof (fun j a Hj Ha => unplug_page_attrs b i j a Hi Hj Ha) as Hstep.
    cbv zeta in Hstep.
    destruct (Hstep 0 0 ltac:(lia) ltac:(lia)) as (Hneed & F1 & F3 & F5 & _).
    rewrite Hneed.
    set (b3 := if test_page_attr b i BITMAP_PAGE_DIRTY
                  || test_page_attr b i BITMAP_PAGE_NEEDWRITE
               then write_page
                      (clear_page_attr
                         (clear_page_attr (clear_page_attr b i BITMAP_PAGE_DIRTY)
                            i BITMAP_PAGE_NEEDWRITE) i BITMAP_PAGE_PENDING)
                      i false
               else clear_page_attr (clear_page_attr b i BITMAP_PAGE_DIRTY) i
                      BITMAP_PAGE_NEEDWRITE) in *.
    destruct (IH b3 (i + 1) (wait || test_page_attr b i BITMAP_PAGE_DIRTY)
                ltac:(lia) ltac:(rewrite F1, Efm; discriminate))
      as (b1 & w & Hrun & G1 & G3 & G5 & Hattr).
    exists b1, w. split; [exact Hrun|]. split; [congruence|].
    split; [congruence|]. split; [congruence|].
    intros j a Hj Ha. rewrite (Hattr j a Hj Ha).
    destruct (Hstep j a Hj Ha) as (_ & _ & _ & _ & Hja).
    destruct (Hstep j BITMAP_PAGE_DIRTY Hj ltac:(vm_compute; intuition congruence))
      as (_ & _ & _ & _ & HjD).
    destruct (Hstep j BITMAP_PAGE_NEEDWRITE Hj
                ltac:(vm_compute; intuition congruence))
      as (_ & _ & _ & _ & HjN).
    fold b3 in Hja, HjD, HjN. rewrite Hja, HjD, HjN.
    destruct (Z.eqb_spec i j) as [->|Hne].
    + destruct (Z.leb_spec (j + 1) j); [lia|]. cbn [andb].
      destruct (Z.leb_spec j j); [|lia].
      destruct (Z.ltb_spec j (j + Z.of_nat (S n))); [|lia]. reflexivity.
    + destruct (Z.leb_spec (i + 1) j), (Z.leb_spec i j); try lia;
        destruct (Z.ltb_spec j (i + 1 + Z.of_nat n)),
                 (Z.ltb_spec j (i + Z.of_nat (S n))); try lia; reflexivity.
Qed.

Lemma image_wait_pending_writes b :
  storage (wait_pending_writes b) = storage b.
Proof. unfold wait_pending_writes. apply complete_writes_frame. Qed.

(** X14.  [bitmap_unplug] leaves no page of the image DIRTY or NEEDWRITE;
    a page that was either has PENDING cleared as well, every other
    attribute stays, and so do the pages beyond [file_pages].  It changes
    neither the bits of the image nor the counters.  With no image, or
    with the image STALE, it does nothing. *)
Theorem bitmap_unplug_attrs b j a :
  0 <= j -> 0 <= a < 4 -> 0 <= file_pages (storage b) ->
  (filemap (storage b) <> None -> test_flag BITMAP_STALE (flags b) = false ->
   test_page_attr (bitmap_unplug b) j a
   = (if j <? file_pages (storage b) then
        if (a =? BITMAP_PAGE_DIRTY) || (a =? BITMAP_PAGE_NEEDWRITE) then false
        else if (a =? BITMAP_PAGE_PENDING)
                && (test_page_attr b j BITMAP_PAGE_DIRTY
                    || test_page_attr b j BITMAP_PAGE_NEEDWRITE)
             then false
             else test_page_attr b j a
      else test_page_attr b j a)
   /\ filemap (storage (bitmap_unplug b)) = filemap (storage b)
   /\ file_pages (storage (bitmap_unplug b)) = file_pages (storage b)
   /\ counts (bitmap_unplug b) = counts b)
  /\ (filemap (storage b) = None \/ test_flag BITMAP_STALE (flags b) = true ->
      bitmap_unplug b = b).
Proof.
  intros Hj Ha Hfp. split.
  - intros Hfm Hst. split; [|split; [|split; [|apply counts_bitmap_unplug]]];
      unfold bitmap_unplug;
      (destruct (filemap (storage b)) as [fm|] eqn:Efm; [|contradiction]);
      rewrite Hst;
      (destruct (unplug_pages_attrs (Z.to_nat (file_pages (storage b))) b 0
                   false ltac:(lia) ltac:(rewrite Efm; discriminate))
         as (b1 & w & Hrun & G1 & G3 & G5 & Hattr));
      rewrite Hrun;
      set (b2 := if w && st_file (storage b1)
                 then wait_pending_writes b1 else b1);
      (assert (H2 : storage b2 = storage b1)
         by (unfold b2; destruct (w && st_file (storage b1));
             [apply image_wait_pending_writes|reflexivity]));
      (assert (H3 : image_eq (storage b1)
                      (storage (if test_flag BITMAP_WRITE_ERROR (flags b2)
                                then bitmap_file_kick b2 else b2)))
         by (destruct (test_flag BITMAP_WRITE_ERROR (flags b2));
             [eapply image_eq_trans;
              [apply image_eq_of_eq; exact H2
              |apply image_bitmap_file_kick_fuel]
             |apply image_eq_of_eq; exact H2]));
      destruct H3 as (K1 & K2 & K3 & _).
    + rewrite (test_page_attr_ext b1 _ j a K2), (Hattr j a Hj Ha).
      rewrite Z2Nat.id by exact Hfp. rewrite Z.add_0_l.
      destruct (Z.leb_spec 0 j); [|lia]. reflexivity.
    + rewrite K1, G1, Efm. reflexivity.
    + rewrite K3, G3. reflexivity.
  - intros [Hnone|Hst]; unfold bitmap_unplug.
    + rewrite Hnone. reflexivity.
    + destruct (filemap (storage b)); [|reflexivity]. rewrite Hst. reflexivity.
Qed.

Lemma bitmap_unplug_attrs_witness :
  test_page_attr
    (bitmap_unplug (bitmap_file_set_bit (ex_bitmap [] []) 16)) 0
    BITMAP_PAGE_DIRTY = false.
Proof.
  destruct (bitmap_unplug_attrs (bitmap_file_set_bit (ex_bitmap [] []) 16) 0
              BITMAP_PAGE_DIRTY ltac:(lia)
              ltac:(vm_compute; intuition congruence)
              ltac:(vm_compute; discriminate)) as (H & _).
  destruct (H ltac:(vm_compute; discriminate) ltac:(reflexivity)) as (Hattr & _).
  exact Hattr.
Defined.

Lemma write_all_pages_attrs n : forall b i,
  0 <= i ->
  storage (write_all_pages n b i)
  = set_filemap_attr (storage b)
      (filemap_attr (storage (write_all_pages n b i)))
  /\ counts (write_all_pages n b i) = counts b
  /\ flags (write_all_pages n b i) = flags b
  /\ log (write_all_pages n b i) = log b
  /\ lock_script (write_all_pages n b i) = lock_script b
  /\ io_script (write_all_pages n b i) = io_script b
  /\ forall j a, 0 <= j -> 0 <= a < 4 ->
       test_page_attr (write_all_pages n b i) j a
       = if (i <=? j) && (j <? i + Z.of_nat n) && (a =? BITMAP_PAGE_NEEDWRITE)
         then true else test_page_attr b j a.
Proof.
  induction n as [|n IH]; intros b i Hi; cbn [write_all_pages].
  - split; [destruct b as [c s]; destruct s; reflexivity|].
    repeat (split; [reflexivity|]). intros j a Hj Ha.
    destruct (Z.leb_spec i j), (Z.ltb_spec j (i + Z.of_nat 0)); cbn [andb];
      try reflexivity; lia.
  - destruct (IH (set_page_attr b i BITMAP_PAGE_NEEDWRITE) (i + 1) ltac:(lia))
      as (Hs & Hc & Hf & Hl & Hls & Hio & Hattr).
    split; [rewrite Hs at 1; reflexivity|]. split; [exact Hc|].
    split; [exact Hf|]. split; [exact Hl|]. split; [exact Hls|].
    split; [exact Hio|].
    intros j a Hj Ha. rewrite (Hattr j a Hj Ha).
    rewrite test_set_page_attr
      by (try assumption; vm_compute; intuition congruence).
    rewrite (Z.eqb_sym BITMAP_PAGE_NEEDWRITE a).
    destruct (Z.eqb_spec i j) as [->|Hne].
    + destruct (Z.leb_spec (j + 1) j); [lia|]. cbn [andb].
      destruct (Z.leb_spec j j); [|lia].
      destruct (Z.ltb_spec j (j + Z.of_nat (S n))); [|lia]. cbn [andb].
      destruct (a =? BITMAP_PAGE_NEEDWRITE); reflexivity.
    + cbn [andb].
      destruct (Z.leb_spec (i + 1) j), (Z.leb_spec i j); try lia;
        destruct (Z.ltb_spec j (i + 1 + Z.of_nat n)),
                 (Z.ltb_spec j (i + Z.of_nat (S n))); try lia; reflexivity.
Qed.

(** X15.  On an image kept on the member devices, [bitmap_write_all] flags
    every page of the image NEEDWRITE, leaves every other attribute as it
    was and clears [allclean]; it touches neither the bits nor the
    counters.  On a file-backed image, or with no image, it does
    nothing. *)
Theorem bitmap_write_all_flags b j a :
  0 <= j -> 0 <= a < 4 -> 0 <= file_pages (storage b) ->
  (filemap (storage b) <> None -> st_file (storage b) = false ->
   test_page_attr (bitmap_write_all b) j a
   = (if (j <? file_pages (storage b)) && (a =? BITMAP_PAGE_NEEDWRITE)
      then true else test_page_attr b j a)
   /\ allclean (bitmap_write_all b) = false
   /\ filemap (storage (bitmap_write_all b)) = filemap (storage b)
   /\ counts (bitmap_write_all b) = counts b)
  /\ (filemap (storage b) = None \/ st_file (storage b) = true ->
      bitmap_write_all b = b).
Proof.
  intros Hj Ha Hfp. split.
  - intros Hfm Hfile. unfold bitmap_write_all.
    destruct (filemap (storage b)) as [fm|] eqn:Efm; [|contradiction].
    rewrite Hfile.
    destruct (write_all_pages_attrs (Z.to_nat (file_pages (storage b))) b 0
                ltac:(lia)) as (Hs & Hc & _ & _ & _ & _ & Hattr).
    split; [|split; [reflexivity|split]].
    + unfold test_page_attr at 1. cbn [storage set_allclean].
      change (test_bit (Z.shiftl j 2 + a)
                (filemap_attr
                   (storage (write_all_pages
                               (Z.to_nat (file_pages (storage b))) b 0))))
        with (test_page_attr
                (write_all_pages (Z.to_nat (file_pages (storage b))) b 0) j a).
      rewrite (Hattr j a Hj Ha), Z2Nat.id by exact Hfp. rewrite Z.add_0_l.
      destruct (Z.leb_spec 0 j); [|lia]. reflexivity.
    + cbn [storage set_allclean]. rewrite Hs. cbn [filemap set_filemap_attr].
      exact Efm.
    + cbn [counts set_allclean]. exact Hc.
  - intros [Hnone|Hfile]; unfold bitmap_write_all.
    + rewrite Hnone. reflexivity.
    + destruct (filemap (storage b)); [|reflexivity]. rewrite Hfile.
      reflexivity.
Qed.

Lemma bitmap_write_all_flags_witness :
  test_page_attr (bitmap_write_all (ex_bitmap [] [])) 0 BITMAP_PAGE_NEEDWRITE
  = true.
Proof.
  destruct (bitmap_write_all_flags (ex_bitmap [] []) 0 BITMAP_PAGE_NEEDWRITE
              ltac:(lia) ltac:(vm_compute; intuition congruence)
              ltac:(vm_compute; discriminate)) as (H & _).
  destruct (H ltac:(vm_compute; discriminate) ltac:(reflexivity)) as (Hattr & _).
  exact Hattr.
Defined.

Lemma pages_from_ge n : forall i x, In x (pages_from n i) -> i <= x.
Proof.
  induction n as [|n IH]; intros i x; cbn [pages_from In]; [tauto|].
  intros [<-|H]; [lia|]. apply IH in H. lia.
Qed.

Lemma page_image_ext b b' k :
  filemap (storage b') = filemap (storage b) ->
  sb_page (storage b') = sb_page (storage b) ->
  sb (storage b') = sb (storage b) ->
  page_image b' k = page_image b k.
Proof.
  intros H1 H2 H3. unfold page_image, filemap_page. rewrite H1, H2, H3.
  reflexivity.
Qed.

Lemma rev_repeat {A} (x : A) n : rev (repeat x n) = repeat x n.
Proof.
  induction n as [|n IH]; [reflexivity|].
  cbn [repeat rev]. rewrite IH. apply repeat_snoc.
Qed.

Lemma rev_page_writes b k : rev (page_writes b k) = page_writes b k.
Proof. apply rev_repeat. Qed.

Lemma bad_alignment_ext m s s' rdev index :
  file_pages s' = file_pages s -> st_bytes s' = st_bytes s ->
  bad_alignment m s' rdev index = bad_alignment m s rdev index.
Proof.
  intros H1 H2. unfold bad_alignment, sb_write_size. rewrite H1, H2.
  reflexivity.
Qed.

Lemma page_index_ext s s' k :
  filemap s' = filemap s -> page_index s' k = page_index s k.
Proof. intros H. unfold page_index, filemap_page. rewrite H. reflexivity. Qed.

Lemma page_writes_ext b b' k :
  filemap (storage b') = filemap (storage b) ->
  sb_page (storage b') = sb_page (storage b) ->
  sb (storage b') = sb (storage b) ->
  mddev b' = mddev b ->
  page_writes b' k = page_writes b k.
Proof.
  intros H1 H2 H3 H4. unfold page_writes.
  rewrite (page_image_ext b b' k H1 H2 H3), H4. reflexivity.
Qed.


Lemma unplug_pages_log n : forall b0 b i wait,
  0 <= i ->
  filemap (storage b) <> None ->
  filemap (storage b) = filemap (storage b0) ->
  sb_page (storage b) = sb_page (storage b0) ->
  sb (storage b) = sb (storage b0) ->
  file_pages (storage b) = file_pages (storage b0) ->
  st_bytes (storage b) = st_bytes (storage b0) ->
  mddev b = mddev b0 ->
  st_file (storage b) = false ->
  test_flag BITMAP_WRITE_ERROR (flags b) = false ->
  lock_script b = [] ->
  (forall j rdev, i <= j < i + Z.of_nat n ->
     In rdev (next_active_rdev (mddev b0)) ->
     bad_alignment (mddev b0) (storage b0) rdev (page_index (storage b0) j)
     = false) ->
  (forall j, i <= j -> to_flush b j = to_flush b0 j) ->
  exists b1 w,
    unplug_pages n b i wait = inr (b1, w)
    /\ st_file (storage b1) = false
    /\ test_flag BITMAP_WRITE_ERROR (flags b1) = false
    /\ log b1
       = rev (flat_map (page_writes b0)
                (List.filter (to_flush b0) (pages_from n i))) ++ log b.
Proof.
  induction n as [|n IH];
    intros b0 b i wait Hi Hfm Hfm0 Hsbp Hsb Hfp Hby Hmd Hfile Herr Hls Hal
      Hflush.
  - exists b, wait. repeat split; assumption.
  - cbn [unplug_pages pages_from List.filter].
    destruct (filemap (storage b)) as [fm|] eqn:Efm; [|contradiction].
    unfold test_and_clear_page_attr.
    pose proof (fun j a Hj Ha => unplug_page_attrs b i j a Hi Hj Ha) as Hstep.
    cbv zeta in Hstep.
    destruct (Hstep 0 0 ltac:(lia) ltac:(lia)) as (Hneed & _).
    rewrite Hneed. rewrite <- (Hflush i ltac:(lia)).
    fold (to_flush b i).
    set (b2 := clear_page_attr (clear_page_attr b i BITMAP_PAGE_DIRTY) i
                 BITMAP_PAGE_NEEDWRITE) in *.
    assert (Hnext : forall b3,
              (forall j a, 0 <= j -> 0 <= a < 4 -> i + 1 <= j ->
                 test_page_attr b3 j a = test_page_attr b j a) ->
              forall j, i + 1 <= j -> to_flush b3 j = to_flush b0 j).
    { intros b3 H3 j Hj. rewrite <- (Hflush j ltac:(lia)). unfold to_flush.
      rewrite !H3 by (try lia; vm_compute; intuition congruence).
      reflexivity. }
    assert (Hal' : forall j rdev, i + 1 <= j < i + 1 + Z.of_nat n ->
              In rdev (next_active_rdev (mddev b0)) ->
              bad_alignment (mddev b0) (storage b0) rdev
                (page_index (storage b0) j) = false).
    { intros j rdev Hj. apply Hal. lia. }
    destruct (to_flush b i) eqn:Etf.
    + set (b2c := clear_page_attr b2 i BITMAP_PAGE_PENDING).
      assert (Hpw : page_writes b2c i = page_writes b0 i).
      { apply page_writes_ext; cbn; rewrite ?Efm; assumption. }
      assert (Hw : write_page b2c i false = emits b2c (page_writes b0 i)).
      { unfold write_page, write_page_with.
        rewrite write_page_io_embedded_ok; [| exact Hfile | exact Hls |].
        - rewrite Hpw. cbn [flags emits]. change (flags b2c) with (flags b).
          rewrite Herr. reflexivity.
        - intros rdev Hr.
          change (mddev b2c) with (mddev b). rewrite Hmd.
          rewrite (bad_alignment_ext (mddev b0) (storage b0) (storage b2c))
            by (cbn; assumption).
          rewrite (page_index_ext (storage b0) (storage b2c))
            by (cbn; rewrite Efm; exact Hfm0).
          apply Hal; [lia|]. rewrite <- Hmd. exact Hr. }
      rewrite Hw.
      destruct (IH b0 (emits b2c (page_writes b0 i)) (i + 1)
                  (wait || test_page_attr b i BITMAP_PAGE_DIRTY)
                  ltac:(lia)) as (b1 & w & Hrun & G1 & G2 & Hlog);
        try assumption.
      * cbn. rewrite Efm. discriminate.
      * cbn. rewrite Efm. exact Hfm0.
      * apply Hnext. intros j a Hj Ha Hlt.
        destruct (Hstep j a Hj Ha) as (_ & _ & _ & _ & Hja).
        fold b2 in Hja. unfold to_flush in Etf. rewrite Etf in Hja.
        fold b2c in Hja. rewrite Hw in Hja. rewrite Hja.
        destruct (Z.eqb_spec i j); [lia|reflexivity].
      * exists b1, w. split; [exact Hrun|]. split; [exact G1|].
        split; [exact G2|]. rewrite Hlog. cbn [flat_map log emits].
        rewrite rev_app_distr, rev_page_writes, <- app_assoc. reflexivity.
    + destruct (IH b0 b2 (i + 1)
                  (wait || test_page_attr b i BITMAP_PAGE_DIRTY)
                  ltac:(lia)) as (b1 & w & Hrun & G1 & G2 & Hlog);
        try assumption.
      * cbn. rewrite Efm. discriminate.
      * cbn. rewrite Efm. exact Hfm0.
      * apply Hnext. intros j a Hj Ha Hlt.
        destruct (Hstep j a Hj Ha) as (_ & _ & _ & _ & Hja).
        fold b2 in Hja. unfold to_flush in Etf. rewrite Etf in Hja.
        rewrite Hja. destruct (Z.eqb_spec i j); [lia|reflexivity].
      * exists b1, w. split; [exact Hrun|]. split; [exact G1|].
        split; [exact G2|]. exact Hlog.
Qed.

(** The log of [bitmap_unplug] when no transfer fails. *)
Lemma bitmap_unplug_log x :
  filemap (storage x) <> None -> st_file (storage x) = false ->
  test_flag BITMAP_STALE (flags x) = false ->
  test_flag BITMAP_WRITE_ERROR (flags x) = false ->
  lock_script x = [] -> members_aligned x ->
  log (bitmap_unplug x)
  = rev (flat_map (page_writes x)
           (List.filter (to_flush x)
              (pages_from (Z.to_nat (file_pages (storage x))) 0)))
    ++ log x.
Proof.
  intros Xfm Xfile Xst Xerr Xls Xal. unfold bitmap_unplug.
  destruct (filemap (storage x)) as [fm|] eqn:Efm; [|contradiction].
  rewrite Xst.
  destruct (unplug_pages_log (Z.to_nat (file_pages (storage x))) x x 0 false
              ltac:(lia) ltac:(rewrite Efm; discriminate) eq_refl eq_refl
              eq_refl eq_refl eq_refl eq_refl Xfile Xerr Xls)
    as (b1 & w & Hrun & G1 & G2 & Hlog).
  { intros j rdev Hj. apply Xal. lia. }
  { reflexivity. }
  rewrite Hrun, G1, andb_false_r, G2. exact Hlog.
Qed.



(** ** The write-behind gauge *)

Lemma bitmap_file_set_bit_gauge b block :
  behind_writes (bitmap_file_set_bit b block) = behind_writes b
  /\ behind_writes_used (bitmap_file_set_bit b block) = behind_writes_used b
  /\ log (bitmap_file_set_bit b block) = log b.
Proof.
  unfold bitmap_file_set_bit.
  destruct (filemap_get_page _ _); [|repeat split].
  destruct (filemap_page _ _); repeat split.
Qed.

Lemma startwrite_step_gauge b offset :
  behind_writes (fst (startwrite_step b offset)) = behind_writes b
  /\ behind_writes_used (fst (startwrite_step b offset)) = behind_writes_used b
  /\ behind_wakes (log (fst (startwrite_step b offset))) = behind_wakes (log b).
Proof.
  unfold startwrite_step.
  destruct (gc_bmc (get_counter b offset true)) as [bmc|]; [|repeat split].
  set (b0 := after_get_counter b (get_counter b offset true)).
  assert (H0 : behind_writes b0 = behind_writes b
               /\ behind_writes_used b0 = behind_writes_used b
               /\ log b0 = log b) by repeat split.
  destruct H0 as (A1 & A2 & A3).
  destruct (COUNTER (read_counter (counts b0) bmc) =? COUNTER_MAX).
  { cbn [fst behind_writes behind_writes_used log emit behind_wakes].
    rewrite A1, A2, A3. repeat split. }
  destruct (bitmap_file_set_bit_gauge b0 offset) as (B1 & B2 & B3).
  cbn [fst].
  destruct (read_counter (counts b0) bmc =? 0);
    [|destruct (read_counter (counts b0) bmc =? 1)];
    cbn [store_counter set_counts behind_writes behind_writes_used log];
    rewrite ?B1, ?B2, ?B3, ?A1, ?A2, ?A3; repeat split.
Qed.

Lemma startwrite_loop_gauge fuel : forall b offset sectors b' res,
  startwrite_loop fuel b offset sectors = Some (b', res) ->
  behind_writes b' = behind_writes b
  /\ behind_writes_used b' = behind_writes_used b
  /\ behind_wakes (log b') = behind_wakes (log b).
Proof.
  induction fuel as [|fuel IH]; intros b offset sectors b' res;
    cbn [startwrite_loop].
  - destruct (sectors =? 0); [|discriminate].
    intros [= <- <-]. repeat split.
  - destruct (sectors =? 0); [intros [= <- <-]; repeat split|].
    pose proof (startwrite_step_gauge b offset) as Hg.
    destruct (startwrite_step b offset) as [b1 [| |blocks]]; cbn [fst] in Hg.
    + intros [= <- <-]. exact Hg.
    + intros [= <- <-]. exact Hg.
    + intros H. apply IH in H. destruct Hg as (G1 & G2 & G3).
      destruct H as (H1 & H2 & H3). repeat split; congruence.
Qed.

Lemma endwrite_step_gauge b offset success :
  behind_writes (fst (endwrite_step b offset success)) = behind_writes b
  /\ behind_writes_used (fst (endwrite_step b offset success))
     = behind_writes_used b
  /\ behind_wakes (log (fst (endwrite_step b offset success)))
     = behind_wakes (log b).
Proof.
  unfold endwrite_step.
  destruct (gc_bmc (get_counter b offset false)) as [bmc|]; [|repeat split].
  cbv zeta. cbn [fst]. split_ifs; repeat split.
Qed.

Lemma endwrite_loop_gauge fuel : forall b offset sectors success b',
  endwrite_loop fuel b offset sectors success = Some b' ->
  behind_writes b' = behind_writes b
  /\ behind_writes_used b' = behind_writes_used b
  /\ behind_wakes (log b') = behind_wakes (log b).
Proof.
  induction fuel as [|fuel IH]; intros b offset sectors success b';
    cbn [endwrite_loop].
  - destruct (sectors =? 0); [|discriminate].
    intros [= <-]. repeat split.
  - destruct (sectors =? 0); [intros [= <-]; repeat split|].
    pose proof (endwrite_step_gauge b offset success) as Hg.
    destruct (endwrite_step b offset success) as [b1 [| |blocks]];
      cbn [fst] in Hg.
    + intros [= <-]. exact Hg.
    + intros [= <-]. exact Hg.
    + intros H. apply IH in H. destruct Hg as (G1 & G2 & G3).
      destruct H as (H1 & H2 & H3). repeat split; congruence.
Qed.

(** *** The two loops over a range return *)

Lemma bitmap_checkpage_chunkshift c page create kz :
  chunkshift (snd (fst (bitmap_checkpage c page create kz))) = chunkshift c.
Proof.
  unfold bitmap_checkpage.
  destruct (pages c <=? page); [reflexivity|].
  destruct (bp_hijacked (slot c page)); [reflexivity|].
  destruct (negb (map_is_null (bp_map (slot c page)))); [reflexivity|].
  destruct (negb create); [reflexivity|].
  destruct (kzalloc kz) as [[cells|] kz'].
  - destruct (_ || _); reflexivity.
  - destruct (map_is_null _); reflexivity.
Qed.

(** [bitmap_get_counter] keeps the chunk shift, and the [*blocks] it
    reports is at least one sector, whatever the offset and the table. *)
Lemma get_counter_advances c offset create kz :
  0 <= chunkshift c <= 53 ->
  chunkshift (gc_counts (bitmap_get_counter c offset create kz)) = chunkshift c
  /\ 1 <= gc_blocks (bitmap_get_counter c offset create kz).
Proof.
  intros Hs. rewrite bitmap_get_counter_unfold. cbv zeta.
  pose proof (bitmap_checkpage_chunkshift c (page_of c offset) create kz) as Hc.
  destruct (bitmap_checkpage c (page_of c offset) create kz) as [[err c'] kz'].
  cbn [fst snd] in Hc. cbn [gc_counts gc_blocks]. split; [exact Hc|].
  unfold get_counter_csize. rewrite Hc.
  assert (Hk : forall k, 0 <= k < 64 ->
            1 <= sector_t (sector_t (Z.shiftl 1 k)
                           - Z.land offset
                               (sector_t (sector_t (Z.shiftl 1 k) - 1)))).
  { intros k Hk. rewrite shiftl_1_sector by exact Hk.
    assert (Hpow : 0 < 2 ^ k < 2 ^ 64).
    { split; [apply Z.pow_pos_nonneg; lia|apply Z.pow_lt_mono_r; lia]. }
    rewrite (sector_t_small (2 ^ k - 1)) by lia.
    replace (2 ^ k - 1) with (Z.ones k) by (rewrite Z.ones_equiv; lia).
    rewrite Z.land_ones by lia.
    pose proof (Z.mod_pos_bound offset (2 ^ k) ltac:(lia)) as Hm.
    rewrite sector_t_small by lia. lia. }
  change PAGE_COUNTER_SHIFT with 11.
  destruct (_ || _); apply Hk; lia.
Qed.

Lemma startwrite_step_advances b offset b' blocks :
  0 <= chunkshift (counts b) <= 53 ->
  startwrite_step b offset = (b', StepNext blocks) ->
  chunkshift (counts b') = chunkshift (counts b) /\ 1 <= blocks.
Proof.
  intros Hs. unfold startwrite_step.
  destruct (get_counter_advances (counts b) offset true (kz_script b) Hs)
    as [Hc Hb].
  fold (get_counter b offset true) in Hc, Hb.
  destruct (gc_bmc (get_counter b offset true)) as [bmc|]; [|discriminate].
  destruct (COUNTER _ =? COUNTER_MAX); [discriminate|].
  intros [= <- <-]. split; [|exact Hb].
  rewrite <- Hc.
  change (gc_counts (get_counter b offset true))
    with (counts (after_get_counter b (get_counter b offset true))).
  set (b0 := after_get_counter b (get_counter b offset true)).
  destruct (bitmap_file_set_bit_frame b0 offset) as (Hf & _).
  destruct (read_counter (counts b0) bmc =? 0);
    [|destruct (read_counter (counts b0) bmc =? 1)];
    cbn [store_counter set_counts counts];
    rewrite ?(proj1 (proj2 (proj2 (write_counter_fields _ _ _)))),
            ?(proj1 (proj2 (bitmap_count_page_fields _ _ _))), ?Hf;
    reflexivity.
Qed.

Lemma endwrite_step_advances b offset success b' blocks :
  0 <= chunkshift (counts b) <= 53 ->
  endwrite_step b offset success = (b', StepNext blocks) ->
  chunkshift (counts b') = chunkshift (counts b) /\ 1 <= blocks.
Proof.
  intros Hs. unfold endwrite_step.
  destruct (get_counter_advances (counts b) offset false (kz_script b) Hs)
    as [Hc Hb].
  fold (get_counter b offset false) in Hc, Hb.
  destruct (gc_bmc (get_counter b offset false)) as [bmc|]; [|discriminate].
  cbv zeta. intros [= <- <-]. split; [|exact Hb].
  rewrite <- Hc.
  change (gc_counts (get_counter b offset false))
    with (counts (after_get_counter b (get_counter b offset false))).
  split_ifs;
    cbn [store_counter set_counts counts set_allclean emit set_need_sync
           set_events_cleared];
    rewrite ?(proj1 (proj2 (proj2 (bitmap_set_pending_fields _ _)))),
            ?(proj1 (proj2 (proj2 (write_counter_fields _ _ _))));
    reflexivity.
Qed.

Lemma startwrite_loop_returns fuel : forall b offset sectors,
  0 <= chunkshift (counts b) <= 53 -> 0 <= sectors <= Z.of_nat fuel ->
  exists b' res, startwrite_loop fuel b offset sectors = Some (b', res).
Proof.
  induction fuel as [|fuel IH]; intros b offset sectors Hs Hn;
    cbn [startwrite_loop].
  - destruct (Z.eqb_spec sectors 0); [eauto|lia].
  - destruct (Z.eqb_spec sectors 0); [eauto|].
    destruct (startwrite_step b offset) as [b1 [| |blocks]] eqn:Hstep;
      [eauto|eauto|].
    destruct (startwrite_step_advances b offset b1 blocks Hs Hstep) as [Hc Hb].
    apply IH; [rewrite Hc; exact Hs|].
    destruct (Z.ltb_spec blocks sectors); lia.
Qed.

Lemma endwrite_loop_returns fuel : forall b offset sectors success,
  0 <= chunkshift (counts b) <= 53 -> 0 <= sectors <= Z.of_nat fuel ->
  exists b', endwrite_loop fuel b offset sectors success = Some b'.
Proof.
  induction fuel as [|fuel IH]; intros b offset sectors success Hs Hn;
    cbn [endwrite_loop].
  - destruct (Z.eqb_spec sectors 0); [eauto|lia].
  - destruct (Z.eqb_spec sectors 0); [eauto|].
    destruct (endwrite_step b offset success) as [b1 [| |blocks]] eqn:Hstep;
      [eauto|eauto|].
    destruct (endwrite_step_advances b offset success b1 blocks Hs Hstep)
      as [Hc Hb].
    apply IH; [rewrite Hc; exact Hs|].
    destruct (Z.ltb_spec blocks sectors); lia.
Qed.

Lemma int_t_small x : - 2 ^ 31 <= x < 2 ^ 31 -> int_t x = x.
Proof.
  intros H. unfold int_t.
  change (2 ^ 31) with 2147483648 in *. change (2 ^ 32) with 4294967296.
  rewrite Z.mod_small by lia. lia.
Qed.

Lemma ulong_negative x : - 2 ^ 64 <= x < 0 -> ulong x = 2 ^ 64 + x.
Proof.
  intros H. unfold ulong.
  change (2 ^ 64) with 18446744073709551616 in *.
  symmetry. apply (Z.mod_unique x _ (-1)); lia.
Qed.

(** X17.  The write-behind gauge.  [bitmap_startwrite] and
    [bitmap_endwrite] return for every range of a table whose chunk shift
    is at most 53.  With [behind], [bitmap_startwrite] adds one to
    [behind_writes], an [atomic_t] that wraps at 32 bits, and raises
    [behind_writes_used] to the new value converted to [unsigned long]
    when that is larger: for a gauge in [0 .. 2^31 - 2] the new value is
    the gauge plus one and [behind_writes_used] becomes the larger of the
    two, so it stays above the gauge if it was; for a new value that is
    negative (more [bitmap_endwrite]s than [bitmap_startwrite]s) the
    converted value is [2^64] plus it.  With [behind], [bitmap_endwrite]
    takes one off and wakes [behind_wait] exactly when the gauge reaches
    0.  Without [behind] neither changes the gauge, and nothing in the
    loops over the range touches it or wakes [behind_wait]. *)
Theorem behind_writes_gauge b offset sectors success behind :
  0 <= chunkshift (counts b) <= 53 -> 0 <= sectors ->
  (exists b' res,
      bitmap_startwrite b offset sectors behind = Some (b', res)
      /\ behind_writes b'
         = (if behind then int_t (behind_writes b + 1) else behind_writes b)
      /\ behind_writes_used b'
         = (if behind
            then Z.max (behind_writes_used b)
                   (ulong (int_t (behind_writes b + 1)))
            else behind_writes_used b)
      /\ (0 <= behind_writes b < 2 ^ 31 - 1 ->
          behind_writes b' = behind_writes b + (if behind then 1 else 0)
          /\ behind_writes_used b'
             = (if behind
                then Z.max (behind_writes_used b) (behind_writes b + 1)
                else behind_writes_used b)
          /\ (behind_writes b <= behind_writes_used b ->
              behind_writes b' <= behind_writes_used b'))
      /\ (behind = true -> - 2 ^ 31 - 1 <= behind_writes b < - 1 ->
          behind_writes b' = behind_writes b + 1
          /\ behind_writes_used b'
             = Z.max (behind_writes_used b) (2 ^ 64 + behind_writes b + 1))
      /\ behind_wakes (log b') = behind_wakes (log b))
  /\ (exists b',
        bitmap_endwrite b offset sectors success behind = Some b'
        /\ behind_writes b'
           = (if behind then int_t (behind_writes b - 1) else behind_writes b)
        /\ behind_writes_used b' = behind_writes_used b
        /\ behind_wakes (log b')
           = (if behind && (int_t (behind_writes b - 1) =? 0)
              then S (behind_wakes (log b)) else behind_wakes (log b))
        /\ (- 2 ^ 31 < behind_writes b < 2 ^ 31 ->
            behind_writes b' = behind_writes b - (if behind then 1 else 0)
            /\ behind_wakes (log b')
               = (if behind && (behind_writes b =? 1)
                  then S (behind_wakes (log b)) else behind_wakes (log b)))).
Proof.
  intros Hs Hn. split.
  - unfold bitmap_startwrite. cbv zeta.
    match goal with
    | |- context [startwrite_loop ?f ?x offset sectors] =>
        destruct (startwrite_loop_returns f x offset sectors) as (b' & res & H)
    end.
    { destruct behind; exact Hs. }
    { lia. }
    exists b', res. split; [exact H|].
    apply startwrite_loop_gauge in H. destruct H as (H1 & H2 & H3).
    destruct behind; cbn [behind_writes behind_writes_used log set_behind]
      in H1, H2, H3; rewrite H1, H2, H3.
    + assert (Hmax : (if behind_writes_used b <? ulong (int_t (behind_writes b + 1))
                      then ulong (int_t (behind_writes b + 1))
                      else behind_writes_used b)
                     = Z.max (behind_writes_used b)
                         (ulong (int_t (behind_writes b + 1)))).
      { destruct (Z.ltb_spec (behind_writes_used b)
                    (ulong (int_t (behind_writes b + 1)))); lia. }
      rewrite Hmax.
      split; [reflexivity|]. split; [reflexivity|]. split; [|split].
      * intros Hg. rewrite int_t_small by lia.
        rewrite ulong_small
          by (change (2 ^ 64) with 18446744073709551616;
              change (2 ^ 31) with 2147483648 in Hg; lia).
        split; [reflexivity|]. split; [reflexivity|]. lia.
      * intros _ Hg. rewrite int_t_small by lia.
        rewrite ulong_negative
          by (change (2 ^ 64) with 18446744073709551616;
              change (2 ^ 31) with 2147483648 in Hg; lia).
        split; [reflexivity|]. f_equal. lia.
      * reflexivity.
    + split; [reflexivity|]. split; [reflexivity|]. split; [|split].
      * intros _. split; [lia|]. split; [reflexivity|]. lia.
      * discriminate.
      * reflexivity.
  - unfold bitmap_endwrite. cbv zeta.
    match goal with
    | |- context [endwrite_loop ?f ?x offset sectors success] =>
        destruct (endwrite_loop_returns f x offset sectors success) as (b' & H)
    end.
    { destruct behind; [|exact Hs].
      destruct (int_t (behind_writes b - 1) =? 0); exact Hs. }
    { lia. }
    exists b'. split; [exact H|].
    apply endwrite_loop_gauge in H. destruct H as (H1 & H2 & H3).
    destruct behind; cbn [andb].
    + assert (Hone : - 2 ^ 31 < behind_writes b < 2 ^ 31 ->
                (int_t (behind_writes b - 1) =? 0) = (behind_writes b =? 1)).
      { intros Hg. rewrite int_t_small by lia.
        destruct (Z.eqb_spec (behind_writes b - 1) 0),
                 (Z.eqb_spec (behind_writes b) 1); try reflexivity; lia. }
      destruct (int_t (behind_writes b - 1) =? 0) eqn:Ez;
        cbn [behind_writes behind_writes_used log set_behind emit behind_wakes]
          in H1, H2, H3;
        rewrite H1, H2, H3;
        (split; [reflexivity|]); (split; [reflexivity|]);
        (split; [reflexivity|]); intros Hg;
        (split; [apply int_t_small; lia|]);
        rewrite <- (Hone Hg); reflexivity.
    + rewrite H1, H2, H3. split; [reflexivity|]. split; [reflexivity|].
      split; [reflexivity|]. intros _. split; [lia|reflexivity].
Qed.

Lemma behind_writes_gauge_witness :
  exists b' b'',
    bitmap_startwrite (ex_bitmap [] []) 0 8 true = Some (b', SwDone)
    /\ behind_writes b' = 1 /\ behind_writes_used b' = 1
    /\ bitmap_endwrite b' 0 8 true true = Some b''
    /\ behind_writes b'' = 0 /\ behind_wakes (log b'') = 1%nat.
Proof.
  destruct (behind_writes_gauge (ex_bitmap [] []) 0 8 true true
              ltac:(vm_compute; intuition congruence) ltac:(lia))
    as ((b' & res & E1 & S1 & S2 & _ & _ & S4) & _).
  assert (Er : res = SwDone) by (vm_compute in E1; congruence).
  subst res.
  assert (Hs' : 0 <= chunkshift (counts b') <= 53).
  { assert (Eb : Some (b', SwDone)
                 = bitmap_startwrite (ex_bitmap [] []) 0 8 true)
      by (symmetry; exact E1).
    vm_compute in Eb. injection Eb as Eb. subst b'.
    vm_compute. intuition congruence. }
  destruct (behind_writes_gauge b' 0 8 true true Hs' ltac:(lia))
    as (_ & b'' & E2 & T1 & _ & T3 & _).
  exists b', b''.
  split; [exact E1|]. split; [exact S1|]. split; [exact S2|].
  split; [exact E2|]. rewrite T1, T3, S1, S4. split; reflexivity.
Defined.

(** ** [bitmap_dirty_bits] *)

(** The stores of [bitmap_set_memory_bits] with [needed] into a counter
    that reads 0. *)
Lemma memory_bits_table c0 block bmc :
  found c0 block bmc -> counts_nonneg c0 -> read_counter c0 bmc = 0 ->
  let c3 := bitmap_set_pending
              (bitmap_count_page (write_counter c0 bmc MARKED) block 1) block in
  table_step (put bmc MARKED) c0 c3 /\ counts_nonneg c3.
Proof.
  intros Hf Hc Hv. cbv zeta.
  pose proof Hf as (Hinv & Hok & _).
  pose proof (found_page _ _ _ Hf) as Hpg. symmetry in Hpg.
  assert (Hok0 : table_ok c0 bmc) by (split; assumption).
  pose proof (table_step_write c0 bmc MARKED Hok0
                ltac:(rewrite MARKED_eq; lia)) as S1.
  pose proof (table_ok_write_counter c0 bmc MARKED Hok0) as Hok1.
  pose proof (counts_nonneg_write_counter c0 bmc MARKED Hc) as Hc1.
  pose proof (table_step_count_page (write_counter c0 bmc MARKED) block bmc
                Hok1 Hpg Hc1) as S2.
  destruct (count_page_up (write_counter c0 bmc MARKED) block bmc Hok1 Hpg Hc1)
    as [Hok2 Hc2].
  pose proof (table_step_set_pending
                (bitmap_count_page (write_counter c0 bmc MARKED) block 1) block
                (proj1 Hok2)) as S3.
  split.
  - apply (table_step_ext
             (fun bo x => keep bo (keep bo (put bmc MARKED bo x)))).
    + intros bo x. reflexivity.
    + exact (table_step_trans _ _ _ _ _
               (table_step_trans _ _ _ _ _ S1 S2) S3).
  - apply counts_nonneg_set_pending. exact Hc2.
Qed.

Lemma bitmap_set_memory_bits_frame b offset needed :
  storage (bitmap_set_memory_bits b offset needed) = storage b
  /\ flags (bitmap_set_memory_bits b offset needed) = flags b
  /\ mddev (bitmap_set_memory_bits b offset needed) = mddev b.
Proof.
  unfold bitmap_set_memory_bits.
  destruct (gc_bmc (get_counter b offset true)); [|repeat split].
  destruct (read_counter _ _ =? 0); repeat split.
Qed.

(** [bitmap_set_memory_bits] with [needed] on a chunk of the table. *)
Lemma set_memory_bits_at b offset :
  counts_inv (counts b) = true -> counts_nonneg (counts b) ->
  0 <= offset -> page_of (counts b) offset < pages (counts b) ->
  let b' := bitmap_set_memory_bits b offset true in
  counts_inv (counts b') = true /\ counts_nonneg (counts b')
  /\ same_geometry (counts b) (counts b')
  /\ counter_at (counts b') offset <> 0
  /\ (forall o, 0 <= o ->
        counter_at (counts b') o = counter_at (counts b) o
        \/ (counter_at (counts b) o = 0 /\ counter_at (counts b') o = MARKED)).
Proof.
  intros Hinv Hnn Hoff Hlt. cbv zeta. unfold bitmap_set_memory_bits.
  destruct (get_counter_create (counts b) offset (kz_script b) Hinv Hoff Hlt)
    as (bmc & Hbmc & Hf & _ & Hp & Hcs & Hn & Hsame).
  fold (get_counter b offset true) in Hbmc, Hf, Hp, Hcs, Hn, Hsame.
  rewrite Hbmc.
  set (b0 := after_get_counter b (get_counter b offset true)).
  change (gc_counts (get_counter b offset true)) with (counts b0)
    in Hf, Hp, Hcs, Hn, Hsame.
  pose proof Hf as (Hinv0 & _).
  assert (Hnn0 : counts_nonneg (counts b0))
    by (apply counts_nonneg_get_counter; exact Hnn).
  destruct (Z.eqb_spec (read_counter (counts b0) bmc) 0) as [Hz|Hnz].
  - destruct (memory_bits_table (counts b0) offset bmc Hf Hnn0 Hz)
      as (Hst & Hnn3).
    change (Z.lor 2 NEEDED_MASK) with MARKED.
    cbn [counts set_allclean set_counts store_counter].
    set (c3 := bitmap_set_pending
                 (bitmap_count_page (write_counter (counts b0) bmc MARKED)
                    offset 1) offset) in *.
    pose proof Hst as (Hinv3 & Hp3 & Hcs3 & Hn3 & _).
    split; [exact Hinv3|]. split; [exact Hnn3|].
    split; [repeat split; congruence|].
    destruct (table_step_counter_at (counts b0) c3 bmc MARKED offset Hinv0 Hst
                Hoff) as (Hat & _).
    split; [rewrite (Hat Hf), MARKED_eq; discriminate|].
    intros o Ho. destruct (Hsame o Ho) as (Ho0 & _).
    destruct (counter_at_others _ _ bmc 0 MARKED o Hinv0 Hz Hst Ho)
      as [E|(E1 & E2)].
    + left. congruence.
    + right. split; [congruence|exact E2].
  - split; [exact Hinv0|]. split; [exact Hnn0|].
    split; [repeat split; assumption|].
    split; [rewrite (found_counter_at _ _ _ Hf); exact Hnz|].
    intros o Ho. left. apply Hsame. exact Ho.
Qed.

(** [bitmap_file_set_bit] on a chunk that has its page in the image. *)
Lemma file_set_bit_test b block k pg c' :
  0 <= Z.shiftr block (chunkshift (counts b)) < 2 ^ 64 - 2048 ->
  0 <= c' < 2 ^ 64 - 2048 ->
  filemap_get_page (storage b) (Z.shiftr block (chunkshift (counts b)))
  = Some k ->
  filemap_page (storage b) k = Some pg ->
  file_test_bit (bitmap_file_set_bit b block) c'
  = if c' =? Z.shiftr block (chunkshift (counts b)) then true
    else file_test_bit b c'.
Proof.
  intros Hc Hc' Hk Hpg.
  set (chunk := Z.shiftr block (chunkshift (counts b))) in *.
  pose proof (file_page_offset_nonneg (storage b) chunk) as Hoff.
  destruct (set_filemap_page_frame (storage b) k
              (mk_pg (pg_index pg)
                 (Z.setbit (pg_data pg) (file_page_offset (storage b) chunk))))
    as (F1 & F2 & _).
  apply (file_test_bit_replaced b _ chunk c' k pg
           (Z.setbit (pg_data pg) (file_page_offset (storage b) chunk)));
    try assumption.
  - unfold bitmap_file_set_bit. fold chunk. rewrite Hk, Hpg, set_bit_either.
    exact F1.
  - unfold bitmap_file_set_bit. fold chunk. rewrite Hk, Hpg, set_bit_either.
    exact F2.
  - unfold bitmap_file_set_bit. fold chunk. rewrite Hk, Hpg, set_bit_either.
    reflexivity.
  - unfold bitmap_file_set_bit. fold chunk. rewrite Hk, Hpg, set_bit_either.
    reflexivity.
  - apply Z.setbit_eq. exact Hoff.
  - intros n Hn. apply Z.setbit_neq; [exact Hoff|congruence].
Qed.

(** The image after [bitmap_file_set_bit]: the same pages are there. *)
Lemma file_set_bit_pages b block :
  sb_page (storage (bitmap_file_set_bit b block)) = sb_page (storage b)
  /\ file_pages (storage (bitmap_file_set_bit b block)) = file_pages (storage b)
  /\ (forall k, filemap_page (storage b) k <> None ->
        filemap_page (storage (bitmap_file_set_bit b block)) k <> None)
  /\ mddev (bitmap_file_set_bit b block) = mddev b.
Proof.
  unfold bitmap_file_set_bit.
  destruct (filemap_get_page _ _) as [k0|]; [|repeat split; auto].
  destruct (filemap_page (storage b) k0) as [pg|] eqn:Hpg; [|repeat split; auto].
  rewrite set_bit_either.
  destruct (set_filemap_page_frame (storage b) k0
              (mk_pg (pg_index pg)
                 (Z.setbit (pg_data pg)
                    (file_page_offset (storage b)
                       (Z.shiftr block (chunkshift (counts b)))))))
    as (F1 & F2 & _).
  split; [exact F1|]. split; [exact F2|]. split; [|reflexivity].
  intros k Hk. cbn [set_page_attr storage set_storage].
  unfold filemap_page in *. unfold set_filemap_page.
  destruct (filemap (storage b)) as [fm|]; [|contradiction].
  cbn [filemap set_filemap set_filemap_attr].
  destruct (fm !! Z.to_nat k) eqn:E; [|contradiction].
  apply lookup_lt_Some in E.
  intros Hnone. apply lookup_ge_None in Hnone.
  rewrite length_insert in Hnone. lia.
Qed.

(** The image has a page for the bit of chunk [j]. *)
Lemma has_page_kept b b' j :
  sb_page (storage b') = sb_page (storage b) ->
  file_pages (storage b') = file_pages (storage b) ->
  (forall k, filemap_page (storage b) k <> None ->
             filemap_page (storage b') k <> None) ->
  (exists k, filemap_get_page (storage b) j = Some k
             /\ filemap_page (storage b) k <> None) ->
  exists k, filemap_get_page (storage b') j = Some k
            /\ filemap_page (storage b') k <> None.
Proof.
  intros H1 H2 H3 (k & Hk & Hp). exists k.
  rewrite (filemap_get_page_ext (storage b) (storage b')) by assumption.
  split; [exact Hk|apply H3; exact Hp].
Qed.

Lemma dirty_bits_loop_ok n : forall b chunk,
  counts_inv (counts b) = true -> counts_nonneg (counts b) ->
  new_geometry (counts b) -> 0 <= chunk ->
  chunk + Z.of_nat n <= chunks (counts b) ->
  let b' := dirty_bits_loop n b chunk in
  let cs := chunkshift (counts b) in
  (forall j, chunk <= j < chunk + Z.of_nat n ->
     counter_at (counts b') (j * 2 ^ cs) <> 0
     /\ ((exists k, filemap_get_page (storage b) j = Some k
                    /\ filemap_page (storage b) k <> None) ->
         file_test_bit b' j = true))
  /\ (forall o, 0 <= o ->
        counter_at (counts b') o = counter_at (counts b) o
        \/ (counter_at (counts b) o = 0 /\ counter_at (counts b') o = MARKED))
  /\ (forall j, 0 <= j < 2 ^ 64 - 2048 ->
        file_test_bit b j = true -> file_test_bit b' j = true)
  /\ md_recovery_cp (mddev b')
     = (match n with
        | O => md_recovery_cp (mddev b)
        | S _ => Z.min (md_recovery_cp (mddev b)) (chunk * 2 ^ cs)
        end).
Proof.
  induction n as [|n IH]; intros b chunk Hinv Hnn Hgeo Hch Hend; cbv zeta.
  - cbn [dirty_bits_loop]. split; [intros j Hj; lia|].
    split; [auto|]. split; [auto|reflexivity].
  - cbn [dirty_bits_loop]. cbv zeta.
    pose proof Hgeo as (Hcs & Hn0 & Hpg & Hlim).
    set (cs := chunkshift (counts b)) in *.
    assert (Hpow : 0 < 2 ^ cs) by (apply Z.pow_pos_nonneg; lia).
    assert (Hp63 : 2 ^ 63 = 9223372036854775808) by reflexivity.
    assert (Hp64 : 2 ^ 64 = 18446744073709551616) by reflexivity.
    assert (Hsecr : 0 <= chunk * 2 ^ cs < chunks (counts b) * 2 ^ cs) by nia.
    assert (Hsec : sector_t (Z.shiftl chunk cs) = chunk * 2 ^ cs).
    { rewrite Z.shiftl_mul_pow2 by lia. apply sector_t_small. lia. }
    rewrite Hsec.
    set (sec := chunk * 2 ^ cs) in *.
    destruct (set_memory_bits_at b sec Hinv Hnn ltac:(lia)
                (in_limit _ _ Hgeo Hsecr))
      as (Hinv1 & Hnn1 & Hsg1 & Hnz1 & Hoth1).
    destruct (bitmap_set_memory_bits_frame b sec true) as (Fs1 & Ff1 & Fm1).
    set (b1 := bitmap_set_memory_bits b sec true) in *.
    destruct (bitmap_file_set_bit_frame b1 sec) as (Fc2 & Ff2 & _).
    destruct (file_set_bit_pages b1 sec) as (Gsb & Gfp & Gpg & Gmd).
    set (b2 := bitmap_file_set_bit b1 sec) in *.
    set (b3 := if sec <? md_recovery_cp (mddev b2)
               then set_recovery_cp b2 sec else b2).
    assert (Hc3 : counts b3 = counts b1).
    { unfold b3. destruct (sec <? _); [cbn|]; exact Fc2. }
    assert (Hs3 : storage b3 = storage b2).
    { unfold b3. destruct (sec <? _); reflexivity. }
    assert (Hfl3 : flags b3 = flags b2).
    { unfold b3. destruct (sec <? _); reflexivity. }
    assert (Hgeo3 : new_geometry (counts b3)).
    { rewrite Hc3. exact (same_geometry_new _ _ Hsg1 Hgeo). }
    destruct Hsg1 as (Hp1 & Hcs1 & Hn1).
    assert (Hcs3 : chunkshift (counts b3) = cs) by (rewrite Hc3; exact Hcs1).
    destruct (IH b3 (chunk + 1) ltac:(rewrite Hc3; exact Hinv1)
                ltac:(rewrite Hc3; exact Hnn1) Hgeo3 ltac:(lia)
                ltac:(rewrite Hc3, Hn1; lia))
      as (Hmark & Hoth & Hbits & Hcp).
    cbv zeta in Hmark, Hoth, Hbits, Hcp. rewrite Hcs3 in Hmark, Hcp.
    rewrite Hc3 in Hoth.
    fold b3. set (b' := dirty_bits_loop n b3 (chunk + 1)) in *.
    assert (Hchunk : Z.shiftr sec (chunkshift (counts b1)) = chunk).
    { rewrite Hcs1. unfold sec. rewrite Z.shiftr_div_pow2 by lia.
      apply Z.div_mul. lia. }
    assert (Hkeep : forall j, 0 <= j < 2 ^ 64 - 2048 ->
              file_test_bit b j = true -> file_test_bit b3 j = true).
    { intros j Hj Ht.
      rewrite (file_test_bit_ext b2 b3) by (rewrite ?Hs3, ?Hfl3; reflexivity).
      assert (Ht1 : file_test_bit b1 j = true).
      { rewrite (file_test_bit_ext b b1)
          by (rewrite ?Fs1, ?Ff1; reflexivity). exact Ht. }
      unfold b2, bitmap_file_set_bit. rewrite Hchunk.
      destruct (filemap_get_page (storage b1) chunk) as [k|] eqn:Hk;
        [|exact Ht1].
      destruct (filemap_page (storage b1) k) as [pg|] eqn:Hpgk; [|exact Ht1].
      pose proof (file_set_bit_test b1 sec k pg j
                    ltac:(rewrite Hchunk; lia) Hj
                    ltac:(rewrite Hchunk; exact Hk) Hpgk) as E.
      unfold bitmap_file_set_bit in E. rewrite Hchunk, Hk, Hpgk in E.
      rewrite E. destruct (j =? chunk); [reflexivity|exact Ht1]. }
    split; [|split; [|split]].
    + intros j Hj. destruct (Z.eq_dec j chunk) as [->|Hne].
      * split.
        -- fold sec. destruct (Hoth sec ltac:(lia)) as [E|(E & _)];
             [rewrite E; exact Hnz1|contradiction].
        -- intros (k & Hk & Hpk). apply Hbits; [lia|].
           rewrite (file_test_bit_ext b2 b3)
             by (rewrite ?Hs3, ?Hfl3; reflexivity).
           rewrite Fs1 in *.
           destruct (filemap_page (storage b1) k) as [pg|] eqn:Hpgk;
             [|rewrite Fs1 in Hpgk; contradiction].
           pose proof (file_set_bit_test b1 sec k pg chunk
                         ltac:(rewrite Hchunk; lia) ltac:(lia)
                         ltac:(rewrite Hchunk, Fs1; exact Hk) Hpgk) as E.
           fold b2 in E. rewrite E, Hchunk, Z.eqb_refl. reflexivity.
      * destruct (Hmark j ltac:(lia)) as (M1 & M2). split; [exact M1|].
        intros Hhas. apply M2.
        apply (has_page_kept b b3 j); [| | |exact Hhas].
        -- rewrite Hs3, Gsb, Fs1. reflexivity.
        -- rewrite Hs3, Gfp, Fs1. reflexivity.
        -- intros k Hk. rewrite Hs3. apply Gpg. rewrite Fs1. exact Hk.
    + intros o Ho. destruct (Hoth o Ho) as [E|(E1 & E2)];
        destruct (Hoth1 o Ho) as [F|(F1 & F2)].
      * left. congruence.
      * right. split; [exact F1|congruence].
      * right. split; [congruence|exact E2].
      * rewrite F2, MARKED_eq in E1. discriminate.
    + intros j Hj Ht. apply Hbits; [exact Hj|]. apply Hkeep; assumption.
    + rewrite Hcp.
      assert (Hcp3 : md_recovery_cp (mddev b3)
                     = Z.min (md_recovery_cp (mddev b)) sec).
      { unfold b3. rewrite <- Fm1, <- Gmd.
        destruct (Z.ltb_spec sec (md_recovery_cp (mddev b2))); cbn; lia. }
      rewrite Hcp3. destruct n; [reflexivity|]. unfold sec. nia.
Qed.

(** X18.  [bitmap_dirty_bits] leaves every chunk from [s] to [e] with a
    counter that is not 0 and, where the image has a page for it, with
    its bit set in the image.  A counter that was not 0 keeps its value,
    one that was 0 is left 0 or becomes [NEEDED_MASK | 2]; no bit of the
    image is cleared; and [recovery_cp] ends no higher than the first
    sector of chunk [s]. *)
Theorem bitmap_dirty_bits_marks b s e :
  counts_inv (counts b) = true -> counts_nonneg (counts b) ->
  new_geometry (counts b) -> 0 <= s <= e -> e < chunks (counts b) ->
  let b' := bitmap_dirty_bits b s e in
  let cs := chunkshift (counts b) in
  (forall j, s <= j <= e ->
     counter_at (counts b') (j * 2 ^ cs) <> 0
     /\ ((exists k, filemap_get_page (storage b) j = Some k
                    /\ filemap_page (storage b) k <> None) ->
         file_test_bit b' j = true))
  /\ (forall o, 0 <= o ->
        counter_at (counts b') o = counter_at (counts b) o
        \/ (counter_at (counts b) o = 0 /\ counter_at (counts b') o = MARKED))
  /\ (forall j, 0 <= j < 2 ^ 64 - 2048 ->
        file_test_bit b j = true -> file_test_bit b' j = true)
  /\ md_recovery_cp (mddev b')
     = Z.min (md_recovery_cp (mddev b)) (s * 2 ^ cs).
Proof.
  intros Hinv Hnn Hgeo Hse He. cbv zeta. unfold bitmap_dirty_bits.
  destruct (dirty_bits_loop_ok (Z.to_nat (e - s + 1)) b s Hinv Hnn Hgeo
              ltac:(lia) ltac:(lia)) as (Hmark & Hoth & Hbits & Hcp).
  cbv zeta in Hmark, Hoth, Hbits, Hcp.
  split; [intros j Hj; apply Hmark; lia|]. split; [exact Hoth|].
  split; [exact Hbits|]. rewrite Hcp.
  destruct (Z.to_nat (e - s + 1)) eqn:E; [lia|reflexivity].
Qed.

Lemma bitmap_dirty_bits_marks_witness :
  counter_at (counts (bitmap_dirty_bits (ex_bitmap [] []) 2 3)) 24 <> 0
  /\ file_test_bit (bitmap_dirty_bits (ex_bitmap [] []) 2 3) 3 = true.
Proof.
  destruct (bitmap_dirty_bits_marks (ex_bitmap [] []) 2 3 ltac:(reflexivity)
              ltac:(intros p; unfold slot; cbn;
                    destruct (Z.to_nat p) as [|[|n]]; cbn; lia)
              ltac:(vm_compute; intuition congruence)
              ltac:(lia) ltac:(vm_compute; reflexivity))
    as (Hmark & _).
  destruct (Hmark 3 ltac:(lia)) as (H1 & H2). split; [exact H1|].
  apply H2. exists 0. split; [reflexivity|]. vm_compute. discriminate.
Defined.

(** ** A write over a range of chunks *)

Lemma half_eq x y : x / 2 = y / 2 -> Z.odd x = Z.odd y -> x = y.
Proof.
  intros Hd Ho. pose proof (Zmod_odd x) as Hx. pose proof (Zmod_odd y) as Hy.
  rewrite Ho in Hx. rewrite <- Hy in Hx. zdm.
Qed.

(** Two sectors with the same counter are in the same span. *)
Lemma same_cell_window c p o :
  0 <= chunkshift c -> 0 <= p -> 0 <= o ->
  present (slot c (page_of c p)) = true ->
  page_of c o = page_of c p -> cell_for c o = cell_for c p ->
  o / 2 ^ span_shift c p = p / 2 ^ span_shift c p.
Proof.
  intros Hs Hp Ho Hpr Hpg Hcell. unfold span_shift, present in *.
  unfold cell_for in Hcell. rewrite Hpg in Hcell.
  assert (H10 : forall x, x / 2 ^ (chunkshift c + 11)
                          = x / 2 ^ (chunkshift c + 10) / 2).
  { intros x. replace (chunkshift c + 11) with (chunkshift c + 10 + 1) by lia.
    rewrite (Z.pow_add_r 2 (chunkshift c + 10) 1) by lia.
    rewrite <- Z.div_div by (try apply Z.pow_pos_nonneg; lia). reflexivity. }
  rewrite !page_of_div in Hpg by exact Hs.
  destruct (bp_hijacked (slot c (page_of c p))) eqn:Hh; cbn [orb] in *.
  - injection Hcell as Hhi. rewrite !pageoff_hi in Hhi by exact Hs.
    rewrite !H10 in Hpg. apply half_eq; assumption.
  - apply negb_true_iff in Hpr. rewrite Hpr.
    injection Hcell as Hoff. rewrite !pageoff_of_div in Hoff by exact Hs.
    change PAGE_COUNTER_MASK with (Z.ones 11) in Hoff.
    change COUNTER_BYTE_SHIFT with 1 in Hoff.
    rewrite !Z.land_ones, !Z.shiftl_mul_pow2 in Hoff by lia.
    rewrite (Z.pow_add_r 2 (chunkshift c) 11) in Hpg by lia.
    rewrite <- !Z.div_div in Hpg by (try apply Z.pow_pos_nonneg; lia).
    revert Hoff Hpg.
    generalize (o / 2 ^ chunkshift c) (p / 2 ^ chunkshift c). intros x y.
    change (2 ^ 11) with 2048. change (2 ^ 1) with 2. intros Hoff Hpg. zdm.
Qed.

Lemma found_window c p o bmc :
  0 <= chunkshift c -> 0 <= p -> 0 <= o ->
  found c p bmc -> found c o bmc ->
  o / 2 ^ span_shift c p = p / 2 ^ span_shift c p.
Proof.
  intros Hs Hp Ho Hfp Hfo.
  apply same_cell_window; try assumption.
  - apply (found_present _ _ _ Hfp).
  - rewrite <- (found_page _ _ _ Hfp), <- (found_page _ _ _ Hfo). reflexivity.
  - destruct Hfp as (_ & _ & <- & _). destruct Hfo as (_ & _ & E & _).
    symmetry. exact E.
Qed.

Lemma blocks_at_span_shift c p :
  0 <= chunkshift c -> chunkshift c + 10 < 64 -> 0 <= p ->
  blocks_at c p = 2 ^ span_shift c p - p mod 2 ^ span_shift c p
  /\ 1 <= blocks_at c p <= 2 ^ span_shift c p.
Proof. intros Hs Hs' Hp. exact (blocks_at_window c p Hs Hs' Hp). Qed.

(** The sectors beyond the end of a span, and those before an aligned
    start, have another counter. *)
Lemma not_found_outside c p o bmc :
  0 <= chunkshift c -> chunkshift c + 10 < 64 -> 0 <= p -> 0 <= o ->
  found c p bmc ->
  p + blocks_at c p <= o \/ (o < p /\ p mod 2 ^ span_shift c p = 0) ->
  ~ found c o bmc.
Proof.
  intros Hs Hs' Hp Ho Hfp Hout Hfo.
  pose proof (found_window c p o bmc Hs Hp Ho Hfp Hfo) as Hw.
  destruct (blocks_at_span_shift c p Hs Hs' Hp) as (Hbl & _).
  assert (Hk : 0 < 2 ^ span_shift c p).
  { apply Z.pow_pos_nonneg; [lia|]. unfold span_shift.
    destruct (_ || _); lia. }
  revert Hw Hbl Hout Hk. generalize (2 ^ span_shift c p). intros w Hw Hbl Hout Hk.
  destruct Hout as [Hge|(Hlt & Hal)].
  - rewrite Hbl in Hge. zdm.
  - zdm.
Qed.

(** The stores of one pass of [bitmap_startwrite] on a counter that is
    there and not saturated. *)
Lemma startwrite_step_table b p bmc :
  found (counts b) p bmc -> counts_nonneg (counts b) ->
  COUNTER (read_counter (counts b) bmc) <> COUNTER_MAX ->
  exists b',
    startwrite_step b p = (b', StepNext (blocks_at (counts b) p))
    /\ table_step (put bmc (bump (read_counter (counts b) bmc)))
         (counts b) (counts b')
    /\ counts_nonneg (counts b').
Proof.
  intros Hf Hnn Hsat. unfold startwrite_step.
  destruct (after_get_counter_found b p true bmc Hf) as (Hr & Hb0).
  rewrite Hb0, Hr. cbn [gc_bmc gc_blocks].
  set (v := read_counter (counts b) bmc) in *.
  destruct (Z.eqb_spec (COUNTER v) COUNTER_MAX) as [|_]; [contradiction|].
  pose proof Hf as (Hinv & Hok & _).
  pose proof (found_page _ _ _ Hf) as Hpg. symmetry in Hpg.
  assert (Hok0 : table_ok (counts b) bmc) by (split; assumption).
  assert (Hvr : 0 <= v < 65536).
  { unfold v. rewrite <- read_counter_u16. apply u16_range. }
  assert (Hlast : forall c1 x,
            table_ok c1 bmc -> counts_nonneg c1 -> read_counter c1 bmc = x ->
            0 <= x + 1 < 65536 ->
            table_step (put bmc (x + 1)) c1 (write_counter c1 bmc (x + 1))
            /\ counts_nonneg (write_counter c1 bmc (x + 1))).
  { intros c1 x Hok1 Hnn1 Hx Hr1. split.
    - apply table_step_write; assumption.
    - apply counts_nonneg_write_counter. exact Hnn1. }
  destruct (Z.eqb_spec v 0) as [Hv0|Hv0].
  - destruct (bitmap_file_set_bit_frame b p) as (Fc & _).
    set (bf := bitmap_file_set_bit b p) in *.
    pose proof (table_step_count_page (counts b) p bmc Hok0 Hpg Hnn) as S1.
    destruct (count_page_up (counts b) p bmc Hok0 Hpg Hnn) as (Hok1 & Hnn1).
    pose proof (table_step_write _ bmc 2 Hok1 ltac:(lia)) as S2.
    pose proof (table_ok_write_counter _ bmc 2 Hok1) as Hok2.
    pose proof (counts_nonneg_write_counter _ bmc 2 Hnn1) as Hnn2.
    destruct (Hlast _ 2 Hok2 Hnn2 (read_write_counter _ bmc 2 (proj2 Hok1))
                ltac:(lia)) as (S3 & Hnn3).
    eexists. split; [reflexivity|].
    cbn [counts store_counter set_counts]. rewrite Fc.
    rewrite (read_write_counter _ bmc 2 (proj2 Hok1)).
    change (u16 2 + 1) with 3. change (2 + 1) with 3 in S3, Hnn3.
    split; [|exact Hnn3].
    apply (table_step_ext
             (fun bo x => put bmc 3 bo (put bmc 2 bo (keep bo x)))).
    + intros bo x. unfold bump. rewrite Hv0. cbn [Z.leb Z.compare].
      unfold put, keep. destruct (cell_eqb bo bmc); reflexivity.
    + exact (table_step_trans _ _ _ _ _
               (table_step_trans _ _ _ _ _ S1 S2) S3).
  - destruct (Z.eqb_spec v 1) as [Hv1|Hv1].
    + pose proof (table_step_write _ bmc 2 Hok0 ltac:(lia)) as S2.
      pose proof (table_ok_write_counter _ bmc 2 Hok0) as Hok2.
      pose proof (counts_nonneg_write_counter _ bmc 2 Hnn) as Hnn2.
      destruct (Hlast _ 2 Hok2 Hnn2 (read_write_counter _ bmc 2 Hok)
                  ltac:(lia)) as (S3 & Hnn3).
      eexists. split; [reflexivity|].
      cbn [counts store_counter set_counts].
      rewrite (read_write_counter _ bmc 2 Hok).
      change (u16 2 + 1) with 3. change (2 + 1) with 3 in S3, Hnn3.
      split; [|exact Hnn3].
      apply (table_step_ext (fun bo x => put bmc 3 bo (put bmc 2 bo x))).
      * intros bo x. unfold bump. rewrite Hv1. cbn [Z.leb Z.compare].
        unfold put. destruct (cell_eqb bo bmc); reflexivity.
      * exact (table_step_trans _ _ _ _ _ S2 S3).
    + assert (Hr1 : 0 <= v + 1 < 65536).
      { destruct (Z.eq_dec v 65535) as [E|N]; [|lia].
        exfalso. apply Hsat. rewrite E. reflexivity. }
      destruct (Hlast _ v Hok0 Hnn eq_refl Hr1) as (S3 & Hnn3).
      eexists. split; [reflexivity|].
      cbn [counts store_counter set_counts]. fold v.
      split; [|exact Hnn3].
      replace (bump v) with (v + 1); [exact S3|].
      unfold bump. destruct (Z.leb_spec v 1); [lia|reflexivity].
Qed.

(** The facts of a pass, from the stores it makes into the counter it
    looked up. *)
Lemma pass_from_step f c cr c' p bmc :
  counts_inv c = true -> 0 <= chunkshift c <= 52 -> 0 <= p ->
  found cr p bmc -> same_geometry c cr ->
  (forall o, 0 <= o -> counter_at cr o = counter_at c o) ->
  (present (slot c (page_of c p)) = true -> cr = c) ->
  table_step (put bmc (f (counter_at c p))) cr c' ->
  pass_facts f c c' p (blocks_at cr p).
Proof.
  intros Hinv (Hcs0 & Hcs52) Hp Hf (Hpr & Hcsr & Hnr) Hsame Hkeep Hst.
  pose proof Hf as (Hinv0 & _).
  assert (Hv : read_counter cr bmc = counter_at c p).
  { rewrite <- (found_counter_at _ _ _ Hf). apply Hsame. lia. }
  pose proof Hst as (Hinv' & Hp' & Hcs' & Hn' & _ & Hslots).
  assert (Hs0 : 0 <= chunkshift cr) by lia.
  assert (Hs0' : chunkshift cr + 10 < 64) by lia.
  destruct (blocks_at_span_shift cr p Hs0 Hs0' ltac:(lia)) as (Hbl & Hblr).
  assert (Hk62 : 2 ^ span_shift cr p <= 2 ^ 62).
  { apply Z.pow_le_mono_r; [lia|]. unfold span_shift.
    destruct (_ || _); lia. }
  unfold pass_facts.
  split; [lia|]. split; [exact Hinv'|].
  split; [repeat split; congruence|].
  assert (Hdec : forall o, 0 <= o -> found cr o bmc \/ ~ found cr o bmc).
  { intros o Ho.
    destruct (counter_at_cases cr o Hinv0 Ho)
      as [(_ & _ & Hfo & _)|([Hno|Hno] & _)].
    - destruct (cell_eqb_spec (cell_for cr o) bmc) as [Ec|Nc].
      + left. rewrite <- Ec. exact Hfo.
      + right. intros (_ & _ & Ec & _). apply Nc. symmetry. exact Ec.
    - right. intros Hfo. rewrite (found_present _ _ _ Hfo) in Hno.
      discriminate.
    - right. intros (_ & _ & _ & Hl). lia. }
  assert (Hin : forall o, 0 <= o -> found cr o bmc ->
            counter_at c' o = f (counter_at c o)).
  { intros o Ho Hfo.
    destruct (table_step_counter_at cr c' bmc _ o Hinv0 Hst Ho) as (Hx & _).
    rewrite (Hx Hfo). rewrite <- (Hsame o Ho).
    rewrite (found_counter_at _ _ _ Hfo), Hv. reflexivity. }
  assert (Hout : forall o, 0 <= o -> ~ found cr o bmc ->
            counter_at c' o = counter_at c o).
  { intros o Ho Hnf.
    destruct (table_step_counter_at cr c' bmc _ o Hinv0 Hst Ho)
      as (_ & [(Hfo & _)|E] & _); [contradiction|].
    rewrite E. apply Hsame. exact Ho. }
  split.
  { intros o Ho. apply Hin; [lia|].
    apply (found_span cr p o bmc Hs0 Hs0' ltac:(lia) Hf Ho). }
  split.
  { intros o Ho. apply Hout; [lia|].
    apply (not_found_outside cr p o bmc Hs0 Hs0' ltac:(lia) ltac:(lia) Hf).
    left. exact Ho. }
  split.
  { intros o Ho. destruct (Hdec o ltac:(lia)) as [Hfo|Hnf].
    - right. apply Hin; [lia|exact Hfo].
    - left. apply Hout; [lia|exact Hnf]. }
  split.
  { intros Hp1 Hprev Hal o Ho. apply Hout; [lia|].
    apply (not_found_outside cr p o bmc Hs0 Hs0' ltac:(lia) ltac:(lia) Hf).
    right. split; [lia|].
    (* the span of [p] is that of [p - 1], or [p] starts a page *)
    destruct (Z.eq_dec (page_of c (p - 1)) (page_of c p)) as [Epg|Npg].
    - rewrite Epg in Hprev. rewrite (Hkeep Hprev).
      unfold span_shift in *. rewrite <- Epg. exact Hal.
    - assert (Hpage : p mod 2 ^ (chunkshift c + 11) = 0).
      { rewrite !page_of_div in Npg by lia.
        assert (Hw : 0 < 2 ^ (chunkshift c + 11))
          by (apply Z.pow_pos_nonneg; lia).
        revert Npg Hw. generalize (2 ^ (chunkshift c + 11)).
        intros w Npg Hw.
        pose proof (Z.div_le_mono (p - 1) p w Hw ltac:(lia)) as Hmono.
        pose proof (Z.div_mod p w ltac:(lia)) as E1.
        pose proof (Z.mod_pos_bound p w Hw) as B1.
        pose proof (Z.div_mod (p - 1) w ltac:(lia)) as E2.
        pose proof (Z.mod_pos_bound (p - 1) w Hw) as B2.
        assert (Hq : (p - 1) / w + 1 <= p / w) by lia.
        nia. }
      assert (Hsub : forall k, 0 <= k <= chunkshift c + 11 -> p mod 2 ^ k = 0).
      { intros k Hk.
        replace (chunkshift c + 11) with (k + (chunkshift c + 11 - k))
          in Hpage by lia.
        rewrite Z.pow_add_r in Hpage by lia.
        assert (Hk2 : 0 < 2 ^ k) by (apply Z.pow_pos_nonneg; lia).
        assert (Hj2 : 0 < 2 ^ (chunkshift c + 11 - k))
          by (apply Z.pow_pos_nonneg; lia).
        revert Hpage Hk2 Hj2.
        generalize (2 ^ k) (2 ^ (chunkshift c + 11 - k)).
        intros x y Hpage Hx Hy.
        apply Z.mod_divide in Hpage; [|nia]. destruct Hpage as [q Hq].
        apply Z.mod_divide; [lia|]. exists (q * y). nia. }
      apply Hsub. unfold span_shift. rewrite Hcsr.
      destruct (_ || _); lia. }
  (* the end of the span *)
  set (blocks := blocks_at cr p) in *.
  assert (Hlast : p <= p + blocks - 1 < p + blocks) by lia.
  destruct (span_cell cr p (p + blocks - 1) Hs0 Hs0' ltac:(lia) Hlast)
    as (Hpg1 & _).
  assert (Hpg' : page_of c' (p + blocks - 1) = page_of cr p).
  { unfold page_of in *. rewrite Hcs'. exact Hpg1. }
  destruct (Hslots (page_of cr p)) as (Hh' & Hpres' & _).
  pose proof (found_present _ _ _ Hf) as Hpres0.
  split; [rewrite Hpg', Hpres'; exact Hpres0|].
  assert (Hshift : span_shift c' (p + blocks - 1) = span_shift cr p).
  { unfold span_shift. rewrite Hpg', Hcs', Hh'.
    unfold present in Hpres', Hpres0. rewrite Hh' in Hpres'.
    destruct (bp_hijacked (slot cr (page_of cr p))); cbn [orb] in *;
      [reflexivity|].
    apply negb_true_iff in Hpres0. rewrite Hpres0 in Hpres'.
    apply negb_true_iff in Hpres'. rewrite Hpres', Hpres0. reflexivity. }
  rewrite Hshift. subst blocks. rewrite Hbl.
  assert (Hk : 0 < 2 ^ span_shift cr p) by lia.
  revert Hk. generalize (2 ^ span_shift cr p). intros w Hw.
  assert (E : p + (w - p mod w) = (p / w + 1) * w)
    by (pose proof (Z.div_mod p w ltac:(lia)); nia).
  rewrite E. apply Z.mod_mul. lia.
Qed.

Lemma same_geometry_trans c1 c2 c3 :
  same_geometry c1 c2 -> same_geometry c2 c3 -> same_geometry c1 c3.
Proof.
  unfold same_geometry. intros (A1 & A2 & A3) (B1 & B2 & B3).
  repeat split; congruence.
Qed.

Lemma limit_same c0 c : same_geometry c0 c -> limit_of c = limit_of c0.
Proof. intros (_ & Hs & Hn). unfold limit_of. rewrite Hs, Hn. reflexivity. Qed.

Lemma range_inv_start f c offset :
  counts_inv c = true -> range_inv f c c offset offset.
Proof.
  intros Hinv. split; [repeat split|]. split; [exact Hinv|].
  left. split; [reflexivity|auto].
Qed.

(** A pass takes the walk to the end of the span. *)
Lemma range_inv_step f c0 c c1 offset p blocks :
  0 <= offset -> range_inv f c0 c offset p -> pass_facts f c c1 p blocks ->
  range_inv f c0 c1 offset (p + blocks).
Proof.
  intros Hoff (Hsg & Hinv & Hcase)
    (Hbl & Hinv1 & Hsg1 & Hin & Hbeyond & Heither & Hbefore & Hpres1 & Hal1).
  split; [exact (same_geometry_trans _ _ _ Hsg Hsg1)|]. split; [exact Hinv1|].
  right. split; [destruct Hcase as [(-> & _)|(Hlt & _)]; lia|].
  split; [exact Hpres1|]. split; [exact Hal1|].
  destruct Hcase as [(-> & Hsame)|(Hlt & Hpres & Hal & HB & HC & HD)].
  - split; [|split].
    + intros o Ho. rewrite (Hin o Ho), (Hsame o ltac:(lia)). reflexivity.
    + intros o Ho. rewrite (Hbeyond o Ho). apply Hsame. lia.
    + intros o Ho. rewrite <- (Hsame o ltac:(lia)). apply Heither. exact Ho.
  - specialize (Hbefore ltac:(lia) Hpres Hal). split; [|split].
    + intros o Ho. destruct (Z.lt_ge_cases o p) as [Hlo|Hhi].
      * rewrite (Hbefore o ltac:(lia)). apply HB. lia.
      * rewrite (Hin o ltac:(lia)), (HC o ltac:(lia)). reflexivity.
    + intros o Ho. rewrite (Hbeyond o Ho). apply HC. lia.
    + intros o Ho. rewrite (Hbefore o ltac:(lia)). apply HD. exact Ho.
Qed.

(** What a walk that has passed the end of the range has done. *)
Lemma range_inv_done f c0 c offset sectors p :
  1 <= sectors -> offset + sectors <= p -> range_inv f c0 c offset p ->
  (forall o, offset <= o < offset + sectors ->
     counter_at c o = f (counter_at c0 o))
  /\ (forall o, 0 <= o ->
        counter_at c o = counter_at c0 o
        \/ counter_at c o = f (counter_at c0 o)).
Proof.
  intros Hsec Hend (_ & _ & [(-> & _)|(Hlt & _ & _ & HB & HC & HD)]); [lia|].
  split.
  - intros o Ho. apply HB. lia.
  - intros o Ho. destruct (Z.lt_ge_cases o offset); [apply HD; lia|].
    destruct (Z.lt_ge_cases o p); [right; apply HB; lia|left; apply HC; lia].
Qed.

(** The sectors from [p] on still read as at the start. *)
Lemma range_inv_ahead f c0 c offset p o :
  range_inv f c0 c offset p -> 0 <= offset -> p <= o ->
  counter_at c o = counter_at c0 o.
Proof.
  intros (_ & _ & [(-> & Hsame)|(_ & _ & _ & _ & HC & _)]) Hoff Ho.
  - apply Hsame. lia.
  - apply HC. exact Ho.
Qed.

(** One pass of [bitmap_startwrite] at a sector of the table whose
    counter is not saturated. *)
Lemma startwrite_pass b p :
  counts_inv (counts b) = true -> counts_nonneg (counts b) ->
  new_geometry (counts b) -> 0 <= p < limit_of (counts b) ->
  COUNTER (counter_at (counts b) p) <> COUNTER_MAX ->
  exists b' blocks,
    startwrite_step b p = (b', StepNext blocks)
    /\ counts_nonneg (counts b')
    /\ pass_facts bump (counts b) (counts b') p blocks.
Proof.
  intros Hinv Hnn Hgeo Hp Hsat.
  pose proof Hgeo as (Hcs & _).
  pose proof (in_limit _ _ Hgeo Hp) as Hlt.
  destruct (get_counter_create (counts b) p (kz_script b) Hinv
              ltac:(lia) Hlt)
    as (bmc & Hbmc & Hf & _ & Hpr & Hcsr & Hnr & Hsame).
  fold (get_counter b p true) in Hbmc, Hf, Hpr, Hcsr, Hnr, Hsame.
  destruct (startwrite_step_after b p bmc Hinv ltac:(lia) Hbmc) as (_ & Hstep).
  set (b0 := after_get_counter b (get_counter b p true)) in *.
  change (gc_counts (get_counter b p true)) with (counts b0)
    in Hf, Hpr, Hcsr, Hnr, Hsame.
  assert (Hnn0 : counts_nonneg (counts b0))
    by (apply counts_nonneg_get_counter; exact Hnn).
  assert (Hv : read_counter (counts b0) bmc = counter_at (counts b) p).
  { rewrite <- (found_counter_at _ _ _ Hf). apply Hsame. lia. }
  destruct (startwrite_step_table b0 p bmc Hf Hnn0 ltac:(rewrite Hv; exact Hsat))
    as (b' & Hrun & Hst & Hnn').
  rewrite Hv in Hst.
  exists b', (blocks_at (counts b0) p).
  split; [rewrite Hstep; exact Hrun|]. split; [exact Hnn'|].
  apply (pass_from_step bump (counts b) (counts b0) (counts b') p bmc Hinv Hcs
           ltac:(lia) Hf); [repeat split; assumption| | |exact Hst].
  - intros o Ho. apply Hsame. exact Ho.
  - intros Hpres.
    destruct (counter_at_cases (counts b) p Hinv ltac:(lia))
      as [(_ & _ & Hfp & _)|([Hno|Hno] & _)];
      [|rewrite Hpres in Hno; discriminate|lia].
    pose proof (found_get_counter (counts b) p true (kz_script b) _ Hfp) as Hg.
    unfold b0, after_get_counter, get_counter. rewrite Hg. reflexivity.
Qed.

Lemma startwrite_loop_range c0 offset sectors fuel : forall b p rem,
  new_geometry c0 -> range_inv bump c0 (counts b) offset p ->
  counts_nonneg (counts b) ->
  0 <= offset -> offset <= p -> offset + sectors <= limit_of c0 ->
  1 <= sectors -> 0 <= rem -> (rem = 0 -> offset + sectors <= p) ->
  (0 < rem -> p + rem = offset + sectors) ->
  (Z.to_nat rem <= fuel)%nat ->
  (forall o, offset <= o < offset + sectors ->
     COUNTER (counter_at c0 o) <> COUNTER_MAX) ->
  exists b',
    startwrite_loop fuel b p rem = Some (b', SwDone)
    /\ counts_inv (counts b') = true /\ counts_nonneg (counts b')
    /\ same_geometry c0 (counts b')
    /\ (forall o, offset <= o < offset + sectors ->
          counter_at (counts b') o = bump (counter_at c0 o))
    /\ (forall o, 0 <= o ->
          counter_at (counts b') o = counter_at c0 o
          \/ counter_at (counts b') o = bump (counter_at c0 o)).
Proof.
  induction fuel as [|fuel IH];
    intros b p rem Hgeo Hri Hnn Hoff Hp Hlim Hsec Hrem Hr0 Hr1 Hfuel Hsat.
  - assert (rem = 0) as -> by lia. cbn [startwrite_loop Z.eqb].
    exists b. split; [reflexivity|]. pose proof Hri as (Hsg & Hinv & _).
    split; [exact Hinv|]. split; [exact Hnn|]. split; [exact Hsg|].
    exact (range_inv_done _ _ _ _ sectors _ Hsec (Hr0 eq_refl) Hri).
  - cbn [startwrite_loop]. destruct (Z.eqb_spec rem 0) as [->|Hne].
    { exists b. split; [reflexivity|]. pose proof Hri as (Hsg & Hinv & _).
      split; [exact Hinv|]. split; [exact Hnn|]. split; [exact Hsg|].
      exact (range_inv_done _ _ _ _ sectors _ Hsec (Hr0 eq_refl) Hri). }
    specialize (Hr1 ltac:(lia)).
    pose proof Hri as (Hsg & Hinv & _).
    pose proof (same_geometry_new _ _ Hsg Hgeo) as Hgeob.
    pose proof (limit_same _ _ Hsg) as Hlimb.
    pose proof Hgeo as (_ & _ & _ & Hl63). fold (limit_of c0) in Hl63.
    destruct (startwrite_pass b p Hinv Hnn Hgeob ltac:(lia)
                ltac:(rewrite (range_inv_ahead _ _ _ _ _ p Hri Hoff ltac:(lia));
                      apply Hsat; lia))
      as (b1 & blocks & Hrun & Hnn1 & Hpass).
    rewrite Hrun. pose proof Hpass as (Hbl & _).
    assert (Hp63 : 2 ^ 63 = 9223372036854775808) by reflexivity.
    assert (Hp62 : 2 ^ 62 = 4611686018427387904) by reflexivity.
    assert (Hp64 : 2 ^ 64 = 18446744073709551616) by reflexivity.
    rewrite (sector_t_small (p + blocks)) by lia.
    apply (IH b1 (p + blocks) (if blocks <? rem then rem - blocks else 0) Hgeo
             (range_inv_step _ _ _ _ _ _ _ Hoff Hri Hpass) Hnn1 Hoff
             ltac:(lia) Hlim Hsec);
      try (destruct (Z.ltb_spec blocks rem); lia).
    exact Hsat.
Qed.

(** The counter word after [bitmap_endwrite] has taken one write off:
    NEEDED is set first when the write failed. *)
Lemma endwrite_word_range success v :
  1 <= v < 65536 -> 0 <= endwrite_marked success v - 1 < 65536.
Proof.
  intros Hv. pose proof (endwrite_marked_range success v ltac:(lia)) as Hr.
  unfold endwrite_marked in *.
  destruct (negb success && (NEEDED v =? 0)); [|lia].
  destruct (mark_words v ltac:(lia)) as (_ & Hl & _ & _ & _ & Hn & _).
  rewrite Hl in *. change NEEDED_MASK with 32768 in *.
  destruct Hn as [Hn|Hn]; rewrite Hn in *; lia.
Qed.

(** The stores of one pass of [bitmap_endwrite] on a counter that is
    there and not 0. *)
Lemma endwrite_step_table b p success bmc :
  found (counts b) p bmc -> read_counter (counts b) bmc <> 0 ->
  exists b',
    endwrite_step b p success = (b', StepNext (blocks_at (counts b) p))
    /\ table_step
         (put bmc (endwrite_marked success (read_counter (counts b) bmc) - 1))
         (counts b) (counts b')
    /\ (counts_nonneg (counts b) -> counts_nonneg (counts b')).
Proof.
  intros Hf Hnz.
  destruct (after_get_counter_found b p false bmc Hf) as [Hgc Hafter].
  pose proof Hf as (Hinv & Hok & _).
  pose proof (found_page _ _ _ Hf) as Hpg. symmetry in Hpg.
  assert (Hok0 : table_ok (counts b) bmc) by (split; assumption).
  unfold endwrite_step. rewrite Hafter, Hgc. cbn [gc_bmc gc_blocks].
  set (v := read_counter (counts b) bmc) in *.
  assert (Hvr : 1 <= v < 65536).
  { pose proof (u16_range (read_counter (counts b) bmc)) as Hr.
    rewrite read_counter_u16 in Hr. fold v in Hr. lia. }
  set (b1 := if success && (md_degraded (mddev b) =? 0)
                && (events_cleared b <? md_events (mddev b))
             then emit (set_need_sync
                          (set_events_cleared b (md_events (mddev b))) true)
                    EvNotifyCanClear
             else b).
  assert (Hc1 : counts b1 = counts b)
    by (unfold b1; destruct (success && _ && _); reflexivity).
  rewrite Hc1. fold v.
  set (m := endwrite_marked success v).
  pose proof (endwrite_marked_range success v ltac:(lia)) as Hmr. fold m in Hmr.
  pose proof (endwrite_word_range success v Hvr) as Hm1. fold m in Hm1.
  set (b2 := if negb success && (NEEDED v =? 0)
             then store_counter b1 bmc (Z.lor v NEEDED_MASK) else b1).
  assert (H2 : table_step (put bmc m) (counts b) (counts b2)
               /\ read_counter (counts b2) bmc = m
               /\ table_ok (counts b2) bmc
               /\ (counts_nonneg (counts b) -> counts_nonneg (counts b2))).
  { unfold b2, m, endwrite_marked in *.
    destruct (negb success && (NEEDED v =? 0)).
    - cbn [counts store_counter set_counts]. rewrite Hc1.
      split; [apply table_step_write; assumption|].
      split; [rewrite (read_write_counter _ _ _ Hok); apply u16_small;
              exact Hmr|].
      split; [apply table_ok_write_counter; exact Hok0|].
      apply counts_nonneg_write_counter.
    - rewrite Hc1. split; [apply table_step_put_same; [exact Hinv|reflexivity]|].
      split; [reflexivity|]. split; [exact Hok0|auto]. }
  destruct H2 as (S2 & Hr2 & Hok2 & Hnn2).
  set (b3 := if COUNTER (read_counter (counts b2) bmc) =? COUNTER_MAX
             then emit b2 (EvWake overflow_wait) else b2).
  assert (Hc3 : counts b3 = counts b2)
    by (unfold b3;
        destruct (COUNTER (read_counter (counts b2) bmc) =? COUNTER_MAX);
        reflexivity).
  rewrite Hc3, Hr2.
  pose proof (table_step_write (counts b2) bmc (m - 1) Hok2 Hm1) as S4.
  pose proof (table_ok_write_counter (counts b2) bmc (m - 1) Hok2) as Hok4.
  change (counts (store_counter b3 bmc (m - 1)))
    with (write_counter (counts b3) bmc (m - 1)).
  rewrite Hc3.
  assert (S24 : table_step (put bmc (m - 1)) (counts b)
                  (write_counter (counts b2) bmc (m - 1))).
  { eapply table_step_ext; [|exact (table_step_trans _ _ _ _ _ S2 S4)].
    intros bo y. apply put_put. }
  destruct (read_counter (write_counter (counts b2) bmc (m - 1)) bmc <=? 2).
  - eexists. split; [reflexivity|].
    cbn [counts set_allclean set_counts]. split.
    + pose proof (table_step_set_pending _ p (proj1 Hok4)) as S5.
      eapply table_step_ext; [|exact (table_step_trans _ _ _ _ _ S24 S5)].
      intros bo y. reflexivity.
    + intros Hnn. apply counts_nonneg_set_pending.
      apply counts_nonneg_write_counter. apply Hnn2. exact Hnn.
  - eexists. split; [reflexivity|].
    change (counts (store_counter b3 bmc (m - 1)))
      with (write_counter (counts b3) bmc (m - 1)).
    rewrite Hc3. split; [exact S24|].
    intros Hnn. apply counts_nonneg_write_counter. apply Hnn2. exact Hnn.
Qed.

(** One pass of [bitmap_endwrite] at a sector whose counter is not 0. *)
Lemma endwrite_pass b p success :
  counts_inv (counts b) = true -> 0 <= chunkshift (counts b) <= 52 ->
  0 <= p -> counter_at (counts b) p <> 0 ->
  exists b' blocks,
    endwrite_step b p success = (b', StepNext blocks)
    /\ pass_facts (fun v => endwrite_marked success v - 1)
         (counts b) (counts b') p blocks.
Proof.
  intros Hinv Hcs Hp Hnz.
  destruct (counter_at_cases (counts b) p Hinv Hp)
    as [(_ & _ & Hf & Hv)|(_ & Hz)]; [|contradiction].
  destruct (endwrite_step_table b p success _ Hf ltac:(rewrite <- Hv; exact Hnz))
    as (b' & Hrun & Hst & _).
  rewrite <- Hv in Hst.
  exists b', (blocks_at (counts b) p). split; [exact Hrun|].
  apply (pass_from_step (fun v => endwrite_marked success v - 1)
           (counts b) (counts b) (counts b') p _ Hinv Hcs Hp Hf);
    [repeat split|auto|auto|exact Hst].
Qed.

Lemma endwrite_loop_range success c0 offset sectors fuel : forall b p rem,
  0 <= chunkshift c0 <= 52 ->
  range_inv (fun v => endwrite_marked success v - 1) c0 (counts b) offset p ->
  0 <= offset -> offset <= p -> offset + sectors <= 2 ^ 63 ->
  1 <= sectors -> 0 <= rem -> (rem = 0 -> offset + sectors <= p) ->
  (0 < rem -> p + rem = offset + sectors) ->
  (Z.to_nat rem <= fuel)%nat ->
  (forall o, offset <= o < offset + sectors -> counter_at c0 o <> 0) ->
  exists b',
    endwrite_loop fuel b p rem success = Some b'
    /\ counts_inv (counts b') = true
    /\ same_geometry c0 (counts b')
    /\ (forall o, offset <= o < offset + sectors ->
          counter_at (counts b') o
          = endwrite_marked success (counter_at c0 o) - 1)
    /\ (forall o, 0 <= o ->
          counter_at (counts b') o = counter_at c0 o
          \/ counter_at (counts b') o
             = endwrite_marked success (counter_at c0 o) - 1).
Proof.
  induction fuel as [|fuel IH];
    intros b p rem Hcs Hri Hoff Hp Hlim Hsec Hrem Hr0 Hr1 Hfuel Hnz.
  - assert (rem = 0) as -> by lia. cbn [endwrite_loop Z.eqb].
    exists b. split; [reflexivity|]. pose proof Hri as (Hsg & Hinv & _).
    split; [exact Hinv|]. split; [exact Hsg|].
    exact (range_inv_done _ _ _ _ sectors _ Hsec (Hr0 eq_refl) Hri).
  - cbn [endwrite_loop]. destruct (Z.eqb_spec rem 0) as [->|Hne].
    { exists b. split; [reflexivity|]. pose proof Hri as (Hsg & Hinv & _).
      split; [exact Hinv|]. split; [exact Hsg|].
      exact (range_inv_done _ _ _ _ sectors _ Hsec (Hr0 eq_refl) Hri). }
    specialize (Hr1 ltac:(lia)).
    pose proof Hri as (Hsg & Hinv & _).
    pose proof Hsg as (_ & Hcsb & _).
    destruct (endwrite_pass b p success Hinv ltac:(rewrite Hcsb; exact Hcs)
                ltac:(lia)
                ltac:(rewrite (range_inv_ahead _ _ _ _ _ p Hri Hoff ltac:(lia));
                      apply Hnz; lia))
      as (b1 & blocks & Hrun & Hpass).
    rewrite Hrun. pose proof Hpass as (Hbl & _).
    assert (Hp63 : 2 ^ 63 = 9223372036854775808) by reflexivity.
    assert (Hp62 : 2 ^ 62 = 4611686018427387904) by reflexivity.
    assert (Hp64 : 2 ^ 64 = 18446744073709551616) by reflexivity.
    rewrite (sector_t_small (p + blocks)) by lia.
    apply (IH b1 (p + blocks) (if blocks <? rem then rem - blocks else 0) Hcs
             (range_inv_step _ _ _ _ _ _ _ Hoff Hri Hpass) Hoff
             ltac:(lia) Hlim Hsec);
      try (destruct (Z.ltb_spec blocks rem); lia).
    exact Hnz.
Qed.

(** *** The sectors that share a counter with the range *)

Lemma found_unique c o b1 b2 : found c o b1 -> found c o b2 -> b1 = b2.
Proof. intros (_ & _ & -> & _) (_ & _ & -> & _). reflexivity. Qed.

Lemma cells_kept_refl c : cells_kept c c.
Proof. intros o bmc _ H. exact H. Qed.

Lemma cells_kept_trans c1 c2 c3 :
  cells_kept c1 c2 -> cells_kept c2 c3 -> cells_kept c1 c3.
Proof. intros H1 H2 o bmc Ho Hf. apply H2, H1; assumption. Qed.

Lemma cells_kept_table_step f c c' : table_step f c c' -> cells_kept c c'.
Proof. intros Hst o bmc _ Hf. exact (found_step _ _ _ _ _ Hst Hf). Qed.

(** [bitmap_get_counter] with [create] keeps the counters that are
    there. *)
Lemma cells_kept_get_counter c p kz :
  counts_inv c = true -> 0 <= p -> page_of c p < pages c ->
  cells_kept c (gc_counts (bitmap_get_counter c p true kz)).
Proof.
  intros Hinv Hp Hlt o bo Ho Hfo.
  destruct (bitmap_get_counter_create c p kz Hinv Hp Hlt) as [bmc Hbmc].
  destruct (bitmap_get_counter_some c p true kz bmc Hinv Hp Hbmc)
    as (Hinv' & _ & _ & _ & Hpg & Hcs & _ & Hlen & _ & _ & Hother).
  cbv zeta in *.
  destruct (bitmap_get_counter_fresh c p kz bmc Hinv Hp Hbmc)
    as [(_ & -> & _)|(_ & Hm & Hh & _)]; [exact Hfo|].
  apply (found_frame c _ o bo Hfo Hinv'); [|exact Hpg|exact Hcs].
  pose proof Hfo as (_ & Hok & _ & _).
  pose proof (found_present _ _ _ Hfo) as Hpres.
  pose proof (found_page _ _ _ Hfo) as Hcp.
  assert (Hne : Z.to_nat (cell_page bo) <> Z.to_nat (page_of c p)).
  { intros E.
    assert (E' : cell_page bo = page_of c p).
    { apply Z2Nat.inj; [apply (cell_okb_nonneg c bo Hok)
                       |apply page_of_nonneg; exact Hp|exact E]. }
    rewrite <- Hcp, E' in Hpres. unfold present in Hpres.
    rewrite Hh, Hm in Hpres. discriminate. }
  rewrite (cell_okb_frame c _ bo Hlen); [exact Hok| |];
    rewrite (Hother (cell_page bo) Hne); reflexivity.
Qed.

(** After stores into the counter of [p], a sector that reads another
    value has the counter of [p]. *)
Lemma changed_shares c c' bmc v p :
  counts_inv c = true -> found c p bmc -> table_step (put bmc v) c c' ->
  forall o, 0 <= o -> counter_at c' o <> counter_at c o ->
            same_counter c' o p.
Proof.
  intros Hinv Hf Hst o Ho Hne.
  destruct (table_step_counter_at c c' bmc v o Hinv Hst Ho)
    as (_ & [(Hfo & _)|E] & _); [|contradiction].
  exists bmc. split; apply (found_step _ _ _ _ _ Hst); assumption.
Qed.

Lemma same_counter_kept c c' o q :
  cells_kept c c' -> 0 <= o -> 0 <= q ->
  same_counter c o q -> same_counter c' o q.
Proof.
  intros Hk Ho Hq (bmc & Hfo & Hfq). exists bmc. split; apply Hk; assumption.
Qed.

(** Two sectors that share a counter in a later table read alike in the
    earlier one. *)
Lemma shared_reads_alike c c' o q :
  counts_inv c = true -> 0 <= o -> 0 <= q -> cells_kept c c' ->
  pages c' = pages c -> chunkshift c' = chunkshift c ->
  same_counter c' o q -> counter_at c o = counter_at c q.
Proof.
  intros Hinv Ho Hq Hk Hpg Hcs (bmc & Hfo & Hfq).
  assert (Hpage : page_of c o = page_of c q).
  { pose proof (found_page _ _ _ Hfo) as E1.
    pose proof (found_page _ _ _ Hfq) as E2.
    unfold page_of in *. rewrite Hcs in E1, E2. congruence. }
  destruct (counter_at_cases c q Hinv Hq)
    as [(Hpr & Hlt & Hcq & Hrq)|(Hno & Hrq)].
  - destruct (counter_at_cases c o Hinv Ho)
      as [(_ & _ & Hco & Hro)|(Hno & _)].
    + rewrite Hro, Hrq.
      rewrite (found_unique _ _ _ _ (Hk _ _ Ho Hco) Hfo).
      rewrite (found_unique _ _ _ _ (Hk _ _ Hq Hcq) Hfq). reflexivity.
    + rewrite Hpage in Hno. destruct Hno; [congruence|lia].
  - rewrite Hrq.
    destruct (counter_at_cases c o Hinv Ho)
      as [(Hpr & Hlt & _)|(_ & Hro)]; [|exact Hro].
    rewrite Hpage in Hpr, Hlt. destruct Hno; [congruence|lia].
Qed.

(** One pass of [bitmap_startwrite]: the counters that are there stay,
    and a sector whose counter changes shares it with [p]. *)
Lemma startwrite_pass_cells b p b' blocks :
  counts_inv (counts b) = true -> counts_nonneg (counts b) ->
  new_geometry (counts b) -> 0 <= p < limit_of (counts b) ->
  COUNTER (counter_at (counts b) p) <> COUNTER_MAX ->
  startwrite_step b p = (b', StepNext blocks) ->
  cells_kept (counts b) (counts b')
  /\ forall o, 0 <= o -> counter_at (counts b') o <> counter_at (counts b) o ->
               same_counter (counts b') o p.
Proof.
  intros Hinv Hnn Hgeo Hp Hsat Hrun0.
  pose proof (in_limit _ _ Hgeo Hp) as Hlt.
  pose proof (cells_kept_get_counter (counts b) p (kz_script b) Hinv
                ltac:(lia) Hlt) as Hk0.
  destruct (get_counter_create (counts b) p (kz_script b) Hinv
              ltac:(lia) Hlt)
    as (bmc & Hbmc & Hf & _ & Hpr & Hcsr & Hnr & Hsame).
  fold (get_counter b p true) in Hbmc, Hf, Hpr, Hcsr, Hnr, Hsame, Hk0.
  destruct (startwrite_step_after b p bmc Hinv ltac:(lia) Hbmc) as (_ & Hstep).
  set (b0 := after_get_counter b (get_counter b p true)) in *.
  change (gc_counts (get_counter b p true)) with (counts b0)
    in Hf, Hpr, Hcsr, Hnr, Hsame, Hk0.
  assert (Hnn0 : counts_nonneg (counts b0))
    by (apply counts_nonneg_get_counter; exact Hnn).
  assert (Hv : read_counter (counts b0) bmc = counter_at (counts b) p).
  { rewrite <- (found_counter_at _ _ _ Hf). apply Hsame. lia. }
  destruct (startwrite_step_table b0 p bmc Hf Hnn0 ltac:(rewrite Hv; exact Hsat))
    as (b1 & Hrun & Hst & _).
  rewrite Hstep, Hrun in Hrun0. injection Hrun0 as <- _.
  split.
  - exact (cells_kept_trans _ _ _ Hk0 (cells_kept_table_step _ _ _ Hst)).
  - intros o Ho Hne.
    apply (changed_shares (counts b0) (counts b1) bmc _ p (proj1 Hf) Hf Hst o Ho).
    rewrite (proj1 (Hsame o Ho)). exact Hne.
Qed.

(** One pass of [bitmap_endwrite]. *)
Lemma endwrite_pass_cells b p success b' blocks :
  counts_inv (counts b) = true -> 0 <= p -> counter_at (counts b) p <> 0 ->
  endwrite_step b p success = (b', StepNext blocks) ->
  cells_kept (counts b) (counts b')
  /\ forall o, 0 <= o -> counter_at (counts b') o <> counter_at (counts b) o ->
               same_counter (counts b') o p.
Proof.
  intros Hinv Hp Hnz Hrun0.
  destruct (counter_at_cases (counts b) p Hinv Hp)
    as [(_ & _ & Hf & Hv)|(_ & Hz)]; [|contradiction].
  destruct (endwrite_step_table b p success _ Hf ltac:(rewrite <- Hv; exact Hnz))
    as (b1 & Hrun & Hst & _).
  rewrite Hrun in Hrun0. injection Hrun0 as <- _.
  split.
  - exact (cells_kept_table_step _ _ _ Hst).
  - exact (changed_shares _ _ _ _ p Hinv Hf Hst).
Qed.

(** The walk of [bitmap_startwrite] from [p]: the counters that are
    there stay, and a sector whose counter changes shares it with a
    sector of the rest of the range. *)
Lemma startwrite_loop_cells c0 offset sectors fuel : forall b p rem b',
  new_geometry c0 -> range_inv bump c0 (counts b) offset p ->
  counts_nonneg (counts b) ->
  0 <= offset -> offset <= p -> offset + sectors <= limit_of c0 ->
  1 <= sectors -> 0 <= rem -> (rem = 0 -> offset + sectors <= p) ->
  (0 < rem -> p + rem = offset + sectors) ->
  (forall o, offset <= o < offset + sectors ->
     COUNTER (counter_at c0 o) <> COUNTER_MAX) ->
  startwrite_loop fuel b p rem = Some (b', SwDone) ->
  cells_kept (counts b) (counts b')
  /\ forall o, 0 <= o -> counter_at (counts b') o <> counter_at (counts b) o ->
       exists q, p <= q < offset + sectors /\ same_counter (counts b') o q.
Proof.
  induction fuel as [|fuel IH];
    intros b p rem b' Hgeo Hri Hnn Hoff Hp Hlim Hsec Hrem Hr0 Hr1 Hsat Hrun;
    cbn [startwrite_loop] in Hrun.
  - destruct (rem =? 0); [|discriminate]. injection Hrun as <-.
    split; [apply cells_kept_refl|]. intros o _ Hne. contradiction.
  - destruct (Z.eqb_spec rem 0) as [->|Hne0].
    { injection Hrun as <-.
      split; [apply cells_kept_refl|]. intros o _ Hne. contradiction. }
    specialize (Hr1 ltac:(lia)).
    pose proof Hri as (Hsg & Hinv & _).
    pose proof (same_geometry_new _ _ Hsg Hgeo) as Hgeob.
    pose proof (limit_same _ _ Hsg) as Hlimb.
    pose proof Hgeo as (_ & _ & _ & Hl63). fold (limit_of c0) in Hl63.
    assert (Hsatp : COUNTER (counter_at (counts b) p) <> COUNTER_MAX).
    { rewrite (range_inv_ahead _ _ _ _ _ p Hri Hoff ltac:(lia)).
      apply Hsat. lia. }
    destruct (startwrite_pass b p Hinv Hnn Hgeob ltac:(lia) Hsatp)
      as (b1 & blocks & Hstep & Hnn1 & Hpass).
    destruct (startwrite_pass_cells b p b1 blocks Hinv Hnn Hgeob ltac:(lia)
                Hsatp Hstep) as (Hk1 & Hch1).
    rewrite Hstep in Hrun. pose proof Hpass as (Hbl & _).
    assert (Hp63 : 2 ^ 63 = 9223372036854775808) by reflexivity.
    assert (Hp62 : 2 ^ 62 = 4611686018427387904) by reflexivity.
    assert (Hp64 : 2 ^ 64 = 18446744073709551616) by reflexivity.
    rewrite (sector_t_small (p + blocks)) in Hrun by lia.
    destruct (IH b1 (p + blocks) (if blocks <? rem then rem - blocks else 0) b'
                Hgeo (range_inv_step _ _ _ _ _ _ _ Hoff Hri Hpass) Hnn1 Hoff
                ltac:(lia) Hlim Hsec
                ltac:(destruct (Z.ltb_spec blocks rem); lia)
                ltac:(destruct (Z.ltb_spec blocks rem); lia)
                ltac:(destruct (Z.ltb_spec blocks rem); lia)
                Hsat Hrun) as (Hk2 & Hch2).
    split; [exact (cells_kept_trans _ _ _ Hk1 Hk2)|].
    intros o Ho Hne.
    destruct (Z.eq_dec (counter_at (counts b') o) (counter_at (counts b1) o))
      as [E|N].
    + exists p. split; [lia|].
      apply (same_counter_kept _ _ o p Hk2 Ho ltac:(lia)).
      apply Hch1; [exact Ho|]. rewrite <- E. exact Hne.
    + destruct (Hch2 o Ho N) as (q & Hq & Hs). exists q. split; [lia|exact Hs].
Qed.

Lemma endwrite_loop_cells success c0 offset sectors fuel : forall b p rem b',
  0 <= chunkshift c0 <= 52 ->
  range_inv (fun v => endwrite_marked success v - 1) c0 (counts b) offset p ->
  0 <= offset -> offset <= p -> offset + sectors <= 2 ^ 63 ->
  1 <= sectors -> 0 <= rem -> (rem = 0 -> offset + sectors <= p) ->
  (0 < rem -> p + rem = offset + sectors) ->
  (forall o, offset <= o < offset + sectors -> counter_at c0 o <> 0) ->
  endwrite_loop fuel b p rem success = Some b' ->
  cells_kept (counts b) (counts b')
  /\ forall o, 0 <= o -> counter_at (counts b') o <> counter_at (counts b) o ->
       exists q, p <= q < offset + sectors /\ same_counter (counts b') o q.
Proof.
  induction fuel as [|fuel IH];
    intros b p rem b' Hcs Hri Hoff Hp Hlim Hsec Hrem Hr0 Hr1 Hnz Hrun;
    cbn [endwrite_loop] in Hrun.
  - destruct (rem =? 0); [|discriminate]. injection Hrun as <-.
    split; [apply cells_kept_refl|]. intros o _ Hne. contradiction.
  - destruct (Z.eqb_spec rem 0) as [->|Hne0].
    { injection Hrun as <-.
      split; [apply cells_kept_refl|]. intros o _ Hne. contradiction. }
    specialize (Hr1 ltac:(lia)).
    pose proof Hri as (Hsg & Hinv & _).
    pose proof Hsg as (_ & Hcsb & _).
    assert (Hnzp : counter_at (counts b) p <> 0).
    { rewrite (range_inv_ahead _ _ _ _ _ p Hri Hoff ltac:(lia)).
      apply Hnz. lia. }
    destruct (endwrite_pass b p success Hinv ltac:(rewrite Hcsb; exact Hcs)
                ltac:(lia) Hnzp)
      as (b1 & blocks & Hstep & Hpass).
    destruct (endwrite_pass_cells b p success b1 blocks Hinv ltac:(lia) Hnzp
                Hstep) as (Hk1 & Hch1).
    rewrite Hstep in Hrun. pose proof Hpass as (Hbl & _).
    assert (Hp63 : 2 ^ 63 = 9223372036854775808) by reflexivity.
    assert (Hp62 : 2 ^ 62 = 4611686018427387904) by reflexivity.
    assert (Hp64 : 2 ^ 64 = 18446744073709551616) by reflexivity.
    rewrite (sector_t_small (p + blocks)) in Hrun by lia.
    destruct (IH b1 (p + blocks) (if blocks <? rem then rem - blocks else 0) b'
                Hcs (range_inv_step _ _ _ _ _ _ _ Hoff Hri Hpass) Hoff
                ltac:(lia) Hlim Hsec
                ltac:(destruct (Z.ltb_spec blocks rem); lia)
                ltac:(destruct (Z.ltb_spec blocks rem); lia)
                ltac:(destruct (Z.ltb_spec blocks rem); lia)
                Hnz Hrun) as (Hk2 & Hch2).
    split; [exact (cells_kept_trans _ _ _ Hk1 Hk2)|].
    intros o Ho Hne.
    destruct (Z.eq_dec (counter_at (counts b') o) (counter_at (counts b1) o))
      as [E|N].
    + exists p. split; [lia|].
      apply (same_counter_kept _ _ o p Hk2 Ho ltac:(lia)).
      apply Hch1; [exact Ho|]. rewrite <- E. exact Hne.
    + destruct (Hch2 o Ho N) as (q & Hq & Hs). exists q. split; [lia|exact Hs].
Qed.

(** What the walk over a range leaves, in terms of the counters shared
    with the range. *)
Lemma range_frame f c c' offset sectors :
  counts_inv c = true -> 0 <= offset -> same_geometry c c' ->
  cells_kept c c' ->
  (forall o, offset <= o < offset + sectors ->
     counter_at c' o = f (counter_at c o)) ->
  (forall o, 0 <= o -> counter_at c' o <> counter_at c o ->
     exists q, offset <= q < offset + sectors /\ same_counter c' o q) ->
  (forall o, 0 <= o ->
     (exists q, offset <= q < offset + sectors /\ same_counter c' o q) ->
     counter_at c' o = f (counter_at c o))
  /\ (forall o, 0 <= o ->
        (forall q, offset <= q < offset + sectors -> ~ same_counter c' o q) ->
        counter_at c' o = counter_at c o).
Proof.
  intros Hinv Hoff (Hpg & Hcs & _) Hk Hrange Hch. split.
  - intros o Ho (q & Hq & Hs).
    rewrite (shared_reads_alike c c' o q Hinv Ho ltac:(lia) Hk Hpg Hcs Hs).
    rewrite <- (Hrange q Hq).
    destruct Hs as (bmc & Hfo & Hfq).
    rewrite (found_counter_at _ _ _ Hfo), (found_counter_at _ _ _ Hfq).
    reflexivity.
  - intros o Ho Hnone.
    destruct (Z.eq_dec (counter_at c' o) (counter_at c o)) as [E|N];
      [exact E|].
    destruct (Hch o Ho N) as (q & Hq & Hs). exfalso. exact (Hnone q Hq Hs).
Qed.

(** X19.  A [bitmap_startwrite] over sectors [offset .. offset + sectors)
    that lie in the table and whose counters are not saturated returns,
    having counted the write once in the counter of every sector of the
    range: a counter of 0 or 1 goes to 3, any other goes up by one, also
    when the range takes in several chunks, pages or hijacked slots.  A
    sector outside the range that shares its counter with a sector of
    the range (in the table as the call leaves it) is counted with it;
    every sector that shares its counter with no sector of the range
    keeps its counter. *)
Theorem bitmap_startwrite_range b offset sectors :
  counts_inv (counts b) = true -> counts_nonneg (counts b) ->
  new_geometry (counts b) -> 0 <= offset -> 1 <= sectors ->
  offset + sectors <= limit_of (counts b) ->
  (forall o, offset <= o < offset + sectors ->
     COUNTER (counter_at (counts b) o) <> COUNTER_MAX) ->
  exists b',
    bitmap_startwrite b offset sectors false = Some (b', SwDone)
    /\ counts_inv (counts b') = true /\ counts_nonneg (counts b')
    /\ (forall o, offset <= o < offset + sectors ->
          counter_at (counts b') o = bump (counter_at (counts b) o))
    /\ (forall o, 0 <= o ->
          (exists q, offset <= q < offset + sectors
                     /\ same_counter (counts b') o q) ->
          counter_at (counts b') o = bump (counter_at (counts b) o))
    /\ (forall o, 0 <= o ->
          (forall q, offset <= q < offset + sectors ->
                     ~ same_counter (counts b') o q) ->
          counter_at (counts b') o = counter_at (counts b) o).
Proof.
  intros Hinv Hnn Hgeo Hoff Hsec Hlim Hsat. unfold bitmap_startwrite.
  destruct (startwrite_loop_range (counts b) offset sectors (Z.to_nat sectors)
              b offset sectors Hgeo (range_inv_start _ _ _ Hinv) Hnn Hoff
              ltac:(lia) Hlim Hsec ltac:(lia) ltac:(lia) ltac:(lia) ltac:(lia)
              Hsat)
    as (b' & Hloop & Hinv' & Hnn' & Hsg & Hrange & _).
  destruct (startwrite_loop_cells (counts b) offset sectors (Z.to_nat sectors)
              b offset sectors b' Hgeo (range_inv_start _ _ _ Hinv) Hnn Hoff
              ltac:(lia) Hlim Hsec ltac:(lia) ltac:(lia) ltac:(lia) Hsat Hloop)
    as (Hk & Hch).
  destruct (range_frame bump (counts b) (counts b') offset sectors Hinv Hoff
              Hsg Hk Hrange Hch) as (Hin & Hout).
  exists b'. split; [exact Hloop|]. split; [exact Hinv'|].
  split; [exact Hnn'|]. split; [exact Hrange|]. split; [exact Hin|exact Hout].
Qed.

Lemma bitmap_startwrite_range_witness :
  exists b',
    bitmap_startwrite (ex_bitmap [] []) 4 20 false = Some (b', SwDone)
    /\ counter_at (counts b') 4 = 3 /\ counter_at (counts b') 23 = 3.
Proof.
  destruct (bitmap_startwrite_range (ex_bitmap [] []) 4 20 ltac:(reflexivity)
              ltac:(intros p; unfold slot; cbn;
                    destruct (Z.to_nat p) as [|[|n]]; cbn; lia)
              ltac:(vm_compute; intuition congruence)
              ltac:(lia) ltac:(lia) ltac:(vm_compute; discriminate))
    as (b' & Hrun & _ & _ & Hrange & _).
  { intros o Ho. change (counts (ex_bitmap [] [])) with ex_counts.
    rewrite (counter_at_absent (ex_counts) o); [discriminate| |].
    - unfold slot. cbn. destruct (Z.to_nat _) as [|[|n]]; reflexivity.
    - unfold slot. cbn. destruct (Z.to_nat _) as [|[|n]]; reflexivity. }
  exists b'. split; [exact Hrun|].
  split; [exact (Hrange 4 ltac:(lia))|exact (Hrange 23 ltac:(lia))].
Defined.

(** X20.  A [bitmap_endwrite] over sectors [offset .. offset + sectors)
    whose counters are not 0 returns, having taken the write off the
    counter of every sector of the range once: the counter goes down by
    one, with NEEDED set first when the write failed.  A sector outside
    the range that shares its counter with a sector of the range has the
    write taken off with it; every sector that shares its counter with no
    sector of the range keeps its counter. *)
Theorem bitmap_endwrite_range b offset sectors success :
  counts_inv (counts b) = true -> 0 <= chunkshift (counts b) <= 52 ->
  0 <= offset -> 1 <= sectors -> offset + sectors <= 2 ^ 63 ->
  (forall o, offset <= o < offset + sectors ->
     counter_at (counts b) o <> 0) ->
  exists b',
    bitmap_endwrite b offset sectors success false = Some b'
    /\ counts_inv (counts b') = true
    /\ (forall o, offset <= o < offset + sectors ->
          counter_at (counts b') o
          = endwrite_marked success (counter_at (counts b) o) - 1)
    /\ (forall o, 0 <= o ->
          (exists q, offset <= q < offset + sectors
                     /\ same_counter (counts b') o q) ->
          counter_at (counts b') o
          = endwrite_marked success (counter_at (counts b) o) - 1)
    /\ (forall o, 0 <= o ->
          (forall q, offset <= q < offset + sectors ->
                     ~ same_counter (counts b') o q) ->
          counter_at (counts b') o = counter_at (counts b) o).
Proof.
  intros Hinv Hcs Hoff Hsec Hlim Hnz. unfold bitmap_endwrite.
  destruct (endwrite_loop_range success (counts b) offset sectors
              (Z.to_nat sectors) b offset sectors Hcs
              (range_inv_start _ _ _ Hinv) Hoff ltac:(lia) Hlim Hsec
              ltac:(lia) ltac:(lia) ltac:(lia) ltac:(lia) Hnz)
    as (b' & Hloop & Hinv' & Hsg & Hrange & _).
  destruct (endwrite_loop_cells success (counts b) offset sectors
              (Z.to_nat sectors) b offset sectors b' Hcs
              (range_inv_start _ _ _ Hinv) Hoff ltac:(lia) Hlim Hsec
              ltac:(lia) ltac:(lia) ltac:(lia) Hnz Hloop)
    as (Hk & Hch).
  destruct (range_frame (fun v => endwrite_marked success v - 1)
              (counts b) (counts b') offset sectors Hinv Hoff Hsg Hk Hrange Hch)
    as (Hin & Hout).
  exists b'. split; [exact Hloop|]. split; [exact Hinv'|].
  split; [exact Hrange|]. split; [exact Hin|exact Hout].
Qed.

(** X21.  A write started and then ended with success over the same
    sectors, whatever chunks, pages and hijacked slots the range takes
    in: both calls return, and every counter of the range that was 2 or
    more is back at its value, while one that was 0 or 1 is left at 2,
    for the daemon to bring down. *)
Theorem write_range_round_trip b offset sectors :
  counts_inv (counts b) = true -> counts_nonneg (counts b) ->
  new_geometry (counts b) -> 0 <= offset -> 1 <= sectors ->
  offset + sectors <= limit_of (counts b) ->
  (forall o, offset <= o < offset + sectors ->
     COUNTER (counter_at (counts b) o) <> COUNTER_MAX) ->
  exists b1 b2,
    bitmap_startwrite b offset sectors false = Some (b1, SwDone)
    /\ bitmap_endwrite b1 offset sectors true false = Some b2
    /\ (forall o, offset <= o < offset + sectors ->
          counter_at (counts b2) o
          = if counter_at (counts b) o <=? 1 then 2
            else counter_at (counts b) o).
Proof.
  intros Hinv Hnn Hgeo Hoff Hsec Hlim Hsat.
  pose proof Hgeo as (Hcs & _ & _ & Hl63). fold (limit_of (counts b)) in Hl63.
  unfold bitmap_startwrite.
  destruct (startwrite_loop_range (counts b) offset sectors (Z.to_nat sectors)
              b offset sectors Hgeo (range_inv_start _ _ _ Hinv) Hnn Hoff
              ltac:(lia) Hlim Hsec ltac:(lia) ltac:(lia) ltac:(lia) ltac:(lia)
              Hsat)
    as (b1 & Hloop & Hinv1 & _ & Hsg1 & Hrange1 & _).
  assert (Hpos : forall o, 0 <= o -> 0 <= counter_at (counts b) o).
  { intros o Ho.
    destruct (counter_at_cases (counts b) o Hinv Ho)
      as [(_ & _ & _ & ->)|(_ & ->)]; [|lia].
    rewrite <- read_counter_u16. apply u16_range. }
  assert (Hnz1 : forall o, offset <= o < offset + sectors ->
            counter_at (counts b1) o <> 0).
  { intros o Ho. rewrite (Hrange1 o Ho). unfold bump.
    pose proof (Hpos o ltac:(lia)).
    destruct (Z.leb_spec (counter_at (counts b) o) 1); lia. }
  destruct Hsg1 as (_ & Hcs1 & _).
  unfold bitmap_endwrite.
  destruct (endwrite_loop_range true (counts b1) offset sectors
              (Z.to_nat sectors) b1 offset sectors
              ltac:(rewrite Hcs1; exact Hcs)
              (range_inv_start _ _ _ Hinv1) Hoff ltac:(lia) ltac:(lia) Hsec
              ltac:(lia) ltac:(lia) ltac:(lia) ltac:(lia) Hnz1)
    as (b2 & Hloop2 & _ & _ & Hrange2 & _).
  exists b1, b2. split; [exact Hloop|]. split; [exact Hloop2|].
  intros o Ho. rewrite (Hrange2 o Ho), (Hrange1 o Ho).
  unfold endwrite_marked, bump. cbn [negb andb].
  destruct (Z.leb_spec (counter_at (counts b) o) 1); lia.
Qed.

Lemma bitmap_endwrite_range_witness :
  exists b',
    bitmap_endwrite (ex_started 1 (ex_bitmap [] [])) 0 8 true false = Some b'
    /\ counter_at (counts b') 0 = 2.
Proof.
  destruct (bitmap_endwrite_range (ex_started 1 (ex_bitmap [] [])) 0 8 true
              ltac:(reflexivity) ltac:(vm_compute; intuition congruence)
              ltac:(lia) ltac:(lia) ltac:(vm_compute; discriminate))
    as (b' & Hrun & _ & Hrange & _).
  { intros o Ho.
    rewrite (counter_at_span (counts (ex_started 1 (ex_bitmap [] []))) 0 o
               ltac:(reflexivity) ltac:(vm_compute; discriminate)
               ltac:(vm_compute; reflexivity) ltac:(lia)).
    - vm_compute. discriminate.
    - change (blocks_at (counts (ex_started 1 (ex_bitmap [] []))) 0) with 8.
      lia. }
  exists b'. split; [exact Hrun|]. exact (Hrange 0 ltac:(lia)).
Defined.

Lemma write_range_round_trip_witness :
  exists b1 b2,
    bitmap_startwrite (ex_bitmap [] []) 4 20 false = Some (b1, SwDone)
    /\ bitmap_endwrite b1 4 20 true false = Some b2
    /\ counter_at (counts b2) 4 = 2 /\ counter_at (counts b2) 23 = 2.
Proof.
  destruct (write_range_round_trip (ex_bitmap [] []) 4 20 ltac:(reflexivity)
              ltac:(intros p; unfold slot; cbn;
                    destruct (Z.to_nat p) as [|[|n]]; cbn; lia)
              ltac:(vm_compute; intuition congruence)
              ltac:(lia) ltac:(lia) ltac:(vm_compute; discriminate))
    as (b1 & b2 & Hs & He & Hrange).
  { intros o Ho. change (counts (ex_bitmap [] [])) with ex_counts.
    rewrite (counter_at_absent (ex_counts) o); [discriminate| |].
    - unfold slot. cbn. destruct (Z.to_nat _) as [|[|n]]; reflexivity.
    - unfold slot. cbn. destruct (Z.to_nat _) as [|[|n]]; reflexivity. }
  exists b1, b2. split; [exact Hs|]. split; [exact He|].
  split; [exact (Hrange 4 ltac:(lia))|exact (Hrange 23 ltac:(lia))].
Defined.

(** ** The write intent in the image *)

Lemma intent_kept_same b b' :
  storage b' = storage b -> flags b' = flags b -> intent_kept b b'.
Proof.
  intros Hs Hf. unfold intent_kept. rewrite Hs.
  split; [exact Hf|]. split; [reflexivity|]. split; [reflexivity|].
  split; [intros k pg H; exists pg; split; [exact H|reflexivity]|].
  split.
  - intros j Hj Ht. rewrite (file_test_bit_ext b b'); [exact Ht| | | |];
      rewrite ?Hs; auto.
  - intros i Ht. unfold test_page_attr in *. rewrite Hs. exact Ht.
Qed.

Lemma intent_kept_trans b1 b2 b3 :
  intent_kept b1 b2 -> intent_kept b2 b3 -> intent_kept b1 b3.
Proof.
  intros (A1 & A2 & A3 & A4 & A5 & A6) (B1 & B2 & B3 & B4 & B5 & B6).
  unfold intent_kept.
  split; [congruence|]. split; [congruence|]. split; [congruence|].
  split; [|split; auto].
  intros k pg H. destruct (A4 k pg H) as (pg' & H' & E').
  destruct (B4 k pg' H') as (pg'' & H'' & E''). exists pg''.
  split; [exact H''|congruence].
Qed.

Lemma has_page_kept_intent b b' j :
  intent_kept b b' -> has_page (storage b) j -> has_page (storage b') j.
Proof.
  intros (_ & A2 & A3 & A4 & _) (k & pg & Hk & Hpg & Hi).
  destruct (A4 k pg Hpg) as (pg' & Hpg' & Ei). exists k, pg'.
  rewrite (filemap_get_page_ext (storage b) (storage b')) by assumption.
  split; [exact Hk|]. split; [exact Hpg'|congruence].
Qed.

(** [bitmap_file_set_bit] clears nothing, and records the intent for the
    chunk of the block when the image has its page. *)
Lemma file_set_bit_intent b block :
  0 <= Z.shiftr block (chunkshift (counts b)) < 2 ^ 64 - 2048 ->
  intent_kept b (bitmap_file_set_bit b block)
  /\ (forall k pg,
        filemap_get_page (storage b) (Z.shiftr block (chunkshift (counts b)))
        = Some k ->
        filemap_page (storage b) k = Some pg -> pg_index pg = k ->
        file_test_bit (bitmap_file_set_bit b block)
          (Z.shiftr block (chunkshift (counts b))) = true
        /\ test_page_attr (bitmap_file_set_bit b block) k BITMAP_PAGE_DIRTY
           = true).
Proof.
  intros Hc.
  set (chunk := Z.shiftr block (chunkshift (counts b))) in *.
  destruct (bitmap_file_set_bit_frame b block) as (_ & Hfl & _).
  destruct (filemap_get_page (storage b) chunk) as [k|] eqn:Hk.
  2:{ assert (E : bitmap_file_set_bit b block = b)
        by (unfold bitmap_file_set_bit; fold chunk; rewrite Hk; reflexivity).
      rewrite E. split; [apply intent_kept_same; reflexivity|].
      intros k pg H. discriminate H. }
  destruct (filemap_page (storage b) k) as [pg|] eqn:Hpg.
  2:{ assert (E : bitmap_file_set_bit b block = b)
        by (unfold bitmap_file_set_bit; fold chunk; rewrite Hk, Hpg;
            reflexivity).
      rewrite E. split; [apply intent_kept_same; reflexivity|].
      intros k' pg' H1 H2. congruence. }
  assert (Hk0 : 0 <= k).
  { unfold filemap_get_page in Hk.
    destruct (file_pages (storage b) <=? file_page_index (storage b) chunk);
      [discriminate|]. injection Hk as <-.
    pose proof (file_page_index_nonneg (storage b) chunk Hc).
    assert (file_page_index (storage b) 0 = 0)
      by (unfold file_page_index; destruct (sb_page (storage b)); reflexivity).
    lia. }
  assert (Hshape : bitmap_file_set_bit b block
                   = set_page_attr
                       (set_storage b
                          (set_filemap_page (storage b) k
                             (mk_pg (pg_index pg)
                                (Z.setbit (pg_data pg)
                                   (file_page_offset (storage b) chunk)))))
                       (pg_index pg) BITMAP_PAGE_DIRTY).
  { unfold bitmap_file_set_bit. fold chunk. rewrite Hk, Hpg, set_bit_either.
    reflexivity. }
  destruct (set_filemap_page_frame (storage b) k
              (mk_pg (pg_index pg)
                 (Z.setbit (pg_data pg) (file_page_offset (storage b) chunk))))
    as (F1 & F2 & F3).
  assert (Hbits : forall j, 0 <= j < 2 ^ 64 - 2048 ->
            file_test_bit (bitmap_file_set_bit b block) j
            = if j =? chunk then true else file_test_bit b j).
  { intros j Hj. apply (file_set_bit_test b block k pg j Hc Hj Hk Hpg). }
  split.
  - unfold intent_kept. split; [exact Hfl|].
    split; [rewrite Hshape; exact F1|]. split; [rewrite Hshape; exact F2|].
    split; [|split].
    + intros k' pg' H'. rewrite Hshape.
      cbn [set_page_attr storage set_storage].
      unfold filemap_page in *. unfold set_filemap_page.
      destruct (filemap (storage b)) as [fm|]; [|discriminate].
      cbn [filemap set_filemap set_filemap_attr].
      destruct (decide (Z.to_nat k = Z.to_nat k')) as [E|N].
      * rewrite E in *. rewrite list_lookup_insert_eq
          by (apply lookup_lt_Some in H'; exact H').
        eexists. split; [reflexivity|]. cbn. congruence.
      * rewrite list_lookup_insert_ne by exact N. exists pg'. auto.
    + intros j Hj Ht. rewrite (Hbits j Hj).
      destruct (j =? chunk); [reflexivity|exact Ht].
    + intros i Ht. rewrite Hshape.
      unfold test_page_attr, set_page_attr, test_bit, set_bit in *.
      cbn [storage set_storage filemap_attr set_filemap_attr].
      rewrite F3. unfold Z.setbit. rewrite Z.lor_spec, Ht. reflexivity.
  - intros k' pg' Hk' Hpg' Hidx. injection Hk' as <-.
    rewrite Hpg in Hpg'. injection Hpg' as <-.
    split; [rewrite (Hbits chunk Hc), Z.eqb_refl; reflexivity|].
    rewrite Hshape, Hidx.
    unfold test_page_attr, set_page_attr, test_bit, set_bit.
    cbn [storage set_storage filemap_attr set_filemap_attr].
    apply Z.setbit_eq. apply attr_bit_nonneg; [lia|].
    unfold BITMAP_PAGE_DIRTY. lia.
Qed.

Lemma startwrite_step_storage b p bmc :
  found (counts b) p bmc ->
  COUNTER (read_counter (counts b) bmc) <> COUNTER_MAX ->
  flags (fst (startwrite_step b p)) = flags b
  /\ storage (fst (startwrite_step b p))
     = (if read_counter (counts b) bmc =? 0
        then storage (bitmap_file_set_bit b p) else storage b).
Proof.
  intros Hf Hsat. unfold startwrite_step.
  destruct (after_get_counter_found b p true bmc Hf) as (Hr & Hb0).
  rewrite Hb0, Hr. cbn [gc_bmc gc_blocks].
  destruct (Z.eqb_spec (COUNTER (read_counter (counts b) bmc)) COUNTER_MAX)
    as [|_]; [contradiction|].
  destruct (bitmap_file_set_bit_frame b p) as (_ & Hfl & _).
  cbn [fst].
  destruct (read_counter (counts b) bmc =? 0);
    [|destruct (read_counter (counts b) bmc =? 1)];
    cbn [store_counter set_counts flags storage]; auto.
Qed.

(** One pass of [bitmap_startwrite], with what it does to the image and
    to the slots. *)
Lemma startwrite_pass_intent b p :
  counts_inv (counts b) = true -> counts_nonneg (counts b) ->
  new_geometry (counts b) -> 0 <= p < limit_of (counts b) ->
  COUNTER (counter_at (counts b) p) <> COUNTER_MAX ->
  exists b' blocks,
    startwrite_step b p = (b', StepNext blocks)
    /\ counts_nonneg (counts b')
    /\ pass_facts bump (counts b) (counts b') p blocks
    /\ intent_kept b b'
    /\ (counter_at (counts b) p = 0 ->
        forall k pg,
          filemap_get_page (storage b) (Z.shiftr p (chunkshift (counts b)))
          = Some k ->
          filemap_page (storage b) k = Some pg -> pg_index pg = k ->
          file_test_bit b' (Z.shiftr p (chunkshift (counts b))) = true
          /\ test_page_attr b' k BITMAP_PAGE_DIRTY = true)
    /\ (forall q, present (slot (counts b) q) = true ->
          present (slot (counts b') q) = true
          /\ bp_hijacked (slot (counts b') q) = bp_hijacked (slot (counts b) q))
    /\ present (slot (counts b') (page_of (counts b) p)) = true
    /\ (bp_hijacked (slot (counts b') (page_of (counts b) p)) = false ->
        blocks = 2 ^ chunkshift (counts b) - p mod 2 ^ chunkshift (counts b))
    /\ (forall o, p <= o < p + blocks ->
          page_of (counts b) o = page_of (counts b) p).
Proof.
  intros Hinv Hnn Hgeo Hp Hsat.
  pose proof Hgeo as (Hcs & _ & _ & Hl63). fold (limit_of (counts b)) in Hl63.
  pose proof (in_limit _ _ Hgeo Hp) as Hlt.
  destruct (get_counter_create (counts b) p (kz_script b) Hinv
              ltac:(lia) Hlt)
    as (bmc & Hbmc & Hf & _ & Hpr & Hcsr & Hnr & Hsame).
  fold (get_counter b p true) in Hbmc, Hf, Hpr, Hcsr, Hnr, Hsame.
  destruct (startwrite_step_after b p bmc Hinv ltac:(lia) Hbmc) as (_ & Hstep).
  pose proof (bitmap_get_counter_fresh (counts b) p (kz_script b) bmc Hinv
                ltac:(lia) Hbmc) as Hfresh.
  destruct (bitmap_get_counter_some (counts b) p true (kz_script b) bmc Hinv
              ltac:(lia) Hbmc) as (_ & _ & _ & _ & _ & _ & _ & _ & _ & _ & Hoth).
  cbv zeta in Hoth.
  fold (get_counter b p true) in Hfresh, Hoth.
  set (b0 := after_get_counter b (get_counter b p true)) in *.
  change (gc_counts (get_counter b p true)) with (counts b0)
    in Hf, Hpr, Hcsr, Hnr, Hsame, Hfresh, Hoth.
  assert (Hnn0 : counts_nonneg (counts b0))
    by (apply counts_nonneg_get_counter; exact Hnn).
  assert (Hv : read_counter (counts b0) bmc = counter_at (counts b) p).
  { rewrite <- (found_counter_at _ _ _ Hf). apply Hsame. lia. }
  destruct (startwrite_step_table b0 p bmc Hf Hnn0 ltac:(rewrite Hv; exact Hsat))
    as (b' & Hrun & Hst & Hnn').
  destruct (startwrite_step_storage b0 p bmc Hf ltac:(rewrite Hv; exact Hsat))
    as (Hfl & Hsto).
  rewrite Hrun in Hfl, Hsto. cbn [fst] in Hfl, Hsto.
  rewrite Hv in Hst, Hsto.
  assert (Hkeep : present (slot (counts b) (page_of (counts b) p)) = true ->
                  counts b0 = counts b).
  { intros Hpres.
    destruct (counter_at_cases (counts b) p Hinv ltac:(lia))
      as [(_ & _ & Hfp & _)|([Hno|Hno] & _)];
      [|rewrite Hpres in Hno; discriminate|lia].
    pose proof (found_get_counter (counts b) p true (kz_script b) _ Hfp) as Hg.
    unfold b0, after_get_counter, get_counter. rewrite Hg. reflexivity. }
  assert (Hslot0 : forall q, present (slot (counts b) q) = true ->
                     slot (counts b0) q = slot (counts b) q).
  { intros q Hq.
    destruct Hfresh as [(_ & E & _)|(_ & Hm & Hh & _)]; [rewrite E; reflexivity|].
    apply Hoth. intros E.
    rewrite (slot_to_nat (counts b) q (page_of (counts b) p) E) in Hq.
    unfold present in Hq. rewrite Hm, Hh in Hq. discriminate Hq. }
  pose proof Hst as (_ & _ & Hcs' & _ & _ & Hslots).
  assert (Hpg0 : page_of (counts b0) p = page_of (counts b) p)
    by (unfold page_of; rewrite Hcsr; reflexivity).
  exists b', (blocks_at (counts b0) p).
  split; [rewrite Hstep; exact Hrun|]. split; [exact Hnn'|].
  split.
  { apply (pass_from_step bump (counts b) (counts b0) (counts b') p bmc Hinv Hcs
             ltac:(lia) Hf); [repeat split; assumption| |exact Hkeep|exact Hst].
    intros o Ho. apply Hsame. exact Ho. }
  assert (Hchunk : 0 <= Z.shiftr p (chunkshift (counts b)) < 2 ^ 64 - 2048).
  { rewrite Z.shiftr_div_pow2 by lia.
    assert (0 < 2 ^ chunkshift (counts b)) by (apply Z.pow_pos_nonneg; lia).
    assert (Hp63 : 2 ^ 63 = 9223372036854775808) by reflexivity.
    assert (Hp64 : 2 ^ 64 = 18446744073709551616) by reflexivity.
    split; [apply Z.div_pos; lia|].
    apply Z.le_lt_trans with p; [apply Z.div_le_upper_bound; nia|lia]. }
  assert (Hb0s : storage b0 = storage b /\ flags b0 = flags b)
    by (split; reflexivity).
  destruct Hb0s as (Hs0 & Hf0).
  destruct (file_set_bit_intent b0 p ltac:(rewrite Hcsr; exact Hchunk))
    as (Hik & Hset).
  rewrite Hcsr in Hset.
  split.
  { destruct (counter_at (counts b) p =? 0).
    - apply (intent_kept_trans b b0); [apply intent_kept_same; assumption|].
      apply (intent_kept_trans b0 (bitmap_file_set_bit b0 p)); [exact Hik|].
      apply intent_kept_same; [exact Hsto|].
      rewrite Hfl. symmetry.
      apply (bitmap_file_set_bit_frame b0 p).
    - apply intent_kept_same; [rewrite Hsto; exact Hs0|rewrite Hfl; exact Hf0]. }
  split.
  { intros Hz k pg Hk Hpg Hidx. rewrite Hz in Hsto. cbn [Z.eqb] in Hsto.
    rewrite <- Hs0 in Hk, Hpg.
    destruct (Hset k pg Hk Hpg Hidx) as (Hbit & Hdirty).
    split.
    - rewrite (file_test_bit_ext (bitmap_file_set_bit b0 p) b');
        [exact Hbit|rewrite Hsto; reflexivity|rewrite Hsto; reflexivity
        |rewrite Hsto; reflexivity|].
      rewrite Hfl. symmetry. apply (bitmap_file_set_bit_frame b0 p).
    - rewrite (test_page_attr_ext (bitmap_file_set_bit b0 p) b');
        [exact Hdirty|rewrite Hsto; reflexivity]. }
  split.
  { intros q Hq. destruct (Hslots q) as (Hh & Hpres & _).
    rewrite Hh, Hpres, (Hslot0 q Hq). auto. }
  split.
  { destruct (Hslots (page_of (counts b) p)) as (_ & Hpres & _).
    rewrite Hpres, <- Hpg0. apply (found_present _ _ _ Hf). }
  split.
  { intros Hnh.
    destruct (Hslots (page_of (counts b) p)) as (Hh & _).
    rewrite Hh, <- Hpg0 in Hnh.
    pose proof (found_present _ _ _ Hf) as Hpres0.
    destruct (blocks_at_span_shift (counts b0) p ltac:(lia) ltac:(lia)
                ltac:(lia)) as (Hbl & _).
    rewrite Hbl. unfold span_shift. unfold present in Hpres0.
    rewrite Hnh in *. cbn [orb] in *. apply negb_true_iff in Hpres0.
    rewrite Hpres0, Hcsr. reflexivity. }
  intros o Ho.
  destruct (span_cell (counts b0) p o ltac:(lia) ltac:(lia) ltac:(lia) Ho)
    as (Hpgo & _).
  unfold page_of in *. rewrite Hcsr in Hpgo. exact Hpgo.
Qed.

Lemma startwrite_loop_intent c0 b0 offset sectors fuel : forall b p rem,
  new_geometry c0 -> range_inv bump c0 (counts b) offset p ->
  counts_nonneg (counts b) ->
  0 <= offset -> offset <= p -> offset + sectors <= limit_of c0 ->
  1 <= sectors -> 0 <= rem -> (rem = 0 -> offset + sectors <= p) ->
  (0 < rem -> p + rem = offset + sectors) ->
  (Z.to_nat rem <= fuel)%nat ->
  (forall o, offset <= o < offset + sectors ->
     COUNTER (counter_at c0 o) <> COUNTER_MAX) ->
  intent_kept b0 b ->
  (forall o, offset <= o < p ->
     present (slot (counts b) (page_of c0 o)) = true) ->
  (forall o, offset <= o < p -> counter_at c0 o = 0 ->
     bp_hijacked (slot (counts b) (page_of c0 o)) = false ->
     forall k pg,
       filemap_get_page (storage b0) (Z.shiftr o (chunkshift c0)) = Some k ->
       filemap_page (storage b0) k = Some pg -> pg_index pg = k ->
       file_test_bit b (Z.shiftr o (chunkshift c0)) = true
       /\ test_page_attr b k BITMAP_PAGE_DIRTY = true) ->
  exists b',
    startwrite_loop fuel b p rem = Some (b', SwDone)
    /\ intent_kept b0 b'
    /\ (forall o, offset <= o < offset + sectors -> counter_at c0 o = 0 ->
          bp_hijacked (slot (counts b') (page_of c0 o)) = false ->
          forall k pg,
            filemap_get_page (storage b0) (Z.shiftr o (chunkshift c0)) = Some k ->
            filemap_page (storage b0) k = Some pg -> pg_index pg = k ->
            file_test_bit b' (Z.shiftr o (chunkshift c0)) = true
            /\ test_page_attr b' k BITMAP_PAGE_DIRTY = true).
Proof.
  induction fuel as [|fuel IH];
    intros b p rem Hgeo Hri Hnn Hoff Hp Hlim Hsec Hrem Hr0 Hr1 Hfuel Hsat
      HI1 HI2 HI3.
  - assert (rem = 0) as -> by lia. cbn [startwrite_loop Z.eqb].
    exists b. split; [reflexivity|]. split; [exact HI1|].
    intros o Ho. apply HI3. specialize (Hr0 eq_refl). lia.
  - cbn [startwrite_loop]. destruct (Z.eqb_spec rem 0) as [->|Hne].
    { exists b. split; [reflexivity|]. split; [exact HI1|].
      intros o Ho. apply HI3. specialize (Hr0 eq_refl). lia. }
    specialize (Hr1 ltac:(lia)).
    pose proof Hri as (Hsg & Hinv & _).
    pose proof (same_geometry_new _ _ Hsg Hgeo) as Hgeob.
    pose proof (limit_same _ _ Hsg) as Hlimb.
    pose proof Hgeo as ((Hcs0 & Hcs52) & _ & _ & Hl63).
    fold (limit_of c0) in Hl63.
    pose proof Hsg as (_ & Hcsb & _).
    assert (Hat : counter_at (counts b) p = counter_at c0 p)
      by (apply (range_inv_ahead _ _ _ _ _ p Hri Hoff); lia).
    destruct (startwrite_pass_intent b p Hinv Hnn Hgeob ltac:(lia)
                ltac:(rewrite Hat; apply Hsat; lia))
      as (b1 & blocks & Hrun & Hnn1 & Hpass & Hik & Hset & Hbook & Hpres1
          & Hchunk & Hpage).
    rewrite Hrun. pose proof Hpass as (Hbl & _).
    assert (Hp63 : 2 ^ 63 = 9223372036854775808) by reflexivity.
    assert (Hp62 : 2 ^ 62 = 4611686018427387904) by reflexivity.
    assert (Hp64 : 2 ^ 64 = 18446744073709551616) by reflexivity.
    rewrite (sector_t_small (p + blocks)) by lia.
    assert (Hpgeq : forall o, page_of (counts b) o = page_of c0 o)
      by (intros o; unfold page_of; rewrite Hcsb; reflexivity).
    apply (IH b1 (p + blocks) (if blocks <? rem then rem - blocks else 0) Hgeo
             (range_inv_step _ _ _ _ _ _ _ Hoff Hri Hpass) Hnn1 Hoff
             ltac:(lia) Hlim Hsec);
      try (destruct (Z.ltb_spec blocks rem); lia).
    + exact Hsat.
    + exact (intent_kept_trans _ _ _ HI1 Hik).
    + intros o Ho. destruct (Z.lt_ge_cases o p) as [Hlo|Hhi].
      * apply Hbook. apply HI2. lia.
      * rewrite <- Hpgeq, (Hpage o ltac:(lia)). exact Hpres1.
    + intros o Ho Hz Hnh k pg Hk Hpg Hidx.
      destruct (Z.lt_ge_cases o p) as [Hlo|Hhi].
      * destruct (Hbook _ (HI2 o ltac:(lia))) as (_ & Hh).
        rewrite Hh in Hnh.
        destruct (HI3 o ltac:(lia) Hz Hnh k pg Hk Hpg Hidx) as (Hbit & Hd).
        destruct Hik as (_ & _ & _ & _ & Kbits & Kdirty).
        split; [|apply Kdirty; exact Hd].
        apply Kbits; [|exact Hbit].
        rewrite Z.shiftr_div_pow2 by lia.
        assert (0 < 2 ^ chunkshift c0) by (apply Z.pow_pos_nonneg; lia).
        split; [apply Z.div_pos; lia|].
        apply Z.le_lt_trans with o; [apply Z.div_le_upper_bound; nia|lia].
      * rewrite <- Hpgeq, (Hpage o ltac:(lia)) in Hnh.
        specialize (Hchunk Hnh). rewrite Hcsb in Hchunk.
        assert (Hsame : Z.shiftr o (chunkshift c0) = Z.shiftr p (chunkshift c0)).
        { rewrite !Z.shiftr_div_pow2 by lia.
          apply span_window; [lia|lia|]. rewrite <- Hchunk. lia. }
        assert (Hzp : counter_at (counts b) p = 0).
        { rewrite Hat.
          rewrite <- (counter_at_same_chunk c0 c0 o p eq_refl Hsame).
          exact Hz. }
        destruct (HI1) as (_ & A2 & A3 & A4 & _).
        destruct (A4 k pg Hpg) as (pg' & Hpg' & Ei).
        rewrite Hsame. rewrite <- Hcsb.
        apply (Hset Hzp k pg').
        -- rewrite (filemap_get_page_ext (storage b0) (storage b))
             by assumption.
           rewrite Hcsb, <- Hsame. exact Hk.
        -- exact Hpg'.
        -- congruence.
Qed.

(** X22.  The write intent reaches the image before [bitmap_startwrite]
    returns: for every sector of the range whose counter was 0 and whose
    slot is not hijacked afterwards, the bit of its chunk is set in the
    image and the page that holds it is DIRTY, wherever the image has a
    page for the chunk.  No bit of the image is cleared and no page loses
    DIRTY. *)
Theorem bitmap_startwrite_intent b offset sectors :
  counts_inv (counts b) = true -> counts_nonneg (counts b) ->
  new_geometry (counts b) -> 0 <= offset -> 1 <= sectors ->
  offset + sectors <= limit_of (counts b) ->
  (forall o, offset <= o < offset + sectors ->
     COUNTER (counter_at (counts b) o) <> COUNTER_MAX) ->
  exists b',
    bitmap_startwrite b offset sectors false = Some (b', SwDone)
    /\ (forall o, offset <= o < offset + sectors ->
          counter_at (counts b) o = 0 ->
          bp_hijacked (slot (counts b') (page_of (counts b) o)) = false ->
          forall k pg,
            filemap_get_page (storage b)
              (Z.shiftr o (chunkshift (counts b))) = Some k ->
            filemap_page (storage b) k = Some pg -> pg_index pg = k ->
            file_test_bit b' (Z.shiftr o (chunkshift (counts b))) = true
            /\ test_page_attr b' k BITMAP_PAGE_DIRTY = true)
    /\ (forall j, 0 <= j < 2 ^ 64 - 2048 ->
          file_test_bit b j = true -> file_test_bit b' j = true)
    /\ (forall i, test_page_attr b i BITMAP_PAGE_DIRTY = true ->
          test_page_attr b' i BITMAP_PAGE_DIRTY = true).
Proof.
  intros Hinv Hnn Hgeo Hoff Hsec Hlim Hsat. unfold bitmap_startwrite.
  destruct (startwrite_loop_intent (counts b) b offset sectors
              (Z.to_nat sectors) b offset sectors Hgeo
              (range_inv_start _ _ _ Hinv) Hnn Hoff ltac:(lia) Hlim Hsec
              ltac:(lia) ltac:(lia) ltac:(lia) ltac:(lia) Hsat
              (intent_kept_same b b eq_refl eq_refl)
              ltac:(intros o Ho; lia) ltac:(intros o Ho; lia))
    as (b' & Hloop & Hik & Hintent).
  exists b'. split; [exact Hloop|]. split; [exact Hintent|].
  destruct Hik as (_ & _ & _ & _ & Kbits & Kdirty). split; assumption.
Qed.

Lemma bitmap_startwrite_intent_witness :
  exists b',
    bitmap_startwrite (ex_bitmap [] []) 4 20 false = Some (b', SwDone)
    /\ file_test_bit b' 0 = true /\ file_test_bit b' 2 = true
    /\ test_page_attr b' 0 BITMAP_PAGE_DIRTY = true.
Proof.
  destruct (bitmap_startwrite_intent (ex_bitmap [] []) 4 20 ltac:(reflexivity)
              ltac:(intros p; unfold slot; cbn;
                    destruct (Z.to_nat p) as [|[|n]]; cbn; lia)
              ltac:(vm_compute; intuition congruence)
              ltac:(lia) ltac:(lia) ltac:(vm_compute; discriminate))
    as (b' & Hrun & Hintent & _).
  { intros o Ho. change (counts (ex_bitmap [] [])) with ex_counts.
    rewrite (counter_at_absent (ex_counts) o); [discriminate| |].
    - unfold slot. cbn. destruct (Z.to_nat _) as [|[|n]]; reflexivity.
    - unfold slot. cbn. destruct (Z.to_nat _) as [|[|n]]; reflexivity. }
  assert (Hb : Some (b', SwDone)
               = bitmap_startwrite (ex_bitmap [] []) 4 20 false)
    by (symmetry; exact Hrun).
  vm_compute in Hb. injection Hb as Hb.
  exists b'. split; [exact Hrun|].
  assert (H4 : file_test_bit b' (Z.shiftr 4 3) = true
               /\ test_page_attr b' 0 BITMAP_PAGE_DIRTY = true).
  { apply (Hintent 4 ltac:(lia)) with (pg := mk_pg 0 0);
      [reflexivity|rewrite Hb; reflexivity|reflexivity|reflexivity|reflexivity]. }
  assert (H23 : file_test_bit b' (Z.shiftr 23 3) = true
                /\ test_page_attr b' 0 BITMAP_PAGE_DIRTY = true).
  { apply (Hintent 23 ltac:(lia)) with (pg := mk_pg 0 0);
      [reflexivity|rewrite Hb; reflexivity|reflexivity|reflexivity|reflexivity]. }
  destruct H4 as (H4 & Hd). destruct H23 as (H23 & _).
  split; [exact H4|]. split; [exact H23|exact Hd].
Defined.

(** ** From the write to the transport *)

Lemma same_env_refl b : same_env b b.
Proof. repeat split; auto. Qed.

Lemma same_env_trans b1 b2 b3 :
  same_env b1 b2 -> same_env b2 b3 -> same_env b1 b3.
Proof.
  intros (A1 & A2 & A3 & A4 & A5 & A6 & A7) (B1 & B2 & B3 & B4 & B5 & B6 & B7).
  repeat split; try congruence; auto.
Qed.

Lemma same_env_counts b c : same_env b (set_counts b c).
Proof. repeat split; auto. Qed.

Lemma page_index_set_filemap_page store k pg data j :
  filemap_page store k = Some pg ->
  page_index (set_filemap_page store k (mk_pg (pg_index pg) data)) j
  = page_index store j.
Proof.
  unfold page_index, filemap_page, set_filemap_page.
  destruct (filemap store) as [fm|]; [|discriminate].
  intros Hpg. cbn [filemap set_filemap].
  destruct (Nat.eq_dec (Z.to_nat j) (Z.to_nat k)) as [E|N].
  - rewrite E, list_lookup_insert_eq by (apply lookup_lt_Some in Hpg; exact Hpg).
    rewrite Hpg. reflexivity.
  - rewrite list_lookup_insert_ne by auto. reflexivity.
Qed.

Lemma file_set_bit_env b block : same_env b (bitmap_file_set_bit b block).
Proof.
  unfold bitmap_file_set_bit.
  destruct (filemap_get_page _ _) as [k|]; [|apply same_env_refl].
  destruct (filemap_page (storage b) k) as [pg|] eqn:Hpg;
    [|apply same_env_refl].
  split; [reflexivity|]. split; [reflexivity|].
  cbn [set_page_attr set_storage storage].
  split; [|split; [|split; [|split]]].
  - unfold set_filemap_page. destruct (filemap (storage b)); reflexivity.
  - unfold set_filemap_page. destruct (filemap (storage b)); reflexivity.
  - unfold set_filemap_page. destruct (filemap (storage b)); reflexivity.
  - intros j.
    rewrite <- (page_index_set_filemap_page (storage b) k pg
                  (if test_flag BITMAP_HOSTENDIAN (flags b)
                   then set_bit (file_page_offset (storage b)
                                   (Z.shiftr block (chunkshift (counts b))))
                          (pg_data pg)
                   else set_bit_le (file_page_offset (storage b)
                                      (Z.shiftr block (chunkshift (counts b))))
                          (pg_data pg)) j Hpg).
    unfold page_index, filemap_page, set_filemap_page.
    destruct (filemap (storage b)); reflexivity.
  - unfold set_filemap_page.
    destruct (filemap (storage b)) as [fm|]; cbn; auto.
Qed.

Lemma startwrite_step_env b p : same_env b (fst (startwrite_step b p)).
Proof.
  unfold startwrite_step.
  destruct (gc_bmc (get_counter b p true)) as [bmc|]; [|repeat split; auto].
  set (b0 := after_get_counter b (get_counter b p true)).
  assert (H0 : same_env b b0) by (repeat split; auto).
  destruct (COUNTER (read_counter (counts b0) bmc) =? COUNTER_MAX);
    [repeat split; auto|].
  pose proof (file_set_bit_env b0 p) as Hf.
  cbn [fst]. apply (same_env_trans _ _ _ H0).
  destruct (read_counter (counts b0) bmc =? 0);
    [|destruct (read_counter (counts b0) bmc =? 1)];
    unfold store_counter.
  - apply (same_env_trans _ _ _ Hf). repeat split; auto.
  - repeat split; auto.
  - apply same_env_counts.
Qed.

Lemma startwrite_loop_env fuel : forall b p rem b' res,
  startwrite_loop fuel b p rem = Some (b', res) -> same_env b b'.
Proof.
  induction fuel as [|fuel IH]; intros b p rem b' res;
    cbn [startwrite_loop].
  - destruct (rem =? 0); [|discriminate]. intros [= <- <-].
    apply same_env_refl.
  - destruct (rem =? 0); [intros [= <- <-]; apply same_env_refl|].
    pose proof (startwrite_step_env b p) as He.
    destruct (startwrite_step b p) as [b1 [| |blocks]]; cbn [fst] in He.
    + intros [= <- <-]. exact He.
    + intros [= <- <-]. exact He.
    + intros H. apply IH in H. apply (same_env_trans _ _ _ He H).
Qed.

Lemma members_aligned_env b b' :
  same_env b b' -> members_aligned b -> members_aligned b'.
Proof.
  intros (_ & E2 & _ & E4 & E5 & E6 & _) Hal k rdev Hk Hr.
  rewrite E2 in *. rewrite E4 in Hk. rewrite E6.
  rewrite (bad_alignment_ext (mddev b) (storage b) (storage b')) by assumption.
  apply Hal; assumption.
Qed.

Lemma pages_from_In n : forall i x,
  In x (pages_from n i) <-> i <= x < i + Z.of_nat n.
Proof.
  induction n as [|n IH]; intros i x; cbn [pages_from In].
  - split; [tauto|lia].
  - rewrite IH. split.
    + intros [<-|H]; lia.
    + intros H. destruct (Z.eq_dec i x); [left; assumption|right; lia].
Qed.

(** X23.  From the write to the transport: after [bitmap_startwrite] on
    a bitmap whose transfers do not fail, [bitmap_unplug] hands to the
    transport, for every sector of the range whose counter was 0 and
    whose slot is not hijacked, the page of the image that holds the bit
    of its chunk, with that bit set. *)
Theorem write_intent_reaches_transport b offset sectors :
  counts_inv (counts b) = true -> counts_nonneg (counts b) ->
  new_geometry (counts b) -> 0 <= offset -> 1 <= sectors ->
  offset + sectors <= limit_of (counts b) ->
  (forall o, offset <= o < offset + sectors ->
     COUNTER (counter_at (counts b) o) <> COUNTER_MAX) ->
  transfers_ok b ->
  exists b',
    bitmap_startwrite b offset sectors false = Some (b', SwDone)
    /\ forall o, offset <= o < offset + sectors ->
         counter_at (counts b) o = 0 ->
         bp_hijacked (slot (counts b') (page_of (counts b) o)) = false ->
         forall k pg,
           filemap_get_page (storage b)
             (Z.shiftr o (chunkshift (counts b))) = Some k ->
           filemap_page (storage b) k = Some pg -> pg_index pg = k ->
           exists data super,
             In (EvWritePage k data super) (log (bitmap_unplug b'))
             /\ Z.testbit data
                  (file_page_offset (storage b)
                     (Z.shiftr o (chunkshift (counts b)))) = true.
Proof.
  intros Hinv Hnn Hgeo Hoff Hsec Hlim Hsat
    (Tfm & Tfile & Tst & Terr & Tls & Tmem & Tal).
  pose proof Hgeo as ((Hcs0 & _) & _ & _ & Hl63).
  fold (limit_of (counts b)) in Hl63.
  unfold bitmap_startwrite.
  destruct (startwrite_loop_intent (counts b) b offset sectors
              (Z.to_nat sectors) b offset sectors Hgeo
              (range_inv_start _ _ _ Hinv) Hnn Hoff ltac:(lia) Hlim Hsec
              ltac:(lia) ltac:(lia) ltac:(lia) ltac:(lia) Hsat
              (intent_kept_same b b eq_refl eq_refl)
              ltac:(intros o Ho; lia) ltac:(intros o Ho; lia))
    as (b' & Hloop & Hik & Hintent).
  exists b'. split; [exact Hloop|].
  pose proof (startwrite_loop_env _ _ _ _ _ _ Hloop) as Henv.
  pose proof Henv as (E1 & E2 & E3 & _ & _ & _ & E4).
  destruct Hik as (Kfl & Ksb & Kfp & Kpg & _ & _).
  intros o Ho Hz Hnh k pg Hk Hpg Hidx.
  destruct (Hintent o Ho Hz Hnh k pg Hk Hpg Hidx) as (Hbit & Hdirty).
  destruct (Kpg k pg Hpg) as (pg' & Hpg' & Ei).
  assert (Hlog : log (bitmap_unplug b')
                 = rev (flat_map (page_writes b')
                          (List.filter (to_flush b')
                             (pages_from
                                (Z.to_nat (file_pages (storage b'))) 0)))
                   ++ log b').
  { apply bitmap_unplug_log.
    - apply E4. exact Tfm.
    - congruence.
    - rewrite Kfl. exact Tst.
    - rewrite Kfl. exact Terr.
    - congruence.
    - apply (members_aligned_env b b' Henv Tal). }
  exists (pg_data pg'),
         (if sb_page (storage b') && (k =? 0) then Some (sb (storage b'))
          else None).
  split.
  - rewrite Hlog. apply in_or_app. left. apply (proj1 (in_rev _ _)).
    assert (Himg : page_image b' k
                   = EvWritePage k (pg_data pg')
                       (if sb_page (storage b') && (k =? 0)
                        then Some (sb (storage b')) else None)).
    { unfold page_image. rewrite Hpg'. simpl. rewrite Ei, Hidx.
      reflexivity. }
    apply in_flat_map. exists k. split.
    2:{ unfold page_writes. rewrite Himg, E2.
        destruct (next_active_rdev (mddev b)) as [|rdev rest];
          [contradiction|]. left. reflexivity. }
    apply filter_In. split.
    + apply pages_from_In.
      unfold filemap_get_page in Hk.
      destruct (Z.leb_spec (file_pages (storage b))
                  (file_page_index (storage b)
                     (Z.shiftr o (chunkshift (counts b))))) as [|Hlt];
        [discriminate|]. injection Hk as Hk.
      assert (H0 : file_page_index (storage b) 0 = 0)
        by (unfold file_page_index; destruct (sb_page (storage b));
            reflexivity).
      assert (Hc : 0 <= Z.shiftr o (chunkshift (counts b)) < 2 ^ 64 - 2048).
      { rewrite Z.shiftr_div_pow2 by lia.
        assert (0 < 2 ^ chunkshift (counts b))
          by (apply Z.pow_pos_nonneg; lia).
        assert (Hp63 : 2 ^ 63 = 9223372036854775808) by reflexivity.
        assert (Hp64 : 2 ^ 64 = 18446744073709551616) by reflexivity.
        split; [apply Z.div_pos; lia|].
        apply Z.le_lt_trans with o; [apply Z.div_le_upper_bound; nia|lia]. }
      pose proof (file_page_index_nonneg (storage b) _ Hc).
      rewrite Kfp. lia.
    + unfold to_flush. rewrite Hdirty. reflexivity.
  - unfold file_test_bit in Hbit.
    rewrite (filemap_get_page_ext (storage b) (storage b')) in Hbit
      by assumption.
    rewrite Hk, Hpg' in Hbit.
    rewrite (file_page_offset_ext (storage b) (storage b')) in Hbit
      by assumption.
    unfold test_bit_le, test_bit, BITOP_LE_SWIZZLE in Hbit.
    rewrite Z.lxor_0_r in Hbit.
    destruct (test_flag BITMAP_HOSTENDIAN (flags b')); exact Hbit.
Qed.

Lemma write_intent_reaches_transport_witness :
  exists b' data super,
    bitmap_startwrite (ex_bitmap [] []) 4 20 false = Some (b', SwDone)
    /\ In (EvWritePage 0 data super) (log (bitmap_unplug b'))
    /\ Z.testbit data (file_page_offset ex_storage 2) = true.
Proof.
  destruct (write_intent_reaches_transport (ex_bitmap [] []) 4 20
              ltac:(reflexivity)
              ltac:(intros p; unfold slot; cbn;
                    destruct (Z.to_nat p) as [|[|n]]; cbn; lia)
              ltac:(vm_compute; intuition congruence)
              ltac:(lia) ltac:(lia) ltac:(vm_compute; discriminate))
    as (b' & Hrun & Hsent).
  { intros o Ho. change (counts (ex_bitmap [] [])) with ex_counts.
    rewrite (counter_at_absent (ex_counts) o); [discriminate| |].
    - unfold slot. cbn. destruct (Z.to_nat _) as [|[|n]]; reflexivity.
    - unfold slot. cbn. destruct (Z.to_nat _) as [|[|n]]; reflexivity. }
  { repeat split; try reflexivity; try (cbn; discriminate).
    intros k rdev Hk Hr.
    change (file_pages (storage (ex_bitmap [] []))) with 1 in Hk.
    assert (k = 0) as -> by lia.
    destruct Hr as [<-|[]]. vm_compute. reflexivity. }
  assert (Hb : Some (b', SwDone)
               = bitmap_startwrite (ex_bitmap [] []) 4 20 false)
    by (symmetry; exact Hrun).
  vm_compute in Hb. injection Hb as Hb.
  destruct (Hsent 23 ltac:(lia) ltac:(reflexivity)
              ltac:(rewrite Hb; reflexivity) 0 (mk_pg 0 0)
              ltac:(reflexivity) ltac:(reflexivity) ltac:(reflexivity))
    as (data & super & Hin & Hbit).
  exists b', data, super. split; [exact Hrun|]. split; [exact Hin|exact Hbit].
Defined.

(** *** The on-disk bits through [bitmap_resize] *)


























